(* ===== verification/_CoqProject ===== *)
-Q . S2P
Prelude.v
Prog.v
Linearize.v
Http.v
Models.v
Permissions.v
Lifecycle.v
Refinement.v
Concurrency.v
Dispatch.v
Schema.v
TaskList.v
Registration.v
Accounts.v
Roundtrip.v
Api.v
Liveness.v
Scenarios.v
Linearizability.v
Evolution.v
Typing.v
Bounds.v
Serializability.v
Machine.v
Reach.v
Isolation.v
