(* ===== verification/Prelude.v ===== *)
(** * Verification of the charity task-matching backend

    The program is a Django REST backend in which charities post tasks and
    benefactors ask for them.  Its sources are [src/charities/views.py],
    the seven handlers of the API, and [src/accounts/serializers.py], the
    creation of a user.  Everything else the handlers call (the model
    classes, the serializers of tasks and profiles, the permission classes,
    the framework) is outside the sources; it is modelled from the
    specification, as little of it as the handlers use, or left a
    parameter.

    ** The program and its model

    A handler is a sequence of ORM calls with Python in between.  It is
    modelled as a program of type [view A] (file Prog: a tree whose nodes
    are the calls, [Ret] a returned value, [Raise] an exception), written
    with a bind notation so that a definition reads line by line like its
    Python.  A program has two semantics.  [run] (and [serve], which adds
    the framework's exception handler) executes it alone against a
    database.  [pool_step] executes a pool of programs one ORM call at a
    time, any thread next: the server of section 5 of the specification,
    one thread per request with no lock and no transaction around a
    handler.  [run_schedule] is the executable form of [pool_step].

    - Prelude (this file): scopes, hint databases, lemmas on finite maps
      (among them [map_grow_ind], induction on a table that has grown)
      and sums.
    - Prog: programs, [run], [pool_step], [run_schedule] (sound and
      complete for [pool_step]), the monad laws up to [prog_equiv], the
      rely/guarantee predicate [safe] with its rules, the bound [within] on
      the operations of a program, progress (a pool that cannot move is
      [complete]), the confluence of pools whose threads commute, the
      and the weighted bound [spends] on what the operations of a program
      cost.
    - Linearize: the serial execution of a pool in a given order
      ([serve_in_order]); programs made of stable reads followed by one
      last operation ([linear]; [atomic] ones make one operation at most;
      [reads] and [linear_bind] build them from their parts) and the
      theorem [linearizable_by]: a pool is linearizable when each thread
      is linear for a rely of its own and every other thread respects it
      ([respects]).  [linearizable] is the case of one rely for all.
    - Http: requests, responses, status constants, exceptions, the
      exception handler, Python's [==], [in] and truth value on the values
      the handlers compare.
    - Models: the rows ([Task.t], [Benefactor.t], [Charity.t], [User.t]),
      the database [DB] (tables as finite maps, one sequence of ids per
      table), the ORM calls [Op] and their meaning [perform_orm],
      [get_object_or_404], [save]; the well-formedness [wf_db] of a
      database and the order [db_extends] in which databases evolve.
    - Permissions: [IsAuthenticated], [IsBenefactor], [IsCharityOwner],
      [check_permissions], [as_view]; a class as the framework sees it
      ([APIView]: its permission classes and its handlers by method) and
      [dispatch], which checks the permissions and calls the handler of
      the method of the request ([handler_for]: [HEAD] is served by [get],
      [OPTIONS] by the framework, any other method without handler is
      refused with 405).
    - Lifecycle: [TaskRequest.get], [TaskResponse.post], [DoneTask.post]
      (views.py, lines 75 to 160), one module per class, each with its
      [view_class].
    - Refinement: the transition table of section 4.1 of the
      specification as a function [transition] and a relation
      [lifecycle], and the proof that the three handlers implement it.
    - Concurrency: pools of lifecycle requests; what every interleaving
      keeps and the two races.
    - Dispatch: the lifecycle views behind their permission classes.
    - Schema: what the views assume of the [Task] model and of the
      serializers, as type classes ([TaskModel], [Serializer],
      [TaskSerializerLaws], [Hasher]); Django's [filter] and [exclude].
    - TaskList: [Tasks] (views.py, lines 36 to 72): [get_queryset],
      [filter_queryset] with its two loops ([Tasks.lookups]),
      [get_permissions], [post].
    - Registration: [BenefactorRegistration.post] and
      [CharityRegistration.post] (views.py, lines 14 to 33).
    - Accounts: [UserSerializer.create] (serializers.py).
    - Roundtrip: request then rejection, creation then listing,
      registration then [request.user.benefactor].
    - Api: the six URL patterns, [route_view], each dispatched to its
      class; the seven endpoints of the specification ([endpoint]) and the
      other methods.
    - Liveness: every request is answered; every task can be finished.
    - Scenarios: account, profile and request for a task, composed; the
      life of a task from the registration of its charity to DONE.
    - Linearizability: the requests to the collections are [linear];
      the requests of the lifecycle are not.
    - Evolution: what every interleaving of requests to the API keeps of
      a task ([on_lifecycle]).
    - Typing: the statuses and bodies of every route and method.
    - Bounds: the ids drawn and the rows stored by [n] requests.
    - Serializability: requests on different tasks commute.
    - Machine: the specification as a state machine over the abstraction
      of the database ([Abs], [abstract], [api_step]), the action a
      request asks for ([action]), and the refinement of the whole API.
    - Reach: the states the machine reaches ([grows], [reaches]) and
      that every interleaving of requests stays among them.
    - Isolation: the rely of a request ([rely]: the tables grow and the
      task it addresses is left alone), the pools in which no two
      requests address the same task ([conflict_free]), and their
      serializability.

    A Python object that a handler reads, changes and saves is a record
    value; [save] writes every column of the object over the row with its
    id, as Django does, which is what makes the lost updates of
    Concurrency possible.  A dictionary is a finite map with string keys.
    An exception is the [Raise] of a value of [Exn]; the exception handler
    turns [Http404], validation errors and refused permissions into 404,
    400 and 403, and everything else into 500.

    ** The theorems

    - Behaviour, branch by branch (Lifecycle, TaskList, Registration,
      Accounts): for every branch of every handler, errors included, the
      response and the database left behind.
    - Refinement (Refinement, Machine): [handler_refines], the handlers
      do what the transition table allows and nothing else;
      [serve_all_lifecycle], every sequence of requests moves every task
      along the table; [done_final], DONE is final when requests are
      served one after the other.  For the whole API: [api_refines], a
      request answered with a success has made the step of [api_step]
      that its route, method and data ask for, any other request has
      changed nothing; [api_moves_enabled], no move that the machine
      allows is refused; [serial_refines] and [collection_pool_refines],
      requests served in turn, and interleaved requests to the
      collections, are runs of the machine; [api_step_wf], the machine
      keeps the invariant [a_wf] of its tables.
    - Reachable states (Reach): [machine_reach_iff], the machine reaches
      from a state in order exactly the states in order into which it has
      grown (profiles kept, tasks kept and moved along the table);
      [api_interleaving_reachable], every database that any interleaving
      of any requests reaches is such a state: the races lose updates and
      give wrong answers, they make no state that requests served in turn
      could not have made.  [done_not_reopened]: the machine does not
      reach every state.
    - Invariants (Refinement, TaskList, Registration, Accounts, Api): every
      handler keeps [wf_db], operation by operation ([safe]), hence under
      every interleaving of every pool of requests
      ([api_interleaving_wf]).  The invariant of section 3 of the
      specification does not hold: [done_breaks_spec_invariant].
    - Concurrency (Concurrency, Serializability): the serial execution is
      one of the interleavings; two interleavings that no serial execution
      produces, the double assignment [request_race] and the lost
      completion [done_race], both between requests on one task; lifecycle
      requests on pairwise different tasks are serializable
      ([disjoint_requests_serializable]: the pool is confluent and
      terminates, file Prog).  The requests to the collections
      (registrations, lists, creations of tasks) are linearizable
      ([collection_requests_linearizable]: their reads of the caller's
      profile are stable because profiles never change); hence of two
      concurrent registrations of one user exactly one succeeds
      ([concurrent_registration_once]) and a task is never created
      without its charity ([post_during_registration]).  Two concurrent
      requests for one task are not ([request_race_not_serial]).
    - Isolation (Isolation): [conflict_free_serializable], the two
      results above in one: whatever the requests, to the collections and
      to the lifecycle, if no two of them address the same task then
      every interleaving that answers them all ends as serving them one
      after the other in some order does.  Every request is linear for
      its rely ([route_linear]) and touches the row of its task only
      ([route_footprint]); requests on the same task are the only
      conflicts of the API.
    - Lifecycle under races (Evolution): [api_interleaving_lifecycle], no
      interleaving of any requests takes a task off the transition table
      or changes its other columns; [done_before_final], a task that is
      DONE when the requests arrive stays as it is.  A task that becomes
      DONE while other requests are in flight can be written over
      ([racing_outcome]).
    - Permissions (Dispatch, TaskList, Registration): who is refused,
      that the lifecycle views never compare the charity of the task with
      the caller's, and that nothing limits the tasks of a benefactor
      ([benefactor_many_tasks]).
    - Methods (Api): [route_view_endpoint], the dispatch implements the
      interface of section 6; [method_not_allowed], every other method is
      answered 405 behind the permission checks; [options_answered];
      [head_requests_task], a [HEAD] request changes the state of a task.
    - Types (Typing): [api_typed], every response has a status the
      interface gives for its route and method and a body of the kind of
      its status; 500 is possible for the registration of a profile only.
    - Round trips (Roundtrip): [request_reject_roundtrip] restores the
      database; [post_get_roundtrip], what was created is listed;
      [register_profile_roundtrip].
    - Liveness (Liveness): [api_live], no interleaving is infinite and a
      pool that cannot move has answered every request;
      [lifecycle_live], at most three requests take a task to DONE from
      any state.
    - Composition (Scenarios): [onboarding], the user that
      [UserSerializer.create] saved registers a profile and is accepted by
      [TaskRequest]; [task_lives], registration of a charity, creation of
      a task, request, acceptance and completion, served in turn through
      the dispatcher, end with the task DONE.
    - Growth (Bounds): [api_growth_bounded] and [api_rows_bounded], [n]
      concurrent requests draw at most [n] ids and store at most [n]
      rows, under every interleaving.
    - Filtering (TaskList): the lookups collected from the query
      parameters and the rows [filter_queryset] keeps, for every model.
    - Termination (Concurrency, Api): a request makes at most five ORM
      calls; a pool of [n] requests makes at most [5 * n] transitions.

    Theorems with hypotheses are applied to concrete requests on the
    databases [sample_db] and [listing_db]; these witnesses compute.

    ** Bounds

    There is no fuel.  A program is a finite tree and [run] is structural
    in it; the loops of [filter_queryset] are folds over the lookup
    tables.  Ids and ages are unbounded ([nat], [Z]) as Python's integers
    are.  The bounds proved are [within 3] for a lifecycle handler,
    [max_calls = 5] for a view with its permission checks, and one row
    created per request ([spends creations 1]).

    ** What is not modelled

    - The model classes and the serializers of tasks and profiles are not
      in the sources.  Rows carry the columns the handlers name and a
      dictionary for the others; a serializer is any validation function
      with any representation; the meaning of a field lookup is a
      parameter of [TaskModel].  Profiles are taken to be one per user,
      and usernames to be unique, as the data model of the specification
      has them.
    - The permission classes [IsBenefactor] and [IsCharityOwner] are not in
      the sources; they are modelled as "the user has a profile of that
      kind", from section 6 of the specification.
    - Authentication, URL parsing, rendering, throttling, content
      negotiation and password hashing (the parameter [Hasher]) are the
      framework's.  Of [APIView.dispatch] the permission checks and the
      choice of the handler by method are modelled (from the framework's
      documented behaviour, the routes from section 6 of the
      specification: urls.py is not in the sources); the body of the
      response to [OPTIONS] is left abstract ([Metadata]).
    - The views of accounts (registration of a user, login) are not in
      the sources; only [UserSerializer.create], which they call, is.
    - Time: a pool holds the requests in flight from the start; requests
      that arrive later are pools served one after the other.
    - The order of the rows of a list, pagination and the rows that a
      lookup across a relation repeats: [Tasks.get] is specified up to the
      meaning of the lookups, and nothing is claimed of the order or the
      number of occurrences of a row in its answer.
    - Django caches [request.user.benefactor] on the user object once the
      permission class has read it; the model reads the profile again in
      the handler.  The two reads give the same row under every
      interleaving, because no request changes or deletes a profile
      ([stable_user_benefactor]). *)

From stdpp Require Export base tactics option list gmap strings relations.

(** ** Scopes *)

Declare Scope prog_scope.
Delimit Scope prog_scope with prog.

(** ** Hint databases *)

(** [charity] collects the resolution hints of the development; [exec] its
    rewrite rules for executing programs. *)
Create HintDb charity.
Create Rewrite HintDb exec.

(** ** Finite maps: updating one row leaves the others alone *)

Section frame.
Context `{Countable K} {V : Type}.
Implicit Types (m : gmap K V) (i j : K) (v : V).

(** [agree_except i m1 m2]: the two tables hold the same rows, row [i]
    possibly apart. *)
Definition agree_except (i : K) (m1 m2 : gmap K V) : Prop :=
  ∀ j, j ≠ i → m1 !! j = m2 !! j.

#[export] Instance agree_except_equiv i : Equivalence (agree_except i).
Proof.
  split.
  - by intros m j _.
  - intros m1 m2 H12 j Hj. symmetry. by apply H12.
  - intros m1 m2 m3 H12 H23 j Hj. rewrite H12 by done. by apply H23.
Qed.

Lemma agree_except_insert i v m : agree_except i (<[i:=v]> m) m.
Proof. intros j Hj. by rewrite lookup_insert_ne. Qed.

Lemma agree_except_lookup i j m1 m2 :
  agree_except i m1 m2 → j ≠ i → m1 !! j = m2 !! j.
Proof. intros Hag Hj. by apply Hag. Qed.

(** Overwriting a present row does not change the set of keys. *)
Lemma dom_insert_present i v m :
  is_Some (m !! i) → dom (<[i:=v]> m) = dom m.
Proof.
  intros Hi%elem_of_dom. rewrite dom_insert_L.
  apply (anti_symm (⊆)); [|apply union_subseteq_r].
  apply union_least; [by apply singleton_subseteq_l|done].
Qed.

(** Induction on a table that has grown: what holds of [m0] and is kept
    by every insertion of a row of [m] that is not there yet holds of
    [m]. *)
Lemma map_grow_ind (P : gmap K V → Prop) (m0 m : gmap K V) :
  m0 ⊆ m → P m0 →
  (∀ m' i v, m0 ⊆ m' → m' !! i = None → <[i:=v]> m' ⊆ m → P m' → P (<[i:=v]> m')) →
  P m.
Proof.
  intros Hsub H0 Hstep. rewrite <-(map_difference_union m0 m Hsub).
  assert (m0 ##ₘ m ∖ m0) as Hdisj by (by apply map_disjoint_difference_r1).
  assert (m0 ∪ m ∖ m0 ⊆ m) as Hle by (by rewrite map_difference_union).
  revert Hdisj Hle. generalize (m ∖ m0). intros d.
  induction d as [|i v d Hi IH] using map_ind; intros Hdisj Hle.
  - by rewrite (right_id_L ∅ (∪)).
  - apply map_disjoint_insert_r in Hdisj as [H0i Hdisj].
    rewrite <-insert_union_r in * by done.
    assert ((m0 ∪ d) !! i = None) by (by apply lookup_union_None).
    apply Hstep; [apply map_union_subseteq_l|done|done|].
    apply IH; [done|]. etrans; [|done]. by apply insert_subseteq.
Qed.

(** A row of the larger table that a smaller one is about to receive. *)
Lemma insert_subseteq_lookup i v m' m : <[i:=v]> m' ⊆ m → m !! i = Some v.
Proof. intros Hle. eapply lookup_weaken; [apply lookup_insert_eq|done]. Qed.

End frame.

#[export] Hint Resolve agree_except_insert : charity.

(** ** Sums of lists of numbers *)

(** Lowering one entry lowers the sum by as much. *)
Lemma sum_list_insert_sub (l : list nat) (i d n : nat) :
  l !! i = Some (d + n) → sum_list l = d + sum_list (<[i:=n]> l).
Proof.
  revert i. induction l as [|x l IH]; intros [|i] Hi; simplify_eq/=; [lia|].
  rewrite (IH i Hi). lia.
Qed.

Lemma sum_list_insert_pred (l : list nat) (i n : nat) :
  l !! i = Some (S n) → sum_list l = S (sum_list (<[i:=n]> l)).
Proof. apply (sum_list_insert_sub l i 1 n). Qed.
