(* ===== verification/Prog.v ===== *)
(** * Prog: programs over an effect signature, run alone or interleaved

    A request handler is a piece of thread-local code that talks to shared
    state only through a few operations (for the views: the ORM calls, each
    one database round trip).  [prog Op E A] is such a program: it returns
    ([Ret]), raises an exception ([Raise]) or performs an operation and
    continues with its answer ([Vis]).  The tree is inductive: a program
    performs finitely many operations on every path.

    Two semantics are given over the same programs.  [run] executes one
    program from start to end on the shared state: a request served alone.
    [pool_step] lets one of several in-flight programs perform its next
    operation: requests served by concurrent threads, with no lock and no
    transaction around a handler.  [run_schedule] is the executable form of
    the second, driven by the list of thread indices to step. *)

From S2P Require Import Prelude.

(** What a component that owns shared state of type [S] promises to the
    programs that use it: a meaning for each operation. *)
Class Effects (Op : Type → Type) (S : Type) :=
  perform : ∀ X, Op X → S → X * S.
Arguments perform {Op S _ X} _ _.
#[export] Hint Mode Effects ! - : typeclass_instances.

Inductive prog (Op : Type → Type) (E A : Type) : Type :=
| Ret (a : A)
| Raise (e : E)
| Vis {X : Type} (op : Op X) (k : X → prog Op E A).
Arguments Ret {Op E A} a.
Arguments Raise {Op E A} e.
Arguments Vis {Op E A X} op k.

Section prog.
Context {Op : Type → Type} {E : Type}.

Fixpoint bind {A B} (m : prog Op E A) (f : A → prog Op E B) : prog Op E B :=
  match m with
  | Ret a => f a
  | Raise e => Raise e
  | Vis op k => Vis op (λ x, bind (k x) f)
  end.

(** One operation, its answer returned. *)
Definition call {X} (op : Op X) : prog Op E X := Vis op Ret.

(** A program that has nothing left to perform. *)
Definition finished {A} (m : prog Op E A) : bool :=
  match m with Vis _ _ => false | _ => true end.

(** The result of a finished program: a value or the exception raised. *)
Definition outcome {A} (m : prog Op E A) : option (E + A) :=
  match m with
  | Ret a => Some (inr a)
  | Raise e => Some (inl e)
  | Vis _ _ => None
  end.

Context {S : Type} `{!Effects Op S}.

(** A request served alone: every operation performed in turn. *)
Fixpoint run {A} (m : prog Op E A) (s : S) : (E + A) * S :=
  match m with
  | Ret a => (inr a, s)
  | Raise e => (inl e, s)
  | Vis op k => let '(x, s') := perform op s in run (k x) s'
  end.

(** The next operation of a program, performed on the shared state. *)
Definition step1 {A} (m : prog Op E A) (s : S) : prog Op E A * S :=
  match m with
  | Vis op k => let '(x, s') := perform op s in (k x, s')
  | _ => (m, s)
  end.

(** Thread [i] of the pool performs its next operation. *)
Definition pool_step1 {A} (i : nat) (ts : list (prog Op E A)) (s : S)
  : list (prog Op E A) * S :=
  match ts !! i with
  | Some m => let '(m', s') := step1 m s in (<[i:=m']> ts, s')
  | None => (ts, s)
  end.

(** The pool stepped by a schedule: the thread indices in the order in
    which the threads perform their operations. *)
Fixpoint run_schedule {A} (sched : list nat) (ts : list (prog Op E A)) (s : S)
  : list (prog Op E A) * S :=
  match sched with
  | [] => (ts, s)
  | i :: sched' => let '(ts', s') := pool_step1 i ts s in run_schedule sched' ts' s'
  end.

(** Every index of the schedule names a thread that has an operation left
    to perform when its turn comes. *)
Fixpoint proper {A} (sched : list nat) (ts : list (prog Op E A)) (s : S) : bool :=
  match sched with
  | [] => true
  | i :: sched' =>
      match ts !! i with
      | Some m =>
          negb (finished m) &&
          proper sched' (pool_step1 i ts s).1 (pool_step1 i ts s).2
      | None => false
      end
  end.

(** The number of operations a program performs when served alone. *)
Fixpoint ops_count {A} (m : prog Op E A) (s : S) : nat :=
  match m with
  | Vis op k => let '(x, s') := perform op s in Datatypes.S (ops_count (k x) s')
  | _ => 0
  end.

(** The serial schedule: the threads served one after the other, each to
    its end, in the order of the pool (from index [i] on). *)
Fixpoint serial_schedule {A} (i : nat) (ts : list (prog Op E A)) (s : S) : list nat :=
  match ts with
  | [] => []
  | m :: ts' => replicate (ops_count m s) i ++ serial_schedule (Datatypes.S i) ts' (run m s).2
  end.

(** One transition of a thread. *)
Inductive thread_step {A} : relation (prog Op E A * S) :=
| ThreadStep m s :
    finished m = false → thread_step (m, s) (step1 m s).

(** One transition of the pool: some unfinished thread performs its next
    operation; which one is not determined. *)
Inductive pool_step {A} : relation (list (prog Op E A) * S) :=
| PoolStep i m ts s :
    ts !! i = Some m → finished m = false →
    pool_step (ts, s) (<[i:=(step1 m s).1]> ts, (step1 m s).2).

(** [safe I R Q m s0]: the program [m], whose last operation left the shared
    state [s0], keeps the invariant [I] whatever the other threads do in
    between, as long as they move the state along [R]: at each operation,
    from any state [s] that [R] relates to the last one seen and that
    satisfies [I], the operation leaves a state that satisfies [I] and is
    again related by [R]; and a value [m] returns satisfies [Q] with the
    state of its last operation. *)
Fixpoint safe {A} (I : S → Prop) (R : relation S) (Q : A → S → Prop)
    (m : prog Op E A) (s0 : S) : Prop :=
  match m with
  | Ret a => Q a s0
  | Raise _ => True
  | Vis op k =>
      ∀ s, R s0 s → I s →
        I (perform op s).2 ∧ R s (perform op s).2 ∧
        safe I R Q (k (perform op s).1) (perform op s).2
  end.

(** Two programs are equivalent when no state tells them apart as long as
    they are served alone. *)
Definition prog_equiv {A} (m1 m2 : prog Op E A) : Prop :=
  ∀ s, run m1 s = run m2 s.

End prog.

Notation "x <- c ;; k" := (bind c (λ x, k))
  (at level 20, c at level 99, k at level 200,
   format "'[v' x  <-  c  ;;  '/' k ']'") : prog_scope.
Notation "c ;; k" := (bind c (λ _, k))
  (at level 100, k at level 200, right associativity) : prog_scope.
Infix "≈ₚ" := prog_equiv (at level 70) : prog_scope.

(** ** Programs served alone *)

Section run_facts.
Context {Op : Type → Type} {E S : Type} `{!Effects Op S}.
Implicit Types (s : S).

Lemma run_bind {A B} (m : prog Op E A) (f : A → prog Op E B) s :
  run (bind m f) s =
  match run m s with
  | (inr a, s') => run (f a) s'
  | (inl e, s') => (inl e, s')
  end.
Proof.
  revert s. induction m as [a|e|X op k IH]; intros s; simpl; [done..|].
  destruct (perform op s) as [x s']. apply IH.
Qed.

Lemma run_call {X} (op : Op X) s :
  run (E:=E) (call op) s = (inr (perform op s).1, (perform op s).2).
Proof. unfold call. simpl. by destruct (perform op s). Qed.

#[export] Instance prog_equiv_equivalence {A} :
  Equivalence (prog_equiv (Op:=Op) (E:=E) (S:=S) (A:=A)).
Proof.
  split.
  - by intros m s.
  - intros m1 m2 H12 s. by rewrite H12.
  - intros m1 m2 m3 H12 H23 s. by rewrite H12.
Qed.

#[export] Instance bind_proper {A B} :
  Proper (prog_equiv ==> pointwise_relation A prog_equiv ==> prog_equiv)
         (bind (Op:=Op) (E:=E) (A:=A) (B:=B)).
Proof.
  intros m1 m2 Hm f1 f2 Hf s. rewrite !run_bind, Hm.
  destruct (run m2 s) as [[e|a] s']; [done|apply Hf].
Qed.

Lemma bind_ret_l {A B} (a : A) (f : A → prog Op E B) : bind (Ret a) f = f a.
Proof. done. Qed.

Lemma bind_ret_r {A} (m : prog Op E A) : prog_equiv (bind m Ret) m.
Proof. intros s. rewrite run_bind. by destruct (run m s) as [[e|a] s']. Qed.

Lemma bind_assoc {A B C} (m : prog Op E A) (f : A → prog Op E B)
    (g : B → prog Op E C) :
  prog_equiv (bind (bind m f) g) (bind m (λ a, bind (f a) g)).
Proof.
  intros s. rewrite !run_bind.
  destruct (run m s) as [[e|a] s']; [done|]. by rewrite run_bind.
Qed.

Lemma step1_finished {A} (m : prog Op E A) s :
  finished m = true → step1 m s = (m, s).
Proof. by destruct m. Qed.

Lemma step1_vis {A X} (op : Op X) (k : X → prog Op E A) s :
  step1 (Vis op k) s = (k (perform op s).1, (perform op s).2).
Proof. simpl. by destruct (perform op s). Qed.

Lemma run_step1 {A} (m : prog Op E A) s :
  run (step1 m s).1 (step1 m s).2 = run m s.
Proof. destruct m as [a|e|X op k]; simpl; [done..|]. by destruct (perform op s). Qed.

Lemma ops_count_step1 {A} (m : prog Op E A) s :
  finished m = false →
  ops_count m s = Datatypes.S (ops_count (step1 m s).1 (step1 m s).2).
Proof. destruct m as [a|e|X op k]; simpl; [done..|]. by destruct (perform op s). Qed.

Lemma ops_count_finished {A} (m : prog Op E A) s :
  finished m = true → ops_count m s = 0.
Proof. by destruct m. Qed.

Lemma run_finished {A} (m : prog Op E A) s :
  finished m = true → outcome m = Some (run m s).1 ∧ (run m s).2 = s.
Proof. by destruct m. Qed.

Lemma thread_step_run {A} (c c' : prog Op E A * S) :
  thread_step c c' → run c'.1 c'.2 = run c.1 c.2.
Proof. destruct 1. apply run_step1. Qed.

Lemma thread_steps_run {A} (c c' : prog Op E A * S) :
  rtc thread_step c c' → run c'.1 c'.2 = run c.1 c.2.
Proof.
  induction 1 as [|c1 c2 c3 H12 _ IH]; [done|].
  rewrite IH. by apply thread_step_run.
Qed.

End run_facts.

#[export] Hint Rewrite @run_bind @run_call : exec.

(** ** Programs served concurrently *)

Section pool_facts.
Context {Op : Type → Type} {E S A : Type} `{!Effects Op S}.
Implicit Types (s : S) (m : prog Op E A) (ts : list (prog Op E A)).

(** The finished program standing for a result. *)
Definition done (r : E + A) : prog Op E A :=
  match r with inl e => Raise e | inr a => Ret a end.

(** Every thread has come to its end. *)
Definition complete (c : list (prog Op E A) * S) : Prop :=
  Forall (λ m, finished m = true) c.1.

(** The pool served serially: each request alone, in the pool's order. *)
Fixpoint run_serial ts s : list (E + A) * S :=
  match ts with
  | [] => ([], s)
  | m :: ts' =>
      let '(r, s') := run m s in
      let '(rs, s'') := run_serial ts' s' in (r :: rs, s'')
  end.

Lemma pool_step1_unfinished i m ts s :
  ts !! i = Some m →
  pool_step1 i ts s = (<[i:=(step1 m s).1]> ts, (step1 m s).2).
Proof. intros Hi. unfold pool_step1. rewrite Hi. by destruct (step1 m s). Qed.

Lemma pool_step1_stutter i ts s :
  (∀ m, ts !! i = Some m → finished m = true) → pool_step1 i ts s = (ts, s).
Proof.
  intros Hfin. unfold pool_step1. destruct (ts !! i) as [m|] eqn:Hi; [|done].
  rewrite step1_finished by auto. by rewrite list_insert_id.
Qed.

(** A step of the scheduler is a transition of the pool or leaves it as it
    is (the index names no thread, or a finished one). *)
Lemma pool_step1_sound i ts s : rtc pool_step (ts, s) (pool_step1 i ts s).
Proof.
  destruct (ts !! i) as [m|] eqn:Hi.
  - destruct (finished m) eqn:Hfin.
    + rewrite pool_step1_stutter; [done|]. intros m' ?. by simplify_eq.
    + rewrite (pool_step1_unfinished i m) by done.
      apply rtc_once. by constructor.
  - rewrite pool_step1_stutter; [done|]. intros m' ?. by simplify_eq.
Qed.

Lemma run_schedule_app sched1 sched2 ts s :
  run_schedule (sched1 ++ sched2) ts s =
  run_schedule sched2 (run_schedule sched1 ts s).1 (run_schedule sched1 ts s).2.
Proof.
  revert ts s. induction sched1 as [|i sched1 IH]; intros ts s; simpl; [done|].
  destruct (pool_step1 i ts s) as [ts' s']. apply IH.
Qed.

Lemma run_schedule_sound sched ts s :
  rtc pool_step (ts, s) (run_schedule sched ts s).
Proof.
  revert ts s. induction sched as [|i sched IH]; intros ts s; simpl; [done|].
  pose proof (pool_step1_sound i ts s) as Hstep.
  destruct (pool_step1 i ts s) as [ts' s']. by etrans.
Qed.

(** A proper schedule makes one transition per index. *)
Lemma run_schedule_nsteps sched ts s :
  proper sched ts s = true →
  nsteps pool_step (length sched) (ts, s) (run_schedule sched ts s).
Proof.
  revert ts s. induction sched as [|i sched IH]; intros ts s; simpl.
  { intros _. constructor. }
  destruct (ts !! i) as [m|] eqn:Hi; [|done].
  intros [Hfin Hrest]%andb_prop. apply negb_true_iff in Hfin.
  rewrite (pool_step1_unfinished i m) in * by done. simpl in Hrest.
  eapply nsteps_l; [by apply (PoolStep i m)|]. by apply IH.
Qed.

Lemma pool_step_schedule (c c' : list (prog Op E A) * S) :
  pool_step c c' → ∃ i, pool_step1 i c.1 c.2 = c'.
Proof. destruct 1 as [i m ts s Hi _]. exists i. by apply pool_step1_unfinished. Qed.

Lemma run_schedule_complete (c c' : list (prog Op E A) * S) :
  rtc pool_step c c' → ∃ sched, run_schedule sched c.1 c.2 = c'.
Proof.
  induction 1 as [[ts s]|c1 c2 c3 H12 _ [sched IH]]; [by exists []|].
  destruct (pool_step_schedule _ _ H12) as [i Hi]. exists (i :: sched).
  simpl. rewrite Hi. by destruct c2.
Qed.

(** Thread [i] stepped until it has finished: what [run] computes. *)
Lemma run_schedule_thread i m ts s :
  ts !! i = Some m →
  run_schedule (replicate (ops_count m s) i) ts s =
  (<[i:=done (run m s).1]> ts, (run m s).2).
Proof.
  revert ts s. induction m as [a|e|X op k IH]; intros ts s Hi; simpl.
  - by rewrite list_insert_id.
  - by rewrite list_insert_id.
  - destruct (perform op s) as [x s'] eqn:Hop. simpl.
    rewrite (pool_step1_unfinished i (Vis op k)) by done. simpl. rewrite Hop.
    rewrite IH by (apply list_lookup_insert_eq; by eapply lookup_lt_Some).
    by rewrite list_insert_insert_eq.
Qed.

Lemma run_schedule_serial pre ts s :
  run_schedule (serial_schedule (length pre) ts s) (pre ++ ts) s =
  (pre ++ (done <$> (run_serial ts s).1), (run_serial ts s).2).
Proof.
  revert pre s. induction ts as [|m ts IH]; intros pre s; simpl; [done|].
  rewrite run_schedule_app, (run_schedule_thread _ m)
    by (by rewrite lookup_app_r, Nat.sub_diag).
  simpl. destruct (run m s) as [r s'] eqn:Hrun. simpl.
  rewrite insert_app_r_alt, Nat.sub_diag by done. simpl.
  specialize (IH (pre ++ [done r]) s').
  rewrite length_app, <-(assoc_L (++)) in IH. simpl in IH.
  rewrite Nat.add_1_r in IH. rewrite IH.
  destruct (run_serial ts s') as [rs s'']. simpl. by rewrite <-(assoc_L (++)).
Qed.

Lemma complete_done (rs : list (E + A)) s : complete (done <$> rs, s).
Proof. apply Forall_fmap, Forall_forall. by intros [e|a] _. Qed.

(** ** Progress: no thread ever waits for another *)

Lemma finished_done m : finished m = true → ∃ r, m = done r.
Proof. destruct m as [a|e|X op k]; [by exists (inr a)|by exists (inl e)|done]. Qed.

Lemma complete_results (c : list (prog Op E A) * S) :
  complete c → ∃ rs, c.1 = done <$> rs ∧ length rs = length c.1.
Proof.
  destruct c as [ts s]. unfold complete. simpl.
  induction 1 as [|m ts Hm _ (rs&->&Hlen)]; [by exists []|].
  destruct (finished_done m Hm) as [r ->]. exists (r :: rs).
  split; [done|]. simpl. by rewrite Hlen.
Qed.

(** A pool that cannot move has answered every request: an unfinished
    thread can always perform its next operation. *)
Lemma nf_complete (c : list (prog Op E A) * S) : nf pool_step c ↔ complete c.
Proof.
  destruct c as [ts s]. split.
  - intros Hnf. apply Forall_lookup. intros i m Hi.
    destruct (finished m) eqn:Hfin; [done|]. destruct Hnf. eexists.
    by apply (PoolStep i m).
  - intros Hc (c'&Hstep). inversion Hstep as [i m ? ? Hi Hfin]; subst.
    pose proof (Forall_lookup_1 _ _ _ _ Hc Hi) as Hm. simpl in Hm. congruence.
Qed.

Lemma pool_step_length (c c' : list (prog Op E A) * S) :
  pool_step c c' → length c'.1 = length c.1.
Proof. destruct 1. simpl. apply length_insert. Qed.

Lemma pool_steps_length (c c' : list (prog Op E A) * S) :
  rtc pool_step c c' → length c'.1 = length c.1.
Proof.
  induction 1 as [|c1 c2 c3 H12 _ IH]; [done|].
  by rewrite IH, (pool_step_length _ _ H12).
Qed.

(** Every pool can be run to its end: by the serial schedule, for one. *)
Lemma pool_can_finish (c : list (prog Op E A) * S) :
  ∃ c', rtc pool_step c c' ∧ complete c'.
Proof.
  destruct c as [ts s]. eexists. split.
  - apply (run_schedule_sound (serial_schedule 0 ts s)).
  - rewrite (run_schedule_serial []). apply complete_done.
Qed.

End pool_facts.

(** ** Invariants of the shared state *)

Section safety.
Context {Op : Type → Type} {E S : Type} `{!Effects Op S}.
Context (I : S → Prop) (R : relation S) `{!PreOrder R}.
Implicit Types (s : S).

(** A fact about the state that the moves of other threads keep true. *)
Definition stable (P : S → Prop) : Prop := ∀ s s', R s s' → P s → P s'.

Lemma safe_weaken {A} (Q Q' : A → S → Prop) (m : prog Op E A) s0 :
  (∀ a s, Q a s → Q' a s) → safe I R Q m s0 → safe I R Q' m s0.
Proof.
  intros HQ. revert s0. induction m as [a|e|X op k IH]; simpl; [auto..|].
  intros s0 Hk s H0s Hs. destruct (Hk s H0s Hs) as (?&?&?). auto.
Qed.

(** What a thread knows of the state stays true when others move it. *)
Lemma safe_mono {A} (Q : A → S → Prop) (m : prog Op E A) s0 s1 :
  (∀ a, stable (Q a)) → R s0 s1 → safe I R Q m s0 → safe I R Q m s1.
Proof.
  intros HQ H01. destruct m as [a|e|X op k]; simpl; [by apply HQ|done|].
  intros Hm s H1s. apply Hm. by etrans.
Qed.

Lemma safe_bind {A B} (Q : A → S → Prop) (Q' : B → S → Prop)
    (m : prog Op E A) (f : A → prog Op E B) s0 :
  safe I R Q m s0 → (∀ a s, Q a s → safe I R Q' (f a) s) →
  safe I R Q' (bind m f) s0.
Proof.
  intros Hm Hf. revert s0 Hm.
  induction m as [a|e|X op k IH]; simpl; [auto..|].
  intros s0 Hk s H0s Hs. destruct (Hk s H0s Hs) as (?&?&?). auto.
Qed.

(** A stable fact known before a program is known after it. *)
Lemma safe_frame {A} (P : S → Prop) (Q : A → S → Prop) (m : prog Op E A) s0 :
  stable P → P s0 → safe I R Q m s0 → safe I R (λ a s, Q a s ∧ P s) m s0.
Proof.
  intros HP. revert s0. induction m as [a|e|X op k IH]; simpl; [auto..|].
  intros s0 H0 Hk s H0s Hs. destruct (Hk s H0s Hs) as (?&?&?).
  split_and!; [done..|]. apply IH; [|done]. eauto.
Qed.

Lemma safe_call {X} (Q : X → S → Prop) (op : Op X) s0 :
  (∀ s, R s0 s → I s →
     I (perform op s).2 ∧ R s (perform op s).2 ∧
     Q (perform op s).1 (perform op s).2) →
  safe I R Q (call (E:=E) op) s0.
Proof. done. Qed.

Lemma safe_step1 {A} (Q : A → S → Prop) (m : prog Op E A) s :
  safe I R Q m s → I s →
  safe I R Q (step1 m s).1 (step1 m s).2 ∧ I (step1 m s).2 ∧ R s (step1 m s).2.
Proof.
  destruct m as [a|e|X op k]; simpl; [done..|].
  intros Hm Hs. destruct (Hm s) as (?&?&?); [done..|].
  by destruct (perform op s).
Qed.

(** Served alone, a safe program leaves the invariant in place. *)
Lemma safe_run {A} (Q : A → S → Prop) (m : prog Op E A) s :
  safe I R Q m s → I s →
  I (run m s).2 ∧ R s (run m s).2 ∧
  ∀ a, (run m s).1 = inr a → Q a (run m s).2.
Proof.
  revert s. induction m as [a|e|X op k IH]; intros s Hm Hs; simpl in *.
  - split_and!; [done..|]. by intros ? [= <-].
  - done.
  - destruct (Hm s) as (Hs'&HR&Hk); [done..|].
    destruct (perform op s) as [x s']. simpl in *.
    destruct (IH x s' Hk Hs') as (?&?&?). split_and!; [done| |done]. by etrans.
Qed.

(** The state of a pool: the invariant holds, and every thread is safe from
    the current state on. *)
Definition pool_safe {A} (c : list (prog Op E A) * S) : Prop :=
  I c.2 ∧ Forall (λ m, safe I R (λ _ _, True) m c.2) c.1.

Lemma pool_step_safe {A} (c c' : list (prog Op E A) * S) :
  pool_step c c' → pool_safe c → pool_safe c' ∧ R c.2 c'.2.
Proof.
  destruct 1 as [i m ts s Hi _]. intros [Hs Hts]. simpl in *.
  destruct (safe_step1 (λ _ _, True) m s) as (Hm'&Hs'&HR); [|done|].
  { by apply (Forall_lookup_1 _ _ _ _ Hts Hi). }
  split; [split|]; [done| |done]. simpl. apply Forall_insert; [|done].
  eapply Forall_impl; [done|]. intros m'. by apply safe_mono.
Qed.

(** However the requests of a pool interleave, an invariant that every
    request keeps operation by operation holds of every state reached. *)
Lemma pool_steps_safe {A} (c c' : list (prog Op E A) * S) :
  rtc pool_step c c' → pool_safe c → pool_safe c' ∧ R c.2 c'.2.
Proof.
  induction 1 as [|c1 c2 c3 H12 _ IH]; [done|]. intros Hc.
  destruct (pool_step_safe _ _ H12 Hc) as [Hc2 ?].
  destruct (IH Hc2). split; [done|]. by etrans.
Qed.

End safety.

(** ** Termination *)

Section termination.
Context {Op : Type → Type} {E S A : Type} `{!Effects Op S}.
Implicit Types (s : S) (m : prog Op E A) (ts : list (prog Op E A)).

(** [within n m]: the program performs at most [n] operations, whatever
    the operations answer. *)
Fixpoint within (n : nat) (m : prog Op E A) {struct m} : Prop :=
  match m with
  | Vis op k =>
      match n with
      | 0 => False
      | Datatypes.S n' => ∀ x, within n' (k x)
      end
  | _ => True
  end.

(** The operations the threads of a pool may still perform, given a bound
    for each. *)
Definition budget (bounds : list nat) ts : Prop := Forall2 within bounds ts.

Lemma within_le n n' m : n ≤ n' → within n m → within n' m.
Proof.
  revert n n'. induction m as [a|e|X op k IH]; intros n n' Hle; simpl; [done..|].
  destruct n as [|n0]; [done|]. destruct n' as [|n0']; [lia|].
  intros Hk x. apply (IH x n0); [lia|done].
Qed.

Lemma within_step1 n m s :
  finished m = false → within n m → ∃ n', n = Datatypes.S n' ∧ within n' (step1 m s).1.
Proof.
  destruct m as [a|e|X op k]; [done..|]. intros _. destruct n as [|n']; [done|].
  simpl. intros Hk. exists n'. split; [done|]. destruct (perform op s). apply Hk.
Qed.

Lemma within_ops_count n m s : within n m → ops_count m s ≤ n.
Proof.
  revert n s. induction m as [a|e|X op k IH]; intros n s; simpl; [lia..|].
  destruct n as [|n']; [done|]. intros Hk. destruct (perform op s) as [x s'].
  specialize (IH x n' s' (Hk x)). lia.
Qed.

(** A transition of the pool uses up one operation of some thread. *)
Lemma pool_step_budget bounds (c c' : list (prog Op E A) * S) :
  pool_step c c' → budget bounds c.1 →
  ∃ bounds', budget bounds' c'.1 ∧ sum_list bounds = Datatypes.S (sum_list bounds').
Proof.
  destruct 1 as [i m ts s Hi Hfin]. simpl. intros Hb.
  destruct (Forall2_lookup_r _ _ _ _ _ Hb Hi) as (n&Hn&Hw).
  destruct (within_step1 n m s Hfin Hw) as (n'&->&Hw').
  exists (<[i:=n']> bounds). split; [by apply Forall2_insert|].
  by apply sum_list_insert_pred.
Qed.

(** No interleaving is longer than the operations the threads have. *)
Lemma pool_steps_budget bounds n (c c' : list (prog Op E A) * S) :
  nsteps pool_step n c c' → budget bounds c.1 → n ≤ sum_list bounds.
Proof.
  intros Hsteps. revert bounds.
  induction Hsteps as [|n c1 c2 c3 H12 _ IH]; intros bounds Hb; [lia|].
  destruct (pool_step_budget bounds _ _ H12 Hb) as (bounds'&Hb'&->).
  specialize (IH bounds' Hb'). lia.
Qed.

(** A pool with a budget has no infinite interleaving. *)
Lemma budget_sn bounds (c : list (prog Op E A) * S) :
  budget bounds c.1 → sn pool_step c.
Proof.
  remember (sum_list bounds) as n eqn:Hn. revert c bounds Hn.
  induction n as [|n IH]; intros c bounds Hn Hb; constructor; intros c' Hstep;
    destruct (pool_step_budget bounds _ _ Hstep Hb) as (bounds'&Hb'&Hsum);
    [lia|]. apply (IH c' bounds'); [lia|done].
Qed.

End termination.

Section termination_bind.
Context {Op : Type → Type} {E : Type}.

Lemma within_bind {A B} n n' (m : prog Op E A) (f : A → prog Op E B) :
  within n m → (∀ a, within n' (f a)) → within (n + n') (bind m f).
Proof.
  intros Hm Hf. revert n Hm. induction m as [a|e|X op k IH]; intros n Hm; simpl.
  - apply (within_le n'); [lia|done].
  - done.
  - destruct n as [|n0]; [done|]. simpl. intros x. by apply IH.
Qed.

Lemma within_call {X} (op : Op X) : within 1 (call (E:=E) op).
Proof. done. Qed.

End termination_bind.

(** ** Threads that commute *)

(** When the next operations of any two threads commute, as long as an
    invariant [J] of the pool holds, it does not matter in which order the
    threads are stepped: every interleaving that runs the threads to their
    end leaves the results and the state of the serial execution. *)
Section confluence.
Context {Op : Type → Type} {E S A : Type} `{!Effects Op S}.
Implicit Types (s : S) (m : prog Op E A) (ts : list (prog Op E A)).
Implicit Types (c : list (prog Op E A) * S).

Variable J : list (prog Op E A) * S → Prop.

(** The steps of two threads commute: either order gives the same
    continuations and the same state. *)
Definition commute m1 m2 s : Prop :=
  (step1 m2 (step1 m1 s).2).1 = (step1 m2 s).1 ∧
  (step1 m1 (step1 m2 s).2).1 = (step1 m1 s).1 ∧
  (step1 m2 (step1 m1 s).2).2 = (step1 m1 (step1 m2 s).2).2.

Hypothesis J_step : ∀ c c', J c → pool_step c c' → J c'.
Hypothesis J_bounded : ∀ c, J c → ∃ bounds, budget bounds c.1.
Hypothesis J_commute : ∀ ts s i j mi mj,
  J (ts, s) → i ≠ j → ts !! i = Some mi → ts !! j = Some mj →
  finished mi = false → finished mj = false → commute mi mj s.

(** The transitions of the pool from configurations that satisfy [J]. *)
Definition guarded_step : relation (list (prog Op E A) * S) :=
  λ c c', J c ∧ pool_step c c'.

Lemma guarded_steps c c' : J c → rtc pool_step c c' → rtc guarded_step c c'.
Proof.
  intros HJ Hsteps. induction Hsteps as [|c1 c2 c3 H12 _ IH]; [done|].
  eapply rtc_l; [by split|]. eauto.
Qed.

Lemma guarded_sn c : sn guarded_step c.
Proof.
  constructor. intros c' [HJ Hstep].
  destruct (J_bounded _ (J_step _ _ HJ Hstep)) as [bounds Hb].
  eapply Acc_impl; [by apply (budget_sn bounds)|]. by intros ?? [_ ?].
Qed.

Lemma pool_step_other i j mi mj ts s :
  i ≠ j → ts !! i = Some mi → ts !! j = Some mj → finished mj = false →
  commute mi mj s →
  pool_step (<[i:=(step1 mi s).1]> ts, (step1 mi s).2)
            (<[j:=(step1 mj s).1]> (<[i:=(step1 mi s).1]> ts),
             (step1 mj (step1 mi s).2).2).
Proof.
  intros Hij Hi Hj Hfin (Hk&_&_). rewrite <-Hk.
  apply PoolStep; [|done]. by rewrite list_lookup_insert_ne.
Qed.

Lemma guarded_locally_confluent : locally_confluent guarded_step.
Proof.
  intros c c1 c2 [HJ H1] [_ H2].
  pose proof (J_step _ _ HJ H1) as HJ1. pose proof (J_step _ _ HJ H2) as HJ2.
  destruct H1 as [i mi ts s Hi Hfi]. inv H2.
  match goal with Hj : ts !! ?j = Some ?mj, Hfj : finished ?mj = false |- _ =>
    rename j into j0; rename mj into mj0; rename Hj into Hj0; rename Hfj into Hfj0 end.
  destruct (decide (i = j0)) as [<-|Hij].
  { simplify_eq. by eexists. }
  pose proof (J_commute _ _ _ _ _ _ HJ Hij Hi Hj0 Hfi Hfj0) as Hc.
  assert (commute mj0 mi s) as Hc'.
  { destruct Hc as (?&?&?). by split_and!. }
  eexists. split.
  - apply rtc_once. split; [done|]. by apply pool_step_other.
  - apply rtc_once. split; [done|]. rewrite list_insert_insert_ne by done.
    destruct Hc as (_&_&->). by apply pool_step_other.
Qed.

Lemma complete_nf c : complete c → nf guarded_step c.
Proof.
  intros Hc [c' [_ Hstep]]. destruct Hstep as [i m ts s Hi Hfin].
  pose proof (Forall_lookup_1 _ _ _ _ Hc Hi) as Hdone. simpl in Hdone. congruence.
Qed.

(** Two interleavings that run the threads to their end agree. *)
Lemma interleavings_agree c c1 c2 :
  J c → rtc pool_step c c1 → complete c1 → rtc pool_step c c2 → complete c2 →
  c1 = c2.
Proof.
  intros HJ H1 Hc1 H2 Hc2.
  eapply (confluent_rtc_nf (R:=guarded_step) c);
    eauto using guarded_steps, complete_nf, locally_confluent_confluent,
      guarded_sn, guarded_locally_confluent.
Qed.

(** Every complete interleaving is the serial execution. *)
Lemma interleaving_serial ts s c' :
  J (ts, s) → rtc pool_step (ts, s) c' → complete c' →
  c' = (done <$> (run_serial ts s).1, (run_serial ts s).2).
Proof.
  intros HJ Hsteps Hc. eapply interleavings_agree; eauto using complete_done.
  pose proof (run_schedule_sound (serial_schedule 0 ts s) ts s) as Hserial.
  by rewrite (run_schedule_serial []) in Hserial.
Qed.

End confluence.

(** ** What a program spends *)

(** Operations have a cost, and the state a size that an operation raises
    by its cost at most (the rows an insertion adds, the ids it draws).
    [spends n m]: the operations of [m] cost [n] at most in total,
    whatever they answer.  A pool then raises the size of the state by what
    its threads may spend, under every interleaving. *)
Section spending.
Context {Op : Type → Type} {E S : Type} `{!Effects Op S}.

Variable cost : ∀ X, Op X → nat.

Fixpoint spends {A} (n : nat) (m : prog Op E A) : Prop :=
  match m with
  | Vis op k => cost _ op ≤ n ∧ ∀ x, spends (n - cost _ op) (k x)
  | _ => True
  end.

Lemma spends_le {A} n n' (m : prog Op E A) : n ≤ n' → spends n m → spends n' m.
Proof.
  revert n n'. induction m as [a|e|X op k IH]; intros n n' Hle; simpl; [done..|].
  intros [Hop Hk]. split; [lia|]. intros x. apply (IH x (n - cost X op)); [lia|done].
Qed.

Lemma spends_bind {A B} n n' (m : prog Op E A) (f : A → prog Op E B) :
  spends n m → (∀ a, spends n' (f a)) → spends (n + n') (bind m f).
Proof.
  intros Hm Hf. revert n Hm. induction m as [a|e|X op k IH]; intros n Hm; simpl.
  - apply (spends_le n'); [lia|done].
  - done.
  - destruct Hm as [Hop Hk]. split; [lia|]. intros x.
    replace (n + n' - cost X op) with (n - cost X op + n') by lia. by apply IH.
Qed.

Variable size : S → nat.
Hypothesis size_perform : ∀ X (op : Op X) s, size (perform op s).2 ≤ size s + cost X op.

Lemma pool_step_spends {A} bounds (c c' : list (prog Op E A) * S) :
  pool_step c c' → Forall2 spends bounds c.1 →
  ∃ bounds', Forall2 spends bounds' c'.1 ∧
             size c'.2 + sum_list bounds' ≤ size c.2 + sum_list bounds.
Proof.
  destruct 1 as [i m ts s Hi Hfin]. simpl. intros Hb.
  destruct (Forall2_lookup_r _ _ _ _ _ Hb Hi) as (n&Hn&Hm).
  destruct m as [a|e|X op k]; [done..|]. rewrite step1_vis. simpl.
  destruct Hm as [Hop Hk]. exists (<[i:=n - cost X op]> bounds). split.
  - by apply Forall2_insert.
  - rewrite (sum_list_insert_sub bounds i (cost X op) (n - cost X op))
      by (rewrite Hn; f_equal; lia).
    pose proof (size_perform X op s). lia.
Qed.

(** However the threads interleave, the state grows by no more than they
    may spend. *)
Lemma pool_steps_spends {A} bounds (c c' : list (prog Op E A) * S) :
  rtc pool_step c c' → Forall2 spends bounds c.1 →
  size c'.2 ≤ size c.2 + sum_list bounds.
Proof.
  intros Hsteps. revert bounds.
  induction Hsteps as [|c1 c2 c3 H12 _ IH]; intros bounds Hb; [lia|].
  destruct (pool_step_spends bounds _ _ H12 Hb) as (bounds'&Hb'&Hle).
  specialize (IH bounds' Hb'). lia.
Qed.

End spending.
