(* ===== verification/Linearize.v ===== *)
(** * Linearize: interleavings that are serial executions in some order

    A pool is linearizable when every interleaving that answers every
    request ends as the serial execution of the requests in some order
    does: each request takes effect at one moment.  This holds of a pool
    of [linear] programs.  A program is linear when each of its operations
    either ends it or is a stable read: a read whose answer the other
    threads can no longer change, because they move the state along an
    order [R] only and later states give the same answer.  The moment at
    which a linear program takes effect is its last operation; the reads
    before can be replayed there.  A program of at most one operation
    ([atomic]) is linear for every [R].

    Each thread may have an order of its own, its rely: what it needs the
    other threads to keep.  A pool [respects] the relies of its threads
    for an invariant of the pool when every thread is linear for its rely
    and every step of a thread is within the rely of every other; such a
    pool is linearizable ([linearizable_by]).  [linearizable] is the case
    in which all the threads have the same rely. *)

From S2P Require Import Prelude Prog.

Section serial_orders.
Context {Op : Type → Type} {E S A : Type} `{!Effects Op S}.
Implicit Types (s : S) (m : prog Op E A) (ts : list (prog Op E A)).
Implicit Types (c : list (prog Op E A) * S) (order : list nat).

Definition atomic m : Prop := within 1 m.

(** The pool served serially in a given order: each thread named by
    [order], in turn, alone and to its end. *)
Fixpoint serve_in_order order ts s : list (prog Op E A) * S :=
  match order with
  | [] => (ts, s)
  | i :: order' =>
      match ts !! i with
      | Some m => serve_in_order order' (<[i:=done (run m s).1]> ts) (run m s).2
      | None => serve_in_order order' ts s
      end
  end.

Lemma done_run_finished m s : finished m = true → done (run m s).1 = m ∧ (run m s).2 = s.
Proof. by destruct m. Qed.

Lemma within_0_finished m : within 0 m → finished m = true.
Proof. by destruct m. Qed.

Lemma atomic_step1 m s : atomic m → step1 m s = (done (run m s).1, (run m s).2).
Proof.
  destruct m as [a|e|X op k]; [done..|]. intros Hk. simpl.
  destruct (perform op s) as [x s'].
  by destruct (done_run_finished (k x) s' (within_0_finished _ (Hk x))) as [-> ->].
Qed.

Lemma serve_in_order_app order1 order2 ts s :
  serve_in_order (order1 ++ order2) ts s =
  serve_in_order order2 (serve_in_order order1 ts s).1 (serve_in_order order1 ts s).2.
Proof.
  revert ts s. induction order1 as [|i order1 IH]; intros ts s; simpl; [done|].
  destruct (ts !! i); apply IH.
Qed.

(** Serving a pool that has answered every request changes nothing. *)
Lemma serve_in_order_complete order ts s :
  complete (ts, s) → serve_in_order order ts s = (ts, s).
Proof.
  intros Hc. induction order as [|i order IH]; simpl; [done|].
  destruct (ts !! i) as [m|] eqn:Hi; [|done].
  destruct (done_run_finished m s (Forall_lookup_1 _ _ _ _ Hc Hi)) as [-> ->].
  by rewrite list_insert_id.
Qed.

(** In the order of the pool this is [run_serial]. *)
Lemma serve_in_order_seq pre ts s :
  serve_in_order (seq (length pre) (length ts)) (pre ++ ts) s =
  (pre ++ (done <$> (run_serial ts s).1), (run_serial ts s).2).
Proof.
  revert pre s. induction ts as [|m ts IH]; intros pre s; simpl; [done|].
  rewrite lookup_app_r, Nat.sub_diag by done. simpl.
  rewrite insert_app_r_alt, Nat.sub_diag by done. simpl.
  destruct (run m s) as [r s'] eqn:Hrun. simpl.
  specialize (IH (pre ++ [done r]) s').
  rewrite length_app, <-(assoc_L (++)) in IH. simpl in IH.
  rewrite Nat.add_1_r in IH. rewrite IH.
  destruct (run_serial ts s') as [rs s'']. simpl. by rewrite <-(assoc_L (++)).
Qed.

(** The two orders of two threads. *)
Lemma serve_in_order_two order m1 m2 s :
  order ≡ₚ seq 0 2 →
  serve_in_order order [m1; m2] s =
    ([done (run m1 s).1; done (run m2 (run m1 s).2).1], (run m2 (run m1 s).2).2) ∨
  serve_in_order order [m1; m2] s =
    ([done (run m1 (run m2 s).2).1; done (run m2 s).1], (run m1 (run m2 s).2).2).
Proof.
  intros Hperm. symmetry in Hperm.
  apply Permutation_length_2_inv in Hperm as [->| ->]; [by left|by right].
Qed.

End serial_orders.

(** ** Linear programs *)

Section linear.
Context {Op : Type → Type} {E S A : Type} `{!Effects Op S}.
Context (I : S → Prop) (R : relation S) `{!PreOrder R}.
Implicit Types (s : S) (m v : prog Op E A).

(** A read of [s] that every later state answers alike. *)
Definition stable_read {X} (op : Op X) s : Prop :=
  ∀ s', R s s' → I s' → perform op s' = ((perform op s).1, s').

(** Each operation ends the program or is a stable read. *)
Fixpoint linear m : Prop :=
  match m with
  | Vis op k =>
      ∀ s, I s →
        finished (k (perform op s).1) = true ∨
        (stable_read op s ∧ linear (k (perform op s).1))
  | _ => True
  end.

(** [behind s v m]: the thread [m] has only made stable reads since it
    was [v]; served alone from any later state, [v] does what [m] does. *)
Definition behind s v m : Prop := ∀ s', R s s' → I s' → run v s' = run m s'.

Lemma behind_refl s m : behind s m m.
Proof. done. Qed.

Lemma behind_mono s s' v m : R s s' → behind s v m → behind s' v m.
Proof. intros Hss' Hb s'' ??. apply Hb; [by etrans|done]. Qed.

Lemma stable_read_state {X} (op : Op X) s :
  I s → stable_read op s → (perform op s).2 = s.
Proof. intros Hs Hst. by rewrite (Hst s). Qed.

Lemma behind_stable_read {X} (op : Op X) (k : X → prog Op E A) v s :
  stable_read op s → behind s v (Vis op k) → behind s v (k (perform op s).1).
Proof.
  intros Hst Hb s' Hss' Hs'. rewrite Hb by done. simpl. by rewrite (Hst s').
Qed.

Lemma finished_linear m : finished m = true → linear m.
Proof. by destruct m. Qed.

(** An operation that ends the program, whatever it does to the state. *)
Lemma linear_last {X} (op : Op X) (k : X → prog Op E A) :
  (∀ x, finished (k x) = true) → linear (Vis op k).
Proof. intros Hk s _. by left. Qed.

(** A linear program that has made an operation is linear. *)
Lemma linear_step1 m s : I s → linear m → linear (step1 m s).1.
Proof.
  intros Hs Hm. destruct m as [a|e|X op k]; [done..|]. rewrite step1_vis. simpl.
  destruct (Hm s Hs) as [Hfin|[_ Hk]]; [by apply finished_linear|done].
Qed.

End linear.

(** ** Programs that only read *)

Section reads.
Context {Op : Type → Type} {E S : Type} `{!Effects Op S}.
Context (I : S → Prop) (R : relation S).
Implicit Types (s : S).

(** A program that has failed. *)
Definition failed {A} (m : prog Op E A) : bool :=
  match m with
  | Raise _ => true
  | _ => false
  end.

(** Each operation is a stable read, or its answer makes the program
    fail. *)
Fixpoint reads {A} (m : prog Op E A) : Prop :=
  match m with
  | Vis op k =>
      ∀ s, I s →
        failed (k (perform op s).1) = true ∨
        (stable_read I R op s ∧ reads (k (perform op s).1))
  | _ => True
  end.

Lemma failed_bind {A B} (m : prog Op E A) (f : A → prog Op E B) :
  failed m = true → finished (bind m f) = true.
Proof. by destruct m. Qed.

(** Reads, then a linear program: a linear program. *)
Lemma linear_bind {A B} (m : prog Op E A) (f : A → prog Op E B) :
  reads m → (∀ a, linear I R (f a)) → linear I R (bind m f).
Proof.
  intros Hm Hf. induction m as [a|e|X op k IH]; simpl; [auto..|].
  intros s Hs. destruct (Hm s Hs) as [Hfail|[Hread Hk]].
  - left. by apply failed_bind.
  - right. split; [done|]. by apply IH.
Qed.

Lemma reads_bind {A B} (m : prog Op E A) (f : A → prog Op E B) :
  reads m → (∀ a, reads (f a)) → reads (bind m f).
Proof.
  intros Hm Hf. induction m as [a|e|X op k IH]; simpl; [auto..|].
  intros s Hs. destruct (Hm s Hs) as [Hfail|[Hread Hk]].
  - left. by destruct (k _).
  - right. split; [done|]. by apply IH.
Qed.

End reads.

(** A read that is stable while the others move the state less is stable,
    and so for linear programs. *)
Lemma linear_mono {Op : Type → Type} {E S A : Type} `{!Effects Op S}
    (I : S → Prop) (R R' : relation S) (m : prog Op E A) :
  (∀ s s', R' s s' → R s s') → linear I R m → linear I R' m.
Proof.
  intros HR. induction m as [a|e|X op k IH]; simpl; [done..|].
  intros Hm s Hs. destruct (Hm s Hs) as [Hfin|[Hread Hk]]; [by left|right].
  split; [|by apply IH]. intros s' Hss' Hs'. apply Hread; auto.
Qed.

(** ** Pools of linear programs *)

(** Each thread has its own rely: what it needs the other threads to
    keep of the state for its reads to be stable.  A pool [respects] the
    relies when every thread is linear for its rely and every operation
    of a thread is within the relies of the others. *)

Section linear_pools.
Context {Op : Type → Type} {E S A : Type} `{!Effects Op S}.
Context (I : S → Prop) (Rs : nat → relation S) `{!∀ i, PreOrder (Rs i)}.
Implicit Types (s : S) (m v : prog Op E A) (ts vts : list (prog Op E A)).
Implicit Types (c : list (prog Op E A) * S) (order : list nat).

(** What a property [Inv] of the pools must be for the pools that have
    it to be linearizable. *)
Record respects (Inv : list (prog Op E A) * S → Prop) : Prop := {
  respects_step c c' : Inv c → pool_step c c' → Inv c';
  respects_inv c : Inv c → I c.2;
  respects_linear c i m : Inv c → c.1 !! i = Some m → linear I (Rs i) m;
  respects_rely ts s i j m :
    Inv (ts, s) → ts !! j = Some m → finished m = false → i ≠ j →
    Rs i s (step1 m s).2;
}.

(** Every thread of [ts] is behind the thread of [vts] in its place. *)
Definition behind_all s vts ts : Prop :=
  length vts = length ts ∧
  ∀ i v m, vts !! i = Some v → ts !! i = Some m → behind I (Rs i) s v m.

(** The serial execution in [order] of the pool [ts0] keeps up with the
    interleaving that has reached [c]: it has served the threads that
    have made their last operation, in the order in which they made it,
    and the other threads are behind their originals. *)
Definition replays ts0 s0 order c : Prop :=
  NoDup order ∧
  behind_all c.2 (serve_in_order order ts0 s0).1 c.1 ∧
  (serve_in_order order ts0 s0).2 = c.2 ∧
  ∀ i, i ∈ order →
    ∃ r, (serve_in_order order ts0 s0).1 !! i = Some (done r) ∧
         c.1 !! i = Some (done r).

Lemma behind_all_refl s ts : behind_all s ts ts.
Proof. split; [done|]. intros i v m Hv Hm. simplify_eq. apply behind_refl. Qed.

Lemma behind_all_lookup_r s vts ts i m :
  behind_all s vts ts → ts !! i = Some m →
  ∃ v, vts !! i = Some v ∧ behind I (Rs i) s v m.
Proof.
  intros [Hlen Hb] Hi. destruct (lookup_lt_is_Some_2 vts i) as [v Hv]; [|by eauto].
  rewrite Hlen. by eapply lookup_lt_Some.
Qed.

Lemma behind_all_lookup_l s vts ts i v :
  behind_all s vts ts → vts !! i = Some v →
  ∃ m, ts !! i = Some m ∧ behind I (Rs i) s v m.
Proof.
  intros [Hlen Hb] Hi. destruct (lookup_lt_is_Some_2 ts i) as [m Hm]; [|by eauto].
  rewrite <-Hlen. by eapply lookup_lt_Some.
Qed.

(** The thread [j] has moved the state within the relies of the others
    and is behind [v]. *)
Lemma behind_all_step s s' j vts ts v m :
  (∀ i, i ≠ j → Rs i s s') → behind_all s vts ts → behind I (Rs j) s' v m →
  behind_all s' (<[j:=v]> vts) (<[j:=m]> ts).
Proof.
  intros Hrely [Hlen Hb] Hvm. split; [by rewrite !length_insert|].
  intros i v' m'. destruct (decide (i = j)) as [->|Hne].
  - by intros [(_&<-&_)|(?&_)]%list_lookup_insert_Some
             [(_&<-&_)|(?&_)]%list_lookup_insert_Some.
  - rewrite !list_lookup_insert_ne by done. intros Hv Hm.
    eapply behind_mono; [done|by apply Hrely|by apply Hb].
Qed.

Lemma behind_all_insert s j vts ts v m :
  behind_all s vts ts → behind I (Rs j) s v m →
  behind_all s (<[j:=v]> vts) (<[j:=m]> ts).
Proof. by apply behind_all_step. Qed.

Lemma serve_in_order_length order ts s :
  length (serve_in_order order ts s).1 = length ts.
Proof.
  revert ts s. induction order as [|i order IH]; intros ts s; simpl; [done|].
  destruct (ts !! i); [|done]. by rewrite IH, length_insert.
Qed.

Lemma replays_init ts s : replays ts s [] (ts, s).
Proof. split_and!; [constructor|apply behind_all_refl|done|set_solver]. Qed.

(** A thread that makes its last operation is served at that moment. *)
Lemma replays_last ts0 s0 order ts s i m :
  I s → replays ts0 s0 order (ts, s) →
  ts !! i = Some m → finished m = false → finished (step1 m s).1 = true →
  (∀ j, j ≠ i → Rs j s (step1 m s).2) →
  replays ts0 s0 (order ++ [i]) (<[i:=(step1 m s).1]> ts, (step1 m s).2).
Proof.
  intros Hs (Hnd&Hb&Hst&Hin) Hi Hfin Hfin' Hstep. simpl in *.
  destruct (behind_all_lookup_r _ _ _ _ _ Hb Hi) as (v&Hv&Hvm).
  assert (i ∉ order) as Hni.
  { intros (r&_&Hr)%Hin. simplify_eq. by destruct r. }
  assert (serve_in_order (order ++ [i]) ts0 s0 =
          (<[i:=(step1 m s).1]> (serve_in_order order ts0 s0).1, (step1 m s).2))
    as Hserve.
  { rewrite serve_in_order_app, Hst. simpl. rewrite Hv, (Hvm s), <-run_step1 by done.
    by destruct (done_run_finished _ (step1 m s).2 Hfin') as [-> ->]. }
  unfold replays. rewrite Hserve. split_and!; simpl.
  - apply NoDup_app. split_and!; [done|set_solver|apply NoDup_singleton].
  - apply (behind_all_step s); [done..|apply behind_refl].
  - done.
  - destruct (finished_done _ Hfin') as [r Hr].
    intros j [Hj| ->%list_elem_of_singleton]%elem_of_app.
    + rewrite !list_lookup_insert_ne by (by intros ->). by apply Hin.
    + exists r. rewrite Hr, !list_lookup_insert_eq; [done|..];
        by eapply lookup_lt_Some.
Qed.

(** A thread that makes a stable read stays behind its original. *)
Lemma replays_read {X} ts0 s0 order ts s i (op : Op X) k :
  I s → replays ts0 s0 order (ts, s) →
  ts !! i = Some (Vis op k) → stable_read I (Rs i) op s →
  replays ts0 s0 order (<[i:=k (perform op s).1]> ts, s).
Proof.
  intros Hs (Hnd&Hb&Hst&Hin) Hi Hread. simpl in *.
  destruct (behind_all_lookup_r _ _ _ _ _ Hb Hi) as (v&Hv&Hvm).
  split_and!; simpl; [done| |done|].
  - rewrite <-(list_insert_id _ i v) by done.
    apply behind_all_insert; [done|]. by apply behind_stable_read.
  - intros j Hj. destruct (Hin j Hj) as (r&Hvr&Hr). exists r. split; [done|].
    rewrite list_lookup_insert_ne; [done|]. intros ->. rewrite Hi in Hr. by destruct r.
Qed.

Section respectful.
Context (Inv : list (prog Op E A) * S → Prop) (Hrespects : respects Inv).

Lemma replays_step ts0 s0 order c c' :
  Inv c → replays ts0 s0 order c → pool_step c c' →
  ∃ order', replays ts0 s0 order' c'.
Proof.
  intros Hc Hrep Hstep. pose proof (respects_inv _ Hrespects c Hc) as Hs.
  destruct Hstep as [i m ts s Hi Hfin]. simpl in *.
  pose proof (respects_linear _ Hrespects _ _ _ Hc Hi) as Hm.
  pose proof (λ j, respects_rely _ Hrespects ts s j i m Hc Hi Hfin) as Hrely.
  destruct m as [a|e|X op k]; [done..|]. rewrite step1_vis in *. simpl in *.
  destruct (Hm s Hs) as [Hlast|[Hread Hk]].
  - exists (order ++ [i]).
    pose proof (replays_last ts0 s0 order ts s i (Vis op k)) as Hrep'.
    rewrite step1_vis in Hrep'. by apply Hrep'.
  - exists order. rewrite (stable_read_state I (Rs i) op s) by done.
    by apply replays_read.
Qed.

Lemma replays_steps ts0 s0 order c c' :
  Inv c → replays ts0 s0 order c → rtc pool_step c c' →
  ∃ order', replays ts0 s0 order' c' ∧ I c'.2.
Proof.
  intros Hc Hrep Hsteps. revert order Hc Hrep.
  induction Hsteps as [c|c1 c2 c3 H12 _ IH]; intros order Hc Hrep.
  { exists order. split; [done|by apply (respects_inv _ Hrespects)]. }
  destruct (replays_step _ _ _ _ _ Hc Hrep H12) as (order'&Hrep').
  eapply IH; [by eapply (respects_step _ Hrespects)|done].
Qed.

End respectful.

(** Threads that are behind finished ones have nothing left to do but to
    end as they did. *)
Lemma catch_up order vts ts s :
  I s → complete (ts, s) → behind_all s vts ts →
  (∀ i, i ∉ order → vts !! i = ts !! i) →
  serve_in_order order vts s = (ts, s).
Proof.
  intros Hs Hc. revert vts. induction order as [|i order IH]; intros vts Hb Hout.
  { simpl. f_equal. apply list_eq. intros i. apply Hout. set_solver. }
  simpl. destruct (vts !! i) as [v|] eqn:Hv.
  - destruct (behind_all_lookup_l _ _ _ _ _ Hb Hv) as (m&Hm&Hvm).
    rewrite (Hvm s) by done.
    destruct (done_run_finished m s (Forall_lookup_1 _ _ _ _ Hc Hm)) as [-> ->].
    apply IH.
    + rewrite <-(list_insert_id ts i m) by done.
      apply behind_all_insert; [done|apply behind_refl].
    + intros j Hj. destruct (decide (j = i)) as [->|Hne].
      * rewrite list_lookup_insert_eq by (by eapply lookup_lt_Some). done.
      * rewrite list_lookup_insert_ne by done. apply Hout. set_solver.
  - apply IH; [done|]. intros j Hj. destruct (decide (j = i)) as [->|Hne].
    + rewrite Hv. symmetry. apply lookup_ge_None.
      rewrite <-(proj1 Hb). by apply lookup_ge_None.
    + apply Hout. set_solver.
Qed.

Lemma replays_complete ts0 s0 order c :
  I c.2 → complete c → replays ts0 s0 order c →
  ∃ order', order' ≡ₚ seq 0 (length ts0) ∧ c = serve_in_order order' ts0 s0.
Proof.
  destruct c as [ts s]. intros Hs Hc (Hnd&Hb&Hst&Hin). simpl in *.
  exists (order ++ filter (λ i, i ∉ order) (seq 0 (length ts0))). split.
  - apply NoDup_Permutation.
    + apply NoDup_app. split_and!; [done| |apply NoDup_filter, NoDup_seq].
      by intros i Hi [Hni _]%list_elem_of_filter.
    + apply NoDup_seq.
    + intros i. rewrite elem_of_app, list_elem_of_filter, elem_of_seq. split.
      * intros [(r&Hr&_)%Hin|[_ ?]]; [|done]. apply lookup_lt_Some in Hr.
        rewrite serve_in_order_length in Hr. lia.
      * intros Hi. destruct (decide (i ∈ order)); auto.
  - rewrite serve_in_order_app, Hst. symmetry. apply catch_up; [done..|].
    intros i. rewrite list_elem_of_filter, elem_of_seq. intros Hi.
    destruct (decide (i ∈ order)) as [(r&->&->)%Hin|Hni]; [done|].
    assert (length ts0 ≤ i) as Hge by (destruct (decide (i < length ts0)); [|lia];
      destruct Hi; split; [done|lia]).
    rewrite (proj2 (lookup_ge_None _ i)) by (by rewrite serve_in_order_length).
    symmetry. apply lookup_ge_None.
    by rewrite <-(proj1 Hb), serve_in_order_length.
Qed.

(** A pool that respects the relies of its threads is linearizable. *)
Theorem linearizable_by Inv ts s c' :
  respects Inv → Inv (ts, s) →
  rtc pool_step (ts, s) c' → complete c' →
  ∃ order, order ≡ₚ seq 0 (length ts) ∧ c' = serve_in_order order ts s.
Proof.
  intros Hrespects Hinv Hsteps Hc.
  destruct (replays_steps Inv Hrespects ts s [] _ _ Hinv (replays_init ts s) Hsteps)
    as (order&Hrep&Hs).
  by eapply replays_complete.
Qed.

End linear_pools.

(** ** One rely for all threads *)

Section one_rely.
Context {Op : Type → Type} {E S A : Type} `{!Effects Op S}.
Context (I : S → Prop) (R : relation S) `{!PreOrder R}.
Implicit Types (s : S) (ts : list (prog Op E A)).

Lemma safe_pools_respect :
  respects I (λ _, R)
    (λ c : list (prog Op E A) * S, pool_safe I R c ∧ Forall (linear I R) c.1).
Proof.
  split.
  - intros c c' [Hsafe Hlin] Hstep.
    split; [by destruct (pool_step_safe I R _ _ Hstep Hsafe)|].
    destruct Hstep as [i m ts s Hi Hfin]. simpl in *.
    apply Forall_insert; [done|].
    apply linear_step1; [apply Hsafe|by eapply Forall_lookup_1].
  - by intros c [[? _] _].
  - intros c i m [_ Hlin] Hi. by eapply Forall_lookup_1.
  - intros ts s i j m [Hsafe _] Hj Hfin _.
    by destruct (pool_step_safe I R _ _ (PoolStep j m ts s Hj Hfin) Hsafe).
Qed.

(** A pool of programs that are linear for the relation in which every
    thread moves the state is linearizable. *)
Theorem linearizable ts s c' :
  pool_safe I R (ts, s) → Forall (linear I R) ts →
  rtc pool_step (ts, s) c' → complete c' →
  ∃ order, order ≡ₚ seq 0 (length ts) ∧ c' = serve_in_order order ts s.
Proof.
  intros Hsafe Hlin.
  by apply (linearizable_by I (λ _, R) _ ts s c' safe_pools_respect).
Qed.

End one_rely.

(** ** Atomic programs *)

Section atomic_pools.
Context {Op : Type → Type} {E S A : Type} `{!Effects Op S}.
Implicit Types (s : S) (m : prog Op E A) (ts : list (prog Op E A)).

Lemma atomic_linear (I : S → Prop) (R : relation S) m : atomic m → linear I R m.
Proof.
  destruct m as [a|e|X op k]; [done..|]. intros Hk s _. left.
  apply within_0_finished, Hk.
Qed.

#[local] Instance always_preorder : PreOrder (λ _ _ : S, True).
Proof. by split. Qed.

Lemma safe_always m s : safe (λ _, True) (λ _ _, True) (λ _ _, True) m s.
Proof. revert s. induction m as [a|e|X op k IH]; simpl; auto. Qed.

(** Every interleaving of atomic threads that answers every request is
    the serial execution of the threads in some order. *)
Lemma atomic_linearizable ts s c' :
  Forall atomic ts → rtc pool_step (ts, s) c' → complete c' →
  ∃ order, order ≡ₚ seq 0 (length ts) ∧ c' = serve_in_order order ts s.
Proof.
  intros Hat. apply (linearizable (λ _, True) (λ _ _, True)).
  - split; [done|]. apply Forall_forall. intros m _. apply safe_always.
  - eapply Forall_impl; [done|]. intros m. apply atomic_linear.
Qed.

End atomic_pools.
