(* ===== verification/Http.v ===== *)
(** * Http: requests, responses and exceptions of the web framework

    The views of [src/charities/views.py] receive a request object and
    return a [Response] built from a body and a status constant of
    [rest_framework.status], or raise an exception that the framework turns
    into a response.  This file holds those types.  They belong to the
    framework and are modelled from its documented behaviour: only what the
    views read or build is kept. *)

From S2P Require Import Prelude.

(** A scalar of a request body or of a row: [None], a boolean, an integer or
    a string. *)
Inductive Value :=
| VNone
| VBool (b : bool)
| VInt (n : Z)
| VStr (s : string).

#[export] Instance Value_eq_dec : EqDecision Value.
Proof. solve_decision. Defined.

(** A dictionary with string keys: [request.data], [validated_data], the
    columns of a row the views never name. *)
Abbreviation Data := (gmap string Value).

(** The status constants the views and the framework's exception handler
    use. *)
Inductive Status :=
| HTTP_200_OK
| HTTP_201_CREATED
| HTTP_400_BAD_REQUEST
| HTTP_403_FORBIDDEN
| HTTP_404_NOT_FOUND
| HTTP_405_METHOD_NOT_ALLOWED
| HTTP_500_INTERNAL_SERVER_ERROR.

#[export] Instance Status_eq_dec : EqDecision Status.
Proof. solve_decision. Defined.

Definition code (s : Status) : nat :=
  match s with
  | HTTP_200_OK => 200
  | HTTP_201_CREATED => 201
  | HTTP_400_BAD_REQUEST => 400
  | HTTP_403_FORBIDDEN => 403
  | HTTP_404_NOT_FOUND => 404
  | HTTP_405_METHOD_NOT_ALLOWED => 405
  | HTTP_500_INTERNAL_SERVER_ERROR => 500
  end.

(** [status.is_success]: the 2xx codes. *)
Definition is_success (s : Status) : bool :=
  bool_decide (200 ≤ code s < 300).

Inductive Method := GET | HEAD | OPTIONS | POST | PUT | PATCH | DELETE.

#[export] Instance Method_eq_dec : EqDecision Method.
Proof. solve_decision. Defined.

(** [rest_framework.permissions.SAFE_METHODS] *)
Definition SAFE_METHODS : list Method := [GET; HEAD; OPTIONS].

(** The name of a method, as the framework prints it. *)
Definition method_name (m : Method) : string :=
  match m with
  | GET => "GET" | HEAD => "HEAD" | OPTIONS => "OPTIONS" | POST => "POST"
  | PUT => "PUT" | PATCH => "PATCH" | DELETE => "DELETE"
  end.

(** What a response carries: a [{'detail': msg}] dictionary, the data of a
    serializer (for one object or for many), its errors, or the description
    of the view that answers [OPTIONS]. *)
Inductive Body :=
| Detail (msg : string)
| Serialized (d : Data)
| SerializedList (l : list Data)
| Errors (e : Data)
| Metadata.

#[export] Instance Body_eq_dec : EqDecision Body.
Proof. solve_decision. Defined.

Record Response := mkResponse {
  body : Body;
  status_code : Status;
}.

#[export] Instance Response_eq_dec : EqDecision Response.
Proof. solve_decision. Defined.

(** The request as the views read it: [request.user] (the id of the
    authenticated user, [None] for the anonymous user), [request.method],
    [request.data] and the query parameters [request.GET]. *)
Record Request := mkRequest {
  user : option nat;
  method : Method;
  data : Data;
  query : gmap string string;
}.

(** The exceptions a view of this repository can end with. *)
Inductive Exn :=
| Http404
| ValidationError (errors : Data)
| NotAuthenticated
| PermissionDenied
| AttributeError
| RelatedObjectDoesNotExist
| KeyError (key : string)
| MethodNotAllowed (m : Method)
| TypeError
| ValueError
| IntegrityError
| AssertionError.

#[export] Instance Exn_eq_dec : EqDecision Exn.
Proof. solve_decision. Defined.

Definition msg_not_found : string := "Not found.".
Definition msg_denied : string :=
  "You do not have permission to perform this action.".
Definition msg_server_error : string := "Server Error (500)".

(** The double quote of the messages that quote a word. *)
Definition dq : string := String (Ascii.ascii_of_nat 34) "".

Definition msg_method_not_allowed (m : Method) : string :=
  "Method " +:+ dq +:+ method_name m +:+ dq +:+ " not allowed.".

(** The framework's exception handler: [Http404] becomes a 404, a
    validation error a 400 with the field errors, a refused permission a
    403, a method the view does not define a 405; any other exception is
    not handled and ends as a 500. *)
Definition exception_handler (e : Exn) : Response :=
  match e with
  | Http404 => mkResponse (Detail msg_not_found) HTTP_404_NOT_FOUND
  | ValidationError errors => mkResponse (Errors errors) HTTP_400_BAD_REQUEST
  | NotAuthenticated | PermissionDenied =>
      mkResponse (Detail msg_denied) HTTP_403_FORBIDDEN
  | MethodNotAllowed m =>
      mkResponse (Detail (msg_method_not_allowed m)) HTTP_405_METHOD_NOT_ALLOWED
  | _ => mkResponse (Detail msg_server_error) HTTP_500_INTERNAL_SERVER_ERROR
  end.

(** The response a client receives for the result of a view. *)
Definition respond (r : Exn + Response) : Response :=
  match r with
  | inr response => response
  | inl e => exception_handler e
  end.

(** ** Python's reading of values *)

(** [v == s] for a string literal [s]; a missing key reads as [None]. *)
Definition eq_str (v : option Value) (s : string) : bool :=
  match v with
  | Some (VStr s') => bool_decide (s' = s)
  | _ => false
  end.

(** [v in [s1, s2, ...]] for a list of string literals. *)
Definition in_strs (v : option Value) (l : list string) : bool :=
  existsb (eq_str v) l.

Arguments eq_str !v s /.
Arguments in_strs !v l /.

(** The truth value of a string: the empty string is false. *)
Definition truthy (s : string) : bool :=
  negb (bool_decide (s = "")).

Lemma eq_str_true v s : eq_str v s = true ↔ v = Some (VStr s).
Proof.
  destruct v as [[| | |s']|]; simpl; try (split; [done|by intros [=]]).
  rewrite bool_decide_eq_true. split; [by intros ->|by intros [= ->]].
Qed.

Lemma in_strs_true v l : in_strs v l = true ↔ ∃ s, s ∈ l ∧ v = Some (VStr s).
Proof.
  unfold in_strs. rewrite existsb_exists. setoid_rewrite eq_str_true.
  by setoid_rewrite <-list_elem_of_In.
Qed.

Lemma is_success_200 : is_success HTTP_200_OK = true.
Proof. done. Qed.

Lemma exception_handler_not_success e :
  is_success (status_code (exception_handler e)) = false.
Proof. by destruct e. Qed.
