(* ===== verification/Models.v ===== *)
(** * Models: the rows, the tables and the ORM operations

    The model classes ([Task], [Benefactor], [Charity], [User]) are declared
    in files of the repository that are not part of the verified sources;
    they are modelled from the data model of the specification and from what
    the views read and write: a task has an id, a state among the four of
    [Task.TaskStatus], an optional assigned benefactor, the charity it
    belongs to, and further columns the views never name ([fields]).

    The database [DB] is one finite map per table.  A profile table is
    indexed by its unique [user_id] column, so that [user.benefactor] and
    [user.charity] are lookups.  [Op] lists the ORM calls the views make,
    each one a round trip to the database, and [perform_orm] is their
    meaning: the instance of [Effects] the programs of the views run on. *)

From S2P Require Import Prelude Prog Http.

Module Task.

Inductive TaskStatus := PENDING | WAITING | ASSIGNED | DONE.

#[export] Instance TaskStatus_eq_dec : EqDecision TaskStatus.
Proof. solve_decision. Defined.

Record t := mk {
  id : nat;
  state : TaskStatus;
  assigned_benefactor : option nat;
  charity : nat;
  fields : Data;
}.

#[export] Instance t_eq_dec : EqDecision t.
Proof. solve_decision. Defined.

(** [task.state = s] *)
Definition set_state (s : TaskStatus) (task : t) : t :=
  mk (id task) s (assigned_benefactor task) (charity task) (fields task).

(** [task.assigned_benefactor = b] *)
Definition set_assigned_benefactor (b : option nat) (task : t) : t :=
  mk (id task) (state task) b (charity task) (fields task).

End Task.

Module Benefactor.

Record t := mk {
  id : nat;
  user : nat;
  fields : Data;
}.

#[export] Instance t_eq_dec : EqDecision t.
Proof. solve_decision. Defined.

End Benefactor.

Module Charity.

Record t := mk {
  id : nat;
  user : nat;
  fields : Data;
}.

#[export] Instance t_eq_dec : EqDecision t.
Proof. solve_decision. Defined.

End Charity.

Module User.

(** The columns [UserSerializer.create] fills; [password] holds the hash. *)
Record t := mk {
  id : nat;
  username : Value;
  password : string;
  phone : Value;
  address : Value;
  gender : Value;
  age : Value;
  description : Value;
  first_name : Value;
  last_name : Value;
  email : Value;
}.

#[export] Instance t_eq_dec : EqDecision t.
Proof. solve_decision. Defined.

Definition set_id (i : nat) (u : t) : t :=
  mk i (username u) (password u) (phone u) (address u) (gender u) (age u)
     (description u) (first_name u) (last_name u) (email u).

(** [user.set_password(raw)]: the column receives the hash of the raw
    password. *)
Definition set_password (hashed : string) (u : t) : t :=
  mk (id u) (username u) hashed (phone u) (address u) (gender u) (age u)
     (description u) (first_name u) (last_name u) (email u).

End User.

Export (hints) Task Benefactor Charity User.

(** The tables, and the next id of each sequence. *)
Record DB := mkDB {
  tasks : gmap nat Task.t;
  benefactors : gmap nat Benefactor.t;
  charities : gmap nat Charity.t;
  users : gmap nat User.t;
  next_task_id : nat;
  next_benefactor_id : nat;
  next_charity_id : nat;
  next_user_id : nat;
}.

Definition set_tasks (f : gmap nat Task.t → gmap nat Task.t) (db : DB) : DB :=
  mkDB (f (tasks db)) (benefactors db) (charities db) (users db)
       (next_task_id db) (next_benefactor_id db) (next_charity_id db)
       (next_user_id db).

(** [INSERT] of a task: the row receives the next id of the sequence. *)
Definition insert_task (task : Task.t) (db : DB) : Task.t * DB :=
  let i := next_task_id db in
  let task' := Task.mk i (Task.state task) (Task.assigned_benefactor task)
                       (Task.charity task) (Task.fields task) in
  (task', mkDB (<[i := task']> (tasks db)) (benefactors db) (charities db)
               (users db) (S i) (next_benefactor_id db) (next_charity_id db)
               (next_user_id db)).

(** [INSERT] of a profile for user [u]: refused when the user has one (the
    [user_id] column is unique). *)
Definition insert_benefactor (u : nat) (fields : Data) (db : DB)
  : option Benefactor.t * DB :=
  match benefactors db !! u with
  | Some _ => (None, db)
  | None =>
      let b := Benefactor.mk (next_benefactor_id db) u fields in
      (Some b, mkDB (tasks db) (<[u := b]> (benefactors db)) (charities db)
                    (users db) (next_task_id db) (S (next_benefactor_id db))
                    (next_charity_id db) (next_user_id db))
  end.

Definition insert_charity (u : nat) (fields : Data) (db : DB)
  : option Charity.t * DB :=
  match charities db !! u with
  | Some _ => (None, db)
  | None =>
      let c := Charity.mk (next_charity_id db) u fields in
      (Some c, mkDB (tasks db) (benefactors db) (<[u := c]> (charities db))
                    (users db) (next_task_id db) (next_benefactor_id db)
                    (S (next_charity_id db)) (next_user_id db))
  end.

(** [INSERT] of a user: refused when the username is taken (the column is
    unique). *)
Definition username_taken (db : DB) (name : Value) : Prop :=
  map_Exists (λ _ u', User.username u' = name) (users db).

Definition insert_user (u : User.t) (db : DB) : option User.t * DB :=
  if decide (username_taken db (User.username u)) then (None, db)
  else
    let i := next_user_id db in
    let u' := User.set_id i u in
    (Some u', mkDB (tasks db) (benefactors db) (charities db) (<[i := u']> (users db))
                   (next_task_id db) (next_benefactor_id db) (next_charity_id db)
                   (S i)).

(** A query set over the tasks: a description of the rows wanted, which
    the database decides row by row when the query set is evaluated. *)
Definition QuerySet : Type := DB → Task.t → bool.

(** The rows a query set selects, in the order of the table. *)
Definition select (q : QuerySet) (db : DB) : list Task.t :=
  filter (λ task, q db task = true) (map_to_list (tasks db)).*2.

(** The ORM calls of the views. *)
Inductive Op : Type → Type :=
| TaskGet (id : nat) : Op (option Task.t)
| TaskSave (task : Task.t) : Op unit
| TaskCreate (task : Task.t) : Op Task.t
| TaskSelect (q : QuerySet) : Op (list Task.t)
| UserBenefactor (u : nat) : Op (option Benefactor.t)
| UserCharity (u : nat) : Op (option Charity.t)
| BenefactorCreate (u : nat) (fields : Data) : Op (option Benefactor.t)
| CharityCreate (u : nat) (fields : Data) : Op (option Charity.t)
| UserSave (u : User.t) : Op (option User.t).

(** [TaskGet id] is [Task.objects.get(id=id)], [None] standing for
    [DoesNotExist]; [TaskSave task] is [task.save()] on an object that has
    an id: every column of the row with that id is overwritten by the
    object's (the row is inserted when there is none); [TaskSelect q] is
    the evaluation of a query set; the creations are [INSERT]s. *)
Definition perform_orm (X : Type) (op : Op X) (db : DB) : X * DB :=
  match op in Op X return X * DB with
  | TaskGet id => (tasks db !! id, db)
  | TaskSave task => (tt, set_tasks <[Task.id task := task]> db)
  | TaskCreate task => insert_task task db
  | TaskSelect q => (select q db, db)
  | UserBenefactor u => (benefactors db !! u, db)
  | UserCharity u => (charities db !! u, db)
  | BenefactorCreate u fields => insert_benefactor u fields db
  | CharityCreate u fields => insert_charity u fields db
  | UserSave u => insert_user u db
  end.

#[export] Instance orm_effects : Effects Op DB := perform_orm.

(** The programs of the views. *)
Abbreviation view := (prog Op Exn).

(** [rest_framework.generics.get_object_or_404(Task, id=task_id)] *)
Definition get_object_or_404 (task_id : nat) : view Task.t :=
  (o <- call (TaskGet task_id) ;;
   match o with
   | Some task => Ret task
   | None => Raise Http404
   end)%prog.

(** [task.save()] *)
Definition save (task : Task.t) : view unit := call (TaskSave task).

(** A request served alone against the database: the response the client
    receives and the database left behind. *)
Definition serve (v : view Response) (db : DB) : Response * DB :=
  let '(r, db') := run v db in (respond r, db').

(** ** The ORM calls, executed *)

Section orm_facts.
Implicit Types (db : DB) (task : Task.t).

Lemma run_get_object_or_404 task_id db :
  run (get_object_or_404 task_id) db =
  (match tasks db !! task_id with
   | Some task => inr task
   | None => inl Http404
   end, db).
Proof. unfold get_object_or_404. simpl. by destruct (tasks db !! task_id). Qed.

Lemma run_save task db :
  run (save task) db = (inr tt, set_tasks <[Task.id task := task]> db).
Proof. done. Qed.

Lemma serve_run (v : view Response) db :
  serve v db = (respond (run v db).1, (run v db).2).
Proof. unfold serve. by destruct (run v db). Qed.

Lemma lookup_saved (m : gmap nat Task.t) i task : <[i := task]> m !! i = Some task.
Proof. apply lookup_insert_eq. Qed.

Lemma tasks_set_tasks f db : tasks (set_tasks f db) = f (tasks db).
Proof. done. Qed.

Lemma benefactors_set_tasks f db : benefactors (set_tasks f db) = benefactors db.
Proof. done. Qed.

Lemma charities_set_tasks f db : charities (set_tasks f db) = charities db.
Proof. done. Qed.

Lemma users_set_tasks f db : users (set_tasks f db) = users db.
Proof. done. Qed.

(** Saving the object that was read changes nothing. *)
Lemma set_tasks_insert_id task_id task db :
  tasks db !! task_id = Some task → set_tasks <[task_id := task]> db = db.
Proof. intros Hget. destruct db. unfold set_tasks. simpl in *. by rewrite insert_id. Qed.

End orm_facts.

#[export] Hint Rewrite run_get_object_or_404 run_save lookup_saved : exec.
#[export] Hint Rewrite tasks_set_tasks benefactors_set_tasks charities_set_tasks
  users_set_tasks : exec.

(** ** Well-formed databases *)

(** Some benefactor (charity) row has this id: the target of a foreign
    key exists. *)
Definition benefactor_exists (db : DB) (b : nat) : Prop :=
  map_Exists (λ _ bf, Benefactor.id bf = b) (benefactors db).

Definition charity_exists (db : DB) (c : nat) : Prop :=
  map_Exists (λ _ ch, Charity.id ch = c) (charities db).

(** The object [task] is fit to be the row [i] of [db]: it carries its
    key, the key was drawn from the sequence, its foreign keys have
    targets, and it has a benefactor exactly when it is not PENDING. *)
Definition task_ok (db : DB) (i : nat) (task : Task.t) : Prop :=
  Task.id task = i ∧
  i < next_task_id db ∧
  (Task.assigned_benefactor task = None ↔ Task.state task = Task.PENDING) ∧
  charity_exists db (Task.charity task) ∧
  match Task.assigned_benefactor task with
  | Some b => benefactor_exists db b
  | None => True
  end.

(** A profile row is stored under its user, with an id drawn from the
    sequence that no other row has. *)
Section profiles.
Context {X : Type} (id owner : X → nat).

Definition profile_ok (next : nat) (m : gmap nat X) (u : nat) (x : X) : Prop :=
  owner x = u ∧ id x < next ∧ map_Forall (λ u' x', id x' = id x → u' = u) m.

(** A table of profiles stays in order when the profile of a user who has
    none is inserted with the next id. *)
Lemma profile_ok_insert next m u x :
  m !! u = None → owner x = u → id x = next →
  map_Forall (profile_ok next m) m →
  map_Forall (profile_ok (S next) (<[u := x]> m)) (<[u := x]> m).
Proof.
  intros Hu Howner Hid Hm u' x'. rewrite lookup_insert_Some.
  intros [[<- <-]|[Hne Hu']]; (split_and!; [try done..|]).
  - lia.
  - intros u'' x''. rewrite lookup_insert_Some. intros [[<- <-]|[_ Hu'']]; [done|].
    destruct (Hm _ _ Hu'') as (_&?&_). lia.
  - by destruct (Hm _ _ Hu').
  - destruct (Hm _ _ Hu') as (_&?&_). lia.
  - destruct (Hm _ _ Hu') as (_&?&Huniq).
    intros u'' x''. rewrite lookup_insert_Some. intros [[<- <-]|[_ Hu'']]; [lia|].
    by apply Huniq.
Qed.

End profiles.

Definition benefactor_ok (db : DB) : nat → Benefactor.t → Prop :=
  profile_ok Benefactor.id Benefactor.user (next_benefactor_id db) (benefactors db).

Definition charity_ok (db : DB) : nat → Charity.t → Prop :=
  profile_ok Charity.id Charity.user (next_charity_id db) (charities db).

Definition user_ok (db : DB) (i : nat) (u : User.t) : Prop :=
  User.id u = i ∧ i < next_user_id db.

Definition wf_db (db : DB) : Prop :=
  map_Forall (task_ok db) (tasks db) ∧
  map_Forall (benefactor_ok db) (benefactors db) ∧
  map_Forall (charity_ok db) (charities db) ∧
  map_Forall (user_ok db) (users db).

#[export] Instance task_ok_dec db i task : Decision (task_ok db i task).
Proof. unfold task_ok. destruct (Task.assigned_benefactor task); apply _. Defined.

#[export] Instance wf_db_dec db : Decision (wf_db db).
Proof. unfold wf_db, benefactor_ok, charity_ok, profile_ok, user_ok. apply _. Defined.

(** What the database of a later moment keeps of an earlier one: no row
    is deleted, no profile or user row is changed, no sequence goes back. *)
Definition db_extends (db db' : DB) : Prop :=
  dom (tasks db) ⊆ dom (tasks db') ∧
  benefactors db ⊆ benefactors db' ∧
  charities db ⊆ charities db' ∧
  users db ⊆ users db' ∧
  next_task_id db ≤ next_task_id db' ∧
  next_benefactor_id db ≤ next_benefactor_id db' ∧
  next_charity_id db ≤ next_charity_id db' ∧
  next_user_id db ≤ next_user_id db'.

#[export] Instance db_extends_preorder : PreOrder db_extends.
Proof.
  split.
  - intros db. by repeat split.
  - intros db1 db2 db3 (?&?&?&?&?&?&?&?) (?&?&?&?&?&?&?&?).
    repeat split; by etrans.
Qed.

Section wf_facts.
Implicit Types (db : DB) (task : Task.t).

Lemma benefactor_exists_extends db db' b :
  db_extends db db' → benefactor_exists db b → benefactor_exists db' b.
Proof.
  intros (_&Hsub&_) (u&bf&Hu&Hid). exists u, bf.
  split; [by eapply lookup_weaken|done].
Qed.

Lemma charity_exists_extends db db' c :
  db_extends db db' → charity_exists db c → charity_exists db' c.
Proof.
  intros (_&_&Hsub&_) (u&ch&Hu&Hid). exists u, ch.
  split; [by eapply lookup_weaken|done].
Qed.

Lemma task_ok_extends db db' i task :
  db_extends db db' → task_ok db i task → task_ok db' i task.
Proof.
  intros Hext (Hid&Hlt&Hlife&Hch&Hbf). split_and!; [done| |done| |].
  - destruct Hext as (_&_&_&_&?&_). lia.
  - by eapply charity_exists_extends.
  - destruct (Task.assigned_benefactor task); [|done].
    by eapply benefactor_exists_extends.
Qed.

Lemma task_ok_stable i task : stable db_extends (λ db, task_ok db i task).
Proof. intros db db'. apply task_ok_extends. Qed.

Lemma benefactor_exists_stable b :
  stable db_extends (λ db, benefactor_exists db b).
Proof. intros db db'. apply benefactor_exists_extends. Qed.

Lemma wf_db_task db i task :
  wf_db db → tasks db !! i = Some task → task_ok db i task.
Proof. intros (Htasks&_) Hi. by apply Htasks. Qed.

Lemma wf_db_benefactor db u bf :
  wf_db db → benefactors db !! u = Some bf →
  Benefactor.user bf = u ∧ benefactor_exists db (Benefactor.id bf).
Proof.
  intros (_&Hbfs&_) Hu. destruct (Hbfs u bf Hu) as (?&_). split; [done|].
  by exists u, bf.
Qed.

Lemma wf_db_charity db u ch :
  wf_db db → charities db !! u = Some ch →
  Charity.user ch = u ∧ charity_exists db (Charity.id ch).
Proof.
  intros (_&_&Hchs&_) Hu. destruct (Hchs u ch Hu) as (?&_). split; [done|].
  by exists u, ch.
Qed.

Lemma charity_exists_stable c : stable db_extends (λ db, charity_exists db c).
Proof. intros db db'. apply charity_exists_extends. Qed.

(** Writing a fit object over its row keeps the database well formed. *)
Lemma wf_db_save db task :
  wf_db db → task_ok db (Task.id task) task →
  wf_db (set_tasks <[Task.id task := task]> db).
Proof.
  intros (Htasks&Hrest) Hok. split; [|done]. simpl.
  by apply map_Forall_insert_2.
Qed.

Lemma db_extends_save db i task : db_extends db (set_tasks <[i := task]> db).
Proof.
  repeat split; simpl; try done. rewrite dom_insert_L. set_solver.
Qed.

Lemma db_extends_insert_task db task : db_extends db (insert_task task db).2.
Proof.
  repeat split; simpl; try done; [|lia]. rewrite dom_insert_L. set_solver.
Qed.

(** Inserting a PENDING task of an existing charity keeps the database
    well formed. *)
Lemma wf_db_insert_task db task :
  wf_db db → charity_exists db (Task.charity task) →
  Task.state task = Task.PENDING → Task.assigned_benefactor task = None →
  wf_db (insert_task task db).2.
Proof.
  intros (Htasks&Hrest) Hch Hstate Hbf. split; [|done]. simpl.
  apply map_Forall_insert_2.
  - split_and!; simpl; [done|lia|by rewrite Hstate, Hbf|done|by rewrite Hbf].
  - intros i task' Hi. eapply task_ok_extends, Htasks, Hi.
    apply (db_extends_insert_task db task).
Qed.

Lemma db_extends_insert_benefactor db u fields :
  db_extends db (insert_benefactor u fields db).2.
Proof.
  unfold insert_benefactor. destruct (benefactors db !! u) eqn:Hu; [done|].
  repeat split; simpl; try done; [by apply insert_subseteq|lia].
Qed.

Lemma db_extends_insert_charity db u fields :
  db_extends db (insert_charity u fields db).2.
Proof.
  unfold insert_charity. destruct (charities db !! u) eqn:Hu; [done|].
  repeat split; simpl; try done; [by apply insert_subseteq|lia].
Qed.

(** A well-formed table holds nothing at the next id of its sequence. *)
Lemma wf_db_fresh_user db : wf_db db → users db !! next_user_id db = None.
Proof.
  intros (_&_&_&Husers). apply eq_None_not_Some. intros [u Hu].
  destruct (Husers _ _ Hu) as [_ Hlt]. lia.
Qed.

Lemma db_extends_insert_user db user :
  wf_db db → db_extends db (insert_user user db).2.
Proof.
  intros Hwf. unfold insert_user. case_decide; [done|].
  repeat split; simpl; try done; [|lia].
  by apply insert_subseteq, wf_db_fresh_user.
Qed.

Lemma wf_db_insert_user db user : wf_db db → wf_db (insert_user user db).2.
Proof.
  intros Hwf. pose proof (db_extends_insert_user db user Hwf) as Hext.
  revert Hext. unfold insert_user. case_decide; [done|]. simpl. intros Hext.
  destruct Hwf as (Htasks&Hbfs&Hchs&Husers). split_and!; [|done..|].
  - intros i task Hi. eapply task_ok_extends, Htasks, Hi. done.
  - apply map_Forall_insert_2; [split; simpl; [done|lia]|].
    intros i u Hi. destruct (Husers i u Hi). split; simpl; [done|lia].
Qed.

Lemma wf_db_insert_benefactor db u fields :
  wf_db db → wf_db (insert_benefactor u fields db).2.
Proof.
  intros Hwf. pose proof (db_extends_insert_benefactor db u fields) as Hext.
  revert Hext. unfold insert_benefactor.
  destruct (benefactors db !! u) eqn:Hu; [done|]. simpl. intros Hext.
  destruct Hwf as (Htasks&Hbfs&Hchs&Husers). split_and!; [| |done..].
  - intros i task Hi. eapply task_ok_extends, Htasks, Hi. done.
  - by apply profile_ok_insert.
Qed.

Lemma wf_db_insert_charity db u fields :
  wf_db db → wf_db (insert_charity u fields db).2.
Proof.
  intros Hwf. pose proof (db_extends_insert_charity db u fields) as Hext.
  revert Hext. unfold insert_charity.
  destruct (charities db !! u) eqn:Hu; [done|]. simpl. intros Hext.
  destruct Hwf as (Htasks&Hbfs&Hchs&Husers). split_and!; [|done| |done].
  - intros i task Hi. eapply task_ok_extends, Htasks, Hi. done.
  - by apply profile_ok_insert.
Qed.

(** The rows a query set selects are the rows of the table it accepts. *)
Lemma elem_of_select (q : QuerySet) db task :
  task ∈ select q db ↔ (∃ i, tasks db !! i = Some task) ∧ q db task = true.
Proof.
  unfold select. rewrite list_elem_of_filter, list_elem_of_fmap.
  split.
  - intros [Hq [[i task'] [-> Hin%elem_of_map_to_list]]]. eauto.
  - intros [[i Hi] Hq]. split; [done|]. exists (i, task).
    by rewrite elem_of_map_to_list.
Qed.

Lemma safe_get_object_or_404 task_id db0 :
  safe wf_db db_extends (λ task db, task_ok db task_id task)
       (get_object_or_404 task_id) db0.
Proof.
  intros db _ Hwf. simpl. split_and!; [done..|].
  destruct (tasks db !! task_id) as [task|] eqn:Hget; simpl; [|done].
  by apply wf_db_task.
Qed.

Lemma safe_save task db0 :
  task_ok db0 (Task.id task) task →
  safe wf_db db_extends (λ _ _, True) (save task) db0.
Proof.
  intros Hok db Hext Hwf. simpl. split_and!; [|apply db_extends_save|done].
  apply wf_db_save; [done|]. by eapply task_ok_extends.
Qed.

Lemma safe_task_create task db0 :
  charity_exists db0 (Task.charity task) →
  Task.state task = Task.PENDING → Task.assigned_benefactor task = None →
  safe wf_db db_extends (λ _ _, True) (call (E:=Exn) (TaskCreate task)) db0.
Proof.
  intros Hch Hstate Hbf db Hext Hwf. simpl.
  split_and!; [|apply db_extends_insert_task|done].
  apply wf_db_insert_task; [done| |done..]. by eapply charity_exists_extends.
Qed.

(** Reading does not move the database. *)
Lemma safe_task_select (q : QuerySet) db0 :
  safe wf_db db_extends (λ _ _, True) (call (E:=Exn) (TaskSelect q)) db0.
Proof. by intros db Hext Hwf. Qed.

Lemma within_get_object_or_404 task_id : within 1 (get_object_or_404 task_id).
Proof. by intros [task|]. Qed.

Lemma within_save task : within 1 (save task).
Proof. done. Qed.

End wf_facts.

#[export] Hint Resolve task_ok_stable benefactor_exists_stable charity_exists_stable
  safe_get_object_or_404 safe_save safe_task_select : charity.
