(* ===== verification/Permissions.v ===== *)
(** * Permissions: the permission classes and the dispatch of a view

    [IsAuthenticated] is the framework's; [IsBenefactor] and
    [IsCharityOwner] are declared in [accounts/permissions.py], which is not
    part of the verified sources: they are modelled from the interface of the
    specification (section 6: "benefactor only", "charity owner only") as
    "the user has a benefactor profile" and "the user has a charity
    profile".  A permission is an object with one method, [has_permission];
    [check_permissions] and [as_view] are the framework's dispatch: the
    permissions of the view are asked in order before the handler runs, and
    the first refusal ends the request.  [dispatch] is the same for a class
    with several handlers: the handler is that of the method of the
    request. *)

From S2P Require Import Prelude Prog Http Models.

Local Open Scope prog_scope.

Record Permission := mkPermission {
  has_permission : Request → view bool;
}.

Definition IsAuthenticated : Permission :=
  mkPermission (λ request, Ret (bool_decide (is_Some (user request)))).

Definition IsBenefactor : Permission :=
  mkPermission (λ request,
    match user request with
    | None => Ret false
    | Some u => o <- call (UserBenefactor u) ;; Ret (bool_decide (is_Some o))
    end).

Definition IsCharityOwner : Permission :=
  mkPermission (λ request,
    match user request with
    | None => Ret false
    | Some u => o <- call (UserCharity u) ;; Ret (bool_decide (is_Some o))
    end).

(** [APIView.permission_denied]: an anonymous user is told to authenticate,
    an authenticated one is refused. *)
Definition permission_denied (request : Request) : Exn :=
  match user request with
  | None => NotAuthenticated
  | Some _ => PermissionDenied
  end.

(** [APIView.check_permissions] *)
Fixpoint check_permissions (permissions : list Permission) (request : Request)
  : view unit :=
  match permissions with
  | [] => Ret tt
  | p :: permissions' =>
      ok <- has_permission p request ;;
      if ok then check_permissions permissions' request
      else Raise (permission_denied request)
  end.

(** [APIView.as_view]: the permission checks, then the handler. *)
Definition as_view (permission_classes : list Permission)
    (handler : Request → view Response) (request : Request) : view Response :=
  check_permissions permission_classes request ;; handler request.

(** What the permission classes decide, read off the database. *)
Definition allowed (p : Request → DB → bool) (perm : Permission) : Prop :=
  ∀ request db, run (has_permission perm request) db = (inr (p request db), db).

Definition is_authenticated (request : Request) (db : DB) : bool :=
  bool_decide (is_Some (user request)).

Definition is_benefactor (request : Request) (db : DB) : bool :=
  bool_decide (is_Some (u ← user request; benefactors db !! u)).

Definition is_charity (request : Request) (db : DB) : bool :=
  bool_decide (is_Some (u ← user request; charities db !! u)).

Lemma IsAuthenticated_allowed : allowed is_authenticated IsAuthenticated.
Proof. done. Qed.

Lemma IsBenefactor_allowed : allowed is_benefactor IsBenefactor.
Proof. intros [[u|] ? ? ?] db; by simpl. Qed.

Lemma IsCharityOwner_allowed : allowed is_charity IsCharityOwner.
Proof. intros [[u|] ? ? ?] db; by simpl. Qed.

(** ** The permission checks read and never write *)

(** The permission classes the views of the repository name. *)
Definition known (p : Permission) : Prop :=
  p = IsAuthenticated ∨ p = IsBenefactor ∨ p = IsCharityOwner.

Section checks.
Implicit Types (p : Permission) (request : Request) (db : DB).

Lemma has_permission_safe p request db0 :
  known p → safe wf_db db_extends (λ _ _, True) (has_permission p request) db0.
Proof.
  intros [Hp|[Hp|Hp]]; subst p; simpl; [done|..];
    (destruct (user request); [|done]); by intros db _ Hwf.
Qed.

Lemma has_permission_within p request : known p → within 1 (has_permission p request).
Proof.
  intros [Hp|[Hp|Hp]]; subst p; simpl; [done|..]; by destruct (user request).
Qed.

Lemma check_permissions_safe perms request db0 :
  Forall known perms →
  safe wf_db db_extends (λ _ _, True) (check_permissions perms request) db0.
Proof.
  intros Hperms. revert db0. induction Hperms as [|p perms Hp _ IH]; intros db0; [done|].
  simpl. eapply safe_bind; [by apply has_permission_safe|].
  intros [] db _; [apply IH|done].
Qed.

Lemma check_permissions_within perms request :
  Forall known perms → within (length perms) (check_permissions perms request).
Proof.
  induction 1 as [|p perms Hp _ IH]; [done|]. simpl.
  apply (within_bind 1 (length perms)); [by apply has_permission_within|].
  by intros [].
Qed.

(** A view keeps the invariant when its handler does. *)
Lemma as_view_safe perms handler request db0 :
  Forall known perms →
  (∀ db, safe wf_db db_extends (λ _ _, True) (handler request) db) →
  safe wf_db db_extends (λ _ _, True) (as_view perms handler request) db0.
Proof.
  intros Hperms Hhandler. eapply safe_bind; [by apply check_permissions_safe|].
  intros _ db _. apply Hhandler.
Qed.

Lemma as_view_within perms handler request n :
  Forall known perms → within n (handler request) →
  within (length perms + n) (as_view perms handler request).
Proof.
  intros Hperms Hhandler. apply within_bind; [by apply check_permissions_within|done].
Qed.

End checks.

(** ** View classes and the dispatch by method *)

(** A view class as the framework sees it: the permissions it asks of a
    request and the handlers it defines, by method, over the arguments [K]
    that its URL carries. *)
Record APIView (K : Type) := mkAPIView {
  view_permissions : Request → list Permission;
  handlers : Method → option (Request → K → view Response);
}.
Arguments mkAPIView {K} _ _.
Arguments view_permissions {K} _ _.
Arguments handlers {K} _ _.

(** [APIView.options]: the description of the view. *)
Definition options {K} : Request → K → view Response :=
  λ _ _, Ret (mkResponse Metadata HTTP_200_OK).

(** The handler of a method: [HEAD] is served by the [get] of a class that
    defines no [head] ([View.setup]), [OPTIONS] by the framework when the
    class defines no [options]. *)
Definition handler_for {K} (v : APIView K) (m : Method)
  : option (Request → K → view Response) :=
  match m with
  | OPTIONS =>
      match handlers v OPTIONS with
      | Some h => Some h
      | None => Some options
      end
  | HEAD =>
      match handlers v HEAD with
      | Some h => Some h
      | None => handlers v GET
      end
  | _ => handlers v m
  end.

(** The handler of the method of the request, called; a method without
    handler is refused ([http_method_not_allowed]). *)
Definition handle {K} (v : APIView K) (request : Request) (kwargs : K)
  : view Response :=
  match handler_for v (method request) with
  | Some h => h request kwargs
  | None => Raise (MethodNotAllowed (method request))
  end.

(** [APIView.dispatch]: the permission checks, then the handler. *)
Definition dispatch {K} (v : APIView K) (request : Request) (kwargs : K)
  : view Response :=
  check_permissions (view_permissions v request) request ;;
  handle v request kwargs.

Section dispatch_facts.
Context {K : Type}.
Implicit Types (v : APIView K) (request : Request) (kwargs : K).

(** A handler the dispatch can reach is one the class defines, or the
    framework's [options]. *)
Lemma handler_for_ind v (P : (Request → K → view Response) → Prop) :
  (∀ m h, handlers v m = Some h → P h) → P options →
  ∀ m h, handler_for v m = Some h → P h.
Proof.
  intros Hdef Hopt m h. destruct m; simpl; eauto;
    by (destruct (handlers v _) eqn:Hh; [intros [= <-]; eauto|];
        first [intros [= <-]; done | eauto]).
Qed.

Lemma dispatch_as_view v request kwargs h :
  handler_for v (method request) = Some h →
  dispatch v request kwargs =
  as_view (view_permissions v request) (λ r, h r kwargs) request.
Proof. intros Hh. unfold dispatch, handle, as_view. by rewrite Hh. Qed.

(** The handlers of a class, called for a request, all satisfy [P]. *)
Definition handlers_all v request kwargs (P : view Response → Prop) : Prop :=
  ∀ m h, handlers v m = Some h → P (h request kwargs).

Lemma dispatch_handler v (P : view Response → Prop) request kwargs :
  handlers_all v request kwargs P → (∀ r, P (Ret r)) → (∀ e, P (Raise e)) →
  P (handle v request kwargs).
Proof.
  intros Hall Hret Hraise. unfold handle.
  destruct (handler_for v _) as [h|] eqn:Hh; [|done].
  revert Hh. apply (handler_for_ind v (λ h, P (h request kwargs))); [|apply Hret].
  intros m h'. apply Hall.
Qed.

Lemma dispatch_safe v request kwargs db0 :
  Forall known (view_permissions v request) →
  handlers_all v request kwargs
    (λ m, ∀ db, safe wf_db db_extends (λ _ _, True) m db) →
  safe wf_db db_extends (λ _ _, True) (dispatch v request kwargs) db0.
Proof.
  intros Hperms Hall. eapply safe_bind; [by apply check_permissions_safe|].
  intros _ db _. revert db.
  by apply (dispatch_handler v (λ m, ∀ db, safe _ _ _ m db)).
Qed.

Lemma dispatch_within v request kwargs n :
  Forall known (view_permissions v request) →
  handlers_all v request kwargs (within n) →
  within (length (view_permissions v request) + n) (dispatch v request kwargs).
Proof.
  intros Hperms Hall. apply within_bind; [by apply check_permissions_within|].
  intros _. by apply (dispatch_handler v (within n)).
Qed.

End dispatch_facts.

(** The handlers a class defines, one by one. *)
Ltac each_handler :=
  let m := fresh "m" in
  let Hh := fresh "Hh" in
  intros m ? Hh; destruct m; simpl in Hh; simplify_eq.
