(* ===== verification/Lifecycle.v ===== *)
(** * Lifecycle: the three views that move a task through its states

    [TaskRequest.get], [TaskResponse.post] and [DoneTask.post] of
    [src/charities/views.py], statement by statement: the task is read by
    id, its state is checked, the object is changed and saved.  Each view is
    a program over the ORM operations, so it can be served alone ([serve])
    or interleaved with other requests (file Concurrency). *)

From S2P Require Import Prelude Prog Http Models Permissions.

Local Open Scope prog_scope.

(** [request.user.benefactor]: the anonymous user has no such attribute;
    a user without a benefactor profile raises
    [RelatedObjectDoesNotExist]. *)
Definition user_benefactor (request : Request) : view Benefactor.t :=
  match user request with
  | None => Raise AttributeError
  | Some u =>
      o <- call (UserBenefactor u) ;;
      match o with
      | Some benefactor => Ret benefactor
      | None => Raise RelatedObjectDoesNotExist
      end
  end.

(** The row of a task once it has been requested: lines 89 and 90 of
    [TaskRequest.get], the state WAITING and the benefactor of the caller. *)
Definition waiting_for (benefactor : Benefactor.t) (task : Task.t) : Task.t :=
  Task.mk (Task.id task) Task.WAITING (Some (Benefactor.id benefactor))
          (Task.charity task) (Task.fields task).

Module TaskRequest.

Definition permission_classes : list Permission := [IsAuthenticated; IsBenefactor].

Definition not_pending : Response :=
  mkResponse (Detail "This task is not pending.") HTTP_404_NOT_FOUND.

Definition request_sent : Response :=
  mkResponse (Detail "Request sent.") HTTP_200_OK.

Definition get (request : Request) (task_id : nat) : view Response :=
  task <- get_object_or_404 task_id ;;
  if bool_decide (Task.state task ≠ Task.PENDING) then Ret not_pending
  else
    let task := Task.set_state Task.WAITING task in
    benefactor <- user_benefactor request ;;
    let task := Task.set_assigned_benefactor (Some (Benefactor.id benefactor)) task in
    save task ;;
    Ret request_sent.

(** The class [TaskRequest]: its permission classes and its one handler, [get]. *)
Definition view_class : APIView nat :=
  mkAPIView (λ _, permission_classes)
            (λ m, match m with GET => Some get | _ => None end).

End TaskRequest.

Module TaskResponse.

Definition permission_classes : list Permission := [IsAuthenticated; IsCharityOwner].

Definition required_field : Response :=
  mkResponse
    (Detail ("Required field (" +:+ dq +:+ "A" +:+ dq +:+ " for accepted / "
             +:+ dq +:+ "R" +:+ dq +:+ " for rejected)"))
    HTTP_400_BAD_REQUEST.

Definition not_waiting : Response :=
  mkResponse (Detail "This task is not waiting.") HTTP_404_NOT_FOUND.

Definition response_sent : Response :=
  mkResponse (Detail "Response sent.") HTTP_200_OK.

Definition post (request : Request) (task_id : nat) : view Response :=
  task <- get_object_or_404 task_id ;;
  let response := data request !! "response" in
  if negb (in_strs response ["A"; "R"]) then Ret required_field
  else if bool_decide (Task.state task ≠ Task.WAITING) then Ret not_waiting
  else if eq_str response "A" then
    let task := Task.set_state Task.ASSIGNED task in
    save task ;;
    Ret response_sent
  else if eq_str response "R" then
    let task := Task.set_state Task.PENDING task in
    let task := Task.set_assigned_benefactor None task in
    save task ;;
    Ret response_sent
  else Raise AssertionError.

(** The class [TaskResponse]: its permission classes and its one handler, [post]. *)
Definition view_class : APIView nat :=
  mkAPIView (λ _, permission_classes)
            (λ m, match m with POST => Some post | _ => None end).

End TaskResponse.

Module DoneTask.

Definition permission_classes : list Permission := [IsAuthenticated; IsCharityOwner].

Definition not_assigned : Response :=
  mkResponse (Detail "Task is not assigned yet.") HTTP_404_NOT_FOUND.

Definition done_successfully : Response :=
  mkResponse (Detail "Task has been done successfully.") HTTP_200_OK.

Definition post (request : Request) (task_id : nat) : view Response :=
  task <- get_object_or_404 task_id ;;
  if bool_decide (Task.state task ≠ Task.ASSIGNED) then Ret not_assigned
  else
    let task := Task.set_state Task.DONE task in
    save task ;;
    Ret done_successfully.

(** The class [DoneTask]: its permission classes and its one handler, [post]. *)
Definition view_class : APIView nat :=
  mkAPIView (λ _, permission_classes)
            (λ m, match m with POST => Some post | _ => None end).

End DoneTask.

(** ** The views, executed *)

Lemma run_user_benefactor request db :
  run (user_benefactor request) db =
  (match user request with
   | None => inl AttributeError
   | Some u =>
       match benefactors db !! u with
       | Some benefactor => inr benefactor
       | None => inl RelatedObjectDoesNotExist
       end
   end, db).
Proof.
  unfold user_benefactor. destruct (user request) as [u|]; [|done].
  simpl. by destruct (benefactors db !! u).
Qed.

#[export] Hint Rewrite run_user_benefactor : exec.

(** Execute a view on a database: run the ORM calls, rewrite with the
    hypotheses and decide the guards. *)
Ltac exec_step :=
  match goal with
  | H : ?x = _ |- context [?x] => rewrite H
  | |- _ => progress autorewrite with exec
  | |- _ => rewrite bool_decide_eq_true_2 by (first [done | congruence])
  | |- _ => rewrite bool_decide_eq_false_2 by (first [done | congruence | naive_solver])
  | |- _ => progress simpl
  end.

Ltac exec_view := unfold serve; repeat exec_step.

(** ** A sample database *)

(** Charity 1 (of user 10) owns tasks 1 to 4, one in each state; charity 2
    (of user 11) owns none; users 20 and 21 are the benefactors 5 and 6. *)
Definition sample_task (i : nat) (s : Task.TaskStatus) (b : option nat) : Task.t :=
  Task.mk i s b 1 ∅.

Definition sample_db : DB :=
  mkDB (list_to_map [(1, sample_task 1 Task.PENDING None);
                     (2, sample_task 2 Task.WAITING (Some 5));
                     (3, sample_task 3 Task.ASSIGNED (Some 5));
                     (4, sample_task 4 Task.DONE (Some 6))])
       (list_to_map [(20, Benefactor.mk 5 20 ∅); (21, Benefactor.mk 6 21 ∅)])
       (list_to_map [(10, Charity.mk 1 10 ∅); (11, Charity.mk 2 11 ∅)])
       ∅ 5 7 3 22.

Definition sample_request (u : nat) (m : Method) (d : list (string * Value)) : Request :=
  mkRequest (Some u) m (list_to_map d) ∅.

(** ** [TaskRequest.get] *)

(** C3.  A benefactor's request for a PENDING task succeeds: the response is
    200 "Request sent.", the task is WAITING and assigned to the requesting
    benefactor, and nothing else of the database changes. *)
Theorem request_pending request task_id db task u benefactor :
  tasks db !! task_id = Some task →
  Task.id task = task_id →
  Task.state task = Task.PENDING →
  user request = Some u →
  benefactors db !! u = Some benefactor →
  serve (TaskRequest.get request task_id) db =
  (TaskRequest.request_sent,
   set_tasks <[task_id := Task.mk task_id Task.WAITING
                 (Some (Benefactor.id benefactor))
                 (Task.charity task) (Task.fields task)]> db).
Proof.
  intros Htask Hid Hstate Hu Hb. unfold TaskRequest.get. exec_view.
  unfold Task.set_assigned_benefactor, Task.set_state. simpl. by rewrite Hid.
Qed.

Lemma request_pending_witness :
  serve (TaskRequest.get (sample_request 20 GET []) 1) sample_db =
  (TaskRequest.request_sent,
   set_tasks <[1 := sample_task 1 Task.WAITING (Some 5)]> sample_db).
Proof.
  exact (request_pending (sample_request 20 GET []) 1 sample_db
           (sample_task 1 Task.PENDING None) 20 (Benefactor.mk 5 20 ∅)
           eq_refl eq_refl eq_refl eq_refl eq_refl).
Defined.

(** C4.  A request for a task that is not PENDING is refused with 404 "This
    task is not pending." and the database is left as it was. *)
Theorem request_not_pending request task_id db task :
  tasks db !! task_id = Some task →
  Task.state task ≠ Task.PENDING →
  serve (TaskRequest.get request task_id) db = (TaskRequest.not_pending, db).
Proof. intros Htask Hstate. unfold TaskRequest.get. by exec_view. Qed.

Lemma request_not_pending_witness :
  serve (TaskRequest.get (sample_request 20 GET []) 2) sample_db =
  (TaskRequest.not_pending, sample_db).
Proof.
  apply (request_not_pending _ 2 sample_db (sample_task 2 Task.WAITING (Some 5)));
    [reflexivity|discriminate].
Defined.

(** A request for a task that does not exist is answered 404 "Not found."
    by [get_object_or_404]; nothing changes. *)
Theorem request_missing request task_id db :
  tasks db !! task_id = None →
  serve (TaskRequest.get request task_id) db =
  (mkResponse (Detail msg_not_found) HTTP_404_NOT_FOUND, db).
Proof. intros Htask. unfold TaskRequest.get. by exec_view. Qed.

Lemma request_missing_witness :
  serve (TaskRequest.get (sample_request 20 GET []) 9) sample_db =
  (mkResponse (Detail msg_not_found) HTTP_404_NOT_FOUND, sample_db).
Proof. apply request_missing. reflexivity. Defined.

(** A request by a user who has no benefactor profile, for a PENDING task,
    ends in an exception that no handler catches: the client receives a
    500 and the task is not changed, the state assigned to the object
    before the exception is never saved. *)
Theorem request_without_profile request task_id db task :
  tasks db !! task_id = Some task →
  Task.state task = Task.PENDING →
  (u ← user request; benefactors db !! u) = None →
  serve (TaskRequest.get request task_id) db =
  (mkResponse (Detail msg_server_error) HTTP_500_INTERNAL_SERVER_ERROR, db).
Proof.
  intros Htask Hstate Hnone. unfold TaskRequest.get. exec_view.
  destruct (user request) as [u|]; simpl in *; [|done]. by rewrite Hnone.
Qed.

Lemma request_without_profile_witness :
  serve (TaskRequest.get (sample_request 10 GET []) 1) sample_db =
  (mkResponse (Detail msg_server_error) HTTP_500_INTERNAL_SERVER_ERROR, sample_db).
Proof.
  apply (request_without_profile _ 1 sample_db (sample_task 1 Task.PENDING None));
    reflexivity.
Defined.

(** ** [TaskResponse.post] *)

(** C6.  A response whose value is neither "A" nor "R" (or is missing) is
    refused with 400 for every task that exists, whatever its state, and
    nothing changes. *)
Theorem response_invalid request task_id db task :
  tasks db !! task_id = Some task →
  in_strs (data request !! "response") ["A"; "R"] = false →
  serve (TaskResponse.post request task_id) db = (TaskResponse.required_field, db).
Proof. intros Htask Hresp. unfold TaskResponse.post. by exec_view. Qed.

Lemma response_invalid_witness :
  serve (TaskResponse.post (sample_request 10 POST [("response", VStr "X")]) 2)
        sample_db =
  (TaskResponse.required_field, sample_db).
Proof.
  apply (response_invalid _ 2 sample_db (sample_task 2 Task.WAITING (Some 5)));
    reflexivity.
Defined.

(** C23.  The response "A" to a WAITING task succeeds: the task is ASSIGNED,
    keeps its benefactor, and nothing else changes. *)
Theorem response_accept request task_id db task :
  tasks db !! task_id = Some task →
  Task.id task = task_id →
  Task.state task = Task.WAITING →
  data request !! "response" = Some (VStr "A") →
  serve (TaskResponse.post request task_id) db =
  (TaskResponse.response_sent,
   set_tasks <[task_id := Task.mk task_id Task.ASSIGNED
                 (Task.assigned_benefactor task)
                 (Task.charity task) (Task.fields task)]> db).
Proof.
  intros Htask Hid Hstate Hresp. unfold TaskResponse.post. exec_view.
  unfold Task.set_state. by rewrite Hid.
Qed.

Lemma response_accept_witness :
  serve (TaskResponse.post (sample_request 10 POST [("response", VStr "A")]) 2)
        sample_db =
  (TaskResponse.response_sent,
   set_tasks <[2 := sample_task 2 Task.ASSIGNED (Some 5)]> sample_db).
Proof.
  apply (response_accept _ 2 sample_db (sample_task 2 Task.WAITING (Some 5)));
    reflexivity.
Defined.

(** C5.  The response "R" to a WAITING task succeeds: the task is PENDING
    again, its assigned benefactor is cleared, and nothing else changes. *)
Theorem response_reject request task_id db task :
  tasks db !! task_id = Some task →
  Task.id task = task_id →
  Task.state task = Task.WAITING →
  data request !! "response" = Some (VStr "R") →
  serve (TaskResponse.post request task_id) db =
  (TaskResponse.response_sent,
   set_tasks <[task_id := Task.mk task_id Task.PENDING None
                 (Task.charity task) (Task.fields task)]> db).
Proof.
  intros Htask Hid Hstate Hresp. unfold TaskResponse.post. exec_view.
  unfold Task.set_assigned_benefactor, Task.set_state. simpl. by rewrite Hid.
Qed.

Lemma response_reject_witness :
  serve (TaskResponse.post (sample_request 10 POST [("response", VStr "R")]) 2)
        sample_db =
  (TaskResponse.response_sent,
   set_tasks <[2 := sample_task 2 Task.PENDING None]> sample_db).
Proof.
  apply (response_reject _ 2 sample_db (sample_task 2 Task.WAITING (Some 5)));
    reflexivity.
Defined.

(** A valid response to a task that is not WAITING is refused with 404
    "This task is not waiting." and nothing changes. *)
Theorem response_not_waiting request task_id db task :
  tasks db !! task_id = Some task →
  Task.state task ≠ Task.WAITING →
  in_strs (data request !! "response") ["A"; "R"] = true →
  serve (TaskResponse.post request task_id) db = (TaskResponse.not_waiting, db).
Proof. intros Htask Hstate Hresp. unfold TaskResponse.post. by exec_view. Qed.

Lemma response_not_waiting_witness :
  serve (TaskResponse.post (sample_request 10 POST [("response", VStr "A")]) 1)
        sample_db =
  (TaskResponse.not_waiting, sample_db).
Proof.
  apply (response_not_waiting _ 1 sample_db (sample_task 1 Task.PENDING None));
    [reflexivity|discriminate|reflexivity].
Defined.

(** The task is looked up before the response value is read: for a task
    that does not exist the answer is 404 "Not found." even when the
    response value is invalid. *)
Theorem response_missing request task_id db :
  tasks db !! task_id = None →
  serve (TaskResponse.post request task_id) db =
  (mkResponse (Detail msg_not_found) HTTP_404_NOT_FOUND, db).
Proof. intros Htask. unfold TaskResponse.post. by exec_view. Qed.

Lemma response_missing_witness :
  serve (TaskResponse.post (sample_request 10 POST [("response", VStr "X")]) 9)
        sample_db =
  (mkResponse (Detail msg_not_found) HTTP_404_NOT_FOUND, sample_db).
Proof. apply response_missing. reflexivity. Defined.

(** ** [DoneTask.post] *)

(** C7.  Marking an ASSIGNED task done succeeds: the task is DONE and no
    other column of it, and no other row, changes. *)
Theorem done_assigned request task_id db task :
  tasks db !! task_id = Some task →
  Task.id task = task_id →
  Task.state task = Task.ASSIGNED →
  serve (DoneTask.post request task_id) db =
  (DoneTask.done_successfully,
   set_tasks <[task_id := Task.mk task_id Task.DONE
                 (Task.assigned_benefactor task)
                 (Task.charity task) (Task.fields task)]> db).
Proof.
  intros Htask Hid Hstate. unfold DoneTask.post. exec_view.
  unfold Task.set_state. by rewrite Hid.
Qed.

Lemma done_assigned_witness :
  serve (DoneTask.post (sample_request 10 POST []) 3) sample_db =
  (DoneTask.done_successfully,
   set_tasks <[3 := sample_task 3 Task.DONE (Some 5)]> sample_db).
Proof.
  apply (done_assigned _ 3 sample_db (sample_task 3 Task.ASSIGNED (Some 5)));
    reflexivity.
Defined.

(** Marking done a task that is not ASSIGNED is refused with 404 "Task
    is not assigned yet." and nothing changes. *)
Theorem done_not_assigned request task_id db task :
  tasks db !! task_id = Some task →
  Task.state task ≠ Task.ASSIGNED →
  serve (DoneTask.post request task_id) db = (DoneTask.not_assigned, db).
Proof. intros Htask Hstate. unfold DoneTask.post. by exec_view. Qed.

Lemma done_not_assigned_witness :
  serve (DoneTask.post (sample_request 10 POST []) 1) sample_db =
  (DoneTask.not_assigned, sample_db).
Proof.
  apply (done_not_assigned _ 1 sample_db (sample_task 1 Task.PENDING None));
    [reflexivity|discriminate].
Defined.

Theorem done_missing request task_id db :
  tasks db !! task_id = None →
  serve (DoneTask.post request task_id) db =
  (mkResponse (Detail msg_not_found) HTTP_404_NOT_FOUND, db).
Proof. intros Htask. unfold DoneTask.post. by exec_view. Qed.

Lemma done_missing_witness :
  serve (DoneTask.post (sample_request 10 POST []) 9) sample_db =
  (mkResponse (Detail msg_not_found) HTTP_404_NOT_FOUND, sample_db).
Proof. apply done_missing. reflexivity. Defined.

(** ** Totality of the views *)

(** The result of a view served alone is a response it returned, or the
    [Http404] of the lookup. *)
Definition returns (v : view Response) (db : DB) : Prop :=
  (∃ response, (run v db).1 = inr response) ∨ (run v db).1 = inl Http404.

(** [TaskResponse.post] always returns a response when the task
    exists: a value that passed the membership test is "A" or "R", so
    control never falls off the end of the function. *)
Theorem response_returns request task_id db :
  returns (TaskResponse.post request task_id) db.
Proof.
  unfold returns, TaskResponse.post. exec_view.
  destruct (tasks db !! task_id) as [task|]; [left|by right]. simpl.
  destruct (data request !! "response") as [[| | |s]|]; simpl; eauto.
  repeat case_bool_decide; simpl; eauto.
Qed.

Theorem done_returns request task_id db :
  returns (DoneTask.post request task_id) db.
Proof.
  unfold returns, DoneTask.post. exec_view.
  destruct (tasks db !! task_id) as [task|]; [left|by right]. simpl.
  case_bool_decide; simpl; eauto.
Qed.
