(* ===== verification/Refinement.v ===== *)
(** * Refinement: the lifecycle views against the transition table

    The specification (section 4.1) gives the lifecycle of a task as a table
    of transitions between four states.  Here the table is a relation
    ([lifecycle]) and a function ([transition]); [spec_step] is what the
    table lets a request do to the database, and [refines] says that a view
    does exactly that.  The theorems: each view refines the table
    ([handler_refines]); a view changes the addressed row only; the views
    keep the database well formed ([handler_wf]); sequences of requests move
    every task along the table ([serve_all_lifecycle]) and never out of
    DONE ([done_final]). *)

From S2P Require Import Prelude Prog Http Models Permissions Lifecycle.

Local Open Scope prog_scope.

(** ** The lifecycle as the specification states it *)

(** The state of a task as the specification sees it: its status and its
    assigned benefactor. *)
Definition AState : Type := Task.TaskStatus * option nat.

Definition abs (task : Task.t) : AState :=
  (Task.state task, Task.assigned_benefactor task).

(** The task with the status and the benefactor of [a], every other
    column kept. *)
Definition with_abs (a : AState) (task : Task.t) : Task.t :=
  Task.mk (Task.id task) a.1 a.2 (Task.charity task) (Task.fields task).

Inductive Trigger :=
| Requests (benefactor : nat)
| Accepts
| Rejects
| MarksDone.

(** The transition table of the specification (section 4.1). *)
Inductive lifecycle : AState → Trigger → AState → Prop :=
| lifecycle_request b ab :
    lifecycle (Task.PENDING, ab) (Requests b) (Task.WAITING, Some b)
| lifecycle_accept ab :
    lifecycle (Task.WAITING, ab) Accepts (Task.ASSIGNED, ab)
| lifecycle_reject ab :
    lifecycle (Task.WAITING, ab) Rejects (Task.PENDING, None)
| lifecycle_done ab :
    lifecycle (Task.ASSIGNED, ab) MarksDone (Task.DONE, ab).

(** The table as a function: the next state, when the guard holds. *)
Definition transition (a : AState) (t : Trigger) : option AState :=
  match a.1, t with
  | Task.PENDING, Requests b => Some (Task.WAITING, Some b)
  | Task.WAITING, Accepts => Some (Task.ASSIGNED, a.2)
  | Task.WAITING, Rejects => Some (Task.PENDING, None)
  | Task.ASSIGNED, MarksDone => Some (Task.DONE, a.2)
  | _, _ => None
  end.

(** The three endpoints of the lifecycle. *)
Inductive Endpoint := RequestTask | RespondTask | FinishTask.

(** The view that serves an endpoint. *)
Definition handler (e : Endpoint) : Request → nat → view Response :=
  match e with
  | RequestTask => TaskRequest.get
  | RespondTask => TaskResponse.post
  | FinishTask => DoneTask.post
  end.

(** The trigger a request amounts to, if it is one: a request by a user
    with a benefactor profile, a response "A" or "R", a done. *)
Definition trigger (e : Endpoint) (request : Request) (db : DB) : option Trigger :=
  match e with
  | RequestTask =>
      bf ← (u ← user request; benefactors db !! u);
      Some (Requests (Benefactor.id bf))
  | RespondTask =>
      if eq_str (data request !! "response") "A" then Some Accepts
      else if eq_str (data request !! "response") "R" then Some Rejects
      else None
  | FinishTask => Some MarksDone
  end.

(** What the specification lets a request do to the database: the addressed
    task takes the transition of the request's trigger when there is one
    and its guard holds; [None] when the request is to be refused. *)
Definition spec_step (e : Endpoint) (request : Request) (task_id : nat) (db : DB)
  : option DB :=
  task ← tasks db !! task_id;
  t ← trigger e request db;
  a ← transition (abs task) t;
  Some (set_tasks <[task_id := with_abs a task]> db).

(** Every row is stored under its own id. *)
Definition keyed (db : DB) : Prop :=
  map_Forall (λ i task, Task.id task = i) (tasks db).

Lemma transition_lifecycle a t a' : transition a t = Some a' ↔ lifecycle a t a'.
Proof.
  split.
  - destruct a as [[] ab], t; intros [= <-]; constructor.
  - by destruct 1.
Qed.

Lemma wf_db_keyed db : wf_db db → keyed db.
Proof. intros (Htasks&_) i task Hi. by destruct (Htasks i task Hi). Qed.

(** ** The views implement the lifecycle *)

(** [refines v o db]: the view [v], served alone on [db], does what the
    specification's step [o] says: when the step is allowed, the response
    is a success and the database is the one of the step; when it is not,
    the response is not a success and the database is left as it was. *)
Definition refines (v : view Response) (o : option DB) (db : DB) : Prop :=
  match o with
  | Some db' => is_success (status_code (serve v db).1) = true ∧ (serve v db).2 = db'
  | None => is_success (status_code (serve v db).1) = false ∧ (serve v db).2 = db
  end.

Lemma request_refines request task_id db :
  keyed db →
  refines (TaskRequest.get request task_id)
          (spec_step RequestTask request task_id db) db.
Proof.
  intros Hkeyed. unfold refines, spec_step, TaskRequest.get.
  destruct (tasks db !! task_id) as [task|] eqn:Htask; [|by exec_view].
  pose proof (Hkeyed _ _ Htask) as Hid. simpl in Hid. subst task_id. simpl.
  destruct (user request) as [u|] eqn:Hu; simpl.
  2: { destruct (Task.state task) eqn:Hstate; by exec_view. }
  destruct (benefactors db !! u) as [bf|] eqn:Hbf; simpl.
  2: { destruct (Task.state task) eqn:Hstate; by exec_view. }
  unfold transition, abs. simpl.
  destruct (Task.state task) eqn:Hstate; by exec_view.
Qed.

Lemma respond_refines request task_id db :
  keyed db →
  refines (TaskResponse.post request task_id)
          (spec_step RespondTask request task_id db) db.
Proof.
  intros Hkeyed. unfold refines, spec_step, TaskResponse.post.
  destruct (tasks db !! task_id) as [task|] eqn:Htask; [|by exec_view].
  pose proof (Hkeyed _ _ Htask) as Hid. simpl in Hid. subst task_id. simpl.
  destruct (data request !! "response") as [[| | |s]|] eqn:Hresp;
    try by exec_view.
  simpl. destruct (decide (s = "A")) as [->|HA].
  { unfold transition, abs. simpl.
    destruct (Task.state task) eqn:Hstate; by exec_view. }
  rewrite (bool_decide_eq_false_2 (s = "A")) by done.
  destruct (decide (s = "R")) as [->|HR].
  { unfold transition, abs. simpl.
    destruct (Task.state task) eqn:Hstate; by exec_view. }
  rewrite (bool_decide_eq_false_2 (s = "R")) by done. by exec_view.
Qed.

Lemma finish_refines request task_id db :
  keyed db →
  refines (DoneTask.post request task_id)
          (spec_step FinishTask request task_id db) db.
Proof.
  intros Hkeyed. unfold refines, spec_step, DoneTask.post.
  destruct (tasks db !! task_id) as [task|] eqn:Htask; [|by exec_view].
  pose proof (Hkeyed _ _ Htask) as Hid. simpl in Hid. subst task_id. simpl.
  unfold transition, abs. simpl.
  destruct (Task.state task) eqn:Hstate; by exec_view.
Qed.

(** C1.  Refinement.  Each lifecycle view implements the transition table of
    the specification: the response is a success exactly when the request
    is a trigger whose guard holds in the state of the addressed task; then
    the task takes the state and the benefactor the table gives and keeps
    its other columns, and no other row changes; otherwise the database is
    left as it was. *)
Theorem handler_refines e request task_id db :
  keyed db →
  refines (handler e request task_id) (spec_step e request task_id db) db.
Proof.
  destruct e; [apply request_refines|apply respond_refines|apply finish_refines].
Qed.

Lemma keyed_sample : keyed sample_db.
Proof. by apply (bool_decide_unpack _). Qed.

Lemma handler_refines_witness :
  refines (handler RespondTask (sample_request 10 POST [("response", VStr "R")]) 2)
          (Some (set_tasks <[2 := sample_task 2 Task.PENDING None]> sample_db))
          sample_db.
Proof.
  exact (handler_refines RespondTask
           (sample_request 10 POST [("response", VStr "R")]) 2 sample_db
           keyed_sample).
Defined.

(** ** Consequences of the refinement *)

Section consequences.
Context (e : Endpoint) (request : Request) (task_id : nat) (db : DB).
Context (Hkeyed : keyed db).

Let db' : DB := (serve (handler e request task_id) db).2.

(** The database after a request is the one before it, or the one before
    it with the addressed row, which existed, rewritten in its state and
    benefactor. *)
Lemma handler_cases :
  db' = db ∨
  ∃ task a, tasks db !! task_id = Some task ∧
            (∃ t, lifecycle (abs task) t a) ∧
            db' = set_tasks <[task_id := with_abs a task]> db.
Proof.
  assert (refines (handler e request task_id)
                  (spec_step e request task_id db) db) as Href.
  { destruct e; [by apply request_refines|by apply respond_refines
                |by apply finish_refines]. }
  unfold refines, spec_step in Href. subst db'.
  destruct (tasks db !! task_id) as [task|]; simpl in Href; [|by left; tauto].
  destruct (trigger e request db) as [t|]; simpl in Href; [|by left; tauto].
  destruct (transition (abs task) t) as [a|] eqn:Ha; simpl in Href;
    [|by left; tauto].
  right. exists task, a. split_and!; [done| |tauto].
  exists t. by apply transition_lifecycle.
Qed.

(** Only the addressed row can change. *)
Lemma handler_frame_tasks : agree_except task_id (tasks db') (tasks db).
Proof.
  destruct handler_cases as [->|(task&a&_&_&->)]; [done|].
  apply agree_except_insert.
Qed.

(** No row is created or deleted, and no other table is touched. *)
Lemma handler_frame_rest :
  dom (tasks db') = dom (tasks db) ∧
  benefactors db' = benefactors db ∧ charities db' = charities db ∧
  users db' = users db ∧ next_task_id db' = next_task_id db.
Proof.
  destruct handler_cases as [->|(task&a&Htask&_&->)]; [done|].
  split_and!; try done. simpl. by apply dom_insert_present.
Qed.

Lemma handler_keyed : keyed db'.
Proof.
  destruct handler_cases as [->|(task&a&Htask&_&->)]; [done|].
  apply map_Forall_insert_2; [|done]. simpl. by apply Hkeyed.
Qed.

End consequences.

(** ** The views keep the database well formed *)

Lemma safe_user_benefactor request db0 :
  safe wf_db db_extends (λ bf db, benefactor_exists db (Benefactor.id bf))
       (user_benefactor request) db0.
Proof.
  unfold user_benefactor. destruct (user request) as [u|]; [|done].
  intros db _ Hwf. simpl. split_and!; [done..|].
  destruct (benefactors db !! u) as [bf|] eqn:Hbf; simpl; [|done].
  by eapply wf_db_benefactor.
Qed.

(** The object a view saves is fit for its row when the object it read
    was: the transitions keep the key, the charity and the link between
    state and benefactor. *)
Lemma task_ok_with_abs db i task a :
  task_ok db i task →
  (a.2 = None ↔ a.1 = Task.PENDING) →
  match a.2 with Some b => benefactor_exists db b | None => True end →
  task_ok db i (with_abs a task).
Proof. intros (?&?&_&?&_) ??. by split_and!. Qed.

Lemma request_safe request task_id db0 :
  safe wf_db db_extends (λ _ _, True) (TaskRequest.get request task_id) db0.
Proof.
  eapply safe_bind; [apply safe_get_object_or_404|].
  intros task db Hok. cbn beta zeta. case_bool_decide; [done|].
  eapply safe_bind.
  { apply (safe_frame wf_db db_extends (λ db, task_ok db task_id task));
      [apply task_ok_stable|done|apply safe_user_benefactor]. }
  intros bf db1 [Hbf Hok1]. cbn beta.
  eapply safe_bind; [apply safe_save|done].
  destruct Hok1 as (Hid&?&?&?&?). simpl. rewrite Hid.
  by apply (task_ok_with_abs db1 task_id task (Task.WAITING, Some _)).
Qed.

Lemma respond_safe request task_id db0 :
  safe wf_db db_extends (λ _ _, True) (TaskResponse.post request task_id) db0.
Proof.
  eapply safe_bind; [apply safe_get_object_or_404|].
  intros task db (Hid&?&Hlife&?&Hbf). cbn beta zeta.
  destruct (negb _); [done|].
  case_bool_decide as Hstate; [done|].
  destruct (eq_str _ "A"); [|destruct (eq_str _ "R"); [|done]].
  - eapply safe_bind; [apply safe_save|done]. simpl. rewrite Hid.
    apply (task_ok_with_abs db task_id task (Task.ASSIGNED, _)); simpl;
      [by split_and!| |done].
    split; [|done]. intros Hnone. apply Hlife in Hnone. congruence.
  - eapply safe_bind; [apply safe_save|done]. simpl. rewrite Hid.
    by apply (task_ok_with_abs db task_id task (Task.PENDING, None)).
Qed.

Lemma finish_safe request task_id db0 :
  safe wf_db db_extends (λ _ _, True) (DoneTask.post request task_id) db0.
Proof.
  eapply safe_bind; [apply safe_get_object_or_404|].
  intros task db (Hid&?&Hlife&?&Hbf). cbn beta zeta.
  case_bool_decide as Hstate; [done|].
  eapply safe_bind; [apply safe_save|done]. simpl. rewrite Hid.
  apply (task_ok_with_abs db task_id task (Task.DONE, _)); simpl;
    [by split_and!| |done].
  split; [|done]. intros Hnone. apply Hlife in Hnone. congruence.
Qed.

(** Each lifecycle view keeps the database well formed, operation by
    operation and whatever other requests do between its operations, as long
    as they delete nothing. *)
Lemma lifecycle_safe e request task_id db0 :
  safe wf_db db_extends (λ _ _, True) (handler e request task_id) db0.
Proof. destruct e; [apply request_safe|apply respond_safe|apply finish_safe]. Qed.

Lemma serve_wf (v : view Response) db :
  safe wf_db db_extends (λ _ _, True) v db → wf_db db →
  wf_db (serve v db).2 ∧ db_extends db (serve v db).2.
Proof.
  intros Hsafe Hwf. rewrite serve_run. simpl.
  destruct (safe_run wf_db db_extends _ v db Hsafe Hwf) as (?&?&_). done.
Qed.

(** A lifecycle request served on a well-formed database leaves a
    well-formed database: rows stay under their ids, foreign keys keep their
    targets, a task has a benefactor exactly when it is not PENDING; and no
    row has disappeared. *)
Theorem handler_wf e request task_id db :
  wf_db db →
  wf_db (serve (handler e request task_id) db).2 ∧
  db_extends db (serve (handler e request task_id) db).2.
Proof. apply serve_wf, lifecycle_safe. Qed.

Lemma wf_sample : wf_db sample_db.
Proof. by apply (bool_decide_unpack _). Qed.

Lemma handler_wf_witness :
  wf_db (serve (handler FinishTask (sample_request 10 POST []) 3) sample_db).2 ∧
  db_extends sample_db
    (serve (handler FinishTask (sample_request 10 POST []) 3) sample_db).2.
Proof. exact (handler_wf FinishTask (sample_request 10 POST []) 3 sample_db wf_sample). Defined.

(** ** Sequences of requests *)

(** A request to a lifecycle endpoint. *)
Definition Call : Type := Endpoint * Request * nat.

Definition call_view (c : Call) : view Response := handler c.1.1 c.1.2 c.2.

(** The requests served one after the other, each alone. *)
Definition serve_all (calls : list Call) (db : DB) : list Response * DB :=
  let '(rs, db') := run_serial (call_view <$> calls) db in (respond <$> rs, db').

(** One step of a task along the table, whatever the trigger. *)
Definition lifecycle_step (a a' : AState) : Prop := ∃ t, lifecycle a t a'.

(** The rows of [db'] are those of [db], each moved along the table and
    otherwise unchanged. *)
Definition evolves (db db' : DB) : Prop :=
  keyed db' ∧
  ∀ i task, tasks db !! i = Some task →
    ∃ a, rtc lifecycle_step (abs task) a ∧ tasks db' !! i = Some (with_abs a task).

Lemma with_abs_abs task : with_abs (abs task) task = task.
Proof. by destruct task. Qed.

Lemma with_abs_with_abs a a' task : with_abs a' (with_abs a task) = with_abs a' task.
Proof. done. Qed.

Lemma abs_with_abs a task : abs (with_abs a task) = a.
Proof. by destruct a. Qed.

Lemma evolves_refl db : keyed db → evolves db db.
Proof.
  intros Hkeyed. split; [done|]. intros i task Hi. exists (abs task).
  by rewrite with_abs_abs.
Qed.

Lemma evolves_trans db1 db2 db3 : evolves db1 db2 → evolves db2 db3 → evolves db1 db3.
Proof.
  intros [_ H12] [Hk H23]. split; [done|]. intros i task Hi.
  destruct (H12 i task Hi) as (a&Ha&Hi2).
  destruct (H23 i _ Hi2) as (a'&Ha'&Hi3).
  exists a'. rewrite abs_with_abs in Ha'. split; [by etrans|done].
Qed.

Lemma handler_evolves e request task_id db :
  keyed db → evolves db (serve (handler e request task_id) db).2.
Proof.
  intros Hkeyed. split; [by apply handler_keyed|]. intros i task Hi.
  destruct (handler_cases e request task_id db Hkeyed)
    as [->|(task0&a&Htask0&Hstep&->)].
  { exists (abs task). by rewrite with_abs_abs. }
  destruct (decide (i = task_id)) as [->|Hne].
  - simplify_eq. exists a. split; [by apply rtc_once|]. simpl.
    by rewrite lookup_insert_eq.
  - exists (abs task). rewrite with_abs_abs. split; [done|]. simpl.
    by rewrite lookup_insert_ne.
Qed.

Lemma serve_all_serial calls db :
  serve_all calls db =
  (respond <$> (run_serial (call_view <$> calls) db).1,
   (run_serial (call_view <$> calls) db).2).
Proof. unfold serve_all. by destruct (run_serial _ db). Qed.

Lemma serve_all_cons c calls db :
  serve_all (c :: calls) db =
  ((serve (call_view c) db).1 :: (serve_all calls (serve (call_view c) db).2).1,
   (serve_all calls (serve (call_view c) db).2).2).
Proof.
  unfold serve_all, serve. rewrite fmap_cons. cbn [run_serial].
  destruct (run (call_view c) db) as [r db1]. cbn [fst snd].
  by destruct (run_serial (call_view <$> calls) db1).
Qed.

Lemma serve_all_evolves calls db : keyed db → evolves db (serve_all calls db).2.
Proof.
  revert db. induction calls as [|[[e request] task_id] calls IH]; intros db Hk.
  { by apply evolves_refl. }
  rewrite serve_all_cons. simpl. eapply evolves_trans.
  - by apply (handler_evolves e request task_id).
  - apply IH. by apply handler_keyed.
Qed.

(** Nothing leaves DONE. *)
Lemma done_stuck ab a : rtc lifecycle_step (Task.DONE, ab) a → a = (Task.DONE, ab).
Proof.
  inversion 1 as [|? a1 ? [t Hstep]]; [done|]. inversion Hstep.
Qed.

(** Trace refinement.  Whatever lifecycle requests are served one
    after the other, every task of the database moves along the transition
    table of the specification and keeps its id, its charity and its other
    columns. *)
Theorem serve_all_lifecycle calls db i task :
  keyed db → tasks db !! i = Some task →
  ∃ a, rtc lifecycle_step (abs task) a ∧
       tasks (serve_all calls db).2 !! i = Some (with_abs a task).
Proof. intros Hk Hi. by apply (serve_all_evolves calls db Hk). Qed.

(** DONE is final: no sequence of lifecycle requests, served one
    after the other, changes a task that is DONE. *)
Theorem done_final calls db i task :
  keyed db → tasks db !! i = Some task → Task.state task = Task.DONE →
  tasks (serve_all calls db).2 !! i = Some task.
Proof.
  intros Hk Hi Hdone. destruct (serve_all_evolves calls db Hk) as [_ Hev].
  destruct (Hev i task Hi) as (a&Ha&->). f_equal.
  unfold abs in Ha. rewrite Hdone in Ha. apply done_stuck in Ha as ->.
  rewrite <-Hdone. apply with_abs_abs.
Qed.

Lemma serve_all_lifecycle_witness :
  ∃ a, rtc lifecycle_step (abs (sample_task 1 Task.PENDING None)) a ∧
       tasks (serve_all [(RequestTask, sample_request 20 GET [], 1);
                         (RespondTask, sample_request 10 POST [("response", VStr "A")], 1)]
                        sample_db).2 !! 1 =
       Some (with_abs a (sample_task 1 Task.PENDING None)).
Proof. exact (serve_all_lifecycle _ sample_db 1 _ keyed_sample eq_refl). Defined.

Lemma done_final_witness :
  tasks (serve_all [(FinishTask, sample_request 10 POST [], 4);
                    (RespondTask, sample_request 10 POST [("response", VStr "R")], 4);
                    (RequestTask, sample_request 20 GET [], 4)]
                   sample_db).2 !! 4 =
  Some (sample_task 4 Task.DONE (Some 6)).
Proof. exact (done_final _ sample_db 4 _ keyed_sample eq_refl eq_refl). Defined.

(** ** The scenarios of the specification (section 8) *)

Definition status_codes (r : list Response * DB) : list nat :=
  (code ∘ status_code) <$> r.1.

(** Scenario 1: a PENDING task is requested by benefactor 5, accepted by the
    charity and marked done; each step succeeds and the task ends DONE, still
    assigned to benefactor 5. *)
Example scenario_request_accept_done :
  let r := serve_all [(RequestTask, sample_request 20 GET [], 1);
                      (RespondTask, sample_request 10 POST [("response", VStr "A")], 1);
                      (FinishTask, sample_request 10 POST [], 1)] sample_db in
  status_codes r = [200; 200; 200] ∧
  tasks r.2 !! 1 = Some (sample_task 1 Task.DONE (Some 5)).
Proof. by vm_compute. Qed.

(** Scenario 2: the request of benefactor 5 is rejected; the task is PENDING
    with no benefactor, and the request of benefactor 6 then succeeds. *)
Example scenario_reject_then_request :
  let r1 := serve_all [(RequestTask, sample_request 20 GET [], 1);
                       (RespondTask, sample_request 10 POST [("response", VStr "R")], 1)]
                      sample_db in
  let r2 := serve_all [(RequestTask, sample_request 21 GET [], 1)] r1.2 in
  status_codes r1 = [200; 200] ∧
  tasks r1.2 !! 1 = Some (sample_task 1 Task.PENDING None) ∧
  status_codes r2 = [200] ∧
  tasks r2.2 !! 1 = Some (sample_task 1 Task.WAITING (Some 6)).
Proof. by vm_compute. Qed.

(** Scenario 3: done on a PENDING task is a 404 and changes nothing. *)
Example scenario_done_on_pending :
  serve_all [(FinishTask, sample_request 10 POST [], 1)] sample_db =
  ([DoneTask.not_assigned], sample_db).
Proof. by vm_compute. Qed.

(** ** The invariant the specification states *)

(** Section 3 of the specification: "[assigned_benefactor] is set if and
    only if state is WAITING or ASSIGNED". *)
Definition spec_invariant (db : DB) : Prop :=
  map_Forall (λ _ task,
    is_Some (Task.assigned_benefactor task) ↔
    Task.state task = Task.WAITING ∨ Task.state task = Task.ASSIGNED) (tasks db).

(** What the views maintain instead: the benefactor is set if and only if
    the state is not PENDING. *)
Definition code_invariant (db : DB) : Prop :=
  map_Forall (λ _ task,
    Task.assigned_benefactor task = None ↔ Task.state task = Task.PENDING)
    (tasks db).

Lemma wf_db_code_invariant db : wf_db db → code_invariant db.
Proof. intros (Htasks&_) i task Hi. by destruct (Htasks i task Hi) as (_&_&?&_). Qed.

(** C33.  [DoneTask.post] does not clear the assigned benefactor: after it
    has succeeded the task is DONE with a benefactor, and the invariant of
    section 3 of the specification does not hold of the database. *)
Theorem done_breaks_spec_invariant request task_id db task :
  tasks db !! task_id = Some task →
  Task.id task = task_id →
  Task.state task = Task.ASSIGNED →
  is_Some (Task.assigned_benefactor task) →
  bool_decide (spec_invariant (serve (DoneTask.post request task_id) db).2) = false.
Proof.
  intros Htask Hid Hstate Hbf. apply bool_decide_eq_false. intros Hinv.
  unfold DoneTask.post in Hinv. revert Hinv. exec_view. intros Hinv.
  specialize (Hinv task_id _ (lookup_insert_eq _ _ _)). simpl in Hinv.
  apply Hinv in Hbf as [|]; done.
Qed.

Lemma done_breaks_spec_invariant_witness :
  bool_decide (spec_invariant
    (serve (DoneTask.post (sample_request 10 POST []) 3) sample_db).2) = false.
Proof.
  apply (done_breaks_spec_invariant _ 3 sample_db (sample_task 3 Task.ASSIGNED (Some 5)));
    [reflexivity..|by eexists].
Defined.
