(* ===== verification/Concurrency.v ===== *)
(** * Concurrency: lifecycle requests served by concurrent threads

    The specification (section 5) describes the server: one thread per
    request, no lock, no transaction around the read, the check and the
    write of a handler.  A pool of in-flight requests is a list of views;
    [pool_step] lets any of them perform its next ORM call.  This file
    proves what survives every interleaving (the well-formedness of the
    database, termination) and exhibits what does not: the guard of a view
    is checked on a row that another request may have rewritten by the time
    the view saves its own copy. *)

From S2P Require Import Prelude Prog Http Models Permissions Lifecycle Refinement.

(** The views of the requests in flight. *)
Definition pool (calls : list Call) : list (view Response) := call_view <$> calls.

(** ** What every interleaving keeps *)

Lemma lifecycle_pool_safe calls db :
  wf_db db → pool_safe wf_db db_extends (pool calls, db).
Proof.
  intros Hwf. split; [done|]. apply Forall_fmap, Forall_forall.
  intros [[e request] task_id] _. apply lifecycle_safe.
Qed.

(** However the operations of concurrent lifecycle requests
    interleave, every database reached from a well-formed one is well
    formed, and holds every row the first one held. *)
Theorem interleaving_wf calls db c' :
  wf_db db → rtc pool_step (pool calls, db) c' →
  wf_db c'.2 ∧ db_extends db c'.2.
Proof.
  intros Hwf Hsteps.
  destruct (pool_steps_safe wf_db db_extends _ _ Hsteps
              (lifecycle_pool_safe calls db Hwf)) as [[? _] ?].
  done.
Qed.

(** A lifecycle view makes at most three ORM calls. *)
Lemma within_user_benefactor request : within 1 (user_benefactor request).
Proof.
  unfold user_benefactor. destruct (user request); [|done]. by intros [bf|].
Qed.

Lemma handler_within e request task_id : within 3 (handler e request task_id).
Proof.
  destruct e; apply (within_bind 1 2); try apply within_get_object_or_404;
    intros task; cbn beta zeta.
  - case_bool_decide; [done|].
    apply (within_bind 1 1); [apply within_user_benefactor|done].
  - repeat case_match; done.
  - case_bool_decide; done.
Qed.

(** Termination: a pool of [n] concurrent lifecycle requests makes at
    most [3 * n] transitions, whatever the interleaving. *)
Theorem interleaving_terminates calls db n c' :
  nsteps pool_step n (pool calls, db) c' → n ≤ 3 * length calls.
Proof.
  intros Hsteps.
  pose proof (pool_steps_budget (replicate (length calls) 3) n _ _ Hsteps) as Hn.
  rewrite sum_list_replicate in Hn. rewrite Nat.mul_comm. apply Hn.
  simpl. unfold budget, pool. apply Forall2_fmap_r, Forall2_replicate_l; [done|].
  apply Forall_forall. intros [[e request] task_id] _. apply handler_within.
Qed.

(** Serving the requests one after the other is one of the
    interleavings: the responses and the database of [serve_all] are
    reached by transitions of the pool. *)
Theorem serial_interleaving calls db :
  ∃ ts, rtc pool_step (pool calls, db) (ts, (serve_all calls db).2) ∧
        Some <$> (serve_all calls db).1 = (fmap respond ∘ outcome) <$> ts.
Proof.
  rewrite serve_all_serial. fold (pool calls). simpl.
  exists (done <$> (run_serial (pool calls) db).1). split.
  - pose proof (run_schedule_sound (serial_schedule 0 (pool calls) db)
                  (pool calls) db) as Hsteps.
    by rewrite (run_schedule_serial []) in Hsteps.
  - rewrite <-!list_fmap_compose. apply list_fmap_ext. by intros _ [e|r] _.
Qed.

(** ** What an interleaving can break *)

(** Execute a schedule on a pool: step the threads, rewrite with the
    hypotheses and decide the guards. *)
Ltac exec_pool :=
  unfold pool, call_view, handler, TaskRequest.get, TaskResponse.post,
    DoneTask.post, get_object_or_404, user_benefactor, save, call;
  repeat (cbn [run_schedule pool_step1 step1 bind perform orm_effects perform_orm
               fmap list_fmap lookup list_lookup insert list_insert fst snd];
          repeat exec_step).

Section racing_requests.
Context (r1 r2 : Request) (task_id : nat) (db : DB) (task : Task.t).
Context (u1 u2 : nat) (b1 b2 : Benefactor.t).
Context (Htask : tasks db !! task_id = Some task).
Context (Hid : Task.id task = task_id).
Context (Hstate : Task.state task = Task.PENDING).
Context (Hu1 : user r1 = Some u1) (Hb1 : benefactors db !! u1 = Some b1).
Context (Hu2 : user r2 = Some u2) (Hb2 : benefactors db !! u2 = Some b2).

Lemma request_race_schedule :
  run_schedule [0; 1; 0; 0; 1; 1]
    (pool [(RequestTask, r1, task_id); (RequestTask, r2, task_id)]) db =
  ([Ret TaskRequest.request_sent; Ret TaskRequest.request_sent],
   set_tasks <[task_id := waiting_for b2 task]> db).
Proof.
  exec_pool.
  unfold set_tasks, waiting_for, Task.set_assigned_benefactor, Task.set_state.
  simpl. by rewrite insert_insert_eq, Hid.
Qed.

(** C24.  Double assignment.  Two benefactors request the same PENDING task
    at the same time; when both requests read the task before either
    saves it, both pass the guard, both are answered 200 "Request sent.",
    and the task is left assigned to the one that saved last: the
    assignment the other was told of is lost. *)
Theorem request_race :
  rtc pool_step
    (pool [(RequestTask, r1, task_id); (RequestTask, r2, task_id)], db)
    ([Ret TaskRequest.request_sent; Ret TaskRequest.request_sent],
     set_tasks <[task_id := waiting_for b2 task]> db).
Proof. rewrite <-request_race_schedule. apply run_schedule_sound. Qed.

(** Served one after the other, the same two requests exclude each
    other: the first is answered 200 and gets the task, the second is
    answered 404 "This task is not pending.". *)
Theorem request_serial :
  serve_all [(RequestTask, r1, task_id); (RequestTask, r2, task_id)] db =
  ([TaskRequest.request_sent; TaskRequest.not_pending],
   set_tasks <[task_id := waiting_for b1 task]> db).
Proof.
  unfold serve_all, call_view, handler, TaskRequest.get. simpl.
  repeat exec_step.
  unfold waiting_for, Task.set_assigned_benefactor, Task.set_state.
  simpl. by rewrite Hid.
Qed.

End racing_requests.

Lemma request_race_witness :
  rtc pool_step
    (pool [(RequestTask, sample_request 20 GET [], 1);
           (RequestTask, sample_request 21 GET [], 1)], sample_db)
    ([Ret TaskRequest.request_sent; Ret TaskRequest.request_sent],
     set_tasks <[1 := sample_task 1 Task.WAITING (Some 6)]> sample_db).
Proof.
  exact (request_race (sample_request 20 GET []) (sample_request 21 GET []) 1
           sample_db (sample_task 1 Task.PENDING None) 20 21
           (Benefactor.mk 5 20 ∅) (Benefactor.mk 6 21 ∅)
           eq_refl eq_refl eq_refl eq_refl eq_refl eq_refl eq_refl).
Defined.

Lemma request_serial_witness :
  serve_all [(RequestTask, sample_request 20 GET [], 1);
             (RequestTask, sample_request 21 GET [], 1)] sample_db =
  ([TaskRequest.request_sent; TaskRequest.not_pending],
   set_tasks <[1 := sample_task 1 Task.WAITING (Some 5)]> sample_db).
Proof.
  exact (request_serial (sample_request 20 GET []) (sample_request 21 GET []) 1
           sample_db (sample_task 1 Task.PENDING None) 20 (Benefactor.mk 5 20 ∅)
           eq_refl eq_refl eq_refl eq_refl eq_refl).
Defined.

Section racing_done.
Context (ra1 ra2 rd : Request) (task_id : nat) (db : DB) (task : Task.t).
Context (Htask : tasks db !! task_id = Some task).
Context (Hid : Task.id task = task_id).
Context (Hstate : Task.state task = Task.WAITING).
Context (Ha1 : data ra1 !! "response" = Some (VStr "A")).
Context (Ha2 : data ra2 !! "response" = Some (VStr "A")).

Lemma done_race_schedule :
  run_schedule [0; 1; 1; 2; 2; 0]
    (pool [(RespondTask, ra1, task_id); (RespondTask, ra2, task_id);
           (FinishTask, rd, task_id)]) db =
  ([Ret TaskResponse.response_sent; Ret TaskResponse.response_sent;
    Ret DoneTask.done_successfully],
   set_tasks <[task_id := with_abs (Task.ASSIGNED, Task.assigned_benefactor task)
                                   task]> db).
Proof.
  exec_pool. unfold set_tasks, with_abs, Task.set_state. simpl.
  by rewrite !insert_insert_eq.
Qed.

(** C25.  A completed task comes back.  Two acceptances of a WAITING task
    and a done are in flight; the first acceptance reads the task, the
    second acceptance and the done then run to their ends (the task is
    DONE and the charity is told so), and the first acceptance saves its
    stale copy: the task is ASSIGNED again.  Served concurrently, DONE is
    not final. *)
Theorem done_race :
  rtc pool_step
    (pool [(RespondTask, ra1, task_id); (RespondTask, ra2, task_id);
           (FinishTask, rd, task_id)], db)
    ([Ret TaskResponse.response_sent; Ret TaskResponse.response_sent;
      Ret DoneTask.done_successfully],
     set_tasks <[task_id := with_abs (Task.ASSIGNED, Task.assigned_benefactor task)
                                     task]> db).
Proof. rewrite <-done_race_schedule. apply run_schedule_sound. Qed.

End racing_done.

Lemma done_race_witness :
  rtc pool_step
    (pool [(RespondTask, sample_request 10 POST [("response", VStr "A")], 2);
           (RespondTask, sample_request 10 POST [("response", VStr "A")], 2);
           (FinishTask, sample_request 10 POST [], 2)], sample_db)
    ([Ret TaskResponse.response_sent; Ret TaskResponse.response_sent;
      Ret DoneTask.done_successfully],
     set_tasks <[2 := sample_task 2 Task.ASSIGNED (Some 5)]> sample_db).
Proof.
  exact (done_race (sample_request 10 POST [("response", VStr "A")])
           (sample_request 10 POST [("response", VStr "A")])
           (sample_request 10 POST []) 2 sample_db
           (sample_task 2 Task.WAITING (Some 5))
           eq_refl eq_refl eq_refl eq_refl eq_refl).
Defined.

(** The interleaving of the double assignment on the sample database. *)
Lemma sample_race_steps :
  rtc pool_step
    (pool [(RequestTask, sample_request 20 GET [], 1);
           (RequestTask, sample_request 21 GET [], 1)], sample_db)
    ([Ret TaskRequest.request_sent; Ret TaskRequest.request_sent],
     set_tasks <[1 := sample_task 1 Task.WAITING (Some 6)]> sample_db).
Proof.
  rewrite <-(request_race_schedule (sample_request 20 GET [])
               (sample_request 21 GET []) 1 sample_db
               (sample_task 1 Task.PENDING None) 20 21
               (Benefactor.mk 5 20 ∅) (Benefactor.mk 6 21 ∅)) by done.
  apply run_schedule_sound.
Qed.

Lemma interleaving_wf_witness :
  wf_db (set_tasks <[1 := sample_task 1 Task.WAITING (Some 6)]> sample_db) ∧
  db_extends sample_db
    (set_tasks <[1 := sample_task 1 Task.WAITING (Some 6)]> sample_db).
Proof.
  exact (interleaving_wf
           [(RequestTask, sample_request 20 GET [], 1);
            (RequestTask, sample_request 21 GET [], 1)] sample_db _
           wf_sample sample_race_steps).
Defined.

Lemma interleaving_terminates_witness :
  length [0; 1; 0; 0; 1; 1] ≤ 3 * length [(RequestTask, sample_request 20 GET [], 1);
                                          (RequestTask, sample_request 21 GET [], 1)].
Proof.
  apply (interleaving_terminates _ sample_db _
           (run_schedule [0; 1; 0; 0; 1; 1]
              (pool [(RequestTask, sample_request 20 GET [], 1);
                     (RequestTask, sample_request 21 GET [], 1)]) sample_db)).
  apply run_schedule_nsteps. reflexivity.
Defined.
