(* ===== verification/Dispatch.v ===== *)
(** * Dispatch: the lifecycle views behind their permission classes

    A request reaches a handler only after the permission classes of its
    view have accepted it.  [request_view], [response_view] and [done_view]
    are the three views as the URL dispatcher calls them: [as_view] over the
    [permission_classes] of the class and its handler.  The theorems say
    who is refused, that an accepted request is served by the handler, and
    that the permission classes look at the caller only, never at the
    task. *)

From S2P Require Import Prelude Prog Http Models Permissions Lifecycle.

Local Open Scope prog_scope.

(** [GET /tasks/<task_id>/request] *)
Definition request_view (request : Request) (task_id : nat) : view Response :=
  as_view TaskRequest.permission_classes (λ r, TaskRequest.get r task_id) request.

(** [POST /tasks/<task_id>/response] *)
Definition response_view (request : Request) (task_id : nat) : view Response :=
  as_view TaskResponse.permission_classes (λ r, TaskResponse.post r task_id) request.

(** [POST /tasks/<task_id>/done] *)
Definition done_view (request : Request) (task_id : nat) : view Response :=
  as_view DoneTask.permission_classes (λ r, DoneTask.post r task_id) request.

Definition forbidden : Response := mkResponse (Detail msg_denied) HTTP_403_FORBIDDEN.

(** ** The permission checks, executed *)

Section permissions.
Implicit Types (request : Request) (db : DB).

(** A list of permission classes with what each decides. *)
Definition decided (ps : list (Request → DB → bool)) (perms : list Permission) : Prop :=
  Forall2 allowed ps perms.

(** The conjunction the checks compute: all accept. *)
Definition all_allow (ps : list (Request → DB → bool)) request db : bool :=
  forallb (λ p, p request db) ps.

Lemma run_check_permissions ps perms request db :
  decided ps perms →
  run (check_permissions perms request) db =
  (if all_allow ps request db then inr tt else inl (permission_denied request), db).
Proof.
  induction 1 as [|p perm ps perms Hp _ IH]; simpl; [done|].
  rewrite run_bind, Hp. destruct (p request db); simpl; [apply IH|done].
Qed.

Lemma serve_as_view ps perms handler request db :
  decided ps perms →
  serve (as_view perms handler request) db =
  if all_allow ps request db then serve (handler request) db else (forbidden, db).
Proof.
  intros Hps. unfold serve, as_view.
  rewrite run_bind, (run_check_permissions ps) by done.
  destruct (all_allow ps request db); [done|]. simpl.
  unfold permission_denied. by destruct (user request).
Qed.

Lemma serve_dispatch {K} ps (v : APIView K) request (kwargs : K) db :
  decided ps (view_permissions v request) →
  serve (dispatch v request kwargs) db =
  if all_allow ps request db then serve (handle v request kwargs) db
  else (forbidden, db).
Proof. apply (serve_as_view ps _ (λ r, handle v r kwargs)). Qed.

Lemma decided_benefactor :
  decided [is_authenticated; is_benefactor] TaskRequest.permission_classes.
Proof.
  constructor; [apply IsAuthenticated_allowed|].
  constructor; [apply IsBenefactor_allowed|constructor].
Qed.

Lemma decided_charity perms :
  perms = [IsAuthenticated; IsCharityOwner] →
  decided [is_authenticated; is_charity] perms.
Proof.
  intros ->. constructor; [apply IsAuthenticated_allowed|].
  constructor; [apply IsCharityOwner_allowed|constructor].
Qed.

Lemma all_allow_benefactor request db :
  all_allow [is_authenticated; is_benefactor] request db = is_benefactor request db.
Proof.
  unfold all_allow, is_authenticated, is_benefactor. simpl.
  destruct (user request); simpl; [by rewrite andb_true_r|done].
Qed.

Lemma all_allow_charity request db :
  all_allow [is_authenticated; is_charity] request db = is_charity request db.
Proof.
  unfold all_allow, is_authenticated, is_charity. simpl.
  destruct (user request); simpl; [by rewrite andb_true_r|done].
Qed.

Lemma decided_one p perm : allowed p perm → decided [p] [perm].
Proof. intros Hp. constructor; [done|constructor]. Qed.

Lemma all_allow_one p request db : all_allow [p] request db = p request db.
Proof. unfold all_allow. simpl. apply andb_true_r. Qed.

Lemma serve_request_view request task_id db :
  serve (request_view request task_id) db =
  if is_benefactor request db then serve (TaskRequest.get request task_id) db
  else (forbidden, db).
Proof.
  unfold request_view. rewrite (serve_as_view _ _ _ _ _ decided_benefactor).
  by rewrite all_allow_benefactor.
Qed.

Lemma serve_response_view request task_id db :
  serve (response_view request task_id) db =
  if is_charity request db then serve (TaskResponse.post request task_id) db
  else (forbidden, db).
Proof.
  unfold response_view.
  rewrite (serve_as_view _ _ _ _ _ (decided_charity _ eq_refl)).
  by rewrite all_allow_charity.
Qed.

Lemma serve_done_view request task_id db :
  serve (done_view request task_id) db =
  if is_charity request db then serve (DoneTask.post request task_id) db
  else (forbidden, db).
Proof.
  unfold done_view.
  rewrite (serve_as_view _ _ _ _ _ (decided_charity _ eq_refl)).
  by rewrite all_allow_charity.
Qed.

End permissions.

(** ** Who is refused *)

(** A caller who is anonymous or has no benefactor profile is refused
    by [TaskRequest] with a 403 before the task is looked up; nothing
    changes. *)
Theorem request_view_refused request task_id db :
  is_benefactor request db = false →
  serve (request_view request task_id) db = (forbidden, db).
Proof. intros Hno. by rewrite serve_request_view, Hno. Qed.

Lemma request_view_refused_witness :
  serve (request_view (sample_request 10 GET []) 1) sample_db = (forbidden, sample_db).
Proof. apply request_view_refused. reflexivity. Defined.

(** A caller who is anonymous or has no charity profile is refused by
    [TaskResponse] and [DoneTask]. *)
Theorem charity_views_refused request task_id db :
  is_charity request db = false →
  serve (response_view request task_id) db = (forbidden, db) ∧
  serve (done_view request task_id) db = (forbidden, db).
Proof. intros Hno. by rewrite serve_response_view, serve_done_view, Hno. Qed.

Lemma charity_views_refused_witness :
  serve (response_view (sample_request 20 POST [("response", VStr "A")]) 2) sample_db =
    (forbidden, sample_db) ∧
  serve (done_view (sample_request 20 POST [("response", VStr "A")]) 2) sample_db =
    (forbidden, sample_db).
Proof. apply charity_views_refused. reflexivity. Defined.

(** Behind its permission classes [TaskRequest] never ends in an
    unhandled exception: a caller accepted by [IsBenefactor] has the
    profile the handler reads, so the answer is 200, 403 or 404. *)
Theorem request_view_status request task_id db :
  status_code (serve (request_view request task_id) db).1 ∈
  [HTTP_200_OK; HTTP_403_FORBIDDEN; HTTP_404_NOT_FOUND].
Proof.
  rewrite serve_request_view. unfold is_benefactor.
  case_bool_decide as Hbf; [|simpl; set_solver].
  destruct Hbf as [bf Hbf]. destruct (user request) as [u|] eqn:Hu; [|done].
  simpl in Hbf. unfold TaskRequest.get. exec_view.
  destruct (tasks db !! task_id) as [task|]; simpl; [|set_solver].
  case_bool_decide; exec_view; set_solver.
Qed.

(** ** The permission classes do not look at the task *)

(** C34.  Any user with a charity profile can mark any ASSIGNED task done,
    whichever charity the task belongs to: [IsCharityOwner] accepts the
    caller for having a charity, and the handler never compares the
    caller's charity with the task's. *)
Theorem done_view_any_charity request task_id db task u ch :
  tasks db !! task_id = Some task →
  Task.id task = task_id →
  Task.state task = Task.ASSIGNED →
  user request = Some u →
  charities db !! u = Some ch →
  serve (done_view request task_id) db =
  (DoneTask.done_successfully,
   set_tasks <[task_id := Task.mk task_id Task.DONE
                 (Task.assigned_benefactor task)
                 (Task.charity task) (Task.fields task)]> db).
Proof.
  intros Htask Hid Hstate Hu Hch. rewrite serve_done_view.
  unfold is_charity. rewrite Hu. simpl. rewrite Hch.
  rewrite bool_decide_eq_true_2 by done. unfold DoneTask.post. exec_view.
  unfold Task.set_state. by rewrite Hid.
Qed.

(** User 11 owns charity 2; task 3 belongs to charity 1. *)
Lemma done_view_any_charity_witness :
  Task.charity (sample_task 3 Task.ASSIGNED (Some 5)) = 1 ∧
  charities sample_db !! 11 = Some (Charity.mk 2 11 ∅) ∧
  serve (done_view (sample_request 11 POST []) 3) sample_db =
  (DoneTask.done_successfully,
   set_tasks <[3 := sample_task 3 Task.DONE (Some 5)]> sample_db).
Proof.
  split_and!; [reflexivity..|].
  apply (done_view_any_charity _ 3 sample_db (sample_task 3 Task.ASSIGNED (Some 5))
           11 (Charity.mk 2 11 ∅)); reflexivity.
Defined.

(** Any user with a charity profile can answer the request of a
    benefactor for a task of another charity; here, reject it. *)
Theorem response_view_any_charity request task_id db task u ch :
  tasks db !! task_id = Some task →
  Task.id task = task_id →
  Task.state task = Task.WAITING →
  user request = Some u →
  charities db !! u = Some ch →
  data request !! "response" = Some (VStr "R") →
  serve (response_view request task_id) db =
  (TaskResponse.response_sent,
   set_tasks <[task_id := Task.mk task_id Task.PENDING None
                 (Task.charity task) (Task.fields task)]> db).
Proof.
  intros Htask Hid Hstate Hu Hch Hresp. rewrite serve_response_view.
  unfold is_charity. rewrite Hu. simpl. rewrite Hch.
  rewrite bool_decide_eq_true_2 by done. unfold TaskResponse.post. exec_view.
  unfold Task.set_assigned_benefactor, Task.set_state. simpl. by rewrite Hid.
Qed.

Lemma response_view_any_charity_witness :
  serve (response_view (sample_request 11 POST [("response", VStr "R")]) 2) sample_db =
  (TaskResponse.response_sent,
   set_tasks <[2 := sample_task 2 Task.PENDING None]> sample_db).
Proof.
  apply (response_view_any_charity _ 2 sample_db (sample_task 2 Task.WAITING (Some 5))
           11 (Charity.mk 2 11 ∅)); reflexivity.
Defined.

(** ** No limit on the tasks of a benefactor *)

Lemma serve_request_view_pending request task_id db task u benefactor :
  tasks db !! task_id = Some task → Task.id task = task_id →
  Task.state task = Task.PENDING →
  user request = Some u → benefactors db !! u = Some benefactor →
  serve (request_view request task_id) db =
  (TaskRequest.request_sent,
   set_tasks <[task_id := waiting_for benefactor task]> db).
Proof.
  intros Htask Hid Hstate Hu Hbf. rewrite serve_request_view.
  unfold is_benefactor. rewrite Hu. simpl. rewrite Hbf.
  rewrite bool_decide_eq_true_2 by done. unfold TaskRequest.get. exec_view.
  by unfold Task.set_assigned_benefactor, Task.set_state, waiting_for.
Qed.

(** C35.  A benefactor who waits for one task can request another: the view
    never looks for the tasks the caller is already assigned to, so one
    benefactor can hold any number of tasks at a time. *)
Theorem benefactor_many_tasks request i j db task_i task_j u benefactor :
  i ≠ j →
  tasks db !! i = Some task_i → Task.id task_i = i → Task.state task_i = Task.PENDING →
  tasks db !! j = Some task_j → Task.id task_j = j → Task.state task_j = Task.PENDING →
  user request = Some u → benefactors db !! u = Some benefactor →
  serve (request_view request j) (serve (request_view request i) db).2 =
  (TaskRequest.request_sent,
   set_tasks (λ t, <[j := waiting_for benefactor task_j]>
                     (<[i := waiting_for benefactor task_i]> t)) db).
Proof.
  intros Hij Hi Hidi Hsi Hj Hidj Hsj Hu Hbf.
  rewrite (serve_request_view_pending request i db task_i u benefactor) by done.
  simpl. rewrite (serve_request_view_pending request j _ task_j u benefactor);
    [by destruct db|by simpl; rewrite lookup_insert_ne|done..].
Qed.

(** Tasks 1 and 5 are PENDING; benefactor 5 (user 20) requests both. *)
Definition two_pending_db : DB :=
  set_tasks <[5 := sample_task 5 Task.PENDING None]> sample_db.

Lemma benefactor_many_tasks_witness :
  serve (request_view (sample_request 20 GET []) 5)
    (serve (request_view (sample_request 20 GET []) 1) two_pending_db).2 =
  (TaskRequest.request_sent,
   set_tasks (λ t, <[5 := sample_task 5 Task.WAITING (Some 5)]>
                     (<[1 := sample_task 1 Task.WAITING (Some 5)]> t)) two_pending_db).
Proof.
  apply (benefactor_many_tasks (sample_request 20 GET []) 1 5 two_pending_db
           (sample_task 1 Task.PENDING None) (sample_task 5 Task.PENDING None)
           20 (Benefactor.mk 5 20 ∅)); (reflexivity || done).
Defined.
