(* ===== verification/Schema.v ===== *)
(** * Schema: what the views assume of the model and serializer classes

    [Tasks], [BenefactorRegistration] and [CharityRegistration] call code of
    the repository that is not part of the verified sources: the lookup
    tables and the manager of the [Task] model, and the serializer classes.
    This file states what the views use of them as type classes; the
    theorems about the views are proved for every instance, and the sample
    instances at the end serve to run the views on concrete requests. *)

From S2P Require Import Prelude Prog Http Models.

(** The [Task] model as [Tasks] uses it: the tables
    [Task.filtering_lookups] and [Task.excluding_lookups] of pairs (lookup
    name, query parameter), the manager method
    [Task.objects.all_related_tasks_to_user], and the meaning of a field
    lookup [name=param] as the rows for which it holds. *)
Class TaskModel := {
  filtering_lookups : list (string * string);
  excluding_lookups : list (string * string);
  all_related_tasks_to_user : option nat → QuerySet;
  lookup : string → string → QuerySet;
}.

(** A serializer class: [is_valid] gives the errors or the validated data
    (of type [V]), [to_representation] the data of a row (of type [R]). *)
Class Serializer (V R : Type) := {
  is_valid : Data → Data + V;
  to_representation : R → Data;
}.

(** [TaskSerializer] validates into the task to create,
    [BenefactorSerializer] and [CharitySerializer] into the columns of the
    profile. *)
Abbreviation TaskSerializer := (Serializer Task.t Task.t).
Abbreviation BenefactorSerializer := (Serializer Data Benefactor.t).
Abbreviation CharitySerializer := (Serializer Data Charity.t).

(** What the lifecycle needs of [TaskSerializer]: the task to create belongs
    to the charity named by [charity_id], an existing one, and starts
    PENDING with no benefactor. *)
Class TaskSerializerLaws `{!TaskSerializer} : Prop := {
  valid_charity d task :
    is_valid d = inr task →
    d !! "charity_id" = Some (VInt (Z.of_nat (Task.charity task)));
  valid_pending d task :
    is_valid d = inr task →
    Task.state task = Task.PENDING ∧ Task.assigned_benefactor task = None;
}.

(** [django.contrib.auth.hashers.make_password]: the hash stored for a raw
    password; for [None], an unusable password. *)
Class Hasher := make_password : option string → string.

(** ** Django's [filter] and [exclude] *)

Section querysets.
Context `{!TaskModel}.

(** Every lookup of the dictionary holds of the row. *)
Definition holds_all (kw : gmap string string) : QuerySet :=
  λ db task, bool_decide (map_Forall (λ name param, lookup name param db task = true) kw).

(** [queryset.filter] with the keyword arguments [kw]: the rows of the query set for which every
    lookup holds. *)
Definition qs_filter (kw : gmap string string) (q : QuerySet) : QuerySet :=
  λ db task, q db task && holds_all kw db task.

(** [queryset.exclude] with the keyword arguments [kw]: the rows of the query set for which not
    every lookup holds; with no lookup, every row. *)
Definition qs_exclude (kw : gmap string string) (q : QuerySet) : QuerySet :=
  λ db task, q db task && (bool_decide (kw = ∅) || negb (holds_all kw db task)).

Lemma holds_all_empty db task : holds_all ∅ db task = true.
Proof. apply bool_decide_eq_true, map_Forall_empty. Qed.

Lemma qs_filter_empty q db task : qs_filter ∅ q db task = q db task.
Proof. unfold qs_filter. by rewrite holds_all_empty, andb_true_r. Qed.

Lemma qs_exclude_empty q db task : qs_exclude ∅ q db task = q db task.
Proof. unfold qs_exclude. by rewrite bool_decide_eq_true_2, andb_true_r. Qed.

Lemma holds_all_true kw db task :
  holds_all kw db task = true ↔
  ∀ name param, kw !! name = Some param → lookup name param db task = true.
Proof. unfold holds_all. by rewrite bool_decide_eq_true. Qed.

End querysets.

(** ** Sample instances *)

(** A task model with two filters and two exclusions that share a query
    parameter; a lookup holds when the column of that name has exactly the
    value. *)
Definition sample_model : TaskModel := {|
  filtering_lookups := [("title", "title"); ("gender_limit", "gender")];
  excluding_lookups := [("age_limit_from", "age"); ("age_limit_to", "age")];
  all_related_tasks_to_user := λ _ _ _, true;
  lookup := λ name param _ task,
    bool_decide (Task.fields task !! name = Some (VStr param));
|}.

(** A task serializer that requires a title and the charity id. *)
Definition sample_task_serializer : TaskSerializer := {|
  is_valid := λ d,
    match d !! "charity_id", d !! "title" with
    | Some (VInt c), Some (VStr _) =>
        if bool_decide (0 ≤ c)%Z
        then inr (Task.mk 0 Task.PENDING None (Z.to_nat c) (delete "charity_id" d))
        else inl {["charity_id" := VStr "Invalid pk."]}
    | _, _ => inl {["title" := VStr "This field is required."]}
    end;
  to_representation := λ task,
    <["id" := VInt (Z.of_nat (Task.id task))]> (Task.fields task);
|}.

Lemma sample_task_serializer_laws : TaskSerializerLaws (H:=sample_task_serializer).
Proof.
  split; intros d task; simpl; repeat case_match; intros; simplify_eq; try done.
  simpl. case_bool_decide; [|done]. by rewrite Z2Nat.id.
Qed.

(** Profile serializers that require a name. *)
Definition sample_profile_is_valid (d : Data) : Data + Data :=
  match d !! "name" with
  | Some (VStr _) => inr d
  | _ => inl {["name" := VStr "This field is required."]}
  end.

Definition sample_benefactor_serializer : BenefactorSerializer := {|
  is_valid := sample_profile_is_valid;
  to_representation := λ b, <["id" := VInt (Z.of_nat (Benefactor.id b))]> (Benefactor.fields b);
|}.

Definition sample_charity_serializer : CharitySerializer := {|
  is_valid := sample_profile_is_valid;
  to_representation := λ c, <["id" := VInt (Z.of_nat (Charity.id c))]> (Charity.fields c);
|}.

(** A hasher that is visibly not the identity. *)
Definition sample_hasher : Hasher := λ raw,
  match raw with
  | Some raw => "pbkdf2$" +:+ raw
  | None => "!"
  end.
