(* ===== verification/TaskList.v ===== *)
(** * TaskList: the [Tasks] view, listing and creation of tasks

    [Tasks] of [src/charities/views.py]: the query set of the tasks related
    to the caller, narrowed by the query parameters of the request
    ([filter_queryset]); the creation of a task under the caller's charity
    ([post]); the permissions by method ([get_permissions]).  The model and
    serializer classes it calls are those of file Schema. *)

From S2P Require Import Prelude Prog Http Models Permissions Lifecycle Refinement Dispatch Schema.

Local Open Scope prog_scope.

(** [request.user.charity]: as [request.user.benefactor]. *)
Definition user_charity (request : Request) : view Charity.t :=
  match user request with
  | None => Raise AttributeError
  | Some u =>
      o <- call (UserCharity u) ;;
      match o with
      | Some charity => Ret charity
      | None => Raise RelatedObjectDoesNotExist
      end
  end.

(** The data [Tasks.post] hands to the serializer: the data of the request
    with [charity_id] set to the id of the caller's charity. *)
Definition post_data (request : Request) (charity : Charity.t) : Data :=
  <["charity_id" := VInt (Z.of_nat (Charity.id charity))]> (data request).

Module Tasks.

Section tasks.
Context `{!TaskModel} `{!TaskSerializer}.

Definition get_queryset (request : Request) : QuerySet :=
  all_related_tasks_to_user (user request).

(** The loop of [filter_queryset]: for each pair (name, value) of the
    table, in order, the query parameter [value] is read, and when it is
    there and not empty it is stored under [name]. *)
Definition lookups (table : list (string * string)) (request : Request)
  : gmap string string :=
  foldl (λ acc '(name, value),
           match query request !! value with
           | Some param => if truthy param then <[name := param]> acc else acc
           | None => acc
           end) ∅ table.

Definition filter_queryset (request : Request) (queryset : QuerySet) : QuerySet :=
  let filter_lookups := lookups filtering_lookups request in
  let exclude_lookups := lookups excluding_lookups request in
  qs_exclude exclude_lookups (qs_filter filter_lookups queryset).

Definition get_permissions (request : Request) : list Permission :=
  if bool_decide (method request ∈ SAFE_METHODS) then [IsAuthenticated]
  else [IsCharityOwner].

Definition post (request : Request) : view Response :=
  charity <- user_charity request ;;
  let data := post_data request charity in
  match is_valid data with
  | inl errors => Raise (ValidationError errors)
  | inr validated =>
      task <- call (TaskCreate validated) ;;
      Ret (mkResponse (Serialized (to_representation task)) HTTP_201_CREATED)
  end.

(** The [get] that [Tasks] inherits from the framework's list view: the
    filtered query set is evaluated and its rows are serialized. *)
Definition get (request : Request) : view Response :=
  rows <- call (TaskSelect (filter_queryset request (get_queryset request))) ;;
  Ret (mkResponse (SerializedList (fmap (M:=list) to_representation rows)) HTTP_200_OK).

(** The class [Tasks], a list-and-create view: the permissions are those
    of [get_permissions], [get] is inherited and [post] overridden. *)
Definition view_class : APIView unit :=
  mkAPIView get_permissions
            (λ m, match m with
                  | GET => Some (λ request _, get request)
                  | POST => Some (λ request _, post request)
                  | _ => None
                  end).

End tasks.

End Tasks.

(** [GET /tasks] and [POST /tasks] as the URL dispatcher calls them, the
    permissions being those [get_permissions] chooses for the method of the
    request. *)
Definition list_view `{!TaskModel} `{!TaskSerializer} (request : Request)
  : view Response :=
  as_view (Tasks.get_permissions request) Tasks.get request.

Definition create_view `{!TaskSerializer} (request : Request) : view Response :=
  as_view (Tasks.get_permissions request) Tasks.post request.

(** ** The caller's charity *)

Lemma run_user_charity request db :
  run (user_charity request) db =
  (match user request with
   | None => inl AttributeError
   | Some u =>
       match charities db !! u with
       | Some charity => inr charity
       | None => inl RelatedObjectDoesNotExist
       end
   end, db).
Proof.
  unfold user_charity. destruct (user request) as [u|]; simpl; [|done].
  by destruct (charities db !! u).
Qed.

#[export] Hint Rewrite run_user_charity : exec.

(** ** The lookups collected from the query parameters *)

Section lookups.
Implicit Types (request : Request) (table : list (string * string)).

Lemma lookups_snoc table name value request :
  Tasks.lookups (table ++ [(name, value)]) request =
  match query request !! value with
  | Some param =>
      if truthy param then <[name := param]> (Tasks.lookups table request)
      else Tasks.lookups table request
  | None => Tasks.lookups table request
  end.
Proof. unfold Tasks.lookups. by rewrite foldl_app. Qed.

(** Whatever is collected was sent, under the parameter the table names,
    and is not empty. *)
Lemma lookups_sound table request name param :
  Tasks.lookups table request !! name = Some param →
  ∃ value, (name, value) ∈ table ∧ query request !! value = Some param ∧ param ≠ "".
Proof.
  induction table as [|[name' value'] table IH] using rev_ind; [done|].
  rewrite lookups_snoc. setoid_rewrite elem_of_app. setoid_rewrite list_elem_of_singleton.
  destruct (query request !! value') as [param'|] eqn:Hq; [|naive_solver].
  unfold truthy. case_bool_decide as Hempty; simpl; [naive_solver|].
  destruct (decide (name' = name)) as [->|Hne].
  - rewrite lookup_insert_eq. intros [= ->]. exists value'. naive_solver.
  - rewrite lookup_insert_ne by done. naive_solver.
Qed.

(** With no query parameter nothing is collected. *)
Lemma lookups_no_query table request :
  query request = ∅ → Tasks.lookups table request = ∅.
Proof.
  intros Hq. induction table as [|[name value] table IH] using rev_ind; [done|].
  by rewrite lookups_snoc, Hq, lookup_empty.
Qed.

(** When no lookup name occurs twice in the table, every parameter that
    was sent and is not empty is collected. *)
Lemma lookups_complete table request name value param :
  NoDup table.*1 → (name, value) ∈ table →
  query request !! value = Some param → param ≠ "" →
  Tasks.lookups table request !! name = Some param.
Proof.
  intros Hnodup Hin Hq Hparam.
  induction table as [|[name' value'] table IH] using rev_ind; [by inv Hin|].
  rewrite fmap_app in Hnodup. apply NoDup_app in Hnodup as (Hnodup&Hfresh&_).
  rewrite lookups_snoc. apply elem_of_app in Hin as [Hin|Hin].
  - assert (name ≠ name') as Hne.
    { intros ->. apply (Hfresh name'); [|set_solver].
      apply list_elem_of_fmap. by exists (name', value). }
    destruct (query request !! value'); [|by apply IH].
    destruct (truthy _); [|by apply IH].
    rewrite lookup_insert_ne by done. by apply IH.
  - apply list_elem_of_singleton in Hin as [= <- <-]. rewrite Hq. unfold truthy.
    rewrite bool_decide_eq_false_2 by done. apply lookup_insert_eq.
Qed.

End lookups.

(** ** [Tasks.filter_queryset] *)

Section filtering.
Context `{!TaskModel}.
Implicit Types (request : Request) (db : DB) (task : Task.t) (q : QuerySet).

(** The lookups of a request that hold of a row. *)
Definition passes (kw : gmap string string) db task : Prop :=
  ∀ name param, kw !! name = Some param → lookup name param db task = true.

Lemma filter_queryset_unfold request q db task :
  Tasks.filter_queryset request q db task = true ↔
  q db task = true ∧
  passes (Tasks.lookups filtering_lookups request) db task ∧
  (Tasks.lookups excluding_lookups request = ∅ ∨
   ¬ passes (Tasks.lookups excluding_lookups request) db task).
Proof.
  unfold Tasks.filter_queryset, qs_exclude, qs_filter. cbn zeta.
  rewrite !andb_true_iff, orb_true_iff, negb_true_iff, bool_decide_eq_true.
  rewrite <-not_true_iff_false, !holds_all_true. unfold passes. tauto.
Qed.

Lemma not_passes kw db task :
  ¬ passes kw db task ↔
  ∃ name param, kw !! name = Some param ∧ lookup name param db task = false.
Proof.
  split.
  - intros Hnot.
    change (¬ map_Forall (λ name param, lookup name param db task = true) kw) in Hnot.
    apply map_not_Forall in Hnot as (name&param&?&?%not_true_is_false); [eauto|apply _].
  - intros (name&param&Hkw&Hl) Hall. by rewrite (Hall _ _ Hkw) in Hl.
Qed.

(** The lookups collected from a table, read off the query parameters. *)
Lemma lookups_iff table request name param :
  NoDup table.*1 →
  Tasks.lookups table request !! name = Some param ↔
  ∃ value, (name, value) ∈ table ∧ query request !! value = Some param ∧ param ≠ "".
Proof.
  intros Hnodup. split; [apply lookups_sound|].
  intros (value&?&?&?). by eapply lookups_complete.
Qed.

End filtering.

(** ** Theorems on the collection of lookups *)

(** The loop of [filter_queryset] collects, for a table without a
    repeated lookup name, exactly the lookups whose query parameter was sent
    and is not empty, each with the value sent. *)
Theorem lookups_spec table request :
  NoDup table.*1 →
  (∀ name param,
     Tasks.lookups table request !! name = Some param ↔
     ∃ value, (name, value) ∈ table ∧ query request !! value = Some param ∧
              truthy param = true) ∧
  dom (Tasks.lookups table request) ⊆ list_to_set table.*1.
Proof.
  intros Hnodup. split.
  - intros name param. rewrite (lookups_iff _ _ _ _ Hnodup). unfold truthy.
    setoid_rewrite negb_true_iff. by setoid_rewrite bool_decide_eq_false.
  - intros name [param (value&Hin&_)%lookups_sound]%elem_of_dom.
    apply elem_of_list_to_set, list_elem_of_fmap. by exists (name, value).
Qed.

Lemma lookups_spec_witness :
  (∀ name param,
     Tasks.lookups [("title", "title"); ("gender_limit", "gender")]
       (mkRequest (Some 20) GET ∅ {["gender" := "F"; "title" := ""]})
       !! name = Some param ↔
     ∃ value, (name, value) ∈ [("title", "title"); ("gender_limit", "gender")] ∧
              ({["gender" := "F"; "title" := ""]} : gmap string string) !! value
                = Some param ∧
              truthy param = true) ∧
  dom (Tasks.lookups [("title", "title"); ("gender_limit", "gender")]
         (mkRequest (Some 20) GET ∅ {["gender" := "F"; "title" := ""]}))
    ⊆ list_to_set [("title", "title"); ("gender_limit", "gender")].*1.
Proof. apply lookups_spec. by apply (bool_decide_unpack _). Defined.

Section tasks_theorems.
Context `{!TaskModel} `{!TaskSerializer}.
Implicit Types (request : Request) (db : DB) (task : Task.t) (q : QuerySet).

(** A request without query parameters is not filtered: the query
    set is returned as it came. *)
Theorem filter_queryset_no_query request q db task :
  query request = ∅ → Tasks.filter_queryset request q db task = q db task.
Proof.
  intros Hq. unfold Tasks.filter_queryset. cbn zeta.
  by rewrite !lookups_no_query, qs_exclude_empty, qs_filter_empty.
Qed.

(** C8.  Which rows [filter_queryset] keeps, in terms of the query
    parameters: the rows of the query set for which every filtering lookup
    whose parameter was sent holds, and, when some excluding parameter was
    sent, for which one of the excluding lookups sent does not hold. *)
Theorem filter_queryset_spec request q db task :
  NoDup filtering_lookups.*1 → NoDup excluding_lookups.*1 →
  Tasks.filter_queryset request q db task = true ↔
  q db task = true ∧
  (∀ name value param,
     (name, value) ∈ filtering_lookups → query request !! value = Some param →
     param ≠ "" → lookup name param db task = true) ∧
  (Tasks.lookups excluding_lookups request = ∅ ∨
   ∃ name value param,
     (name, value) ∈ excluding_lookups ∧ query request !! value = Some param ∧
     param ≠ "" ∧ lookup name param db task = false).
Proof.
  intros Hf He. rewrite filter_queryset_unfold, not_passes. unfold passes.
  setoid_rewrite (lookups_iff _ _ _ _ Hf). setoid_rewrite (lookups_iff _ _ _ _ He).
  naive_solver.
Qed.

(** C37.  Exclusion is conjunctive: a row is left out only when every
    excluding lookup that was sent holds of it.  A row for which one of
    them fails stays in the list, whatever the others say. *)
Theorem exclude_needs_all request q db task name param :
  q db task = true →
  passes (Tasks.lookups filtering_lookups request) db task →
  Tasks.lookups excluding_lookups request !! name = Some param →
  lookup name param db task = false →
  Tasks.filter_queryset request q db task = true.
Proof.
  intros Hq Hf Hname Hl. apply filter_queryset_unfold. split_and!; [done..|].
  right. apply not_passes. eauto.
Qed.

(** [GET /tasks] answers 200 with the serialized rows of the table
    that are related to the caller and kept by the filter, and changes
    nothing. *)
Theorem get_lists request db :
  ∃ rows,
    serve (Tasks.get request) db =
      (mkResponse (SerializedList (to_representation <$> rows)) HTTP_200_OK, db) ∧
    ∀ task, task ∈ rows ↔
      (∃ i, tasks db !! i = Some task) ∧
      Tasks.filter_queryset request (all_related_tasks_to_user (user request)) db task
        = true.
Proof.
  eexists. split; [done|]. intros task. apply elem_of_select.
Qed.

(** ** [Tasks.post] *)

Lemma serve_post request db u charity :
  user request = Some u → charities db !! u = Some charity →
  serve (Tasks.post request) db =
  match is_valid (post_data request charity) with
  | inl errors => (mkResponse (Errors errors) HTTP_400_BAD_REQUEST, db)
  | inr validated =>
      (mkResponse (Serialized (to_representation (insert_task validated db).1))
                  HTTP_201_CREATED,
       (insert_task validated db).2)
  end.
Proof.
  intros Hu Hch. unfold Tasks.post, post_data. exec_view.
  destruct (is_valid _) as [errors|validated]; [done|]. exec_view.
  by destruct (insert_task validated db).
Qed.

(** C9.  A charity's valid task is created: the row is inserted under the
    next id of the sequence and the answer is 201 with its data. *)
Theorem post_creates request db u charity validated :
  user request = Some u → charities db !! u = Some charity →
  is_valid (post_data request charity) = inr validated →
  serve (Tasks.post request) db =
  (mkResponse (Serialized (to_representation (insert_task validated db).1))
              HTTP_201_CREATED,
   (insert_task validated db).2).
Proof. intros Hu Hch Hvalid. by rewrite (serve_post _ _ u charity), Hvalid. Qed.

(** Invalid data is answered 400 with the errors of the serializer,
    and nothing is created. *)
Theorem post_invalid request db u charity errors :
  user request = Some u → charities db !! u = Some charity →
  is_valid (post_data request charity) = inl errors →
  serve (Tasks.post request) db = (mkResponse (Errors errors) HTTP_400_BAD_REQUEST, db).
Proof. intros Hu Hch Hvalid. by rewrite (serve_post _ _ u charity), Hvalid. Qed.

(** The charity of the new task is the caller's: a [charity_id] sent
    by the client is overwritten before the data is validated. *)
Theorem post_ignores_charity_id u m d qs v db :
  serve (Tasks.post (mkRequest u m (<["charity_id" := v]> d) qs)) db =
  serve (Tasks.post (mkRequest u m d qs)) db.
Proof.
  unfold serve, Tasks.post. rewrite !run_bind, !run_user_charity. simpl.
  destruct u as [u|]; [|done]. destruct (charities db !! u); [|done].
  unfold post_data. simpl. by rewrite insert_insert_eq.
Qed.

(** ** The invariant, operation by operation *)

Lemma safe_user_charity request db0 :
  safe wf_db db_extends (λ ch db, charity_exists db (Charity.id ch))
       (user_charity request) db0.
Proof.
  unfold user_charity. destruct (user request) as [u|]; [|done].
  intros db _ Hwf. simpl. split_and!; [done..|].
  destruct (charities db !! u) as [ch|] eqn:Hch; simpl; [|done].
  by eapply wf_db_charity.
Qed.

Lemma get_safe request db0 :
  safe wf_db db_extends (λ _ _, True) (Tasks.get request) db0.
Proof. eapply safe_bind; [apply safe_task_select|done]. Qed.

Lemma post_safe `{!TaskSerializerLaws} request db0 :
  safe wf_db db_extends (λ _ _, True) (Tasks.post request) db0.
Proof.
  eapply safe_bind; [apply safe_user_charity|].
  intros ch db Hch. cbn beta zeta.
  destruct (is_valid _) as [errors|validated] eqn:Hvalid; [done|].
  destruct (valid_pending _ _ Hvalid) as [Hstate Hbf].
  apply valid_charity in Hvalid. unfold post_data in Hvalid.
  rewrite lookup_insert_eq in Hvalid.
  injection Hvalid as Hid%Nat2Z.inj.
  eapply safe_bind; [apply safe_task_create|done]; [by rewrite <-Hid|done..].
Qed.

Lemma get_within request : within 1 (Tasks.get request).
Proof. done. Qed.

Lemma post_within request : within 2 (Tasks.post request).
Proof.
  apply (within_bind 1 1).
  - unfold user_charity. destruct (user request); [|done]. by intros [ch|].
  - intros ch. cbn beta zeta. by destruct (is_valid _).
Qed.

(** Creating a task keeps the database well formed, for every task
    serializer that validates into a PENDING task of the charity named by
    [charity_id]: the new row has a fresh id and an existing charity, and
    no row has disappeared. *)
Theorem post_wf `{!TaskSerializerLaws} request db :
  wf_db db →
  wf_db (serve (Tasks.post request) db).2 ∧
  db_extends db (serve (Tasks.post request) db).2.
Proof. apply serve_wf, post_safe. Qed.

End tasks_theorems.

(** ** The views behind the permissions of their method *)

Section tasks_views.
Context `{!TaskModel} `{!TaskSerializer}.
Implicit Types (request : Request) (db : DB).

Lemma serve_list_view request db :
  method request ∈ SAFE_METHODS →
  serve (list_view request) db =
  if is_authenticated request db then serve (Tasks.get request) db else (forbidden, db).
Proof.
  intros Hsafe. unfold list_view, Tasks.get_permissions.
  rewrite bool_decide_eq_true_2 by done.
  rewrite (serve_as_view [is_authenticated]);
    [|constructor; [apply IsAuthenticated_allowed|constructor]].
  unfold all_allow. simpl. by rewrite andb_true_r.
Qed.

Lemma serve_create_view request db :
  method request ∉ SAFE_METHODS →
  serve (create_view request) db =
  if is_charity request db then serve (Tasks.post request) db else (forbidden, db).
Proof.
  intros Hsafe. unfold create_view, Tasks.get_permissions.
  rewrite bool_decide_eq_false_2 by done.
  rewrite (serve_as_view [is_charity]);
    [|constructor; [apply IsCharityOwner_allowed|constructor]].
  unfold all_allow. simpl. by rewrite andb_true_r.
Qed.

(** Listing asks for an authenticated caller only: with a safe
    method, an anonymous caller is refused and any authenticated one,
    benefactor, charity or neither, is served the list. *)
Theorem list_view_spec request db :
  method request ∈ SAFE_METHODS →
  serve (list_view request) db =
  match user request with
  | Some _ => serve (Tasks.get request) db
  | None => (forbidden, db)
  end.
Proof.
  intros Hsafe. rewrite serve_list_view by done. unfold is_authenticated.
  by destruct (user request).
Qed.

(** Creation asks for a charity: with an unsafe method, a caller
    without a charity profile is refused before anything is read from the
    request, and nothing is created. *)
Theorem create_view_refused request db :
  method request ∉ SAFE_METHODS → is_charity request db = false →
  serve (create_view request) db = (forbidden, db).
Proof. intros Hsafe Hno. by rewrite serve_create_view, Hno. Qed.

(** Behind its permission, [Tasks.post] never ends in an unhandled
    exception: the caller accepted by [IsCharityOwner] has the charity the
    handler reads, and the answer is 201, 400 or 403. *)
Theorem create_view_status request db :
  method request ∉ SAFE_METHODS →
  status_code (serve (create_view request) db).1 ∈
  [HTTP_201_CREATED; HTTP_400_BAD_REQUEST; HTTP_403_FORBIDDEN].
Proof.
  intros Hsafe. rewrite serve_create_view by done. unfold is_charity.
  case_bool_decide as Hch; [|simpl; set_solver].
  destruct Hch as [ch Hch]. destruct (user request) as [u|] eqn:Hu; [|done].
  simpl in Hch. rewrite (serve_post _ _ u ch) by done.
  destruct (is_valid _); simpl; set_solver.
Qed.

End tasks_views.

(** ** The theorems at concrete requests *)

Section tasks_samples.
#[local] Existing Instance sample_model.
#[local] Existing Instance sample_task_serializer.
#[local] Existing Instance sample_task_serializer_laws.

(** Two tasks of charity 1: the first is open to the ages 30 to 40, the
    second to the age 30 only. *)
Definition listed_task (i : nat) (title age_to : string) : Task.t :=
  Task.mk i Task.PENDING None 1
    {["title" := VStr title; "age_limit_from" := VStr "30"; "age_limit_to" := VStr age_to]}.

Definition listing_db : DB :=
  mkDB (list_to_map [(1, listed_task 1 "paint" "40"); (2, listed_task 2 "cook" "30")])
       (benefactors sample_db) (charities sample_db) ∅ 3 7 3 22.

(** [GET /tasks?age=30] by user 20. *)
Definition age_request : Request := mkRequest (Some 20) GET ∅ {["age" := "30"]}.

Lemma filter_queryset_no_query_witness :
  Tasks.filter_queryset (sample_request 20 GET []) (λ _ _, true) listing_db
    (listed_task 1 "paint" "40") = true.
Proof.
  by rewrite (filter_queryset_no_query (sample_request 20 GET []) (λ _ _, true)
                listing_db (listed_task 1 "paint" "40") eq_refl).
Defined.

Lemma filter_queryset_spec_witness :
  Tasks.filter_queryset age_request (λ _ _, true) listing_db (listed_task 2 "cook" "30")
    = true ↔
  true = true ∧
  (∀ name value param,
     (name, value) ∈ filtering_lookups → query age_request !! value = Some param →
     param ≠ "" → lookup name param listing_db (listed_task 2 "cook" "30") = true) ∧
  (Tasks.lookups excluding_lookups age_request = ∅ ∨
   ∃ name value param,
     (name, value) ∈ excluding_lookups ∧ query age_request !! value = Some param ∧
     param ≠ "" ∧ lookup name param listing_db (listed_task 2 "cook" "30") = false).
Proof. apply filter_queryset_spec; by apply (bool_decide_unpack _). Defined.

(** The first task matches [age_limit_from=30] and not [age_limit_to=30]:
    it is listed.  The second matches both and is left out. *)
Lemma exclude_needs_all_witness :
  Tasks.filter_queryset age_request (λ _ _, true) listing_db (listed_task 1 "paint" "40")
    = true ∧
  Tasks.filter_queryset age_request (λ _ _, true) listing_db (listed_task 2 "cook" "30")
    = false.
Proof.
  split; [|reflexivity].
  apply (exclude_needs_all _ _ _ _ "age_limit_to" "30"); [done| |reflexivity..].
  intros name param Hin. by vm_compute in Hin.
Defined.

(** User 10 owns charity 1 and posts a task with a title; the client's own
    [charity_id] is not the one stored. *)
Definition paint_request : Request :=
  sample_request 10 POST [("title", VStr "paint"); ("charity_id", VInt 2)].

Definition paint_task : Task.t := Task.mk 0 Task.PENDING None 1 {["title" := VStr "paint"]}.

Lemma post_creates_witness :
  serve (Tasks.post paint_request) sample_db =
  (mkResponse (Serialized (to_representation (insert_task paint_task sample_db).1))
              HTTP_201_CREATED,
   (insert_task paint_task sample_db).2) ∧
  tasks (insert_task paint_task sample_db).2 !! 5 =
    Some (Task.mk 5 Task.PENDING None 1 {["title" := VStr "paint"]}).
Proof.
  split; [|reflexivity].
  apply (post_creates paint_request sample_db 10 (Charity.mk 1 10 ∅) paint_task);
    reflexivity.
Defined.

Lemma post_invalid_witness :
  serve (Tasks.post (sample_request 10 POST [])) sample_db =
  (mkResponse (Errors {["title" := VStr "This field is required."]}) HTTP_400_BAD_REQUEST,
   sample_db).
Proof.
  apply (post_invalid (sample_request 10 POST []) sample_db 10 (Charity.mk 1 10 ∅));
    reflexivity.
Defined.

Lemma post_wf_witness :
  wf_db (serve (Tasks.post paint_request) sample_db).2 ∧
  db_extends sample_db (serve (Tasks.post paint_request) sample_db).2.
Proof. exact (post_wf paint_request sample_db wf_sample). Defined.

Lemma list_view_spec_witness :
  serve (list_view age_request) listing_db =
  (mkResponse (SerializedList [to_representation (listed_task 1 "paint" "40")])
              HTTP_200_OK, listing_db).
Proof.
  rewrite (list_view_spec age_request listing_db) by (by apply (bool_decide_unpack _)).
  reflexivity.
Defined.

(** User 20 is a benefactor and not a charity. *)
Lemma create_view_refused_witness :
  serve (create_view (sample_request 20 POST [("title", VStr "paint")])) sample_db =
  (forbidden, sample_db).
Proof.
  apply create_view_refused; [by apply (bool_decide_unpack _)|reflexivity].
Defined.

Lemma create_view_status_witness :
  status_code (serve (create_view paint_request) sample_db).1 ∈
  [HTTP_201_CREATED; HTTP_400_BAD_REQUEST; HTTP_403_FORBIDDEN].
Proof. apply create_view_status. by apply (bool_decide_unpack _). Defined.

End tasks_samples.
