(* ===== verification/Registration.v ===== *)
(** * Registration: the creation of benefactor and charity profiles

    [BenefactorRegistration] and [CharityRegistration] of
    [src/charities/views.py]: the data of the request is validated by the
    serializer of the profile; valid data is saved as a profile of the
    caller and answered 201, invalid data is answered 400 with the errors.
    The profile tables hold one row per user; a second row for the same
    user is refused by the database. *)

From S2P Require Import Prelude Prog Http Models Permissions Lifecycle Refinement Dispatch Schema.

Local Open Scope prog_scope.

Module BenefactorRegistration.

Section view.
Context `{!BenefactorSerializer}.

Definition permission_classes : list Permission := [IsAuthenticated].

Definition post (request : Request) : view Response :=
  match is_valid (data request) with
  | inr validated =>
      match user request with
      | None => Raise ValueError
      | Some u =>
          o <- call (BenefactorCreate u validated) ;;
          match o with
          | Some benefactor =>
              Ret (mkResponse (Serialized (to_representation benefactor))
                              HTTP_201_CREATED)
          | None => Raise IntegrityError
          end
      end
  | inl errors => Ret (mkResponse (Errors errors) HTTP_400_BAD_REQUEST)
  end.

(** The class [BenefactorRegistration]: its permission classes and its one
    handler, [post]. *)
Definition view_class : APIView unit :=
  mkAPIView (λ _, permission_classes)
            (λ m, match m with POST => Some (λ request _, post request) | _ => None end).

End view.

End BenefactorRegistration.

Module CharityRegistration.

Section view.
Context `{!CharitySerializer}.

Definition permission_classes : list Permission := [IsAuthenticated].

Definition post (request : Request) : view Response :=
  match is_valid (data request) with
  | inr validated =>
      match user request with
      | None => Raise ValueError
      | Some u =>
          o <- call (CharityCreate u validated) ;;
          match o with
          | Some charity =>
              Ret (mkResponse (Serialized (to_representation charity))
                              HTTP_201_CREATED)
          | None => Raise IntegrityError
          end
      end
  | inl errors => Ret (mkResponse (Errors errors) HTTP_400_BAD_REQUEST)
  end.

(** The class [CharityRegistration]: its permission classes and its one
    handler, [post]. *)
Definition view_class : APIView unit :=
  mkAPIView (λ _, permission_classes)
            (λ m, match m with POST => Some (λ request _, post request) | _ => None end).

End view.

End CharityRegistration.

(** [POST /benefactors] and [POST /charities] as the URL dispatcher calls
    them. *)
Definition benefactors_view `{!BenefactorSerializer} (request : Request)
  : view Response :=
  as_view BenefactorRegistration.permission_classes BenefactorRegistration.post request.

Definition charities_view `{!CharitySerializer} (request : Request) : view Response :=
  as_view CharityRegistration.permission_classes CharityRegistration.post request.

Definition server_error : Response :=
  mkResponse (Detail msg_server_error) HTTP_500_INTERNAL_SERVER_ERROR.

(** ** The handlers, executed *)

Section benefactor_registration.
Context `{!BenefactorSerializer}.
Implicit Types (request : Request) (db : DB).

Lemma serve_benefactor_post request db u :
  user request = Some u →
  serve (BenefactorRegistration.post request) db =
  match is_valid (data request) with
  | inl errors => (mkResponse (Errors errors) HTTP_400_BAD_REQUEST, db)
  | inr validated =>
      match benefactors db !! u with
      | Some _ => (server_error, db)
      | None =>
          let b := Benefactor.mk (next_benefactor_id db) u validated in
          (mkResponse (Serialized (to_representation b)) HTTP_201_CREATED,
           (insert_benefactor u validated db).2)
      end
  end.
Proof.
  intros Hu. unfold BenefactorRegistration.post, serve. rewrite Hu.
  destruct (is_valid _) as [errors|validated]; [done|]. simpl.
  cbn [perform orm_effects perform_orm]. unfold insert_benefactor. by destruct (benefactors db !! u).
Qed.


(** C11.  Valid data sent by a user without a benefactor profile creates the
    profile: the row is stored under the caller with the next id of the
    sequence, no other table changes, and the answer is 201 with its
    data.  From then on the caller passes the permission of benefactors. *)
Theorem benefactor_registration_creates request db u validated :
  user request = Some u → is_valid (data request) = inr validated →
  benefactors db !! u = None →
  ∃ db',
    serve (BenefactorRegistration.post request) db =
      (mkResponse (Serialized (to_representation
                     (Benefactor.mk (next_benefactor_id db) u validated))) HTTP_201_CREATED,
       db') ∧
    benefactors db' = <[u := Benefactor.mk (next_benefactor_id db) u validated]> (benefactors db) ∧
    charities db' = charities db ∧ tasks db' = tasks db ∧ users db' = users db ∧
    is_benefactor request db' = true.
Proof.
  intros Hu Hvalid Hnone. eexists.
  rewrite (serve_benefactor_post _ _ u), Hvalid, Hnone by done. cbn zeta.
  unfold insert_benefactor. rewrite Hnone. split_and!; [done..|].
  unfold is_benefactor. rewrite Hu. simpl. rewrite lookup_insert_eq.
  by apply bool_decide_eq_true_2.
Qed.

(** Invalid data is answered 400 with the errors of the serializer,
    whoever the caller is, and nothing is created. *)
Theorem benefactor_registration_invalid request db errors :
  is_valid (data request) = inl errors →
  serve (BenefactorRegistration.post request) db =
  (mkResponse (Errors errors) HTTP_400_BAD_REQUEST, db).
Proof. intros Hvalid. unfold BenefactorRegistration.post, serve. by rewrite Hvalid. Qed.

(** C38.  A second registration of the same user is not a validation
    error: the data is valid, the database refuses the row, and the request
    ends in an unhandled exception, a 500, with nothing changed. *)
Theorem benefactor_registration_twice request db u validated row :
  user request = Some u → is_valid (data request) = inr validated →
  benefactors db !! u = Some row →
  serve (BenefactorRegistration.post request) db = (server_error, db).
Proof.
  intros Hu Hvalid Hrow. by rewrite (serve_benefactor_post _ _ u), Hvalid, Hrow.
Qed.

Lemma benefactor_post_safe request db0 :
  safe wf_db db_extends (λ _ _, True) (BenefactorRegistration.post request) db0.
Proof.
  unfold BenefactorRegistration.post. destruct (is_valid _) as [errors|validated]; [done|].
  destruct (user request) as [u|]; [|done].
  intros db _ Hwf. cbn [perform orm_effects perform_orm].
  split_and!; [by apply wf_db_insert_benefactor|apply db_extends_insert_benefactor|].
  by destruct (insert_benefactor u validated db).1.
Qed.

Lemma benefactor_post_within request : within 1 (BenefactorRegistration.post request).
Proof.
  unfold BenefactorRegistration.post. destruct (is_valid _); [done|].
  destruct (user request); [|done]. by intros [row|].
Qed.

Lemma serve_benefactors_view request db :
  serve (benefactors_view request) db =
  match user request with
  | Some _ => serve (BenefactorRegistration.post request) db
  | None => (forbidden, db)
  end.
Proof.
  unfold benefactors_view, BenefactorRegistration.permission_classes.
  rewrite (serve_as_view [is_authenticated]);
    [|constructor; [apply IsAuthenticated_allowed|constructor]].
  unfold all_allow, is_authenticated. simpl. by destruct (user request).
Qed.

End benefactor_registration.

Section charity_registration.
Context `{!CharitySerializer}.
Implicit Types (request : Request) (db : DB).

Lemma serve_charity_post request db u :
  user request = Some u →
  serve (CharityRegistration.post request) db =
  match is_valid (data request) with
  | inl errors => (mkResponse (Errors errors) HTTP_400_BAD_REQUEST, db)
  | inr validated =>
      match charities db !! u with
      | Some _ => (server_error, db)
      | None =>
          let c := Charity.mk (next_charity_id db) u validated in
          (mkResponse (Serialized (to_representation c)) HTTP_201_CREATED,
           (insert_charity u validated db).2)
      end
  end.
Proof.
  intros Hu. unfold CharityRegistration.post, serve. rewrite Hu.
  destruct (is_valid _) as [errors|validated]; [done|]. simpl.
  cbn [perform orm_effects perform_orm]. unfold insert_charity. by destruct (charities db !! u).
Qed.


(** Valid data sent by a user without a charity profile creates the
    profile: the row is stored under the caller with the next id of the
    sequence, no other table changes, and the answer is 201 with its
    data.  From then on the caller passes the permission of charitys. *)
Theorem charity_registration_creates request db u validated :
  user request = Some u → is_valid (data request) = inr validated →
  charities db !! u = None →
  ∃ db',
    serve (CharityRegistration.post request) db =
      (mkResponse (Serialized (to_representation
                     (Charity.mk (next_charity_id db) u validated))) HTTP_201_CREATED,
       db') ∧
    charities db' = <[u := Charity.mk (next_charity_id db) u validated]> (charities db) ∧
    benefactors db' = benefactors db ∧ tasks db' = tasks db ∧ users db' = users db ∧
    is_charity request db' = true.
Proof.
  intros Hu Hvalid Hnone. eexists.
  rewrite (serve_charity_post _ _ u), Hvalid, Hnone by done. cbn zeta.
  unfold insert_charity. rewrite Hnone. split_and!; [done..|].
  unfold is_charity. rewrite Hu. simpl. rewrite lookup_insert_eq.
  by apply bool_decide_eq_true_2.
Qed.

(** Invalid data is answered 400 with the errors of the serializer,
    whoever the caller is, and nothing is created. *)
Theorem charity_registration_invalid request db errors :
  is_valid (data request) = inl errors →
  serve (CharityRegistration.post request) db =
  (mkResponse (Errors errors) HTTP_400_BAD_REQUEST, db).
Proof. intros Hvalid. unfold CharityRegistration.post, serve. by rewrite Hvalid. Qed.

(** A second registration of the same user is not a validation
    error: the data is valid, the database refuses the row, and the request
    ends in an unhandled exception, a 500, with nothing changed. *)
Theorem charity_registration_twice request db u validated row :
  user request = Some u → is_valid (data request) = inr validated →
  charities db !! u = Some row →
  serve (CharityRegistration.post request) db = (server_error, db).
Proof.
  intros Hu Hvalid Hrow. by rewrite (serve_charity_post _ _ u), Hvalid, Hrow.
Qed.

Lemma charity_post_safe request db0 :
  safe wf_db db_extends (λ _ _, True) (CharityRegistration.post request) db0.
Proof.
  unfold CharityRegistration.post. destruct (is_valid _) as [errors|validated]; [done|].
  destruct (user request) as [u|]; [|done].
  intros db _ Hwf. cbn [perform orm_effects perform_orm].
  split_and!; [by apply wf_db_insert_charity|apply db_extends_insert_charity|].
  by destruct (insert_charity u validated db).1.
Qed.

Lemma charity_post_within request : within 1 (CharityRegistration.post request).
Proof.
  unfold CharityRegistration.post. destruct (is_valid _); [done|].
  destruct (user request); [|done]. by intros [row|].
Qed.

Lemma serve_charities_view request db :
  serve (charities_view request) db =
  match user request with
  | Some _ => serve (CharityRegistration.post request) db
  | None => (forbidden, db)
  end.
Proof.
  unfold charities_view, CharityRegistration.permission_classes.
  rewrite (serve_as_view [is_authenticated]);
    [|constructor; [apply IsAuthenticated_allowed|constructor]].
  unfold all_allow, is_authenticated. simpl. by destruct (user request).
Qed.

End charity_registration.

(** ** Both profiles on one user *)

Section registration_theorems.
Context {bs : BenefactorSerializer} {cs : CharitySerializer}.
Implicit Types (request : Request) (db : DB).

(** C39.  Nothing keeps the two kinds of profile apart: a user with a
    charity profile who registers as a benefactor is answered 201, keeps the
    charity and from then on passes the permissions of both roles. *)
Theorem both_profiles request db u charity validated :
  user request = Some u → charities db !! u = Some charity →
  benefactors db !! u = None →
  @is_valid _ _ bs (data request) = inr validated →
  status_code (serve (BenefactorRegistration.post request) db).1 = HTTP_201_CREATED ∧
  is_benefactor request (serve (BenefactorRegistration.post request) db).2 = true ∧
  is_charity request (serve (BenefactorRegistration.post request) db).2 = true.
Proof.
  intros Hu Hch Hnone Hvalid.
  rewrite (serve_benefactor_post _ _ u), Hvalid, Hnone by done. cbn zeta.
  unfold insert_benefactor, is_benefactor, is_charity. rewrite Hnone, Hu. simpl.
  rewrite lookup_insert_eq, Hch. by rewrite !bool_decide_eq_true_2.
Qed.

(** Registration keeps the database well formed: profiles stay one
    per user with ids of their own, and no row disappears. *)
Theorem registration_wf request db :
  wf_db db →
  (wf_db (serve (BenefactorRegistration.post request) db).2 ∧
   db_extends db (serve (BenefactorRegistration.post request) db).2) ∧
  (wf_db (serve (CharityRegistration.post request) db).2 ∧
   db_extends db (serve (CharityRegistration.post request) db).2).
Proof.
  intros Hwf. split; apply serve_wf; auto using benefactor_post_safe, charity_post_safe.
Qed.

(** Registration asks for an authenticated caller only: the
    anonymous user is refused, every other caller reaches the handler. *)
Theorem registration_views_spec request db :
  serve (benefactors_view request) db =
    match user request with
    | Some _ => serve (BenefactorRegistration.post request) db
    | None => (forbidden, db)
    end ∧
  serve (charities_view request) db =
    match user request with
    | Some _ => serve (CharityRegistration.post request) db
    | None => (forbidden, db)
    end.
Proof. split; [apply serve_benefactors_view|apply serve_charities_view]. Qed.

End registration_theorems.

(** ** The theorems at concrete requests *)

Section registration_samples.
#[local] Existing Instance sample_benefactor_serializer.
#[local] Existing Instance sample_charity_serializer.

(** User 10 has a charity and no benefactor profile; user 30 has
    neither; user 20 has a benefactor profile. *)
Definition register_request (u : nat) : Request :=
  sample_request u POST [("name", VStr "Ada")].

Lemma benefactor_registration_creates_witness :
  ∃ db',
    serve (BenefactorRegistration.post (register_request 30)) sample_db =
      (mkResponse (Serialized (to_representation
                     (Benefactor.mk 7 30 {["name" := VStr "Ada"]}))) HTTP_201_CREATED,
       db') ∧
    benefactors db' = <[30 := Benefactor.mk 7 30 {["name" := VStr "Ada"]}]>
                        (benefactors sample_db) ∧
    charities db' = charities sample_db ∧ tasks db' = tasks sample_db ∧
    users db' = users sample_db ∧
    is_benefactor (register_request 30) db' = true.
Proof.
  apply (benefactor_registration_creates (register_request 30) sample_db 30);
    reflexivity.
Defined.

Lemma charity_registration_creates_witness :
  ∃ db',
    serve (CharityRegistration.post (register_request 30)) sample_db =
      (mkResponse (Serialized (to_representation
                     (Charity.mk 3 30 {["name" := VStr "Ada"]}))) HTTP_201_CREATED,
       db') ∧
    charities db' = <[30 := Charity.mk 3 30 {["name" := VStr "Ada"]}]>
                      (charities sample_db) ∧
    benefactors db' = benefactors sample_db ∧ tasks db' = tasks sample_db ∧
    users db' = users sample_db ∧
    is_charity (register_request 30) db' = true.
Proof.
  apply (charity_registration_creates (register_request 30) sample_db 30);
    reflexivity.
Defined.

Lemma benefactor_registration_invalid_witness :
  serve (BenefactorRegistration.post (sample_request 30 POST [])) sample_db =
  (mkResponse (Errors {["name" := VStr "This field is required."]})
              HTTP_400_BAD_REQUEST, sample_db).
Proof. apply benefactor_registration_invalid. reflexivity. Defined.

Lemma charity_registration_invalid_witness :
  serve (CharityRegistration.post (sample_request 30 POST [])) sample_db =
  (mkResponse (Errors {["name" := VStr "This field is required."]})
              HTTP_400_BAD_REQUEST, sample_db).
Proof. apply charity_registration_invalid. reflexivity. Defined.

Lemma benefactor_registration_twice_witness :
  serve (BenefactorRegistration.post (register_request 20)) sample_db =
  (server_error, sample_db).
Proof.
  apply (benefactor_registration_twice _ _ 20 {["name" := VStr "Ada"]}
           (Benefactor.mk 5 20 ∅)); reflexivity.
Defined.

Lemma charity_registration_twice_witness :
  serve (CharityRegistration.post (register_request 10)) sample_db =
  (server_error, sample_db).
Proof.
  apply (charity_registration_twice _ _ 10 {["name" := VStr "Ada"]}
           (Charity.mk 1 10 ∅)); reflexivity.
Defined.

Lemma both_profiles_witness :
  status_code (serve (BenefactorRegistration.post (register_request 10)) sample_db).1
    = HTTP_201_CREATED ∧
  is_benefactor (register_request 10)
    (serve (BenefactorRegistration.post (register_request 10)) sample_db).2 = true ∧
  is_charity (register_request 10)
    (serve (BenefactorRegistration.post (register_request 10)) sample_db).2 = true.
Proof.
  apply (both_profiles (register_request 10) sample_db 10 (Charity.mk 1 10 ∅)
           {["name" := VStr "Ada"]}); reflexivity.
Defined.

Lemma registration_wf_witness :
  (wf_db (serve (BenefactorRegistration.post (register_request 30)) sample_db).2 ∧
   db_extends sample_db
     (serve (BenefactorRegistration.post (register_request 30)) sample_db).2) ∧
  (wf_db (serve (CharityRegistration.post (register_request 30)) sample_db).2 ∧
   db_extends sample_db
     (serve (CharityRegistration.post (register_request 30)) sample_db).2).
Proof. exact (registration_wf (register_request 30) sample_db wf_sample). Defined.

End registration_samples.
