(* ===== verification/Accounts.v ===== *)
(** * Accounts: the creation of a user by [UserSerializer]

    [UserSerializer.create] of [src/accounts/serializers.py]: nine columns
    are read from the validated data, in the order of the keyword
    arguments, then the password, which is stored hashed; the user is
    saved.  Reading a key that the validated data does not hold raises
    [KeyError]; the database refuses a username that is taken. *)

From S2P Require Import Prelude Prog Http Models Lifecycle Refinement Schema.

Local Open Scope prog_scope.

#[export] Instance Value_inhabited : Inhabited Value := populate VNone.

Module UserSerializer.

(** [Meta.fields] *)
Definition fields : list string :=
  ["username"; "password"; "phone"; "address"; "gender"; "age"; "description";
   "first_name"; "last_name"; "email"].

(** [validated_data[key]] *)
Definition item (validated_data : Data) (key : string) : view Value :=
  match validated_data !! key with
  | Some v => Ret v
  | None => Raise (KeyError key)
  end.

Section create.
Context `{!Hasher}.

(** [user.set_password(raw)]: a string is hashed, [None] gives an unusable
    password, any other value is refused by the hasher. *)
Definition set_password (raw : Value) (user : User.t) : view User.t :=
  match raw with
  | VStr s => Ret (User.set_password (make_password (Some s)) user)
  | VNone => Ret (User.set_password (make_password None) user)
  | _ => Raise TypeError
  end.

Definition create (validated_data : Data) : view User.t :=
  username <- item validated_data "username" ;;
  phone <- item validated_data "phone" ;;
  address <- item validated_data "address" ;;
  gender <- item validated_data "gender" ;;
  age <- item validated_data "age" ;;
  description <- item validated_data "description" ;;
  first_name <- item validated_data "first_name" ;;
  last_name <- item validated_data "last_name" ;;
  email <- item validated_data "email" ;;
  let user := User.mk 0 username "" phone address gender age description
                      first_name last_name email in
  raw <- item validated_data "password" ;;
  user <- set_password raw user ;;
  o <- call (UserSave user) ;;
  match o with
  | Some user => Ret user
  | None => Raise IntegrityError
  end.

End create.

End UserSerializer.

(** ** Reference: what [create] reads and what it builds *)

(** The keys in the order [create] reads them. *)
Definition read_order : list string :=
  ["username"; "phone"; "address"; "gender"; "age"; "description";
   "first_name"; "last_name"; "email"; "password"].

(** The first key of the list that the data does not hold. *)
Fixpoint first_missing (keys : list string) (validated_data : Data) : option string :=
  match keys with
  | [] => None
  | key :: keys' =>
      match validated_data !! key with
      | None => Some key
      | Some _ => first_missing keys' validated_data
      end
  end.

(** The row of a user with the columns of the data and the given hash. *)
Definition user_of (validated_data : Data) (hashed : string) (i : nat) : User.t :=
  User.mk i (validated_data !!! "username") hashed
    (validated_data !!! "phone") (validated_data !!! "address")
    (validated_data !!! "gender") (validated_data !!! "age")
    (validated_data !!! "description") (validated_data !!! "first_name")
    (validated_data !!! "last_name") (validated_data !!! "email").

(** The hash [set_password] stores for a value, when it accepts it. *)
Definition hashed_password `{!Hasher} (raw : Value) : option string :=
  match raw with
  | VStr s => Some (make_password (Some s))
  | VNone => Some (make_password None)
  | _ => None
  end.

(** No two users share a username. *)
Definition unique_usernames (db : DB) : Prop :=
  ∀ i j u u', users db !! i = Some u → users db !! j = Some u' →
              User.username u = User.username u' → i = j.

(** ** [create], executed *)

Section create_facts.
Context `{!Hasher}.
Implicit Types (validated_data : Data) (db : DB).

Lemma run_item validated_data key db :
  run (UserSerializer.item validated_data key) db =
  (match validated_data !! key with
   | Some v => inr v
   | None => inl (KeyError key)
   end, db).
Proof. unfold UserSerializer.item. by destruct (validated_data !! key). Qed.

Lemma run_set_password raw user db :
  run (UserSerializer.set_password raw user) db =
  (match hashed_password raw with
   | Some hashed => inr (User.set_password hashed user)
   | None => inl TypeError
   end, db).
Proof. by destruct raw. Qed.

(** Read one key: either it is missing, and both sides stop at it, or the
    value is bound and the execution goes on. *)
Ltac read_item :=
  rewrite run_bind, run_item;
  match goal with
  | |- context [?vd !! ?key] => destruct (vd !! key) as [?|]; simpl; [|done]
  end.

Lemma run_create validated_data db :
  run (UserSerializer.create validated_data) db =
  match first_missing read_order validated_data with
  | Some key => (inl (KeyError key), db)
  | None =>
      match hashed_password (validated_data !!! "password") with
      | None => (inl TypeError, db)
      | Some hashed =>
          let o := insert_user (user_of validated_data hashed 0) db in
          (match o.1 with Some user => inr user | None => inl IntegrityError end, o.2)
      end
  end.
Proof.
  unfold UserSerializer.create, user_of, lookup_total, map_lookup_total. simpl.
  do 10 read_item.
  rewrite run_bind, run_set_password. destruct (hashed_password _); simpl; [|done].
  cbn [perform orm_effects perform_orm].
  by destruct (insert_user _ db) as [[user|] db'].
Qed.

Lemma first_missing_None keys validated_data :
  first_missing keys validated_data = None ↔
  ∀ key, key ∈ keys → is_Some (validated_data !! key).
Proof.
  induction keys as [|k keys IH]; simpl; [set_solver|].
  setoid_rewrite elem_of_cons. destruct (validated_data !! k) eqn:Hk.
  - rewrite IH. naive_solver.
  - split; [done|]. intros Hall. destruct (Hall k) as [? ?]; [auto|congruence].
Qed.

Lemma first_missing_Some keys validated_data key :
  first_missing keys validated_data = Some key →
  key ∈ keys ∧ validated_data !! key = None.
Proof.
  induction keys as [|k keys IH]; simpl; [done|].
  destruct (validated_data !! k) eqn:Hk; [set_solver|]. intros [= <-]. set_solver.
Qed.

(** [create] reads the fields of [Meta.fields], all of them. *)
Lemma read_order_fields : read_order ≡ₚ UserSerializer.fields.
Proof.
  unfold read_order, UserSerializer.fields. constructor. symmetry.
  apply (Permutation_cons_append
           ["phone"; "address"; "gender"; "age"; "description"; "first_name";
            "last_name"; "email"] "password").
Qed.

(** ** What [create] does *)

(** [create] ends with [KeyError] on the first key, in the order of
    its reads, that the validated data does not hold; nothing is saved. *)
Theorem create_key_error validated_data db key :
  first_missing read_order validated_data = Some key →
  run (UserSerializer.create validated_data) db = (inl (KeyError key), db).
Proof. intros Hmiss. by rewrite run_create, Hmiss. Qed.

(** C40.  [create] raises no [KeyError] exactly when the validated data
    holds every field of [Meta.fields]: a field left out of the data, as
    the serializer does for an optional field the client did not send, ends
    the registration in an unhandled exception. *)
Theorem create_reads_fields validated_data db :
  (∀ key, key ∈ UserSerializer.fields → is_Some (validated_data !! key)) ↔
  (∀ key, (run (UserSerializer.create validated_data) db).1 ≠ inl (KeyError key)).
Proof.
  setoid_rewrite <-read_order_fields. rewrite <-first_missing_None, run_create.
  destruct (first_missing _ _) as [key|]; simpl.
  - split; [done|]. intros Hno. by destruct (Hno key).
  - split; [|done]. intros _ key. destruct (hashed_password _); simpl; [|done].
    by destruct (insert_user _ _).1.
Qed.

(** C10.  With every field in the data, a string for password and a
    username that is not taken, [create] saves one user: the row has the
    next id of the sequence, the nine columns of the data, and for password
    the hash of the raw password; the other tables are untouched. *)
Theorem create_saves validated_data db raw :
  first_missing read_order validated_data = None →
  validated_data !! "password" = Some (VStr raw) →
  ¬ username_taken db (validated_data !!! "username") →
  ∃ db',
    run (UserSerializer.create validated_data) db =
      (inr (user_of validated_data (make_password (Some raw)) (next_user_id db)), db') ∧
    users db' = <[next_user_id db :=
                   user_of validated_data (make_password (Some raw)) (next_user_id db)]>
                (users db) ∧
    next_user_id db' = S (next_user_id db) ∧
    tasks db' = tasks db ∧ benefactors db' = benefactors db ∧
    charities db' = charities db.
Proof.
  intros Hmiss Hpw Hfree. eexists. rewrite run_create, Hmiss.
  rewrite (lookup_total_correct _ _ _ Hpw). cbn [hashed_password]. cbv zeta.
  unfold insert_user. rewrite decide_False by done. done.
Qed.

(** A username that is taken is refused by the database: [create]
    ends with [IntegrityError] and nothing is saved. *)
Theorem create_username_taken validated_data db raw :
  first_missing read_order validated_data = None →
  validated_data !! "password" = Some (VStr raw) →
  username_taken db (validated_data !!! "username") →
  run (UserSerializer.create validated_data) db = (inl IntegrityError, db).
Proof.
  intros Hmiss Hpw Htaken. rewrite run_create, Hmiss.
  rewrite (lookup_total_correct _ _ _ Hpw). cbn [hashed_password]. cbv zeta.
  unfold insert_user. by rewrite decide_True by done.
Qed.

End create_facts.

(** ** The invariants *)

Section create_invariants.
Context `{!Hasher}.
Implicit Types (validated_data : Data) (db : DB).

Lemma insert_user_unique user db :
  wf_db db → unique_usernames db → unique_usernames (insert_user user db).2.
Proof.
  intros Hwf Huniq. unfold insert_user. case_decide as Htaken; [done|]. simpl.
  assert (∀ i u, users db !! i = Some u → User.username u ≠ User.username user)
    as Hfresh.
  { intros i u Hi Hname. apply Htaken. by exists i, u. }
  unfold unique_usernames. simpl. intros i j u u'. rewrite !lookup_insert_Some.
  intros [[<- <-]|[? Hi]] [[<- <-]|[? Hj]] Hname; simpl in *; try done.
  - by destruct (Hfresh _ _ Hj).
  - by destruct (Hfresh _ _ Hi).
  - by eapply Huniq.
Qed.

Lemma safe_user_save user db0 :
  safe wf_db db_extends (λ _ _, True) (call (E:=Exn) (UserSave user)) db0.
Proof.
  intros db _ Hwf. simpl.
  split_and!; [by apply wf_db_insert_user|by apply db_extends_insert_user|done].
Qed.

Lemma create_safe validated_data db0 :
  safe wf_db db_extends (λ _ _, True) (UserSerializer.create validated_data) db0.
Proof.
  unfold UserSerializer.create, UserSerializer.item.
  repeat (destruct (validated_data !! _) as [?|]; [|done]). cbn [bind].
  match goal with |- context [UserSerializer.set_password ?raw _] => destruct raw end;
    try done; (eapply (safe_bind _ _ _ _ (call _)); [apply safe_user_save|]);
    by intros [user|].
Qed.

Lemma create_within validated_data : within 1 (UserSerializer.create validated_data).
Proof.
  unfold UserSerializer.create, UserSerializer.item.
  repeat (destruct (validated_data !! _) as [?|]; [|done]). cbn [bind].
  match goal with |- context [UserSerializer.set_password ?raw _] => destruct raw end;
    try done; by intros [user|].
Qed.

(** Creating users keeps the database well formed and the usernames
    distinct. *)
Theorem create_wf validated_data db :
  wf_db db → unique_usernames db →
  wf_db (run (UserSerializer.create validated_data) db).2 ∧
  unique_usernames (run (UserSerializer.create validated_data) db).2 ∧
  db_extends db (run (UserSerializer.create validated_data) db).2.
Proof.
  intros Hwf Huniq.
  destruct (safe_run wf_db db_extends _ _ db (create_safe validated_data db) Hwf)
    as (?&?&_).
  split_and!; [done| |done]. rewrite run_create.
  destruct (first_missing _ _); [done|]. destruct (hashed_password _); [|done].
  by apply insert_user_unique.
Qed.

End create_invariants.

(** ** The theorems at concrete data *)

Section create_samples.
#[local] Existing Instance sample_hasher.

Definition ada_data : Data :=
  list_to_map [("username", VStr "ada"); ("password", VStr "secret");
               ("phone", VStr "0912"); ("address", VStr "Tehran");
               ("gender", VStr "F"); ("age", VInt 36); ("description", VStr "");
               ("first_name", VStr "Ada"); ("last_name", VStr "Lovelace");
               ("email", VStr "ada@example.org")].

Definition ada : User.t :=
  User.mk 22 (VStr "ada") "pbkdf2$secret" (VStr "0912") (VStr "Tehran") (VStr "F")
          (VInt 36) (VStr "") (VStr "Ada") (VStr "Lovelace") (VStr "ada@example.org").

(** A database in which the username is taken. *)
Definition ada_db : DB := (insert_user ada sample_db).2.

Lemma unique_usernames_sample : unique_usernames sample_db.
Proof. intros i j u u' Hi. simpl in Hi. by rewrite lookup_empty in Hi. Qed.

(** The client left out [first_name], an optional column. *)
Lemma create_key_error_witness :
  run (UserSerializer.create (delete "first_name" ada_data)) sample_db =
  (inl (KeyError "first_name"), sample_db).
Proof. apply create_key_error. reflexivity. Defined.

Lemma create_saves_witness :
  ∃ db',
    run (UserSerializer.create ada_data) sample_db =
      (inr (user_of ada_data (make_password (Some "secret")) (next_user_id sample_db)),
       db') ∧
    users db' = <[next_user_id sample_db :=
                   user_of ada_data (make_password (Some "secret"))
                           (next_user_id sample_db)]> (users sample_db) ∧
    next_user_id db' = S (next_user_id sample_db) ∧
    tasks db' = tasks sample_db ∧ benefactors db' = benefactors sample_db ∧
    charities db' = charities sample_db.
Proof.
  apply create_saves; [reflexivity..|]. intros (i&u&Hi&_). simpl in Hi.
  by rewrite lookup_empty in Hi.
Defined.

(** The stored row: the password column holds the hash. *)
Example create_stores_hash :
  (run (UserSerializer.create ada_data) sample_db).1 = inr ada.
Proof. reflexivity. Qed.

Lemma create_username_taken_witness :
  run (UserSerializer.create ada_data) ada_db = (inl IntegrityError, ada_db).
Proof.
  apply (create_username_taken ada_data ada_db "secret"); [reflexivity..|].
  exists 22, ada. split; reflexivity.
Defined.

Lemma create_wf_witness :
  wf_db (run (UserSerializer.create ada_data) sample_db).2 ∧
  unique_usernames (run (UserSerializer.create ada_data) sample_db).2 ∧
  db_extends sample_db (run (UserSerializer.create ada_data) sample_db).2.
Proof. exact (create_wf ada_data sample_db wf_sample unique_usernames_sample). Defined.

End create_samples.
