(* ===== verification/Roundtrip.v ===== *)
(** * Roundtrip: what is written is what is read

    Three round trips through the database: a request for a task followed
    by its rejection leaves the database as it was; a task that was created
    is in the list; a profile that was registered is the profile of its
    user. *)

From S2P Require Import Prelude Prog Http Models Permissions Lifecycle Refinement.
From S2P Require Import Dispatch Schema TaskList Registration.

Local Open Scope prog_scope.

(** Two requests served one after the other: the two responses and the
    database the second leaves. *)
Definition serve_then (v1 v2 : view Response) (db : DB) : Response * Response * DB :=
  let '(r1, db1) := serve v1 db in
  let '(r2, db2) := serve v2 db1 in (r1, r2, db2).

Lemma serve_then_eq v1 v2 db :
  serve_then v1 v2 db =
  ((serve v1 db).1, (serve v2 (serve v1 db).2).1, (serve v2 (serve v1 db).2).2).
Proof.
  unfold serve_then. destruct (serve v1 db) as [r1 db1]. simpl.
  by destruct (serve v2 db1).
Qed.

Section lifecycle_roundtrip.
Implicit Types (request : Request) (db : DB) (task : Task.t).

(** Writing back the row that is there changes nothing. *)
Lemma set_tasks_restore db task_id task task' :
  tasks db !! task_id = Some task →
  set_tasks <[task_id := task]> (set_tasks <[task_id := task']> db) = db.
Proof.
  intros Htask. destruct db. unfold set_tasks. simpl in *.
  by rewrite insert_insert_eq, insert_id.
Qed.

(** C22.  Request, then rejection: a benefactor's request for a PENDING
    task followed by the charity's rejection answers 200 twice and returns
    the database to what it was before the request. *)
Theorem request_reject_roundtrip r1 r2 task_id db task u benefactor :
  tasks db !! task_id = Some task → Task.id task = task_id →
  Task.state task = Task.PENDING → Task.assigned_benefactor task = None →
  user r1 = Some u → benefactors db !! u = Some benefactor →
  data r2 !! "response" = Some (VStr "R") →
  serve_then (TaskRequest.get r1 task_id) (TaskResponse.post r2 task_id) db =
  (TaskRequest.request_sent, TaskResponse.response_sent, db).
Proof.
  intros Htask Hid Hstate Hnone Hu Hbf Hresp. rewrite serve_then_eq.
  unfold TaskRequest.get, TaskResponse.post. exec_view.
  f_equal. destruct task as [i st ab ch fs]. simpl in *. subst.
  by apply set_tasks_restore.
Qed.

End lifecycle_roundtrip.

Section creation_roundtrip.
Context `{!TaskModel} {ts : TaskSerializer}.
Implicit Types (request : Request) (db : DB).

(** Create, then list: the task a charity created is in the list
    served to every caller the model relates it to, under the id the
    creation answered. *)
Theorem post_get_roundtrip request request' db u charity validated :
  user request = Some u → charities db !! u = Some charity →
  is_valid (post_data request charity) = inr validated →
  query request' = ∅ →
  all_related_tasks_to_user (user request') (insert_task validated db).2
    (insert_task validated db).1 = true →
  ∃ d rows,
    serve_then (Tasks.post request) (Tasks.get request') db =
      (mkResponse (Serialized d) HTTP_201_CREATED,
       mkResponse (SerializedList rows) HTTP_200_OK,
       (insert_task validated db).2) ∧
    d ∈ rows.
Proof.
  intros Hu Hch Hvalid Hq Hrelated.
  rewrite serve_then_eq, (serve_post _ _ u charity), Hvalid by done.
  do 2 eexists. split; [done|]. apply list_elem_of_fmap_2, elem_of_select.
  split; [exists (next_task_id db); apply lookup_insert_eq|].
  by rewrite filter_queryset_no_query.
Qed.

End creation_roundtrip.

Section registration_roundtrip.
Context {bs : BenefactorSerializer}.
Implicit Types (request : Request) (db : DB).

(** Register, then read: the profile a registration created is the one
    [request.user.benefactor] reads. *)
Theorem register_profile_roundtrip request db u validated :
  user request = Some u → is_valid (data request) = inr validated →
  benefactors db !! u = None →
  run (user_benefactor request) (serve (BenefactorRegistration.post request) db).2 =
  (inr (Benefactor.mk (next_benefactor_id db) u validated),
   (serve (BenefactorRegistration.post request) db).2).
Proof.
  intros Hu Hvalid Hnone. rewrite (serve_benefactor_post _ _ u), Hvalid, Hnone by done.
  cbn zeta. unfold insert_benefactor. rewrite Hnone, run_user_benefactor, Hu. simpl.
  by rewrite lookup_insert_eq.
Qed.

End registration_roundtrip.

(** ** The round trips at concrete requests *)

Section roundtrip_samples.
#[local] Existing Instance sample_model.
#[local] Existing Instance sample_task_serializer.
#[local] Existing Instance sample_benefactor_serializer.

Lemma request_reject_roundtrip_witness :
  serve_then (TaskRequest.get (sample_request 20 GET []) 1)
    (TaskResponse.post (sample_request 10 POST [("response", VStr "R")]) 1) sample_db =
  (TaskRequest.request_sent, TaskResponse.response_sent, sample_db).
Proof.
  apply (request_reject_roundtrip _ _ 1 sample_db (sample_task 1 Task.PENDING None)
           20 (Benefactor.mk 5 20 ∅)); reflexivity.
Defined.

Lemma post_get_roundtrip_witness :
  ∃ d rows,
    serve_then (Tasks.post paint_request) (Tasks.get (sample_request 20 GET [])) sample_db =
      (mkResponse (Serialized d) HTTP_201_CREATED,
       mkResponse (SerializedList rows) HTTP_200_OK,
       (insert_task paint_task sample_db).2) ∧
    d ∈ rows.
Proof.
  apply (post_get_roundtrip paint_request (sample_request 20 GET []) sample_db 10
           (Charity.mk 1 10 ∅) paint_task); reflexivity.
Defined.

Lemma register_profile_roundtrip_witness :
  run (user_benefactor (register_request 30))
      (serve (BenefactorRegistration.post (register_request 30)) sample_db).2 =
  (inr (Benefactor.mk 7 30 {["name" := VStr "Ada"]}),
   (serve (BenefactorRegistration.post (register_request 30)) sample_db).2).
Proof.
  apply (register_profile_roundtrip (register_request 30) sample_db 30
           {["name" := VStr "Ada"]}); reflexivity.
Defined.

End roundtrip_samples.
