(* ===== verification/Api.v ===== *)
(** * Api: the URL patterns and the endpoints together

    [route_view] is the URL dispatcher: each of the six patterns is served
    by its class, dispatched on the method of the request.  The seven
    endpoints of the specification (section 6) are the pairs of a pattern
    and a method that reach a handler ([endpoint]); every other method is
    answered by the framework.  The theorems are those that hold of every
    request to every pattern: the well-formedness of the database under any
    interleaving of concurrent requests, the bound on the ORM calls a
    request makes, and what each method reaches. *)

From S2P Require Import Prelude Prog Http Models Permissions Lifecycle Refinement.
From S2P Require Import Concurrency Dispatch Schema TaskList Registration.

Local Open Scope prog_scope.

(** The URL patterns. *)
Inductive Route :=
| BenefactorsUrl
| CharitiesUrl
| TasksUrl
| TaskRequestUrl (task_id : nat)
| TaskResponseUrl (task_id : nat)
| TaskDoneUrl (task_id : nat).

Section api.
Context `{!TaskModel} {ts : TaskSerializer}.
Context {bs : BenefactorSerializer} {cs : CharitySerializer}.

(** The URL dispatcher: the class of the pattern, dispatched on the method
    of the request. *)
Definition route_view (route : Route) (request : Request) : view Response :=
  match route with
  | BenefactorsUrl => dispatch BenefactorRegistration.view_class request tt
  | CharitiesUrl => dispatch CharityRegistration.view_class request tt
  | TasksUrl => dispatch Tasks.view_class request tt
  | TaskRequestUrl task_id => dispatch TaskRequest.view_class request task_id
  | TaskResponseUrl task_id => dispatch TaskResponse.view_class request task_id
  | TaskDoneUrl task_id => dispatch DoneTask.view_class request task_id
  end.

(** The requests in flight. *)
Definition api_pool (calls : list (Route * Request)) : list (view Response) :=
  (λ c, route_view c.1 c.2) <$> calls.

(** The most ORM calls a request makes: two permission checks and the
    three calls of a lifecycle handler. *)
Definition max_calls : nat := 5.

Lemma get_permissions_known request : Forall known (Tasks.get_permissions request).
Proof.
  unfold Tasks.get_permissions, known.
  case_bool_decide; rewrite !Forall_cons, Forall_nil; auto.
Qed.

Lemma lifecycle_permissions_known :
  Forall known [IsAuthenticated; IsBenefactor] ∧
  Forall known [IsAuthenticated; IsCharityOwner] ∧
  Forall known [IsAuthenticated].
Proof. unfold known. rewrite !Forall_cons, Forall_nil. auto 10. Qed.

Lemma get_permissions_length request : length (Tasks.get_permissions request) = 1.
Proof. unfold Tasks.get_permissions. by case_bool_decide. Qed.

Lemma route_safe `{!TaskSerializerLaws} route request db0 :
  safe wf_db db_extends (λ _ _, True) (route_view route request) db0.
Proof.
  destruct lifecycle_permissions_known as (Hb&Hc&Ha).
  destruct route; simpl;
    (apply dispatch_safe; [by auto using get_permissions_known|]);
    each_handler; intros db.
  - apply benefactor_post_safe.
  - apply charity_post_safe.
  - apply get_safe.
  - by apply post_safe.
  - apply request_safe.
  - apply respond_safe.
  - apply finish_safe.
Qed.

Lemma route_within route request : within max_calls (route_view route request).
Proof.
  destruct lifecycle_permissions_known as (Hb&Hc&Ha).
  destruct route; simpl.
  - apply (within_le (1 + 1)); [unfold max_calls; lia|].
    apply (dispatch_within BenefactorRegistration.view_class); [done|].
    each_handler. apply benefactor_post_within.
  - apply (within_le (1 + 1)); [unfold max_calls; lia|].
    apply (dispatch_within CharityRegistration.view_class); [done|].
    each_handler. apply charity_post_within.
  - apply (within_le (1 + 2)); [unfold max_calls; lia|].
    rewrite <-(get_permissions_length request) at 1.
    apply (dispatch_within Tasks.view_class); [apply get_permissions_known|].
    each_handler; [apply (within_le 1); [lia|apply get_within]|apply post_within].
  - apply (dispatch_within TaskRequest.view_class); [done|].
    each_handler. apply (handler_within RequestTask).
  - apply (dispatch_within TaskResponse.view_class); [done|].
    each_handler. apply (handler_within RespondTask).
  - apply (dispatch_within DoneTask.view_class); [done|].
    each_handler. apply (handler_within FinishTask).
Qed.

(** ** Methods *)

(** The methods a route answers: those its class defines, [HEAD] with
    [GET], and [OPTIONS]. *)
Definition allowed_methods (route : Route) : list Method :=
  match route with
  | BenefactorsUrl | CharitiesUrl | TaskResponseUrl _ | TaskDoneUrl _ =>
      [POST; OPTIONS]
  | TasksUrl => [GET; HEAD; POST; OPTIONS]
  | TaskRequestUrl _ => [GET; HEAD; OPTIONS]
  end.

(** Whom the permission classes of a route accept. *)
Definition permitted (route : Route) (request : Request) (db : DB) : bool :=
  match route with
  | BenefactorsUrl | CharitiesUrl => is_authenticated request db
  | TasksUrl =>
      if bool_decide (method request ∈ SAFE_METHODS) then is_authenticated request db
      else is_charity request db
  | TaskRequestUrl _ => is_benefactor request db
  | TaskResponseUrl _ | TaskDoneUrl _ => is_charity request db
  end.

(** What a route does once the permissions are passed. *)
Definition route_handle (route : Route) (request : Request) : view Response :=
  match route with
  | BenefactorsUrl => handle BenefactorRegistration.view_class request tt
  | CharitiesUrl => handle CharityRegistration.view_class request tt
  | TasksUrl => handle Tasks.view_class request tt
  | TaskRequestUrl task_id => handle TaskRequest.view_class request task_id
  | TaskResponseUrl task_id => handle TaskResponse.view_class request task_id
  | TaskDoneUrl task_id => handle DoneTask.view_class request task_id
  end.

(** The endpoints of the interface: the view each pair of a route and a
    method is documented to reach. *)
Definition endpoint (route : Route) (m : Method) : option (Request → view Response) :=
  match route, m with
  | BenefactorsUrl, POST => Some benefactors_view
  | CharitiesUrl, POST => Some charities_view
  | TasksUrl, GET => Some list_view
  | TasksUrl, POST => Some create_view
  | TaskRequestUrl task_id, GET => Some (λ request, request_view request task_id)
  | TaskResponseUrl task_id, POST => Some (λ request, response_view request task_id)
  | TaskDoneUrl task_id, POST => Some (λ request, done_view request task_id)
  | _, _ => None
  end.

Definition not_allowed (m : Method) : Response :=
  mkResponse (Detail (msg_method_not_allowed m)) HTTP_405_METHOD_NOT_ALLOWED.

Lemma serve_route route request db :
  serve (route_view route request) db =
  if permitted route request db then serve (route_handle route request) db
  else (forbidden, db).
Proof.
  pose proof (decided_one _ _ IsAuthenticated_allowed) as Ha.
  pose proof (decided_one _ _ IsCharityOwner_allowed) as Hc.
  destruct route; simpl.
  - by rewrite (serve_dispatch [is_authenticated]), all_allow_one by done.
  - by rewrite (serve_dispatch [is_authenticated]), all_allow_one by done.
  - case_bool_decide as Hsafe.
    + rewrite (serve_dispatch [is_authenticated]), all_allow_one; [done|]. simpl.
      unfold Tasks.get_permissions. by rewrite bool_decide_eq_true_2.
    + rewrite (serve_dispatch [is_charity]), all_allow_one; [done|]. simpl.
      unfold Tasks.get_permissions. by rewrite bool_decide_eq_false_2.
  - rewrite (serve_dispatch [is_authenticated; is_benefactor])
      by apply decided_benefactor.
    by rewrite all_allow_benefactor.
  - rewrite (serve_dispatch [is_authenticated; is_charity])
      by by apply decided_charity.
    by rewrite all_allow_charity.
  - rewrite (serve_dispatch [is_authenticated; is_charity])
      by by apply decided_charity.
    by rewrite all_allow_charity.
Qed.

(** The dispatcher implements the interface: a request with the
    method of an endpoint is served by the view of that endpoint, behind
    its permission classes. *)
Theorem route_view_endpoint route request v :
  endpoint route (method request) = Some v → route_view route request = v request.
Proof.
  destruct route, (method request) eqn:Hm; intros [= <-]; simpl;
    unfold dispatch, handle; by rewrite Hm.
Qed.

Lemma serve_not_allowed route request db :
  method request ∉ allowed_methods route →
  serve (route_handle route request) db = (not_allowed (method request), db).
Proof.
  intros Hm. destruct route; simpl in *; unfold handle;
    destruct (method request); try done; by destruct Hm; set_solver.
Qed.


(** [OPTIONS] is answered by the framework for every route: 200 with
    the description of the view for a caller the permission classes accept. *)
Theorem options_answered route request db :
  method request = OPTIONS →
  serve (route_view route request) db =
  (if permitted route request db then mkResponse Metadata HTTP_200_OK else forbidden, db).
Proof.
  intros Hm. rewrite serve_route. destruct (permitted _ _ _); [|done].
  destruct route; simpl; unfold handle; by rewrite Hm.
Qed.

(** C32.  [HEAD] reaches the handler of [GET]: a [HEAD] request for a task
    is a request for the task, with its change of state. *)
Theorem head_requests_task request task_id db task u benefactor :
  method request = HEAD →
  tasks db !! task_id = Some task → Task.id task = task_id →
  Task.state task = Task.PENDING →
  user request = Some u → benefactors db !! u = Some benefactor →
  serve (route_view (TaskRequestUrl task_id) request) db =
  (TaskRequest.request_sent,
   set_tasks <[task_id := Task.mk task_id Task.WAITING (Some (Benefactor.id benefactor))
                            (Task.charity task) (Task.fields task)]> db).
Proof.
  intros Hm Htask Hid Hstate Hu Hbf. rewrite serve_route. simpl.
  unfold is_benefactor, handle. rewrite Hm, Hu. simpl. rewrite Hbf.
  rewrite bool_decide_eq_true_2 by done. unfold TaskRequest.get. exec_view.
  unfold Task.set_assigned_benefactor, Task.set_state. simpl. by rewrite Hid.
Qed.

Lemma api_pool_safe `{!TaskSerializerLaws} calls db :
  wf_db db → pool_safe wf_db db_extends (api_pool calls, db).
Proof.
  intros Hwf. split; [done|]. apply Forall_fmap, Forall_forall.
  intros [route request] _. apply route_safe.
Qed.

(** Every request to every endpoint, served alone on a well-formed
    database, leaves a well-formed database that holds every row the
    first one held. *)
Theorem api_wf `{!TaskSerializerLaws} route request db :
  wf_db db →
  wf_db (serve (route_view route request) db).2 ∧
  db_extends db (serve (route_view route request) db).2.
Proof. apply serve_wf, route_safe. Qed.

(** C12.  However the ORM calls of concurrent requests to the endpoints
    interleave, permission checks included, every database reached from a
    well-formed one is well formed and holds every row the first one held:
    the races of the lifecycle lose updates, they do not corrupt the
    tables. *)
Theorem api_interleaving_wf `{!TaskSerializerLaws} calls db c' :
  wf_db db → rtc pool_step (api_pool calls, db) c' →
  wf_db c'.2 ∧ db_extends db c'.2.
Proof.
  intros Hwf Hsteps.
  destruct (pool_steps_safe wf_db db_extends _ _ Hsteps (api_pool_safe calls db Hwf))
    as [[? _] ?].
  done.
Qed.

Lemma api_pool_budget calls :
  budget (replicate (length calls) max_calls) (api_pool calls).
Proof.
  unfold budget, api_pool. apply Forall2_fmap_r, Forall2_replicate_l; [done|].
  apply Forall_forall. intros [route request] _. apply route_within.
Qed.


End api.

(** ** The theorems at concrete requests *)

Section api_samples.
#[local] Existing Instance sample_model.
#[local] Existing Instance sample_task_serializer.
#[local] Existing Instance sample_task_serializer_laws.
#[local] Existing Instance sample_benefactor_serializer.
#[local] Existing Instance sample_charity_serializer.

(** A charity posts a task while a benefactor requests task 1 and a new
    user registers as a benefactor. *)
Definition sample_calls : list (Route * Request) :=
  [(TasksUrl, paint_request);
   (TaskRequestUrl 1, sample_request 20 GET []);
   (BenefactorsUrl, register_request 30)].

Definition sample_schedule : list nat := [1; 0; 2; 1; 1; 0; 0; 1].

Lemma route_view_endpoint_witness :
  route_view TasksUrl paint_request = create_view paint_request.
Proof. by apply route_view_endpoint. Defined.


Lemma options_answered_witness :
  serve (route_view BenefactorsUrl (sample_request 30 OPTIONS [])) sample_db =
  (mkResponse Metadata HTTP_200_OK, sample_db).
Proof. by apply (options_answered BenefactorsUrl (sample_request 30 OPTIONS [])). Defined.

(** Benefactor 5 (user 20) sends [HEAD] for task 1 and is given the task. *)
Lemma head_requests_task_witness :
  serve (route_view (TaskRequestUrl 1) (sample_request 20 HEAD [])) sample_db =
  (TaskRequest.request_sent,
   set_tasks <[1 := sample_task 1 Task.WAITING (Some 5)]> sample_db).
Proof.
  apply (head_requests_task _ 1 sample_db (sample_task 1 Task.PENDING None)
           20 (Benefactor.mk 5 20 ∅)); reflexivity.
Defined.

Lemma api_wf_witness :
  wf_db (serve (route_view TasksUrl paint_request) sample_db).2 ∧
  db_extends sample_db (serve (route_view TasksUrl paint_request) sample_db).2.
Proof. exact (api_wf TasksUrl paint_request sample_db wf_sample). Defined.

Lemma api_interleaving_wf_witness :
  wf_db (run_schedule sample_schedule (api_pool sample_calls) sample_db).2 ∧
  db_extends sample_db
    (run_schedule sample_schedule (api_pool sample_calls) sample_db).2.
Proof.
  exact (api_interleaving_wf sample_calls sample_db _ wf_sample
           (run_schedule_sound sample_schedule (api_pool sample_calls) sample_db)).
Defined.


(** The schedule above serves the three requests to their end. *)
Example sample_schedule_outcome :
  (run_schedule sample_schedule (api_pool sample_calls) sample_db).1 =
  [Ret (mkResponse (Serialized {["id" := VInt 5; "title" := VStr "paint"]})
                   HTTP_201_CREATED);
   Ret TaskRequest.request_sent;
   Ret (mkResponse (Serialized {["id" := VInt 7; "name" := VStr "Ada"]})
                   HTTP_201_CREATED)].
Proof. reflexivity. Qed.

End api_samples.
