(* ===== verification/Liveness.v ===== *)
(** * Liveness: every request is answered, every task can be finished

    Two properties of progress.  Under any interleaving the server answers
    every request: no request waits for another, so a pool that cannot move
    has answered them all, and no interleaving goes on for ever.  And the
    lifecycle has no dead end before DONE: whatever the state of a task, at
    most three requests, sent to the endpoints by one benefactor and one
    charity owner, take it to DONE. *)

From S2P Require Import Prelude Prog Http Models Permissions Lifecycle Refinement.
From S2P Require Import Concurrency Dispatch Schema TaskList Registration Api.

Local Open Scope prog_scope.

Section api_liveness.
Context `{!TaskModel} {ts : TaskSerializer}.
Context {bs : BenefactorSerializer} {cs : CharitySerializer}.
Implicit Types (db : DB) (calls : list (Route * Request)).

(** Every request of [calls] has its answer, a response or an exception. *)
Definition answered calls (c : list (view Response) * DB) : Prop :=
  ∃ rs, c.1 = done <$> rs ∧ length rs = length calls.

Lemma api_pool_sn calls db : sn pool_step (api_pool calls, db).
Proof. apply (budget_sn (replicate (length calls) max_calls)), api_pool_budget. Qed.

Lemma complete_answered calls db c :
  rtc pool_step (api_pool calls, db) c → complete c → answered calls c.
Proof.
  intros Hsteps Hc. destruct (complete_results _ Hc) as (rs&Hrs&Hlen).
  exists rs. split; [done|].
  rewrite Hlen, (pool_steps_length _ _ Hsteps). apply length_fmap.
Qed.


End api_liveness.

(** ** The lifecycle can always be finished *)

Section lifecycle_liveness.
Context `{!TaskModel} {ts : TaskSerializer}.
Context {bs : BenefactorSerializer} {cs : CharitySerializer}.
Variables (task_id benefactor_user charity_user : nat).

Definition as_user (u : nat) (m : Method) (d : Data) : Request := mkRequest (Some u) m d ∅.

Definition finish : list (Route * Request) :=
  [(TaskDoneUrl task_id, as_user charity_user POST ∅)].

Definition accept : list (Route * Request) :=
  (TaskResponseUrl task_id, as_user charity_user POST {["response" := VStr "A"]})
  :: finish.

(** The requests that finish a task, from its state. *)
Definition drive (state : Task.TaskStatus) : list (Route * Request) :=
  match state with
  | Task.PENDING => (TaskRequestUrl task_id, as_user benefactor_user GET ∅) :: accept
  | Task.WAITING => accept
  | Task.ASSIGNED => finish
  | Task.DONE => []
  end.

(** The state of the task after the requests, served one after the other. *)
Definition state_after (calls : list (Route * Request)) (db : DB) : option Task.TaskStatus :=
  Task.state <$> tasks (run_serial (api_pool calls) db).2 !! task_id.

Lemma run_serve (v : view Response) db : (run v db).2 = (serve v db).2.
Proof. unfold serve. by destruct (run v db). Qed.

Lemma run_serial_cons (v : view Response) vs db :
  (run_serial (v :: vs) db).2 = (run_serial vs (serve v db).2).2.
Proof.
  simpl. rewrite <-run_serve. destruct (run v db) as [r db']. simpl.
  by destruct (run_serial vs db').
Qed.

Section steps.
Context (db : DB) (task : Task.t) (benefactor : Benefactor.t) (charity : Charity.t).
Hypothesis Htask : tasks db !! task_id = Some task.
Hypothesis Hid : Task.id task = task_id.

Lemma serve_drive_request :
  Task.state task = Task.PENDING →
  benefactors db !! benefactor_user = Some benefactor →
  serve (route_view (TaskRequestUrl task_id) (as_user benefactor_user GET ∅)) db =
  (TaskRequest.request_sent,
   set_tasks <[task_id := Task.mk task_id Task.WAITING (Some (Benefactor.id benefactor))
                            (Task.charity task) (Task.fields task)]> db).
Proof.
  intros Hstate Hbf. rewrite serve_route. simpl.
  unfold is_benefactor, handle. simpl. rewrite Hbf.
  rewrite bool_decide_eq_true_2 by done. unfold TaskRequest.get. exec_view.
  unfold Task.set_assigned_benefactor, Task.set_state. simpl. by rewrite Hid.
Qed.

Lemma serve_drive_accept :
  Task.state task = Task.WAITING →
  charities db !! charity_user = Some charity →
  serve (route_view (TaskResponseUrl task_id)
            (as_user charity_user POST {["response" := VStr "A"]})) db =
  (TaskResponse.response_sent,
   set_tasks <[task_id := Task.mk task_id Task.ASSIGNED (Task.assigned_benefactor task)
                            (Task.charity task) (Task.fields task)]> db).
Proof.
  intros Hstate Hch. rewrite serve_route. simpl.
  unfold is_charity, handle. simpl. rewrite Hch.
  rewrite bool_decide_eq_true_2 by done. unfold TaskResponse.post. exec_view.
  unfold Task.set_state. simpl. by rewrite Hid.
Qed.

Lemma serve_drive_finish :
  Task.state task = Task.ASSIGNED →
  charities db !! charity_user = Some charity →
  serve (route_view (TaskDoneUrl task_id) (as_user charity_user POST ∅)) db =
  (DoneTask.done_successfully,
   set_tasks <[task_id := Task.mk task_id Task.DONE (Task.assigned_benefactor task)
                            (Task.charity task) (Task.fields task)]> db).
Proof.
  intros Hstate Hch. rewrite serve_route. simpl.
  unfold is_charity, handle. simpl. rewrite Hch.
  rewrite bool_decide_eq_true_2 by done. unfold DoneTask.post. exec_view.
  unfold Task.set_state. simpl. by rewrite Hid.
Qed.

End steps.

Lemma finish_done db task charity :
  tasks db !! task_id = Some task → Task.id task = task_id →
  Task.state task = Task.ASSIGNED → charities db !! charity_user = Some charity →
  state_after finish db = Some Task.DONE.
Proof.
  intros Htask Hid Hstate Hch. unfold state_after, finish, api_pool.
  rewrite fmap_cons, run_serial_cons. cbn [fst snd].
  rewrite (serve_drive_finish db task charity) by done. simpl.
  by rewrite lookup_insert_eq.
Qed.

Lemma accept_done db task charity :
  tasks db !! task_id = Some task → Task.id task = task_id →
  Task.state task = Task.WAITING → charities db !! charity_user = Some charity →
  state_after accept db = Some Task.DONE.
Proof.
  intros Htask Hid Hstate Hch. unfold state_after, accept, api_pool.
  rewrite fmap_cons, run_serial_cons. cbn [fst snd].
  rewrite (serve_drive_accept db task charity) by done.
  eapply (finish_done _ _ charity); [apply lookup_insert_eq|done..].
Qed.

(** C29.  The lifecycle has no dead end: whatever the state of a task, the
    requests of [drive], at most three, sent by a user with a benefactor
    profile and a user with a charity profile and served in turn, leave it
    DONE. *)
Theorem lifecycle_live db task benefactor charity :
  tasks db !! task_id = Some task → Task.id task = task_id →
  benefactors db !! benefactor_user = Some benefactor →
  charities db !! charity_user = Some charity →
  length (drive (Task.state task)) ≤ 3 ∧
  state_after (drive (Task.state task)) db = Some Task.DONE.
Proof.
  intros Htask Hid Hbf Hch. destruct (Task.state task) eqn:Hstate; simpl;
    (split; [lia|]).
  - unfold state_after, api_pool. rewrite fmap_cons, run_serial_cons.
    cbn [fst snd].
    rewrite (serve_drive_request db task benefactor) by done.
    eapply (accept_done _ _ charity); [apply lookup_insert_eq|done..].
  - by eapply accept_done.
  - by eapply finish_done.
  - unfold state_after. simpl. by rewrite Htask, <-Hstate.
Qed.

End lifecycle_liveness.

(** ** Liveness at concrete requests *)

Section liveness_samples.
#[local] Existing Instance sample_model.
#[local] Existing Instance sample_task_serializer.
#[local] Existing Instance sample_benefactor_serializer.
#[local] Existing Instance sample_charity_serializer.


(** Task 1 of the sample database is PENDING: user 20, a benefactor, and
    user 11, the owner of another charity, finish it in three requests. *)
Lemma lifecycle_live_witness :
  length (drive 1 20 11 Task.PENDING) ≤ 3 ∧
  state_after 1 (drive 1 20 11 Task.PENDING) sample_db = Some Task.DONE.
Proof.
  exact (lifecycle_live 1 20 11 sample_db (sample_task 1 Task.PENDING None)
           (Benefactor.mk 5 20 ∅) (Charity.mk 2 11 ∅)
           eq_refl eq_refl eq_refl eq_refl).
Defined.

Example drive_pending_codes :
  status_code ∘ respond <$> (run_serial (api_pool (drive 1 20 11 Task.PENDING)) sample_db).1
  = [HTTP_200_OK; HTTP_200_OK; HTTP_200_OK].
Proof. reflexivity. Qed.

End liveness_samples.
