(* ===== verification/Scenarios.v ===== *)
(** * Scenarios: the components composed

    Two paths through the components, each step served by the code of its
    own file.  [onboarding]: the path of a new benefactor.  [task_lives]:
    the life of a task, from the registration of its charity to DONE,
    through the five endpoints that change the database.

    The path of a new benefactor through the three components: the account
    is created by [UserSerializer.create], the profile by a request to
    [BenefactorRegistration], and from then on the permission classes of
    [TaskRequest] accept the user, whose request for a PENDING task assigns
    it to the new profile.  Each step is served by the code of its own
    file; what one leaves in the database is what the next one reads. *)

From S2P Require Import Prelude Prog Http Models Permissions Lifecycle Refinement.
From S2P Require Import Concurrency Dispatch Schema TaskList Registration Accounts.
From S2P Require Import Api Liveness.

Local Open Scope prog_scope.

Section new_benefactor.
Context `{!TaskModel} {ts : TaskSerializer}.
Context {bs : BenefactorSerializer} {cs : CharitySerializer} `{!Hasher}.
Implicit Types (db : DB) (validated_data profile : Data).

(** The database after the account of [validated_data] was created. *)
Definition signed_up validated_data db : DB :=
  (run (UserSerializer.create validated_data) db).2.

(** The registration of the profile, by user [u]. *)
Definition register (u : nat) profile : Route * Request :=
  (BenefactorsUrl, as_user u POST profile).

Lemma signed_up_tables validated_data db :
  tasks (signed_up validated_data db) = tasks db ∧
  benefactors (signed_up validated_data db) = benefactors db ∧
  next_benefactor_id (signed_up validated_data db) = next_benefactor_id db.
Proof.
  unfold signed_up. rewrite run_create.
  destruct (first_missing _ _); [done|]. destruct (hashed_password _); [|done].
  cbv zeta. unfold insert_user. by case_decide.
Qed.

Lemma serve_register u profile validated db :
  is_valid (R:=Benefactor.t) profile = inr validated → benefactors db !! u = None →
  serve (route_view BenefactorsUrl (as_user u POST profile)) db =
  (mkResponse (Serialized (to_representation
                 (Benefactor.mk (next_benefactor_id db) u validated))) HTTP_201_CREATED,
   (insert_benefactor u validated db).2).
Proof.
  intros Hvalid Hnone. rewrite serve_route. simpl. unfold handle. simpl.
  rewrite (serve_benefactor_post _ _ u) by done. simpl. by rewrite Hvalid, Hnone.
Qed.

Lemma serve_request_registered u validated task_id task db :
  benefactors db !! u = None →
  tasks db !! task_id = Some task → Task.id task = task_id →
  Task.state task = Task.PENDING →
  serve (route_view (TaskRequestUrl task_id) (as_user u GET ∅))
    (insert_benefactor u validated db).2 =
  (TaskRequest.request_sent,
   set_tasks <[task_id := Task.mk task_id Task.WAITING (Some (next_benefactor_id db))
                            (Task.charity task) (Task.fields task)]>
     (insert_benefactor u validated db).2).
Proof.
  intros Hnone Htask Hid Hstate. unfold insert_benefactor. rewrite Hnone. cbn [snd].
  by rewrite (serve_drive_request task_id u _ task
                (Benefactor.mk (next_benefactor_id db) u validated))
    by (done || apply lookup_insert_eq).
Qed.

(** C30.  From account to task: a user created by [UserSerializer.create]
    who has no profile yet registers as a benefactor with valid data and
    is answered 201; the request of that user for a PENDING task is then
    accepted by the permission classes, answered 200, and leaves the task
    WAITING for the profile just created. *)
Theorem onboarding validated_data raw profile validated task_id task db :
  first_missing read_order validated_data = None →
  validated_data !! "password" = Some (VStr raw) →
  ¬ username_taken db (validated_data !!! "username") →
  benefactors db !! next_user_id db = None →
  is_valid (R:=Benefactor.t) profile = inr validated →
  tasks db !! task_id = Some task → Task.id task = task_id →
  Task.state task = Task.PENDING →
  (run (UserSerializer.create validated_data) db).1 =
    inr (user_of validated_data (make_password (Some raw)) (next_user_id db)) ∧
  status_code (serve (route_view BenefactorsUrl (as_user (next_user_id db) POST profile))
                 (signed_up validated_data db)).1 = HTTP_201_CREATED ∧
  serve (route_view (TaskRequestUrl task_id) (as_user (next_user_id db) GET ∅))
    (serve (route_view BenefactorsUrl (as_user (next_user_id db) POST profile))
       (signed_up validated_data db)).2 =
  (TaskRequest.request_sent,
   set_tasks <[task_id := Task.mk task_id Task.WAITING (Some (next_benefactor_id db))
                            (Task.charity task) (Task.fields task)]>
     (serve (route_view BenefactorsUrl (as_user (next_user_id db) POST profile))
        (signed_up validated_data db)).2).
Proof.
  intros Hmiss Hpw Hfree Hnone Hvalid Htask Hid Hstate.
  destruct (signed_up_tables validated_data db) as (Htasks&Hbfs&Hnext).
  rewrite (serve_register _ profile validated) by (by rewrite ?Hbfs).
  split_and!; [|done|].
  - rewrite run_create, Hmiss, (lookup_total_correct _ _ _ Hpw).
    cbn [hashed_password]. cbv zeta. unfold insert_user. by rewrite decide_False.
  - cbn [snd]. rewrite <-Hnext.
    apply serve_request_registered; by rewrite ?Hbfs, ?Htasks.
Qed.

End new_benefactor.

(** ** The life of a task *)

(** The path of a task through every component: a user registers a
    charity, posts a task, a benefactor requests it, the charity accepts
    the request and marks the task done. *)

Section new_task.
Context `{!TaskModel} {ts : TaskSerializer} `{!TaskSerializerLaws}.
Context {bs : BenefactorSerializer} {cs : CharitySerializer}.
Implicit Types (db : DB) (profile data : Data) (u ub : nat).

(** The five requests: the task will be task [i]. *)
Definition task_life u ub profile data (i : nat) : list (Route * Request) :=
  [(CharitiesUrl, as_user u POST profile);
   (TasksUrl, as_user u POST data);
   (TaskRequestUrl i, as_user ub GET ∅);
   (TaskResponseUrl i, as_user u POST {["response" := VStr "A"]});
   (TaskDoneUrl i, as_user u POST ∅)].

(** The requests served one after the other: the status codes of the
    answers and the database left. *)
Fixpoint serve_each (calls : list (Route * Request)) db : list Status * DB :=
  match calls with
  | [] => ([], db)
  | c :: calls =>
      let r := serve (route_view c.1 c.2) db in
      let rest := serve_each calls r.2 in
      (status_code r.1 :: rest.1, rest.2)
  end.

Lemma serve_each_cons c calls db :
  serve_each (c :: calls) db =
  (status_code (serve (route_view c.1 c.2) db).1 ::
     (serve_each calls (serve (route_view c.1 c.2) db).2).1,
   (serve_each calls (serve (route_view c.1 c.2) db).2).2).
Proof. done. Qed.

Lemma serve_found u profile validated db :
  is_valid (R:=Charity.t) profile = inr validated → charities db !! u = None →
  serve (route_view CharitiesUrl (as_user u POST profile)) db =
  (mkResponse (Serialized (to_representation
                 (Charity.mk (next_charity_id db) u validated))) HTTP_201_CREATED,
   (insert_charity u validated db).2).
Proof.
  intros Hvalid Hnone. rewrite serve_route. simpl. unfold handle. simpl.
  rewrite (serve_charity_post _ _ u) by done. simpl. by rewrite Hvalid, Hnone.
Qed.

Lemma serve_create u data charity validated db :
  charities db !! u = Some charity →
  is_valid (post_data (as_user u POST data) charity) = inr validated →
  serve (route_view TasksUrl (as_user u POST data)) db =
  (mkResponse (Serialized (to_representation (insert_task validated db).1))
              HTTP_201_CREATED,
   (insert_task validated db).2).
Proof.
  intros Hch Hvalid. rewrite serve_route. simpl. unfold is_charity, handle. simpl.
  rewrite Hch, bool_decide_eq_true_2 by done.
  by rewrite (serve_post _ _ u charity), Hvalid.
Qed.

(** The task as the serializer laws make [Tasks.post] create it. *)
Lemma insert_task_posted u data charity validated db :
  is_valid (post_data (as_user u POST data) charity) = inr validated →
  (insert_task validated db).1 =
  Task.mk (next_task_id db) Task.PENDING None (Charity.id charity) (Task.fields validated).
Proof.
  intros Hvalid. destruct (valid_pending _ _ Hvalid) as [Hstate Hnone].
  pose proof (valid_charity _ _ Hvalid) as Hc.
  unfold post_data in Hc. rewrite lookup_insert_eq in Hc.
  assert (Task.charity validated = Charity.id charity) as Hcharity
    by (injection Hc; lia).
  unfold insert_task. simpl. by rewrite Hstate, Hnone, Hcharity.
Qed.

(** C18.  The life of a task, through every component: on any database,
    a user without charity registers one with valid data, posts a task
    with valid data, a benefactor requests the task, the user accepts the
    request and marks the task done.  The five requests, served in turn,
    are answered 201, 201, 200, 200 and 200, and leave the task, under
    the next id of the sequence, DONE, assigned to the benefactor and
    owned by the new charity. *)
Theorem task_lives u ub profile vprofile data validated benefactor db :
  charities db !! u = None →
  is_valid (R:=Charity.t) profile = inr vprofile →
  is_valid (post_data (as_user u POST data) (Charity.mk (next_charity_id db) u vprofile))
    = inr validated →
  benefactors db !! ub = Some benefactor →
  (serve_each (task_life u ub profile data (next_task_id db)) db).1 =
    [HTTP_201_CREATED; HTTP_201_CREATED; HTTP_200_OK; HTTP_200_OK; HTTP_200_OK] ∧
  tasks (serve_each (task_life u ub profile data (next_task_id db)) db).2
    !! next_task_id db =
  Some (Task.mk (next_task_id db) Task.DONE (Some (Benefactor.id benefactor))
                (next_charity_id db) (Task.fields validated)).
Proof.
  intros Hnone Hprofile Hvalid Hbf. unfold task_life.
  set (charity := Charity.mk (next_charity_id db) u vprofile) in *.
  rewrite !serve_each_cons. cbn [fst snd].
  rewrite (serve_found u profile vprofile) by done. cbn [fst snd status_code].
  unfold insert_charity. rewrite Hnone. cbn [snd]. fold charity.
  set (db1 := mkDB _ _ _ _ _ _ _ _).
  rewrite (serve_create u data charity validated db1)
    by (done || apply lookup_insert_eq).
  cbn [fst snd status_code]. set (i := next_task_id db).
  pose proof (insert_task_posted u data charity validated db1 Hvalid) as Hrow.
  set (db2 := (insert_task validated db1).2).
  assert (tasks db2 !! i = Some (insert_task validated db1).1) as Hi
    by apply lookup_insert_eq.
  rewrite Hrow in Hi. fold i in Hi. simpl in Hi.
  rewrite (serve_drive_request i ub db2 _ benefactor Hi) by done.
  cbn [fst snd status_code TaskRequest.request_sent].
  rewrite (serve_drive_accept i u _ _ charity (lookup_insert_eq _ _ _))
    by (done || apply lookup_insert_eq).
  cbn [fst snd status_code TaskResponse.response_sent].
  rewrite (serve_drive_finish i u _ _ charity (lookup_insert_eq _ _ _))
    by (done || apply lookup_insert_eq).
  split; [done|]. apply lookup_insert_eq.
Qed.

End new_task.

(** ** The scenario at concrete data *)

Section new_benefactor_samples.
#[local] Existing Instance sample_model.
#[local] Existing Instance sample_task_serializer.
#[local] Existing Instance sample_benefactor_serializer.
#[local] Existing Instance sample_charity_serializer.
#[local] Existing Instance sample_hasher.

(** Ada signs up on the sample database as user 22, registers as
    benefactor 7 and requests task 1. *)
Lemma onboarding_witness :
  (run (UserSerializer.create ada_data) sample_db).1 =
    inr (user_of ada_data (make_password (Some "secret")) 22) ∧
  status_code (serve (route_view BenefactorsUrl
                        (as_user 22 POST {["name" := VStr "Ada"]}))
                 (signed_up ada_data sample_db)).1 = HTTP_201_CREATED ∧
  serve (route_view (TaskRequestUrl 1) (as_user 22 GET ∅))
    (serve (route_view BenefactorsUrl (as_user 22 POST {["name" := VStr "Ada"]}))
       (signed_up ada_data sample_db)).2 =
  (TaskRequest.request_sent,
   set_tasks <[1 := sample_task 1 Task.WAITING (Some 7)]>
     (serve (route_view BenefactorsUrl (as_user 22 POST {["name" := VStr "Ada"]}))
        (signed_up ada_data sample_db)).2).
Proof.
  apply (onboarding ada_data "secret" {["name" := VStr "Ada"]} {["name" := VStr "Ada"]}
           1 (sample_task 1 Task.PENDING None) sample_db); try reflexivity.
  intros (i&u&Hu&_). simpl in Hu. by rewrite lookup_empty in Hu.
Defined.

End new_benefactor_samples.

Section new_task_samples.
#[local] Existing Instance sample_model.
#[local] Existing Instance sample_task_serializer.
#[local] Existing Instance sample_task_serializer_laws.
#[local] Existing Instance sample_benefactor_serializer.
#[local] Existing Instance sample_charity_serializer.

(** User 30 registers charity 3 on the sample database and posts task 5;
    benefactor 5 (user 20) requests it; it ends DONE. *)
Lemma task_lives_witness :
  (serve_each (task_life 30 20 {["name" := VStr "Hope"]} {["title" := VStr "paint"]} 5)
              sample_db).1 =
    [HTTP_201_CREATED; HTTP_201_CREATED; HTTP_200_OK; HTTP_200_OK; HTTP_200_OK] ∧
  tasks (serve_each (task_life 30 20 {["name" := VStr "Hope"]}
                       {["title" := VStr "paint"]} 5) sample_db).2 !! 5 =
  Some (Task.mk 5 Task.DONE (Some 5) 3 {["title" := VStr "paint"]}).
Proof.
  exact (task_lives 30 20 {["name" := VStr "Hope"]} {["name" := VStr "Hope"]}
           {["title" := VStr "paint"]}
           (Task.mk 0 Task.PENDING None 3 {["title" := VStr "paint"]})
           (Benefactor.mk 5 20 ∅) sample_db eq_refl eq_refl eq_refl eq_refl).
Defined.

End new_task_samples.
