(* ===== verification/Linearizability.v ===== *)
(** * Linearizability: which requests take effect at one moment

    A registration of a profile makes one ORM call, the creation; a list
    makes one, the query.  [Tasks.post] makes three: it reads the charity
    of the caller twice, for the permission and for the data, and creates
    the task; the reads are stable, since a profile once stored never
    changes.  Such requests are [linear] (file Linearize): however they
    interleave, the outcome is that of serving them one after the other in
    some order ([collection_requests_linearizable]).  In particular a list
    is a snapshot of the table, of two registrations of one user exactly
    the first to reach the database succeeds, and a task posted while its
    charity registers is created with the charity or not at all.

    The requests of the lifecycle read a row and write it back: they are
    not linear, and the double assignment is an outcome that no serial
    order gives ([request_race_not_serial]). *)

From S2P Require Import Prelude Prog Http Models Permissions Lifecycle Refinement.
From S2P Require Import Concurrency Dispatch Schema TaskList Registration Api.
From S2P Require Import Linearize.

Local Open Scope prog_scope.

(** [c] is the outcome of serving the requests [pool] on [db] one after
    the other, in some order. *)
Definition serial_outcome (pool : list (view Response)) (db : DB)
    (c : list (view Response) * DB) : Prop :=
  ∃ order, order ≡ₚ seq 0 (length pool) ∧ c = serve_in_order order pool db.

Section atomic_requests.
Context `{!TaskModel} {ts : TaskSerializer}.
Context {bs : BenefactorSerializer} {cs : CharitySerializer}.
Implicit Types (db : DB) (calls : list (Route * Request)).

(** The requests served in at most one ORM call. *)
Definition atomic_call (c : Route * Request) : bool :=
  match c.1 with
  | BenefactorsUrl | CharitiesUrl => true
  | TasksUrl => bool_decide (method c.2 ≠ POST)
  | _ => false
  end.

Create HintDb views discriminated.
#[local] Hint Unfold dispatch handle call BenefactorRegistration.post
  CharityRegistration.post Tasks.get_permissions Tasks.get : views.

(** Walk through a view, operation by operation and branch by branch. *)
Ltac walk :=
  repeat first [ done | intros ? | progress simpl | progress autounfold with views
               | case_bool_decide | case_match ].

Lemma atomic_call_atomic c : atomic_call c = true → atomic (route_view c.1 c.2).
Proof.
  destruct c as [route [u m d q]]. unfold atomic_call, atomic.
  destruct route, m; try done; intros _; walk.
Qed.

Lemma api_pool_atomic calls :
  Forall (λ c, atomic_call c = true) calls → Forall atomic (api_pool calls).
Proof.
  intros Hall. apply Forall_fmap. eapply Forall_impl; [done|].
  intros c Hc. by apply atomic_call_atomic.
Qed.

(** ** The requests to the collections *)

(** The requests to the three collections: the profiles of benefactors,
    the profiles of charities, the tasks.  Those that are not atomic are
    the [POST]s to [tasks]: two reads of the profile of the caller, by the
    permission class and by the handler, then the creation. *)
Definition collection_call (c : Route * Request) : bool :=
  match c.1 with
  | BenefactorsUrl | CharitiesUrl | TasksUrl => true
  | _ => false
  end.

(** Profiles are never changed or deleted: a profile that was read is
    read again in every later database. *)
Lemma stable_user_charity u db :
  is_Some (charities db !! u) → stable_read wf_db db_extends (UserCharity u) db.
Proof.
  intros [ch Hch] db' (_&_&Hsub&_) _. cbn [perform orm_effects perform_orm fst].
  rewrite Hch. f_equal. by eapply lookup_weaken.
Qed.

Lemma post_linear request : linear wf_db db_extends (Tasks.post request).
Proof.
  unfold Tasks.post, user_charity. destruct (user request) as [u|]; [|done].
  intros db _. cbn [perform orm_effects perform_orm fst].
  destruct (charities db !! u) as [ch|] eqn:Hch; [right|by left].
  split; [by apply stable_user_charity|]. simpl.
  destruct (is_valid _); [done|]. intros db' _. by left.
Qed.

Lemma create_view_linear request :
  method request = POST → linear wf_db db_extends (route_view TasksUrl request).
Proof.
  intros Hm. unfold route_view, dispatch, handle. rewrite Hm. simpl.
  unfold Tasks.get_permissions. rewrite Hm. simpl.
  destruct (user request) as [u|] eqn:Hu; [|done].
  intros db _. cbn [perform orm_effects perform_orm fst].
  destruct (charities db !! u) as [ch|] eqn:Hch; [right|by left].
  split; [by apply stable_user_charity|]. simpl. apply post_linear.
Qed.

Lemma collection_call_linear c :
  collection_call c = true → linear wf_db db_extends (route_view c.1 c.2).
Proof.
  destruct c as [route request]. unfold collection_call. simpl. intros Hc.
  destruct (decide (atomic_call (route, request) = true)) as [Hat|Hnat].
  { by apply atomic_linear, (atomic_call_atomic (route, request)). }
  destruct route; try done. apply create_view_linear.
  unfold atomic_call in Hnat. simpl in Hnat.
  rewrite bool_decide_eq_true in Hnat. by destruct (decide (method request = POST)).
Qed.

Lemma api_pool_linear calls :
  Forall (λ c, collection_call c = true) calls →
  Forall (linear wf_db db_extends) (api_pool calls).
Proof.
  intros Hall. apply Forall_fmap. eapply Forall_impl; [done|].
  intros c Hc. by apply collection_call_linear.
Qed.

(** Registrations, lists and creations of tasks are linearizable:
    every interleaving of requests to the three collections that answers
    them all ends, from a well-formed database, with the responses and the
    database of serving the requests one after the other in some order. *)
Theorem collection_requests_linearizable `{!TaskSerializerLaws} calls db c' :
  wf_db db → Forall (λ c, collection_call c = true) calls →
  rtc pool_step (api_pool calls, db) c' → complete c' →
  serial_outcome (api_pool calls) db c'.
Proof.
  intros Hwf Hall Hsteps Hc.
  apply (linearizable wf_db db_extends); [by apply api_pool_safe| |done..].
  by apply api_pool_linear.
Qed.

(** ** Two registrations of one user *)

Lemma run_register request u validated db :
  user request = Some u → method request = POST →
  is_valid (R:=Benefactor.t) (data request) = inr validated →
  run (route_view BenefactorsUrl request) db =
  match benefactors db !! u with
  | Some _ => (inl IntegrityError, db)
  | None =>
      (inr (mkResponse (Serialized (to_representation
              (Benefactor.mk (next_benefactor_id db) u validated))) HTTP_201_CREATED),
       (insert_benefactor u validated db).2)
  end.
Proof.
  intros Hu Hm Hvalid. unfold route_view, dispatch, handle. rewrite Hm. simpl.
  rewrite Hu. simpl. unfold BenefactorRegistration.post. rewrite Hu, Hvalid. simpl.
  cbn [perform orm_effects perform_orm]. unfold insert_benefactor.
  by destruct (benefactors db !! u).
Qed.

(** The outcome of the registration that reaches the database first, and
    of the other. *)
Definition registered (u : nat) (validated : Data) (db : DB) : view Response * DB :=
  (Ret (mkResponse (Serialized (to_representation
          (Benefactor.mk (next_benefactor_id db) u validated))) HTTP_201_CREATED),
   (insert_benefactor u validated db).2).

Definition refused : view Response := Raise IntegrityError.

(** Two concurrent registrations of one user, both with valid data:
    however their ORM calls interleave, exactly one creates the profile
    and is answered 201, the other ends in the integrity error (500), and
    the database holds the one profile of the winner. *)
Theorem concurrent_registration_once r1 r2 u v1 v2 db c' :
  user r1 = Some u → method r1 = POST →
  is_valid (R:=Benefactor.t) (data r1) = inr v1 →
  user r2 = Some u → method r2 = POST →
  is_valid (R:=Benefactor.t) (data r2) = inr v2 →
  benefactors db !! u = None →
  rtc pool_step (api_pool [(BenefactorsUrl, r1); (BenefactorsUrl, r2)], db) c' →
  complete c' →
  c' = ([(registered u v1 db).1; refused], (registered u v1 db).2) ∨
  c' = ([refused; (registered u v2 db).1], (registered u v2 db).2).
Proof.
  intros Hu1 Hm1 Hv1 Hu2 Hm2 Hv2 Hnone Hsteps Hc.
  assert (Forall (λ c, atomic_call c = true)
            [(BenefactorsUrl, r1); (BenefactorsUrl, r2)]) as Hat
    by (by rewrite !Forall_cons, Forall_nil).
  destruct (atomic_linearizable _ _ _ (api_pool_atomic _ Hat) Hsteps Hc)
    as (order&Hperm&->).
  destruct (serve_in_order_two order (route_view BenefactorsUrl r1)
              (route_view BenefactorsUrl r2) db Hperm) as [Hserve|Hserve];
    [left|right]; unfold api_pool; cbn [fmap list_fmap fst snd]; rewrite Hserve;
    rewrite !(run_register _ u _ _) by done;
    unfold registered, refused, insert_benefactor; rewrite !Hnone; simpl;
    by rewrite lookup_insert_eq.
Qed.

(** ** A task posted while its charity registers *)

Lemma run_register_charity request u validated db :
  user request = Some u → method request = POST →
  is_valid (R:=Charity.t) (data request) = inr validated →
  run (route_view CharitiesUrl request) db =
  match charities db !! u with
  | Some _ => (inl IntegrityError, db)
  | None =>
      (inr (mkResponse (Serialized (to_representation
              (Charity.mk (next_charity_id db) u validated))) HTTP_201_CREATED),
       (insert_charity u validated db).2)
  end.
Proof.
  intros Hu Hm Hvalid. unfold route_view, dispatch, handle. rewrite Hm. simpl.
  rewrite Hu. simpl. unfold CharityRegistration.post. rewrite Hu, Hvalid. simpl.
  cbn [perform orm_effects perform_orm]. unfold insert_charity.
  by destruct (charities db !! u).
Qed.

Lemma run_create_view request u db :
  user request = Some u → method request = POST →
  run (route_view TasksUrl request) db =
  match charities db !! u with
  | Some _ => run (Tasks.post request) db
  | None => (inl PermissionDenied, db)
  end.
Proof.
  intros Hu Hm. unfold route_view, dispatch, handle. rewrite Hm. simpl.
  unfold Tasks.get_permissions, permission_denied. rewrite Hm. simpl.
  rewrite Hu. simpl. destruct (charities db !! u).
  - by rewrite bool_decide_eq_true_2.
  - rewrite bool_decide_eq_false_2 by (by intros []). simpl.
    unfold permission_denied. by rewrite Hu.
Qed.

(** The database with the charity of user [u]. *)
Definition with_charity (u : nat) (validated : Data) (db : DB) : DB :=
  (insert_charity u validated db).2.

(** C27.  A user registers a charity and posts a task at the same time:
    however the ORM calls of the two requests interleave, the registration
    is answered 201 and the post is either refused by the permission class
    (403) and creates nothing, or served as it is served alone on the
    database that holds the charity.  It never ends in an unhandled
    exception for the missing profile, and never creates a task without
    its charity. *)
Theorem post_during_registration `{!TaskSerializerLaws} r1 r2 u validated db c' :
  wf_db db →
  user r1 = Some u → method r1 = POST →
  is_valid (R:=Charity.t) (data r1) = inr validated →
  user r2 = Some u → method r2 = POST →
  charities db !! u = None →
  rtc pool_step (api_pool [(CharitiesUrl, r1); (TasksUrl, r2)], db) c' →
  complete c' →
  c'.1 !! 0 = Some (Ret (mkResponse (Serialized (to_representation
                      (Charity.mk (next_charity_id db) u validated))) HTTP_201_CREATED)) ∧
  ((c'.1 !! 1 = Some (Raise PermissionDenied) ∧ c'.2 = with_charity u validated db) ∨
   (c'.1 !! 1 = Some (done (run (Tasks.post r2) (with_charity u validated db)).1) ∧
    c'.2 = (run (Tasks.post r2) (with_charity u validated db)).2)).
Proof.
  intros Hwf Hu1 Hm1 Hv1 Hu2 Hm2 Hnone Hsteps Hc.
  assert (Forall (λ c, collection_call c = true)
            [(CharitiesUrl, r1); (TasksUrl, r2)]) as Hall
    by (by rewrite !Forall_cons, Forall_nil).
  destruct (linearizable wf_db db_extends _ _ _ (api_pool_safe _ db Hwf)
              (api_pool_linear _ Hall) Hsteps Hc) as (order&Hperm&->).
  assert (run (route_view CharitiesUrl r1) db =
          (inr (mkResponse (Serialized (to_representation
                  (Charity.mk (next_charity_id db) u validated))) HTTP_201_CREATED),
           with_charity u validated db)) as Hreg
    by (by rewrite (run_register_charity _ u validated), Hnone).
  assert (run (route_view TasksUrl r2) db = (inl PermissionDenied, db)) as Hdenied
    by (by rewrite (run_create_view _ u), Hnone).
  assert (run (route_view TasksUrl r2) (with_charity u validated db) =
          run (Tasks.post r2) (with_charity u validated db)) as Hpost.
  { rewrite (run_create_view _ u) by done. unfold with_charity, insert_charity.
    rewrite Hnone. simpl. by rewrite lookup_insert_eq. }
  destruct (serve_in_order_two order (route_view CharitiesUrl r1)
              (route_view TasksUrl r2) db Hperm) as [Hserve|Hserve];
    unfold api_pool; cbn [fmap list_fmap fst snd]; rewrite Hserve;
    repeat first [rewrite Hreg | rewrite Hdenied | rewrite Hpost
                 | progress cbn [fst snd]];
    auto.
Qed.

End atomic_requests.

(** ** The lifecycle is not linearizable *)

Section lifecycle_not_linear.
Context (r1 r2 : Request) (task_id : nat) (db : DB) (task : Task.t).
Context (u1 u2 : nat) (b1 b2 : Benefactor.t).
Context (Htask : tasks db !! task_id = Some task).
Context (Hid : Task.id task = task_id).
Context (Hstate : Task.state task = Task.PENDING).
Context (Hu1 : user r1 = Some u1) (Hb1 : benefactors db !! u1 = Some b1).
Context (Hu2 : user r2 = Some u2) (Hb2 : benefactors db !! u2 = Some b2).

(** Served alone a request for the PENDING task succeeds; served after
    another it is refused. *)
Lemma run_request_first r u b :
  user r = Some u → benefactors db !! u = Some b →
  run (TaskRequest.get r task_id) db =
  (inr TaskRequest.request_sent, set_tasks <[task_id := waiting_for b task]> db).
Proof.
  intros Hu Hb. unfold TaskRequest.get. repeat exec_step.
  unfold waiting_for, Task.set_assigned_benefactor, Task.set_state. simpl.
  by rewrite Hid.
Qed.

Lemma run_request_second r b :
  run (TaskRequest.get r task_id)
      (set_tasks <[task_id := waiting_for b task]> db) =
  (inr TaskRequest.not_pending, set_tasks <[task_id := waiting_for b task]> db).
Proof. unfold TaskRequest.get. by repeat exec_step. Qed.

(** C26.  The double assignment is no serial execution: two requests for
    one PENDING task reach, by an interleaving, an outcome in which both
    are answered 200, and served one after the other, in either order,
    they end otherwise, the second being answered 404.  A read that is
    followed by a write of what was read is not a stable read. *)
Theorem request_race_not_serial :
  ∃ c', rtc pool_step
          (pool [(RequestTask, r1, task_id); (RequestTask, r2, task_id)], db) c' ∧
        complete c' ∧
        ¬ serial_outcome
            (pool [(RequestTask, r1, task_id); (RequestTask, r2, task_id)]) db c'.
Proof.
  pose proof (request_race_schedule r1 r2 task_id db task u1 u2 b1 b2
                Htask Hid Hstate Hu1 Hb1 Hu2 Hb2) as Hrace.
  eexists. split_and!; [apply run_schedule_sound|..]; rewrite Hrace.
  - by repeat constructor.
  - intros (order&Hperm&Heq). revert Heq.
    unfold pool, call_view. cbn [fmap list_fmap fst snd handler].
    destruct (serve_in_order_two order (TaskRequest.get r1 task_id)
                (TaskRequest.get r2 task_id) db Hperm) as [-> | ->];
      rewrite ?(run_request_first r1 u1 b1), ?(run_request_first r2 u2 b2) by done;
      cbn [fst snd]; rewrite run_request_second; cbn [fst snd];
      rewrite ?(run_request_first r1 u1 b1), ?(run_request_first r2 u2 b2) by done;
      by intros [=].
Qed.

End lifecycle_not_linear.

(** ** Linearizability at concrete requests *)

Section atomic_samples.
#[local] Existing Instance sample_model.
#[local] Existing Instance sample_task_serializer.
#[local] Existing Instance sample_task_serializer_laws.
#[local] Existing Instance sample_benefactor_serializer.
#[local] Existing Instance sample_charity_serializer.

(** User 30 registers twice while user 20 lists the tasks and user 10
    posts one. *)
Definition collection_calls : list (Route * Request) :=
  [(BenefactorsUrl, register_request 30);
   (TasksUrl, sample_request 20 GET []);
   (BenefactorsUrl, register_request 30);
   (TasksUrl, paint_request)].

Lemma collection_requests_linearizable_witness :
  serial_outcome (api_pool collection_calls) sample_db
    (run_schedule [3; 2; 3; 1; 3; 0] (api_pool collection_calls) sample_db).
Proof.
  apply (collection_requests_linearizable collection_calls sample_db).
  - apply wf_sample.
  - by repeat constructor.
  - apply run_schedule_sound.
  - by apply (bool_decide_unpack _).
Defined.

Lemma concurrent_registration_once_witness :
  run_schedule [1; 0] (api_pool [(BenefactorsUrl, register_request 30);
                                 (BenefactorsUrl, register_request 30)]) sample_db =
    ([(registered 30 {["name" := VStr "Ada"]} sample_db).1; refused],
     (registered 30 {["name" := VStr "Ada"]} sample_db).2) ∨
  run_schedule [1; 0] (api_pool [(BenefactorsUrl, register_request 30);
                                 (BenefactorsUrl, register_request 30)]) sample_db =
    ([refused; (registered 30 {["name" := VStr "Ada"]} sample_db).1],
     (registered 30 {["name" := VStr "Ada"]} sample_db).2).
Proof.
  apply (concurrent_registration_once (register_request 30) (register_request 30) 30
           {["name" := VStr "Ada"]} {["name" := VStr "Ada"]} sample_db);
    try reflexivity.
  - apply run_schedule_sound.
  - by apply (bool_decide_unpack _).
Defined.

(** User 30 registers a charity and posts a task; the post comes first
    and is refused. *)
Lemma post_during_registration_witness :
  (run_schedule [1; 0] (api_pool [(CharitiesUrl, register_request 30);
      (TasksUrl, sample_request 30 POST [("title", VStr "paint")])]) sample_db).1 !! 0 =
    Some (Ret (mkResponse (Serialized (to_representation
                 (Charity.mk 3 30 {["name" := VStr "Ada"]}))) HTTP_201_CREATED)) ∧
  (((run_schedule [1; 0] (api_pool [(CharitiesUrl, register_request 30);
      (TasksUrl, sample_request 30 POST [("title", VStr "paint")])]) sample_db).1 !! 1 =
      Some (Raise PermissionDenied) ∧
    (run_schedule [1; 0] (api_pool [(CharitiesUrl, register_request 30);
      (TasksUrl, sample_request 30 POST [("title", VStr "paint")])]) sample_db).2 =
      with_charity 30 {["name" := VStr "Ada"]} sample_db) ∨
   ((run_schedule [1; 0] (api_pool [(CharitiesUrl, register_request 30);
      (TasksUrl, sample_request 30 POST [("title", VStr "paint")])]) sample_db).1 !! 1 =
      Some (done (run (Tasks.post (sample_request 30 POST [("title", VStr "paint")]))
                    (with_charity 30 {["name" := VStr "Ada"]} sample_db)).1) ∧
    (run_schedule [1; 0] (api_pool [(CharitiesUrl, register_request 30);
      (TasksUrl, sample_request 30 POST [("title", VStr "paint")])]) sample_db).2 =
      (run (Tasks.post (sample_request 30 POST [("title", VStr "paint")]))
         (with_charity 30 {["name" := VStr "Ada"]} sample_db)).2)).
Proof.
  apply (post_during_registration (register_request 30)
           (sample_request 30 POST [("title", VStr "paint")]) 30
           {["name" := VStr "Ada"]} sample_db); try reflexivity.
  - apply wf_sample.
  - apply run_schedule_sound.
  - by apply (bool_decide_unpack _).
Defined.

(** The other outcome: the registration reaches the database between the
    start of the post and its permission check, and the task is created
    for the charity just registered. *)
Example post_after_registration :
  (run_schedule [0; 1; 1; 1] (api_pool [(CharitiesUrl, register_request 30);
     (TasksUrl, sample_request 30 POST [("title", VStr "paint")])]) sample_db).1 !! 1 =
  Some (Ret (mkResponse (Serialized (to_representation
          (Task.mk 5 Task.PENDING None 3 {["title" := VStr "paint"]}))) HTTP_201_CREATED)).
Proof. reflexivity. Qed.

(** Benefactors 5 and 6 (users 20 and 21) request task 1. *)
Lemma request_race_not_serial_witness :
  ∃ c', rtc pool_step
          (pool [(RequestTask, sample_request 20 GET [], 1);
                 (RequestTask, sample_request 21 GET [], 1)], sample_db) c' ∧
        complete c' ∧
        ¬ serial_outcome
            (pool [(RequestTask, sample_request 20 GET [], 1);
                   (RequestTask, sample_request 21 GET [], 1)]) sample_db c'.
Proof.
  exact (request_race_not_serial (sample_request 20 GET []) (sample_request 21 GET [])
           1 sample_db (sample_task 1 Task.PENDING None) 20 21
           (Benefactor.mk 5 20 ∅) (Benefactor.mk 6 21 ∅)
           eq_refl eq_refl eq_refl eq_refl eq_refl eq_refl eq_refl).
Defined.

End atomic_samples.
