(* ===== verification/Evolution.v ===== *)
(** * Evolution: what an interleaving can do to a task

    Concurrent requests race: a handler writes back a row that it read
    earlier, over whatever the other requests have written since (file
    Concurrency).  What no interleaving can do is take a task off the
    lifecycle: every row a handler writes is a row of the database the
    requests found, moved along the transition table.  Hence, whatever
    the requests and however their ORM calls interleave, every task that
    was there keeps its id, its charity and its other columns, and is in
    a state that the table reaches from the state it was in. *)

From S2P Require Import Prelude Prog Http Models Permissions Lifecycle Refinement.
From S2P Require Import Concurrency Dispatch Schema TaskList Registration Api.

Local Open Scope prog_scope.

Section evolution.
(** The database the requests found. *)
Variable db0 : DB.
Implicit Types (db : DB) (task : Task.t) (request : Request).

(** The row [i] of [db] is [task] moved along the transition table:
    its state and benefactor are some that the table reaches from those
    of [task], its other columns are those of [task]. *)
Definition on_lifecycle (i : nat) task db : Prop :=
  ∃ a, rtc lifecycle_step (abs task) a ∧ tasks db !! i = Some (with_abs a task).

(** A task in a state that the table does not leave. *)
Definition settled task : Prop :=
  ∀ a, rtc lifecycle_step (abs task) a → a = abs task.

Lemma done_settled task : Task.state task = Task.DONE → settled task.
Proof. intros Hdone a Ha. unfold abs in *. rewrite Hdone in *. by apply done_stuck. Qed.

(** An object that descends from the row of [db0] with its id, when
    there is one: the row moved along the table. *)
Definition descends task : Prop :=
  ∀ task0, tasks db0 !! Task.id task = Some task0 →
    ∃ a, rtc lifecycle_step (abs task0) a ∧ task = with_abs a task0.

(** What an ORM call writes, and what it can have read. *)
Definition writes_descendant {X} (op : Op X) : Prop :=
  match op with
  | TaskSave task => descends task
  | _ => True
  end.

Definition reads_descendant {X} (op : Op X) : X → Prop :=
  match op in Op X return X → Prop with
  | TaskGet _ => λ o, ∀ task, o = Some task → descends task
  | _ => λ _, True
  end.

(** A program that saves descendants only, provided that it has read
    descendants only; what it returns satisfies [Q]. *)
Fixpoint descending {A} (Q : A → Prop) (m : view A) : Prop :=
  match m with
  | Ret a => Q a
  | Raise _ => True
  | Vis op k =>
      writes_descendant op ∧ ∀ x, reads_descendant op x → descending Q (k x)
  end.

Lemma descending_bind {A B} (Q : A → Prop) (Q' : B → Prop)
    (m : view A) (f : A → view B) :
  descending Q m → (∀ a, Q a → descending Q' (f a)) → descending Q' (bind m f).
Proof.
  intros Hm Hf. induction m as [a|e|X op k IH]; simpl in *; [auto..|].
  destruct Hm as [Hop Hk]. split; [done|]. auto.
Qed.

Lemma descends_step task a :
  descends task → lifecycle_step (abs task) a → descends (with_abs a task).
Proof.
  intros Hd Hstep task0 Htask0. destruct (Hd task0 Htask0) as (a0&Ha0&->).
  exists a. split; [|done]. rewrite abs_with_abs in Hstep.
  by eapply rtc_r.
Qed.

(** The transition a handler makes once its guard has passed. *)
Lemma descends_transition task t a :
  descends task → transition (abs task) t = Some a → descends (with_abs a task).
Proof.
  intros Hd Ht. apply descends_step; [done|]. exists t.
  by apply transition_lifecycle.
Qed.

(** ** The ORM calls *)

Lemma get_descending task_id : descending descends (get_object_or_404 task_id).
Proof. split; [done|]. intros [task|] Hread; simpl; auto. Qed.

Lemma save_descending task : descends task → descending (λ _, True) (save task).
Proof. by split. Qed.

(** A program that saves nothing. *)
Fixpoint saves_nothing {A} (m : view A) : Prop :=
  match m with
  | Vis op k =>
      match op with TaskSave _ => False | _ => True end ∧
      ∀ x, saves_nothing (k x)
  | _ => True
  end.

Lemma saves_nothing_descending {A} (m : view A) :
  saves_nothing m → descending (λ _, True) m.
Proof.
  induction m as [a|e|X op k IH]; simpl; [done..|].
  intros [Hop Hk]. split; [by destruct op|]. auto.
Qed.

Lemma saves_nothing_bind {A B} (m : view A) (f : A → view B) :
  saves_nothing m → (∀ a, saves_nothing (f a)) → saves_nothing (bind m f).
Proof.
  intros Hm Hf. induction m as [a|e|X op k IH]; simpl in *; [auto..|].
  destruct Hm as [Hop Hk]. split; [done|]. auto.
Qed.

(** ** The handlers *)

Lemma user_benefactor_descending request :
  descending (λ _, True) (user_benefactor request).
Proof.
  apply saves_nothing_descending. unfold user_benefactor.
  destruct (user request); [|done]. split; [done|]. by intros [].
Qed.

Lemma request_descending request task_id :
  descending (λ _, True) (TaskRequest.get request task_id).
Proof.
  eapply descending_bind; [apply get_descending|]. intros task Hd. cbn beta zeta.
  case_bool_decide as Hstate; [done|].
  eapply descending_bind; [apply user_benefactor_descending|]. intros bf _.
  eapply descending_bind; [|done]. apply save_descending.
  apply (descends_transition task (Requests (Benefactor.id bf)) (Task.WAITING, Some _));
    [done|]. unfold transition, abs. by rewrite Hstate.
Qed.

Lemma respond_descending request task_id :
  descending (λ _, True) (TaskResponse.post request task_id).
Proof.
  eapply descending_bind; [apply get_descending|]. intros task Hd. cbn beta zeta.
  destruct (negb _); [done|].
  case_bool_decide as Hstate; [done|].
  destruct (eq_str _ "A"); [|destruct (eq_str _ "R"); [|done]];
    (eapply descending_bind; [|done]); apply save_descending.
  - apply (descends_transition task Accepts (Task.ASSIGNED, _)); [done|].
    unfold transition, abs. by rewrite Hstate.
  - apply (descends_transition task Rejects (Task.PENDING, None)); [done|].
    unfold transition, abs. by rewrite Hstate.
Qed.

Lemma finish_descending request task_id :
  descending (λ _, True) (DoneTask.post request task_id).
Proof.
  eapply descending_bind; [apply get_descending|]. intros task Hd. cbn beta zeta.
  case_bool_decide as Hstate; [done|].
  eapply descending_bind; [|done]. apply save_descending.
  apply (descends_transition task MarksDone (Task.DONE, _)); [done|].
  unfold transition, abs. by rewrite Hstate.
Qed.

(** ** What an ORM call does to the rows of [db0] *)

Lemma evolves_tasks db db' :
  tasks db' = tasks db → evolves db0 db → evolves db0 db'.
Proof. unfold evolves, keyed. by intros ->. Qed.

Lemma evolves_save db task :
  evolves db0 db → descends task →
  evolves db0 (set_tasks <[Task.id task := task]> db).
Proof.
  intros [Hkeyed Hrows] Hd. split.
  - by apply map_Forall_insert_2.
  - intros i task0 Hi. simpl. destruct (decide (i = Task.id task)) as [->|Hne].
    + destruct (Hd task0 Hi) as (a&Ha&->). exists a. by rewrite lookup_insert_eq.
    + rewrite lookup_insert_ne by done. by apply Hrows.
Qed.

Lemma evolves_insert_task db task :
  wf_db db → evolves db0 db → evolves db0 (insert_task task db).2.
Proof.
  intros Hwf [Hkeyed Hrows]. split.
  - by apply map_Forall_insert_2.
  - intros i task0 Hi. destruct (Hrows i task0 Hi) as (a&Ha&Hrow). exists a.
    split; [done|]. simpl. rewrite lookup_insert_ne; [done|]. intros <-.
    destruct (wf_db_task _ _ _ Hwf Hrow) as (_&?&_). lia.
Qed.

Lemma evolves_perform {X} (op : Op X) db :
  wf_db db → evolves db0 db → writes_descendant op →
  evolves db0 (perform op db).2.
Proof.
  intros Hwf Hev Hop. destruct op; cbn [perform orm_effects perform_orm snd];
    [done|by apply evolves_save|by apply evolves_insert_task|done..| | |];
    (eapply evolves_tasks; [|done]).
  - unfold insert_benefactor. by case_match.
  - unfold insert_charity. by case_match.
  - unfold insert_user. by case_decide.
Qed.

Lemma evolves_reads {X} (op : Op X) db :
  evolves db0 db → reads_descendant op (perform op db).1.
Proof.
  intros [Hkeyed Hrows]. destruct op; try done. cbn. intros task Htask task0 Htask0.
  pose proof (Hkeyed _ _ Htask) as Hid. simpl in Hid. rewrite Hid in Htask0.
  destruct (Hrows _ _ Htask0) as (a&Ha&Hrow). exists a. split; [done|]. congruence.
Qed.

(** ** The pool *)

Lemma pool_step_evolves (c c' : list (view Response) * DB) :
  wf_db c.2 → evolves db0 c.2 → Forall (descending (λ _, True)) c.1 →
  pool_step c c' →
  evolves db0 c'.2 ∧ Forall (descending (λ _, True)) c'.1.
Proof.
  intros Hwf Hev Hall Hstep. destruct Hstep as [i m ts db Hi Hfin]. simpl in *.
  pose proof (Forall_lookup_1 _ _ _ _ Hall Hi) as Hm.
  destruct m as [a|e|X op k]; [done..|]. rewrite step1_vis. simpl.
  destruct Hm as [Hop Hk]. split; [by apply evolves_perform|].
  apply Forall_insert; [done|]. by apply Hk, evolves_reads.
Qed.

Lemma pool_steps_evolves (c c' : list (view Response) * DB) :
  pool_safe wf_db db_extends c → evolves db0 c.2 →
  Forall (descending (λ _, True)) c.1 →
  rtc pool_step c c' → evolves db0 c'.2.
Proof.
  intros Hsafe Hev Hall Hsteps. revert Hsafe Hev Hall.
  induction Hsteps as [c|c1 c2 c3 H12 _ IH]; intros Hsafe Hev Hall; [done|].
  destruct (pool_step_evolves _ _ (proj1 Hsafe) Hev Hall H12).
  destruct (pool_step_safe wf_db db_extends _ _ H12 Hsafe). auto.
Qed.

End evolution.

(** ** The requests of the API *)

Section api_evolution.
Context `{!TaskModel} {ts : TaskSerializer} `{!TaskSerializerLaws}.
Context {bs : BenefactorSerializer} {cs : CharitySerializer}.
Variable db0 : DB.
Hypothesis wf0 : wf_db db0.

Lemma check_permissions_saves_nothing perms request :
  Forall known perms → saves_nothing (check_permissions perms request).
Proof.
  induction 1 as [|p perms Hp _ IH]; [done|]. simpl.
  apply saves_nothing_bind; [|by intros []].
  destruct Hp as [->|[->| ->]]; simpl; [done|..];
    (destruct (user request); [|done]); by split.
Qed.

Lemma handler_descending e request task_id :
  descending db0 (λ _, True) (handler e request task_id).
Proof.
  destruct e; [apply request_descending|apply respond_descending
              |apply finish_descending].
Qed.

Lemma tasks_saves_nothing request :
  saves_nothing (Tasks.get request) ∧ saves_nothing (Tasks.post request).
Proof.
  unfold Tasks.get, Tasks.post, user_charity. split; [by split|].
  destruct (user request); [|done]. split; [done|].
  intros [charity|]; [|done]. simpl. by destruct (is_valid _).
Qed.

Lemma registration_saves_nothing request :
  saves_nothing (BenefactorRegistration.post request) ∧
  saves_nothing (CharityRegistration.post request).
Proof.
  unfold BenefactorRegistration.post, CharityRegistration.post.
  split; repeat case_match; try done; (split; [done|]); by intros [].
Qed.

Lemma dispatch_descending {K} (v : APIView K) request kwargs :
  Forall known (view_permissions v request) →
  handlers_all v request kwargs (descending db0 (λ _, True)) →
  descending db0 (λ _, True) (dispatch v request kwargs).
Proof.
  intros Hperms Hall. eapply descending_bind.
  - by apply saves_nothing_descending, check_permissions_saves_nothing.
  - intros _ _. by apply (dispatch_handler v (descending db0 (λ _, True))).
Qed.

(** Every request saves descendants only. *)
Lemma route_descending route request :
  descending db0 (λ _, True) (route_view route request).
Proof.
  destruct lifecycle_permissions_known as (Hb&Hc&Ha).
  destruct (tasks_saves_nothing request), (registration_saves_nothing request).
  destruct route; simpl;
    (apply dispatch_descending; [by auto using get_permissions_known|]);
    each_handler;
    first [ by apply saves_nothing_descending
          | apply (handler_descending RequestTask)
          | apply (handler_descending RespondTask)
          | apply (handler_descending FinishTask) ].
Qed.

Lemma api_pool_evolves calls c' :
  rtc pool_step (api_pool calls, db0) c' → evolves db0 c'.2.
Proof.
  apply pool_steps_evolves; [by apply api_pool_safe|by apply evolves_refl, wf_db_keyed|].
  apply Forall_fmap, Forall_forall. intros [route request] _. apply route_descending.
Qed.

(** C15.  No interleaving takes a task off the lifecycle: whatever the
    requests to the API and however their ORM calls interleave, every
    task of the database the requests found is still there, with its id,
    its charity and its other columns, in a state that the transition
    table reaches from the state it was in. *)
Theorem api_interleaving_lifecycle calls c' i task :
  rtc pool_step (api_pool calls, db0) c' → tasks db0 !! i = Some task →
  on_lifecycle i task c'.2.
Proof. intros Hsteps Hi. by apply (api_pool_evolves calls c' Hsteps). Qed.

(** C28.  A task that was DONE when the requests arrived, the one state
    the table does not leave, is not touched, however the requests
    interleave.  (A task that becomes DONE while other requests are in
    flight can be written over: [done_race].) *)
Theorem done_before_final calls c' i task :
  rtc pool_step (api_pool calls, db0) c' →
  tasks db0 !! i = Some task → settled task →
  tasks c'.2 !! i = Some task.
Proof.
  intros Hsteps Hi Hsettled.
  destruct (proj2 (api_pool_evolves calls c' Hsteps) i task Hi) as (a&Ha&->).
  by rewrite (Hsettled a Ha), with_abs_abs.
Qed.

End api_evolution.

(** ** The theorems at concrete requests *)

Section evolution_samples.
#[local] Existing Instance sample_model.
#[local] Existing Instance sample_task_serializer.
#[local] Existing Instance sample_task_serializer_laws.
#[local] Existing Instance sample_benefactor_serializer.
#[local] Existing Instance sample_charity_serializer.

(** Task 2 is WAITING for benefactor 5.  Its acceptance, its completion
    and its rejection are in flight together; the rejection reads the row
    first and writes it last. *)
Definition racing_calls : list (Route * Request) :=
  [(TaskResponseUrl 2, sample_request 10 POST [("response", VStr "A")]);
   (TaskDoneUrl 2, sample_request 10 POST []);
   (TaskResponseUrl 2, sample_request 10 POST [("response", VStr "R")])].

Definition racing_schedule : list nat :=
  [2; 2; 0; 0; 0; 1; 1; 1; 2].

Lemma api_interleaving_lifecycle_witness :
  on_lifecycle 2 (sample_task 2 Task.WAITING (Some 5))
    (run_schedule racing_schedule (api_pool racing_calls) sample_db).2.
Proof.
  apply (api_interleaving_lifecycle sample_db wf_sample racing_calls _ 2).
  - apply run_schedule_sound.
  - reflexivity.
Defined.

(** The task was accepted and done, and is PENDING again. *)
Example racing_outcome :
  (run_schedule racing_schedule (api_pool racing_calls) sample_db).1 =
    [Ret TaskResponse.response_sent; Ret DoneTask.done_successfully;
     Ret TaskResponse.response_sent] ∧
  tasks (run_schedule racing_schedule (api_pool racing_calls) sample_db).2 !! 2 =
    Some (sample_task 2 Task.PENDING None).
Proof. split; reflexivity. Qed.

Lemma done_before_final_witness :
  tasks (run_schedule [1; 0; 1; 0; 1; 0]
           (api_pool [(TaskResponseUrl 4, sample_request 10 POST [("response", VStr "R")]);
                      (TaskDoneUrl 4, sample_request 10 POST [])]) sample_db).2 !! 4 =
  Some (sample_task 4 Task.DONE (Some 6)).
Proof.
  apply (done_before_final sample_db wf_sample
           [(TaskResponseUrl 4, sample_request 10 POST [("response", VStr "R")]);
            (TaskDoneUrl 4, sample_request 10 POST [])] _ 4).
  - apply run_schedule_sound.
  - reflexivity.
  - by apply done_settled.
Defined.

End evolution_samples.
