(* ===== verification/Typing.v ===== *)
(** * Typing: the responses of the API

    The interface of the specification (section 6) says, endpoint by
    endpoint, which answers a client can receive.  Here this is a type for
    responses: [statuses] gives the status codes of a route and a method,
    [response_ok] the kind of body that goes with a status.  The theorem
    [api_typed]: every response to every request has that type. *)

From S2P Require Import Prelude Prog Http Models Permissions Lifecycle Refinement.
From S2P Require Import Concurrency Dispatch Schema TaskList Registration Api.

Local Open Scope prog_scope.

(** The body that goes with a status: a message for the refusals and the
    lifecycle, the data of one object for a creation, the field errors or
    a message for a 400, a list or the description of the view for a 200. *)
Definition response_ok (r : Response) : bool :=
  match status_code r, body r with
  | HTTP_200_OK, (Detail _ | SerializedList _ | Metadata) => true
  | HTTP_201_CREATED, Serialized _ => true
  | HTTP_400_BAD_REQUEST, (Detail _ | Errors _) => true
  | (HTTP_403_FORBIDDEN | HTTP_404_NOT_FOUND | HTTP_405_METHOD_NOT_ALLOWED
    | HTTP_500_INTERNAL_SERVER_ERROR), Detail _ => true
  | _, _ => false
  end.

(** The statuses of a handler, by route. *)
Definition handler_statuses (route : Route) (m : Method) : list Status :=
  match route with
  | BenefactorsUrl | CharitiesUrl =>
      [HTTP_201_CREATED; HTTP_400_BAD_REQUEST; HTTP_500_INTERNAL_SERVER_ERROR]
  | TasksUrl =>
      match m with
      | POST => [HTTP_201_CREATED; HTTP_400_BAD_REQUEST]
      | _ => [HTTP_200_OK]
      end
  | TaskRequestUrl _ | TaskDoneUrl _ => [HTTP_200_OK; HTTP_404_NOT_FOUND]
  | TaskResponseUrl _ => [HTTP_200_OK; HTTP_400_BAD_REQUEST; HTTP_404_NOT_FOUND]
  end.

(** The statuses of a route and a method: a refusal, or, for a method the
    route answers, the statuses of the handler. *)
Definition statuses (route : Route) (m : Method) : list Status :=
  HTTP_403_FORBIDDEN ::
  (if bool_decide (m ∈ allowed_methods route) then
     match m with
     | OPTIONS => [HTTP_200_OK]
     | _ => handler_statuses route m
     end
   else [HTTP_405_METHOD_NOT_ALLOWED]).

(** A response has the type [l]: its status is one of [l] and its body
    goes with its status. *)
Definition has_type (l : list Status) (r : Response) : Prop :=
  response_ok r = true ∧ status_code r ∈ l.

#[export] Instance has_type_dec l r : Decision (has_type l r).
Proof. unfold has_type. apply _. Defined.

Lemma has_type_mono l l' r : l ⊆ l' → has_type l r → has_type l' r.
Proof. intros Hl [? ?]. split; [done|]. by apply Hl. Qed.

(** Decide the type of a concrete response. *)
Ltac typed := by apply (bool_decide_unpack _).

(** ** The handlers, for a caller their permission classes accept *)

Section handlers_typed.
Implicit Types (request : Request) (db : DB) (task_id : nat).

Lemma in_strs_accept_reject v :
  in_strs v ["A"; "R"] = true → eq_str v "A" = false → eq_str v "R" = true.
Proof.
  destruct v as [[| | |s]|]; simpl; try done.
  intros Hin HA. rewrite HA in Hin. simpl in Hin. by rewrite orb_false_r in Hin.
Qed.

Lemma request_typed request task_id db :
  is_benefactor request db = true →
  has_type [HTTP_200_OK; HTTP_404_NOT_FOUND]
           (serve (TaskRequest.get request task_id) db).1.
Proof.
  unfold is_benefactor. intros [bf Hbf]%bool_decide_eq_true.
  destruct (user request) as [u|] eqn:Hu; [|done]. simpl in Hbf.
  unfold TaskRequest.get. exec_view.
  destruct (tasks db !! task_id) as [task|]; simpl; [|typed].
  case_bool_decide; exec_view; typed.
Qed.

Lemma respond_typed request task_id db :
  has_type [HTTP_200_OK; HTTP_400_BAD_REQUEST; HTTP_404_NOT_FOUND]
           (serve (TaskResponse.post request task_id) db).1.
Proof.
  unfold TaskResponse.post. exec_view.
  destruct (tasks db !! task_id) as [task|]; simpl; [|typed].
  destruct (in_strs _ _) eqn:Hin; simpl; [|typed].
  case_bool_decide; simpl; [typed|].
  destruct (eq_str _ "A") eqn:HA; simpl; [typed|].
  rewrite (in_strs_accept_reject _ Hin HA). typed.
Qed.

Lemma finish_typed request task_id db :
  has_type [HTTP_200_OK; HTTP_404_NOT_FOUND]
           (serve (DoneTask.post request task_id) db).1.
Proof.
  unfold DoneTask.post. exec_view.
  destruct (tasks db !! task_id) as [task|]; simpl; [|typed].
  case_bool_decide; simpl; typed.
Qed.

End handlers_typed.

Section views_typed.
Context `{!TaskModel} {ts : TaskSerializer} {bs : BenefactorSerializer}
  {cs : CharitySerializer}.
Implicit Types (request : Request) (db : DB) (route : Route).

Lemma list_typed request db :
  has_type [HTTP_200_OK] (serve (Tasks.get request) db).1.
Proof. split; [done|]. simpl. set_solver. Qed.

Lemma create_typed request db :
  is_charity request db = true →
  has_type [HTTP_201_CREATED; HTTP_400_BAD_REQUEST] (serve (Tasks.post request) db).1.
Proof.
  unfold is_charity. intros [ch Hch]%bool_decide_eq_true.
  destruct (user request) as [u|] eqn:Hu; [|done]. simpl in Hch.
  rewrite (serve_post _ _ u ch) by done. destruct (is_valid _); typed.
Qed.

Lemma benefactor_registration_typed request db :
  is_authenticated request db = true →
  has_type [HTTP_201_CREATED; HTTP_400_BAD_REQUEST; HTTP_500_INTERNAL_SERVER_ERROR]
           (serve (BenefactorRegistration.post request) db).1.
Proof.
  intros [u Hu]%bool_decide_eq_true. rewrite (serve_benefactor_post _ _ u) by done.
  destruct (is_valid _); [typed|]. destruct (benefactors db !! u); typed.
Qed.

Lemma charity_registration_typed request db :
  is_authenticated request db = true →
  has_type [HTTP_201_CREATED; HTTP_400_BAD_REQUEST; HTTP_500_INTERNAL_SERVER_ERROR]
           (serve (CharityRegistration.post request) db).1.
Proof.
  intros [u Hu]%bool_decide_eq_true. rewrite (serve_charity_post _ _ u) by done.
  destruct (is_valid _); [typed|]. destruct (charities db !! u); typed.
Qed.

(** A request the permission classes accept, with a method the route
    answers, has the type of the handler. *)
Lemma route_handle_typed route request db :
  permitted route request db = true →
  method request ∈ allowed_methods route →
  has_type match method request with
           | OPTIONS => [HTTP_200_OK]
           | _ => handler_statuses route (method request)
           end
           (serve (route_handle route request) db).1.
Proof.
  intros Hp Hm.
  destruct route; simpl in *; unfold handle;
    destruct (method request) eqn:Hmethod; simpl in *;
    try typed; try (exfalso; set_solver);
    eauto using list_typed, create_typed, benefactor_registration_typed,
      charity_registration_typed, request_typed, respond_typed, finish_typed.
Qed.


End views_typed.
