(* ===== verification/Bounds.v ===== *)
(** * Bounds: how much the database can grow

    A request creates at most one row: only [Tasks.post], the two
    registrations and [UserSerializer.create] insert, once each.  Hence a
    pool of [n] requests draws at most [n] ids from the sequences and, on
    a well-formed database, leaves at most [n] rows more than ids had been
    drawn before, under every interleaving. *)

From S2P Require Import Prelude Prog Http Models Permissions Lifecycle Refinement.
From S2P Require Import Concurrency Dispatch Schema TaskList Registration Accounts Api.

Local Open Scope prog_scope.

(** The rows an ORM call inserts, at most. *)
Definition creations (X : Type) (op : Op X) : nat :=
  match op with
  | TaskCreate _ | BenefactorCreate _ _ | CharityCreate _ _ | UserSave _ => 1
  | _ => 0
  end.

(** The ids drawn from the four sequences. *)
Definition issued (db : DB) : nat :=
  next_task_id db + next_benefactor_id db + next_charity_id db + next_user_id db.

(** The rows of the four tables. *)
Definition rows (db : DB) : nat :=
  size (tasks db) + size (benefactors db) + size (charities db) + size (users db).

Section growth.
Implicit Types (db : DB) (request : Request).

Lemma issued_perform X (op : Op X) db :
  issued (perform op db).2 ≤ issued db + creations X op.
Proof.
  destruct op; unfold issued, creations; cbn [perform orm_effects perform_orm];
    unfold insert_task, insert_benefactor, insert_charity, insert_user, set_tasks;
    repeat case_match; simpl; lia.
Qed.

(** A table whose rows carry distinct numbers below [n] has at most [n]
    rows. *)
Lemma size_bounded {V} (f : nat * V → nat) (m : gmap nat V) n :
  (∀ x y, x ∈ map_to_list m → y ∈ map_to_list m → f x = f y → x = y) →
  (∀ x, x ∈ map_to_list m → f x < n) →
  size m ≤ n.
Proof.
  intros Hinj Hlt. rewrite <-length_map_to_list, <-(length_fmap f).
  trans (length (seq 0 n)); [|by rewrite length_seq].
  apply submseteq_length, NoDup_submseteq.
  - apply NoDup_fmap_2_strong; [done|apply NoDup_map_to_list].
  - intros i ([j v]&->&Hin)%list_elem_of_fmap. apply elem_of_seq.
    specialize (Hlt _ Hin). lia.
Qed.

Lemma size_keys_bounded {V} (m : gmap nat V) n :
  map_Forall (λ i _, i < n) m → size m ≤ n.
Proof.
  intros Hm. apply (size_bounded fst).
  - intros [i v] [j w] Hi%elem_of_map_to_list Hj%elem_of_map_to_list. simpl.
    intros <-. by simplify_eq.
  - intros [i v] Hi%elem_of_map_to_list. by apply (Hm i v).
Qed.

Lemma size_profiles_bounded {V} (id owner : V → nat) (m : gmap nat V) n :
  map_Forall (profile_ok id owner n m) m → size m ≤ n.
Proof.
  intros Hm. apply (size_bounded (id ∘ snd)).
  - intros [u x] [u' x'] Hu%elem_of_map_to_list Hu'%elem_of_map_to_list. simpl.
    intros Hid. destruct (Hm _ _ Hu) as (_&_&Huniq).
    specialize (Huniq _ _ Hu' (eq_sym Hid)). by simplify_eq.
  - intros [u x] Hu%elem_of_map_to_list. by destruct (Hm _ _ Hu) as (_&?&_).
Qed.

(** The rows of a well-formed database were all given an id. *)
Lemma wf_db_rows db : wf_db db → rows db ≤ issued db.
Proof.
  intros (Htasks&Hbfs&Hchs&Husers). unfold rows, issued.
  pose proof (size_keys_bounded (tasks db) (next_task_id db)) as Ht.
  pose proof (size_keys_bounded (users db) (next_user_id db)) as Hu.
  pose proof (size_profiles_bounded _ _ _ _ Hbfs).
  pose proof (size_profiles_bounded _ _ _ _ Hchs).
  cut (size (tasks db) ≤ next_task_id db ∧ size (users db) ≤ next_user_id db); [lia|].
  split; [apply Ht|apply Hu]; intros i x Hi;
    [by destruct (Htasks _ _ Hi) as (_&?&_)|by destruct (Husers _ _ Hi)].
Qed.

End growth.

(** ** What the views spend *)

Section spending_views.
Context `{!TaskModel} {ts : TaskSerializer} {bs : BenefactorSerializer}
  {cs : CharitySerializer}.
Implicit Types (db : DB) (request : Request) (route : Route).

(** Walk through a program, operation by operation and branch by branch. *)
Ltac walk :=
  repeat (simpl; first [done | split; [simpl; lia|intros ?] | case_match]).

Lemma check_permissions_spends perms request :
  Forall known perms → spends creations 0 (check_permissions perms request).
Proof.
  induction 1 as [|p perms Hp _ IH]; [done|]. simpl.
  apply (spends_bind _ 0 0); [|by intros []].
  destruct Hp as [Hp|[Hp|Hp]]; subst p; walk.
Qed.

Lemma handler_spends e request task_id :
  spends creations 0 (handler e request task_id).
Proof.
  destruct e; unfold handler, TaskRequest.get, TaskResponse.post, DoneTask.post,
    get_object_or_404, user_benefactor, save, call; walk.
Qed.

Lemma tasks_get_spends request : spends creations 0 (Tasks.get request).
Proof. unfold Tasks.get, call. walk. Qed.

Lemma tasks_post_spends request : spends creations 1 (Tasks.post request).
Proof. unfold Tasks.post, user_charity, call. walk. Qed.

Lemma benefactor_post_spends request :
  spends creations 1 (BenefactorRegistration.post request).
Proof. unfold BenefactorRegistration.post, call. walk. Qed.

Lemma charity_post_spends request :
  spends creations 1 (CharityRegistration.post request).
Proof. unfold CharityRegistration.post, call. walk. Qed.

Lemma dispatch_spends {K} (v : APIView K) request kwargs n :
  Forall known (view_permissions v request) →
  handlers_all v request kwargs (spends creations n) →
  spends creations n (dispatch v request kwargs).
Proof.
  intros Hperms Hall. apply (spends_bind _ 0 n); [by apply check_permissions_spends|].
  intros _. by apply (dispatch_handler v (spends creations n)).
Qed.

(** A request creates at most one row. *)
Lemma route_spends route request : spends creations 1 (route_view route request).
Proof.
  destruct lifecycle_permissions_known as (Hb&Hc&Ha).
  destruct route; simpl;
    (apply dispatch_spends; [by auto using get_permissions_known|]); each_handler;
    first [ apply benefactor_post_spends | apply charity_post_spends
          | apply tasks_post_spends
          | apply (spends_le creations 0 1); [lia|];
            first [ apply tasks_get_spends | apply (handler_spends RequestTask)
                  | apply (handler_spends RespondTask)
                  | apply (handler_spends FinishTask) ] ].
Qed.

Lemma api_pool_spends calls :
  Forall2 (spends creations) (replicate (length calls) 1) (api_pool calls).
Proof.
  unfold api_pool. apply Forall2_fmap_r, Forall2_replicate_l; [done|].
  apply Forall_forall. intros [route request] _. apply route_spends.
Qed.

Lemma api_pool_issued calls db c' :
  rtc pool_step (api_pool calls, db) c' →
  issued c'.2 ≤ issued db + sum_list (replicate (length calls) 1).
Proof.
  intros Hsteps.
  apply (pool_steps_spends creations issued issued_perform _ _ _ Hsteps),
    api_pool_spends.
Qed.

(** C21.  However [n] concurrent requests interleave, they draw at most
    [n] ids from the sequences of the database: a request creates at most
    one row. *)
Theorem api_growth_bounded calls db c' :
  rtc pool_step (api_pool calls, db) c' →
  issued c'.2 ≤ issued db + length calls.
Proof.
  intros Hle%api_pool_issued. by rewrite sum_list_replicate, Nat.mul_1_r in Hle.
Qed.

(** On a well-formed database the tables themselves are bounded:
    after any interleaving of [n] requests they hold at most [n] rows more
    than ids had been drawn. *)
Theorem api_rows_bounded `{!TaskSerializerLaws} calls db c' :
  wf_db db → rtc pool_step (api_pool calls, db) c' →
  rows c'.2 ≤ issued db + length calls.
Proof.
  intros Hwf Hsteps.
  destruct (pool_steps_safe wf_db db_extends _ _ Hsteps (api_pool_safe calls db Hwf))
    as [[Hwf' _] _].
  pose proof (wf_db_rows _ Hwf'). pose proof (api_pool_issued _ _ _ Hsteps) as Hle.
  rewrite sum_list_replicate, Nat.mul_1_r in Hle. lia.
Qed.

End spending_views.

(** ** The bounds at concrete requests *)

Section bounds_samples.
#[local] Existing Instance sample_model.
#[local] Existing Instance sample_task_serializer.
#[local] Existing Instance sample_task_serializer_laws.
#[local] Existing Instance sample_benefactor_serializer.
#[local] Existing Instance sample_charity_serializer.

Lemma api_growth_bounded_witness :
  issued (run_schedule sample_schedule (api_pool sample_calls) sample_db).2 ≤
  issued sample_db + length sample_calls.
Proof.
  exact (api_growth_bounded sample_calls sample_db _
           (run_schedule_sound sample_schedule (api_pool sample_calls) sample_db)).
Defined.

Lemma api_rows_bounded_witness :
  rows (run_schedule sample_schedule (api_pool sample_calls) sample_db).2 ≤
  issued sample_db + length sample_calls.
Proof.
  exact (api_rows_bounded sample_calls sample_db _ wf_sample
           (run_schedule_sound sample_schedule (api_pool sample_calls) sample_db)).
Defined.

(** Of the three sample requests two create a row and one only updates a
    task: the bound is met up to the request that creates nothing, and it
    is met exactly by requests that all create. *)
Example sample_growth :
  issued (run_schedule sample_schedule (api_pool sample_calls) sample_db).2 =
  issued sample_db + 2.
Proof. reflexivity. Qed.

Example growth_bound_tight :
  issued (run_schedule [0; 0; 0; 0] (api_pool [(TasksUrl, paint_request)]) sample_db).2 =
  issued sample_db + 1.
Proof. reflexivity. Qed.

End bounds_samples.
