(* ===== verification/Serializability.v ===== *)
(** * Serializability: concurrent requests on different tasks

    The races of file Concurrency need two requests on the same task.  A
    lifecycle request reads and writes the row of its task and reads the
    profile tables; the ORM calls of two requests on different tasks
    commute.  Hence every interleaving of lifecycle requests on pairwise
    different tasks that serves them to their end leaves the responses and
    the database of serving them one after the other. *)

From S2P Require Import Prelude Prog Http Models Permissions Lifecycle Refinement.
From S2P Require Import Concurrency Dispatch Schema TaskList Registration Api.

Local Open Scope prog_scope.

(** ** Programs local to a task *)

(** What the ORM answers on a database whose rows are stored under their
    ids: the task read by id has that id. *)
Definition answer_ok {X} (op : Op X) : X → Prop :=
  match op in Op X return X → Prop with
  | TaskGet i => λ o, ∀ task, o = Some task → Task.id task = i
  | _ => λ _, True
  end.

(** The ORM calls of a request on task [t]: the row [t] is read and
    written, the profiles are read. *)
Definition op_local (t : nat) {X} (op : Op X) : Prop :=
  match op with
  | TaskGet i => i = t
  | TaskSave task => Task.id task = t
  | UserBenefactor _ | UserCharity _ => True
  | _ => False
  end.

Fixpoint local {A} (t : nat) (m : view A) : Prop :=
  match m with
  | Vis op k => op_local t op ∧ ∀ x, answer_ok op x → local t (k x)
  | _ => True
  end.

(** The task a route addresses. *)
Definition route_task (route : Route) : option nat :=
  match route with
  | TaskRequestUrl task_id | TaskResponseUrl task_id | TaskDoneUrl task_id =>
      Some task_id
  | _ => None
  end.

Section local_facts.
Implicit Types (db : DB) (t : nat).

Lemma perform_answer_ok {X} (op : Op X) db : keyed db → answer_ok op (perform op db).1.
Proof. intros Hkeyed. destruct op; simpl; [|done..]. intros task. apply Hkeyed. Qed.

Lemma local_bind {A B} t (m : view A) (f : A → view B) :
  local t m → (∀ a, local t (f a)) → local t (bind m f).
Proof.
  intros Hm Hf. induction m as [a|e|X op k IH]; simpl; [done..|].
  destruct Hm as [Hop Hk]. split; [done|]. intros x Hx. by apply IH, Hk.
Qed.

Lemma keyed_save db task : keyed db → keyed (set_tasks <[Task.id task := task]> db).
Proof. intros Hkeyed. by apply map_Forall_insert_2. Qed.

Lemma local_step1 {A} t (m : view A) db :
  keyed db → local t m → local t (step1 m db).1 ∧ keyed (step1 m db).2.
Proof.
  intros Hkeyed. destruct m as [a|e|X op k]; [done..|].
  rewrite step1_vis. intros [Hop Hk]. split.
  - by apply Hk, perform_answer_ok.
  - destruct op; try done. by apply keyed_save.
Qed.

(** The calls of requests on different tasks commute. *)
Lemma op_commute {X Y} t1 t2 (op1 : Op X) (op2 : Op Y) db :
  t1 ≠ t2 → op_local t1 op1 → op_local t2 op2 →
  (perform op2 (perform op1 db).2).1 = (perform op2 db).1 ∧
  (perform op1 (perform op2 db).2).1 = (perform op1 db).1 ∧
  (perform op2 (perform op1 db).2).2 = (perform op1 (perform op2 db).2).2.
Proof.
  intros Hne H1 H2.
  destruct op1; try done; destruct op2; try done; simpl in *; subst;
    rewrite ?lookup_insert_ne by done; split_and!; try done.
  unfold set_tasks. simpl. f_equal. by apply insert_insert_ne.
Qed.

Lemma local_commute {A} t1 t2 (m1 m2 : view A) db :
  t1 ≠ t2 → local t1 m1 → local t2 m2 →
  finished m1 = false → finished m2 = false → commute m1 m2 db.
Proof.
  intros Hne H1 H2 Hf1 Hf2.
  destruct m1 as [| |X op1 k1]; [done..|]. destruct m2 as [| |Y op2 k2]; [done..|].
  destruct H1 as [H1 _], H2 as [H2 _]. unfold commute. rewrite !step1_vis. simpl.
  destruct (op_commute t1 t2 op1 op2 db Hne H1 H2) as (->&->&->). done.
Qed.

End local_facts.

(** ** Pools of requests on different tasks *)

Section disjoint.
Implicit Types (db : DB) (ts : list (view Response)).

(** The threads of the pool are local to pairwise different tasks, each
    has a bound on its calls, and the rows are stored under their ids. *)
Definition disjoint (c : list (view Response) * DB) : Prop :=
  keyed c.2 ∧
  ∃ ids bounds, NoDup ids ∧ Forall2 local ids c.1 ∧ budget bounds c.1.

Lemma disjoint_step c c' : disjoint c → pool_step c c' → disjoint c'.
Proof.
  intros (Hkeyed&ids&bounds&Hnodup&Hlocal&Hb) Hstep.
  destruct (pool_step_budget bounds _ _ Hstep Hb) as (bounds'&Hb'&_).
  destruct Hstep as [i m ts db Hi Hfin]. simpl in *.
  destruct (Forall2_lookup_r _ _ _ _ _ Hlocal Hi) as (t&Ht&Hm).
  destruct (local_step1 t m db Hkeyed Hm) as [Hm' Hkeyed'].
  split; [done|]. exists ids, bounds'. split_and!; [done| |done].
  rewrite <-(list_insert_id ids i t) by done. by apply Forall2_insert.
Qed.

Lemma disjoint_bounded c : disjoint c → ∃ bounds, budget bounds c.1.
Proof. intros (_&ids&bounds&_&_&Hb). eauto. Qed.

Lemma disjoint_commute ts db i j mi mj :
  disjoint (ts, db) → i ≠ j → ts !! i = Some mi → ts !! j = Some mj →
  finished mi = false → finished mj = false → commute mi mj db.
Proof.
  intros (_&ids&_&Hnodup&Hlocal&_) Hij Hi Hj Hfi Hfj. simpl in *.
  destruct (Forall2_lookup_r _ _ _ _ _ Hlocal Hi) as (ti&Hti&Hmi).
  destruct (Forall2_lookup_r _ _ _ _ _ Hlocal Hj) as (tj&Htj&Hmj).
  apply (local_commute ti tj); [|done..].
  intros <-. by destruct (NoDup_lookup _ _ _ _ Hnodup Hti Htj).
Qed.

(** Every complete interleaving of a disjoint pool is its serial
    execution. *)
Lemma disjoint_serial ts db c' :
  disjoint (ts, db) → rtc pool_step (ts, db) c' → complete c' →
  c' = (done <$> (run_serial ts db).1, (run_serial ts db).2).
Proof.
  apply (interleaving_serial disjoint);
    eauto using disjoint_step, disjoint_bounded, disjoint_commute.
Qed.

End disjoint.

(** ** The lifecycle views are local to their task *)

Section lifecycle_local.
Implicit Types (request : Request) (task_id : nat).

(** Reading the task by id, then going on with a task of that id. *)
Lemma local_get_then {A} task_id (f : Task.t → view A) :
  (∀ task, Task.id task = task_id → local task_id (f task)) →
  local task_id (task <- get_object_or_404 task_id ;; f task).
Proof.
  intros Hf. split; [done|]. intros [task|] Hid; simpl; [|done]. by apply Hf, Hid.
Qed.

Lemma local_user_benefactor request t : local t (user_benefactor request).
Proof.
  unfold user_benefactor. destruct (user request); [|done].
  split; [done|]. by intros [bf|].
Qed.

Lemma handler_local e request task_id : local task_id (handler e request task_id).
Proof.
  destruct e; apply local_get_then; intros task Hid; cbn beta zeta.
  - case_bool_decide; [done|]. apply local_bind; [apply local_user_benefactor|].
    by intros bf.
  - destruct (negb _); [done|]. case_bool_decide; [done|].
    by repeat (destruct (eq_str _ _)).
  - by case_bool_decide.
Qed.

Lemma check_permissions_local perms request t :
  Forall known perms → local t (check_permissions perms request).
Proof.
  induction 1 as [|p perms Hp _ IH]; [done|]. simpl.
  apply local_bind; [|by intros []].
  destruct Hp as [Hp|[Hp|Hp]]; subst p; simpl; [done|..];
    (destruct (user request); [|done]); by split.
Qed.

Lemma dispatch_local {K} (v : APIView K) request kwargs t :
  Forall known (view_permissions v request) →
  handlers_all v request kwargs (local t) →
  local t (dispatch v request kwargs).
Proof.
  intros Hperms Hall. apply local_bind; [by apply check_permissions_local|].
  intros _. by apply (dispatch_handler v (local t)).
Qed.

Lemma route_local `{!TaskModel} `{!TaskSerializer} `{!BenefactorSerializer}
    `{!CharitySerializer} route request task_id :
  route_task route = Some task_id → local task_id (route_view route request).
Proof.
  destruct lifecycle_permissions_known as (Hb&Hc&_).
  destruct route; intros [= <-]; simpl; (apply dispatch_local; [done|]);
    each_handler.
  - apply (handler_local RequestTask).
  - apply (handler_local RespondTask).
  - apply (handler_local FinishTask).
Qed.

End lifecycle_local.

(** ** The theorem *)

Section serializable.
Context `{!TaskModel} `{!TaskSerializer} `{!BenefactorSerializer} `{!CharitySerializer}.
Implicit Types (db : DB) (calls : list (Route * Request)) (ids : list nat).

(** The requests address the tasks [ids], in order. *)
Definition address (ids : list nat) (calls : list (Route * Request)) : Prop :=
  Forall2 (λ t c, route_task c.1 = Some t) ids calls.

(** The requests served one after the other, each alone. *)
Definition api_serial calls db : list (view Response) * DB :=
  (done <$> (run_serial (api_pool calls) db).1, (run_serial (api_pool calls) db).2).

Lemma api_pool_disjoint calls ids db :
  keyed db → address ids calls → NoDup ids → disjoint (api_pool calls, db).
Proof.
  intros Hkeyed Haddr Hnodup. split; [done|].
  exists ids, (replicate (length calls) max_calls). split_and!; [done|..]; simpl.
  - apply Forall2_fmap_r. eapply Forall2_impl; [done|].
    intros t [route request]. apply route_local.
  - unfold budget, api_pool. apply Forall2_fmap_r, Forall2_replicate_l; [done|].
    apply Forall_forall. intros [route request] _. apply route_within.
Qed.

(** C13.  Lifecycle requests on pairwise different tasks are serializable:
    however their ORM calls interleave, permission checks included, once
    every request is served the responses and the database are those of
    serving the requests one after the other. *)
Theorem disjoint_requests_serializable calls ids db c' :
  keyed db → address ids calls → NoDup ids →
  rtc pool_step (api_pool calls, db) c' → complete c' →
  c' = api_serial calls db.
Proof.
  intros Hkeyed Haddr Hnodup. apply disjoint_serial. by eapply api_pool_disjoint.
Qed.

End serializable.

(** ** The theorem at concrete requests *)

Section serializable_samples.
#[local] Existing Instance sample_model.
#[local] Existing Instance sample_task_serializer.
#[local] Existing Instance sample_benefactor_serializer.
#[local] Existing Instance sample_charity_serializer.

(** A benefactor requests task 1 while a charity marks task 3 done and
    another rejects the request for task 2. *)
Definition disjoint_calls : list (Route * Request) :=
  [(TaskRequestUrl 1, sample_request 20 GET []);
   (TaskDoneUrl 3, sample_request 10 POST []);
   (TaskResponseUrl 2, sample_request 11 POST [("response", VStr "R")])].

Definition disjoint_schedule : list nat := [2; 0; 1; 1; 0; 2; 0; 2; 1; 0].

Lemma disjoint_requests_serializable_witness :
  run_schedule disjoint_schedule (api_pool disjoint_calls) sample_db =
  api_serial disjoint_calls sample_db.
Proof.
  apply (disjoint_requests_serializable disjoint_calls [1; 3; 2] sample_db).
  - apply keyed_sample.
  - by repeat constructor.
  - by apply (bool_decide_unpack _).
  - apply run_schedule_sound.
  - by repeat constructor.
Defined.

End serializable_samples.
