(* ===== verification/Machine.v ===== *)
(** * Machine: the API as a state machine of the specification

    The specification describes the service by what its requests do to
    the tasks and the profiles (sections 3, 4 and 6): a user registers a
    profile, a charity creates a task, a benefactor or a charity moves a
    task along the lifecycle.  [Abs] is the database as that description
    sees it, [api_step] the machine of those actions with the conditions
    under which each may happen, [action] the action a request asks for.

    The theorem [api_refines]: whatever the route, the method and the
    data, a request that is answered with a success has carried out its
    action as one step of the machine from the abstraction of the
    database, and every other request leaves the database as it was.
    [api_moves_enabled] is the converse for the moves of the lifecycle:
    the API refuses none that the machine allows.  [serial_refines] is
    the refinement for requests served one after another, and
    [collection_pool_refines] for the interleaved requests to the
    collections, through their linearizability.  The machine keeps the
    invariant [a_wf] of its tables ([api_step_wf]), which the abstraction
    of a well-formed database satisfies ([abstract_wf]). *)

From S2P Require Import Prelude Prog Linearize Http Models Permissions Lifecycle.
From S2P Require Import Refinement Concurrency Dispatch Schema TaskList Registration.
From S2P Require Import Api Linearizability.

Local Open Scope prog_scope.

(** ** The machine *)

(** The database of the specification: of a task its status, its assigned
    benefactor and its charity; of a profile the id it is known under, by
    the user who owns it. *)
Record Abs := mkAbs {
  a_tasks : gmap nat (AState * nat);
  a_benefactors : gmap nat nat;
  a_charities : gmap nat nat;
}.

Definition abstract (db : DB) : Abs :=
  mkAbs ((λ task, (abs task, Task.charity task)) <$> tasks db)
        (Benefactor.id <$> benefactors db)
        (Charity.id <$> charities db).

(** What a request can ask for. *)
Inductive Action :=
| RegisterBenefactor
| RegisterCharity
| CreateTask
| Move (task_id : nat) (t : Trigger).

(** Who may pull a trigger: a benefactor requests under the id of their
    own profile, a charity accepts, rejects and marks done. *)
Definition may (u : nat) (a : Abs) (t : Trigger) : Prop :=
  match t with
  | Requests b => a_benefactors a !! u = Some b
  | Accepts | Rejects | MarksDone => is_Some (a_charities a !! u)
  end.

(** No profile of the table is known under [id]. *)
Definition unused (id : nat) (m : gmap nat nat) : Prop :=
  map_Forall (λ _ id', id' ≠ id) m.

(** The steps of user [u]: a first profile of a kind under an id that is
    not in use, a task of the user's charity under an id that is not in
    use, PENDING and without benefactor, a move of the lifecycle. *)
Inductive api_step (u : nat) (a : Abs) : Action → Abs → Prop :=
| step_register_benefactor id :
    a_benefactors a !! u = None → unused id (a_benefactors a) →
    api_step u a RegisterBenefactor
             (mkAbs (a_tasks a) (<[u := id]> (a_benefactors a)) (a_charities a))
| step_register_charity id :
    a_charities a !! u = None → unused id (a_charities a) →
    api_step u a RegisterCharity
             (mkAbs (a_tasks a) (a_benefactors a) (<[u := id]> (a_charities a)))
| step_create id c :
    a_charities a !! u = Some c → a_tasks a !! id = None →
    api_step u a CreateTask
             (mkAbs (<[id := ((Task.PENDING, None), c)]> (a_tasks a))
                    (a_benefactors a) (a_charities a))
| step_move id t s s' c :
    may u a t → a_tasks a !! id = Some (s, c) → lifecycle s t s' →
    api_step u a (Move id t)
             (mkAbs (<[id := (s', c)]> (a_tasks a)) (a_benefactors a) (a_charities a)).

(** The action a request asks for, by its route and its method: the
    creations are POSTs to the collections, the moves are the triggers of
    the lifecycle views; the listing, OPTIONS and every other method ask
    for nothing. *)
Definition action (route : Route) (request : Request) (db : DB) : option Action :=
  match route, method request with
  | BenefactorsUrl, POST => Some RegisterBenefactor
  | CharitiesUrl, POST => Some RegisterCharity
  | TasksUrl, POST => Some CreateTask
  | TaskRequestUrl task_id, (GET | HEAD) => Move task_id <$> trigger RequestTask request db
  | TaskResponseUrl task_id, POST => Move task_id <$> trigger RespondTask request db
  | TaskDoneUrl task_id, POST => Move task_id <$> trigger FinishTask request db
  | _, _ => None
  end.

(** The route of a view of the lifecycle. *)
Definition lifecycle_route (e : Endpoint) (task_id : nat) : Route :=
  match e with
  | RequestTask => TaskRequestUrl task_id
  | RespondTask => TaskResponseUrl task_id
  | FinishTask => TaskDoneUrl task_id
  end.

(** An answer [r] to a request of [u] that asked for [o] implements the
    machine: a success is the step of the action, or no change when no
    action was asked for; a refusal or an error is no change. *)
Definition implements (u : nat) (o : option Action) (db : DB) (r : Response * DB) : Prop :=
  if is_success (status_code r.1) then
    match o with
    | Some act => api_step u (abstract db) act (abstract r.2)
    | None => r.2 = db
    end
  else r.2 = db.

(** The runs of the machine. *)
Definition machine_step (a a' : Abs) : Prop := ∃ u act, api_step u a act a'.

(** ** The invariant of the machine *)

(** What [wf_db] says of the tables, on the abstraction: a task has no
    benefactor exactly when it is PENDING, its charity and its benefactor
    are profiles of the tables, and no two users share the id of a
    profile.  (The invariant that section 3 intends, a benefactor exactly
    in WAITING and ASSIGNED, does not survive the last row of the
    transition table: a DONE task keeps its benefactor.) *)
Definition used (id : nat) (m : gmap nat nat) : Prop :=
  map_Exists (λ _ id', id' = id) m.

Definition distinct (m : gmap nat nat) : Prop :=
  ∀ u u' id, m !! u = Some id → m !! u' = Some id → u = u'.

Definition a_task_ok (a : Abs) (x : AState * nat) : Prop :=
  (x.1.2 = None ↔ x.1.1 = Task.PENDING) ∧
  used x.2 (a_charities a) ∧
  match x.1.2 with
  | Some b => used b (a_benefactors a)
  | None => True
  end.

Definition a_wf (a : Abs) : Prop :=
  map_Forall (λ _, a_task_ok a) (a_tasks a) ∧
  distinct (a_benefactors a) ∧ distinct (a_charities a).

Section machine_invariant.
Implicit Types (a : Abs) (m : gmap nat nat) (u id : nat).

Lemma used_lookup m u id : m !! u = Some id → used id m.
Proof. intros Hu. apply map_Exists_lookup. by exists u, id. Qed.

Lemma used_mono m m' id : m ⊆ m' → used id m → used id m'.
Proof.
  intros Hm (u&?&Hu&->)%map_Exists_lookup.
  eapply used_lookup, lookup_weaken; done.
Qed.

Lemma distinct_insert m u id :
  m !! u = None → unused id m → distinct m → distinct (<[u := id]> m).
Proof.
  intros Hu Hid Hm u1 u2 id'. rewrite !lookup_insert_Some.
  intros [[<- <-]|[? H1]] [[<- ?]|[? H2]]; simplify_eq; try done.
  - by destruct (Hid _ _ H2).
  - by destruct (Hid _ _ H1).
  - by eapply Hm.
Qed.

Lemma a_task_ok_mono a a' x :
  a_benefactors a ⊆ a_benefactors a' → a_charities a ⊆ a_charities a' →
  a_task_ok a x → a_task_ok a' x.
Proof.
  intros Hb Hc (Hp&Hch&Hbf). split_and!; [done|by eapply used_mono|].
  destruct x.1.2; [by eapply used_mono|done].
Qed.

(** A move keeps a task in order: who requests has a profile. *)
Lemma a_task_ok_move u a t s s' c :
  may u a t → lifecycle s t s' → a_task_ok a (s, c) → a_task_ok a (s', c).
Proof.
  intros Hmay Hstep (Hp&Hch&Hbf). simpl in *.
  destruct Hstep; simpl in *;
    (split; [split; [intros Hab; try done; by apply Hp in Hab|done]|]);
    (split; [done|]);
    first [done|by eapply used_lookup].
Qed.

(** Every step of the machine keeps the invariant. *)
Lemma api_step_wf u a act a' : a_wf a → api_step u a act a' → a_wf a'.
Proof.
  intros (Htasks&Hbfs&Hchs).
  destruct 1 as [id Hu Hid|id Hu Hid|id c Hc Hid|id t s s' c Hmay Hs Hstep];
    (split_and!; simpl; [|by auto using distinct_insert..]).
  - eapply map_Forall_impl; [done|]. intros i x.
    apply a_task_ok_mono; [by apply insert_subseteq|done].
  - eapply map_Forall_impl; [done|]. intros i x.
    apply a_task_ok_mono; [done|by apply insert_subseteq].
  - apply map_Forall_insert; [done|]. split; [|done].
    split_and!; [done|by eapply used_lookup|done].
  - apply map_Forall_insert_2; [|done].
    eapply (a_task_ok_move u a), (Htasks id); done.
Qed.

Lemma machine_wf a a' : a_wf a → rtc machine_step a a' → a_wf a'.
Proof.
  intros Hwf Hsteps. induction Hsteps as [|a1 a2 a3 (u&act&Hstep) _ IH]; [done|].
  eapply IH, api_step_wf; done.
Qed.

(** The abstraction of a well-formed database is in order. *)
Lemma abstract_wf db : wf_db db → a_wf (abstract db).
Proof.
  intros (Htasks&Hbfs&Hchs&_). split_and!; simpl.
  - intros i x. rewrite lookup_fmap.
    destruct (tasks db !! i) as [task|] eqn:Htask; intros; simplify_eq/=.
    destruct (Htasks i task Htask) as (_&_&Hp&Hch&Hbf).
    apply map_Exists_lookup in Hch as (u&ch&Hch&<-).
    split_and!; simpl; [done|eapply used_lookup; by rewrite lookup_fmap, Hch|].
    destruct (Task.assigned_benefactor task); [|done].
    apply map_Exists_lookup in Hbf as (u'&bf&Hbf&<-).
    eapply used_lookup. by rewrite lookup_fmap, Hbf.
  - intros u u' id. rewrite !lookup_fmap.
    destruct (benefactors db !! u) as [bf|] eqn:Hu;
      destruct (benefactors db !! u') as [bf'|] eqn:Hu'; intros; simplify_eq/=.
    destruct (Hbfs u bf Hu) as (_&_&Hd). symmetry. by apply (Hd u' bf').
  - intros u u' id. rewrite !lookup_fmap.
    destruct (charities db !! u) as [ch|] eqn:Hu;
      destruct (charities db !! u') as [ch'|] eqn:Hu'; intros; simplify_eq/=.
    destruct (Hchs u ch Hu) as (_&_&Hd). symmetry. by apply (Hd u' ch').
Qed.

End machine_invariant.

(** ** The abstraction of the writes *)

Section abstraction.
Implicit Types (db : DB) (task : Task.t) (u i : nat).

Lemma abstract_set_task i a task db :
  abstract (set_tasks <[i := with_abs a task]> db) =
  mkAbs (<[i := (a, Task.charity task)]> (a_tasks (abstract db)))
        (a_benefactors (abstract db)) (a_charities (abstract db)).
Proof. unfold abstract. simpl. rewrite fmap_insert. by destruct a. Qed.

Lemma abstract_insert_task task db :
  abstract (insert_task task db).2 =
  mkAbs (<[next_task_id db := (abs task, Task.charity task)]> (a_tasks (abstract db)))
        (a_benefactors (abstract db)) (a_charities (abstract db)).
Proof. unfold abstract. simpl. by rewrite fmap_insert. Qed.

Lemma abstract_insert_benefactor u fields db :
  benefactors db !! u = None →
  abstract (insert_benefactor u fields db).2 =
  mkAbs (a_tasks (abstract db))
        (<[u := next_benefactor_id db]> (a_benefactors (abstract db)))
        (a_charities (abstract db)).
Proof.
  intros Hu. unfold abstract, insert_benefactor. rewrite Hu. simpl.
  by rewrite fmap_insert.
Qed.

Lemma abstract_insert_charity u fields db :
  charities db !! u = None →
  abstract (insert_charity u fields db).2 =
  mkAbs (a_tasks (abstract db)) (a_benefactors (abstract db))
        (<[u := next_charity_id db]> (a_charities (abstract db))).
Proof.
  intros Hu. unfold abstract, insert_charity. rewrite Hu. simpl.
  by rewrite fmap_insert.
Qed.

(** The next id of a sequence is in use nowhere in its table. *)
Lemma next_benefactor_unused db :
  wf_db db → unused (next_benefactor_id db) (a_benefactors (abstract db)).
Proof.
  intros (_&Hbfs&_) u id. simpl. rewrite lookup_fmap.
  destruct (benefactors db !! u) as [bf|] eqn:Hbf; [|done]. intros [= <-].
  destruct (Hbfs u bf Hbf) as (_&?&_). lia.
Qed.

Lemma next_charity_unused db :
  wf_db db → unused (next_charity_id db) (a_charities (abstract db)).
Proof.
  intros (_&_&Hchs&_) u id. simpl. rewrite lookup_fmap.
  destruct (charities db !! u) as [ch|] eqn:Hch; [|done]. intros [= <-].
  destruct (Hchs u ch Hch) as (_&?&_). lia.
Qed.

Lemma next_task_unused db : wf_db db → a_tasks (abstract db) !! next_task_id db = None.
Proof.
  intros (Htasks&_). simpl. rewrite lookup_fmap.
  destruct (tasks db !! next_task_id db) as [task|] eqn:Htask; [|done].
  destruct (Htasks _ _ Htask) as (_&?&_). lia.
Qed.

End abstraction.

(** ** The handlers implement their actions *)

Section handlers_implement.
Implicit Types (request : Request) (db : DB) (task_id u : nat).

Lemma implements_unchanged u o db r s :
  is_success s = false → implements u o db (mkResponse r s, db).
Proof. unfold implements. simpl. by intros ->. Qed.

Lemma implements_nothing u db r : r.2 = db → implements u None db r.
Proof. unfold implements. by destruct (is_success _). Qed.

Lemma implements_success u act db r s db' :
  is_success s = true → api_step u (abstract db) act (abstract db') →
  implements u (Some act) db (mkResponse r s, db').
Proof. unfold implements. simpl. by intros ->. Qed.

(** A view of the lifecycle, for a caller its permission class accepts. *)
Lemma handler_implements e request task_id db u :
  keyed db → user request = Some u →
  e = RequestTask ∨ is_Some (charities db !! u) →
  implements u (Move task_id <$> trigger e request db) db
             (serve (handler e request task_id) db).
Proof.
  intros Hkeyed Hu Hmay.
  assert (refines (handler e request task_id) (spec_step e request task_id db) db)
    as Href by (by destruct e;
      [apply request_refines|apply respond_refines|apply finish_refines]).
  unfold refines, spec_step, implements in *.
  destruct (tasks db !! task_id) as [task|] eqn:Htask; simpl in Href;
    [|by destruct Href as [-> ->]].
  destruct (trigger e request db) as [t|] eqn:Ht; simpl in *;
    [|by destruct Href as [-> ->]].
  destruct (transition (abs task) t) as [a|] eqn:Ha; simpl in *;
    [|by destruct Href as [-> ->]].
  destruct Href as [-> ->]. rewrite abstract_set_task.
  apply step_move with (abs task).
  - assert (is_Some (charities db !! u) → is_Some (a_charities (abstract db) !! u))
      as Hch by (simpl; rewrite lookup_fmap; apply fmap_is_Some).
    destruct e; simpl in Ht.
    + rewrite Hu in Ht. simpl in Ht.
      destruct (benefactors db !! u) as [bf|] eqn:Hbf; simplify_eq/=.
      by rewrite lookup_fmap, Hbf.
    + destruct Hmay as [|?]; [done|]. repeat case_match; simplify_eq; by apply Hch.
    + destruct Hmay as [|?]; [done|]. simplify_eq. by apply Hch.
  - simpl. by rewrite lookup_fmap, Htask.
  - by apply transition_lifecycle.
Qed.

(** The machine gives a move one outcome. *)
Lemma move_enabled u db task_id t a' :
  api_step u (abstract db) (Move task_id t) a' →
  ∃ task a, tasks db !! task_id = Some task ∧ transition (abs task) t = Some a ∧
            may u (abstract db) t ∧
            a' = abstract (set_tasks <[task_id := with_abs a task]> db).
Proof.
  inversion 1 as [| | |? ? s s' c Hmay Htask Hstep]; subst.
  simpl in Htask. rewrite lookup_fmap in Htask.
  destruct (tasks db !! task_id) as [task|]; simplify_eq/=.
  exists task, s'. by rewrite abstract_set_task, transition_lifecycle.
Qed.

(** A move the machine allows is carried out by the view. *)
Lemma handler_enabled e request task_id db t a' :
  keyed db → trigger e request db = Some t →
  (∃ u, api_step u (abstract db) (Move task_id t) a') →
  is_success (status_code (serve (handler e request task_id) db).1) = true ∧
  abstract (serve (handler e request task_id) db).2 = a'.
Proof.
  intros Hkeyed Ht (u&(task&a&Htask&Ha&_&->)%move_enabled).
  assert (refines (handler e request task_id) (spec_step e request task_id db) db)
    as Href by (by destruct e;
      [apply request_refines|apply respond_refines|apply finish_refines]).
  unfold refines, spec_step in Href. rewrite Htask, Ht in Href. simpl in Href.
  rewrite Ha in Href. simpl in Href. by destruct Href as [-> ->].
Qed.

End handlers_implement.

(** ** The API implements the machine *)

Section views_implement.
Context `{!TaskModel} {ts : TaskSerializer} {bs : BenefactorSerializer}
  {cs : CharitySerializer} `{!TaskSerializerLaws}.
Implicit Types (request : Request) (db : DB) (route : Route) (u : nat).

(** The requests served one after another. *)
Definition serve_requests (calls : list (Route * Request)) (db : DB) : DB :=
  foldl (λ db c, (serve (route_view c.1 c.2) db).2) db calls.

Lemma create_implements request db u :
  wf_db db → user request = Some u → is_charity request db = true →
  implements u (Some CreateTask) db (serve (Tasks.post request) db).
Proof.
  intros Hwf Hu [ch Hch]%bool_decide_eq_true. rewrite Hu in Hch. simpl in Hch.
  rewrite (serve_post _ _ u ch) by done.
  destruct (is_valid _) as [errors|validated] eqn:Hvalid;
    [by apply implements_unchanged|].
  destruct (valid_pending _ _ Hvalid) as [Hstate Hnone].
  pose proof (valid_charity _ _ Hvalid) as Hc.
  unfold post_data in Hc. rewrite lookup_insert_eq in Hc.
  assert (Task.charity validated = Charity.id ch) as Hcharity
    by (injection Hc; lia).
  apply implements_success; [done|]. rewrite abstract_insert_task.
  unfold abs. rewrite Hstate, Hnone, Hcharity.
  apply step_create; [|by apply next_task_unused].
  simpl. by rewrite lookup_fmap, Hch.
Qed.

Lemma benefactor_registration_implements request db u :
  wf_db db → user request = Some u →
  implements u (Some RegisterBenefactor) db
             (serve (BenefactorRegistration.post request) db).
Proof.
  intros Hwf Hu. rewrite (serve_benefactor_post _ _ u) by done.
  destruct (is_valid _); [by apply implements_unchanged|].
  destruct (benefactors db !! u) eqn:Hbf; [by apply implements_unchanged|].
  apply implements_success; [done|]. rewrite abstract_insert_benefactor by done.
  apply step_register_benefactor; [|by apply next_benefactor_unused].
  simpl. by rewrite lookup_fmap, Hbf.
Qed.

Lemma charity_registration_implements request db u :
  wf_db db → user request = Some u →
  implements u (Some RegisterCharity) db
             (serve (CharityRegistration.post request) db).
Proof.
  intros Hwf Hu. rewrite (serve_charity_post _ _ u) by done.
  destruct (is_valid _); [by apply implements_unchanged|].
  destruct (charities db !! u) eqn:Hch; [by apply implements_unchanged|].
  apply implements_success; [done|]. rewrite abstract_insert_charity by done.
  apply step_register_charity; [|by apply next_charity_unused].
  simpl. by rewrite lookup_fmap, Hch.
Qed.

Lemma charity_permitted request db u :
  user request = Some u → is_charity request db = true →
  is_Some (charities db !! u).
Proof. intros Hu Hp%bool_decide_eq_true. by rewrite Hu in Hp. Qed.

(** A request the permission classes accept. *)
Lemma route_handle_implements route request db u :
  wf_db db → user request = Some u → permitted route request db = true →
  implements u (action route request db) db (serve (route_handle route request) db).
Proof.
  intros Hwf Hu Hp. pose proof (wf_db_keyed _ Hwf) as Hkeyed.
  destruct (decide (method request ∈ allowed_methods route)) as [Hm|Hm];
    [|rewrite serve_not_allowed by done; by apply implements_unchanged].
  destruct route; unfold action; simpl in *; unfold handle;
    destruct (method request) eqn:Hmethod;
    try (exfalso; revert Hm; by apply (bool_decide_unpack _)); simpl in *;
    [by apply implements_nothing
    |by apply benefactor_registration_implements
    |by apply implements_nothing
    |by apply charity_registration_implements
    |by apply implements_nothing..
    |by apply create_implements
    |by apply (handler_implements RequestTask); [..|left]
    |by apply (handler_implements RequestTask); [..|left]
    |by apply implements_nothing
    |by apply implements_nothing
    |apply (handler_implements RespondTask); eauto using charity_permitted
    |by apply implements_nothing
    |apply (handler_implements FinishTask); eauto using charity_permitted].
Qed.

(** A request without a user is refused by every route. *)
Lemma anonymous_refused route request db :
  user request = None → serve (route_view route request) db = (forbidden, db).
Proof.
  intros Hu. rewrite serve_route.
  assert (permitted route request db = false) as ->; [|done].
  destruct route; simpl;
    unfold is_authenticated, is_benefactor, is_charity; rewrite Hu; simpl;
    repeat case_bool_decide; try done; by destruct select (is_Some None).
Qed.

(** The permission class of a lifecycle route accepts whoever may pull
    the trigger of the request. *)
Lemma may_permitted e request task_id db u t :
  user request = Some u → trigger e request db = Some t → may u (abstract db) t →
  permitted (lifecycle_route e task_id) request db = true.
Proof.
  intros Hu Ht Hmay.
  destruct e; simpl in *; apply bool_decide_eq_true; rewrite Hu in *; simpl in *.
  - by destruct (benefactors db !! u).
  - repeat case_match; simplify_eq; simpl in Hmay;
      by rewrite lookup_fmap, fmap_is_Some in Hmay.
  - simplify_eq. simpl in Hmay. by rewrite lookup_fmap, fmap_is_Some in Hmay.
Qed.

(** A request asks for a move on a route of the lifecycle, with a method
    the view answers. *)
Lemma action_move route request db task_id t :
  action route request db = Some (Move task_id t) →
  ∃ e, route = lifecycle_route e task_id ∧ trigger e request db = Some t ∧
       route_handle route request = handler e request task_id.
Proof.
  unfold action. intros Ha.
  destruct route; destruct (method request) eqn:Hm; try done;
    apply fmap_Some in Ha as (t'&Ht&[= <- <-]);
    [exists RequestTask..|exists RespondTask|exists FinishTask];
    split_and!; try done; simpl; unfold handle; by rewrite Hm.
Qed.

Lemma serve_steps route request db :
  wf_db db →
  rtc machine_step (abstract db) (abstract (serve (route_view route request) db).2).
Proof.
  intros Hwf. destruct (user request) as [u|] eqn:Hu;
    [|by rewrite anonymous_refused]. rewrite serve_route.
  destruct (permitted route request db) eqn:Hp; [|done].
  pose proof (route_handle_implements route request db u Hwf Hu Hp) as Himpl.
  unfold implements in Himpl.
  destruct (is_success _); [|by rewrite Himpl].
  destruct (action route request db) as [act|]; [|by rewrite Himpl].
  apply rtc_once. by exists u, act.
Qed.

(** Serving requests in turn, the threads of a pool of requests that are
    answered already included, is a run of the machine. *)
Lemma serve_in_order_steps order (pool : list (view Response)) db :
  wf_db db →
  Forall (λ m, finished m = true ∨ ∃ route request, m = route_view route request) pool →
  rtc machine_step (abstract db) (abstract (serve_in_order order pool db).2).
Proof.
  revert pool db. induction order as [|i order IH]; intros pool db Hwf Hpool;
    simpl; [done|].
  destruct (pool !! i) as [m|] eqn:Hi; [|by apply IH].
  assert (wf_db (run m db).2 ∧ rtc machine_step (abstract db) (abstract (run m db).2))
    as [Hwf' Hsteps].
  { destruct (Forall_lookup_1 _ _ _ _ Hpool Hi) as [Hm|(route&request&->)].
    - by destruct (done_run_finished m db Hm) as [_ ->].
    - pose proof (serve_wf _ db (route_safe route request db) Hwf) as [? _].
      pose proof (serve_steps route request db Hwf).
      rewrite serve_run in *. by split. }
  etrans; [done|]. apply IH; [done|].
  apply Forall_insert; [done|left; by destruct (run m db).1].
Qed.

(** C2.  The API implements the machine of the specification: on a
    well-formed database a request of a user, whatever its route, its
    method and its data, that is answered with a success has carried out
    the action it asks for as one step of the machine (a first profile
    under a fresh id, a PENDING task of the caller's charity under a fresh
    id, a move of the lifecycle by who may make it), or has changed
    nothing when it asks for none; a request that is refused or fails
    changes nothing. *)
Theorem api_refines route request db u :
  wf_db db → user request = Some u →
  implements u (action route request db) db (serve (route_view route request) db).
Proof.
  intros Hwf Hu. rewrite serve_route.
  destruct (permitted route request db) eqn:Hp; [by apply route_handle_implements|].
  by apply implements_unchanged.
Qed.

(** C16.  The API refuses no move of the lifecycle that the machine
    allows: when the request asks for a move and the machine can make it
    from the abstraction of the database, the caller passes the permission
    class, the answer is a success and the database is the one the machine
    reaches. *)
Theorem api_moves_enabled route request db u task_id t a' :
  wf_db db → user request = Some u →
  action route request db = Some (Move task_id t) →
  api_step u (abstract db) (Move task_id t) a' →
  is_success (status_code (serve (route_view route request) db).1) = true ∧
  abstract (serve (route_view route request) db).2 = a'.
Proof.
  intros Hwf Hu (e&->&Ht&Hhandle)%action_move Hstep.
  destruct (move_enabled _ _ _ _ _ Hstep) as (_&_&_&_&Hmay&_).
  rewrite serve_route, (may_permitted e _ _ _ u t), Hhandle by done.
  apply (handler_enabled e _ _ _ t); eauto using wf_db_keyed.
Qed.

(** Requests served one after another are a run of the machine: the
    abstraction of the database after any sequence of requests is reached
    from the abstraction of the first by the steps of the machine. *)
Theorem serial_refines calls db :
  wf_db db → rtc machine_step (abstract db) (abstract (serve_requests calls db)).
Proof.
  revert db. induction calls as [|[route request] calls IH]; intros db Hwf;
    simpl; [done|].
  etrans; [by apply serve_steps|].
  apply IH, serve_wf, Hwf. apply route_safe.
Qed.

(** Interleaved requests to the collections are a run of the
    machine: however the ORM calls of registrations, listings and
    creations of tasks interleave, the database in which all are answered
    is reached from the first by the steps of the machine. *)
Theorem collection_pool_refines calls db c' :
  wf_db db → Forall (λ c, collection_call c = true) calls →
  rtc pool_step (api_pool calls, db) c' → complete c' →
  rtc machine_step (abstract db) (abstract c'.2).
Proof.
  intros Hwf Hall Hsteps Hc.
  destruct (linearizable wf_db db_extends (api_pool calls) db c')
    as (order&_&->); [by apply api_pool_safe|by apply api_pool_linear|done..|].
  apply serve_in_order_steps; [done|].
  apply Forall_fmap, Forall_forall. intros [route request] _. right. by eexists _, _.
Qed.

End views_implement.

(** ** The refinement at concrete requests *)

Section machine_samples.
#[local] Existing Instance sample_model.
#[local] Existing Instance sample_task_serializer.
#[local] Existing Instance sample_task_serializer_laws.
#[local] Existing Instance sample_benefactor_serializer.
#[local] Existing Instance sample_charity_serializer.

(** The charity of user 10 posts a task, benefactor 5 (user 20) requests
    task 1, the charity accepts the request for task 2 and marks task 3
    done, an anonymous caller asks for the list. *)
Definition machine_calls : list (Route * Request) :=
  [(TasksUrl, paint_request);
   (TaskRequestUrl 1, sample_request 20 GET []);
   (TaskResponseUrl 2, sample_request 10 POST [("response", VStr "A")]);
   (TaskDoneUrl 3, sample_request 10 POST []);
   (TasksUrl, mkRequest None GET ∅ ∅)].

(** Task 1 requested by benefactor 5, in the abstraction. *)
Definition requested : Abs :=
  mkAbs (<[1 := ((Task.WAITING, Some 5), 1)]> (a_tasks (abstract sample_db)))
        (a_benefactors (abstract sample_db)) (a_charities (abstract sample_db)).

Lemma api_refines_witness :
  implements 10 (action (TaskResponseUrl 2)
                        (sample_request 10 POST [("response", VStr "A")]) sample_db)
             sample_db
             (serve (route_view (TaskResponseUrl 2)
                                (sample_request 10 POST [("response", VStr "A")]))
                    sample_db).
Proof. apply api_refines; [apply wf_sample|reflexivity]. Defined.

Lemma api_moves_enabled_witness :
  is_success (status_code (serve (route_view (TaskRequestUrl 1)
                                    (sample_request 20 GET [])) sample_db).1) = true ∧
  abstract (serve (route_view (TaskRequestUrl 1) (sample_request 20 GET []))
                  sample_db).2 = requested.
Proof.
  apply (api_moves_enabled _ _ sample_db 20 1 (Requests 5));
    [apply wf_sample|reflexivity..|].
  apply step_move with (Task.PENDING, None); [reflexivity..|constructor].
Defined.

Lemma serial_refines_witness :
  rtc machine_step (abstract sample_db) (abstract (serve_requests machine_calls sample_db)).
Proof. apply serial_refines, wf_sample. Defined.

Lemma collection_pool_refines_witness :
  rtc machine_step (abstract sample_db)
      (abstract (run_schedule [3; 2; 3; 1; 3; 0] (api_pool collection_calls)
                              sample_db).2).
Proof.
  apply (collection_pool_refines collection_calls sample_db).
  - apply wf_sample.
  - by repeat constructor.
  - apply run_schedule_sound.
  - by apply (bool_decide_unpack _).
Defined.

(** The five requests in turn: the task posted is task 5, tasks 1, 2 and 3
    have moved one step each, task 4 and the profiles are as they were. *)
Example machine_calls_outcome :
  abstract (serve_requests machine_calls sample_db) =
  mkAbs (list_to_map [(1, ((Task.WAITING, Some 5), 1));
                      (2, ((Task.ASSIGNED, Some 5), 1));
                      (3, ((Task.DONE, Some 5), 1));
                      (4, ((Task.DONE, Some 6), 1));
                      (5, ((Task.PENDING, None), 1))])
        (list_to_map [(20, 5); (21, 6)]) (list_to_map [(10, 1); (11, 2)]).
Proof. by vm_compute. Qed.

End machine_samples.
