(* ===== verification/Reach.v ===== *)
(** * Reach: the states of the machine, and that no interleaving leaves them

    The machine of the specification (file Machine) reaches a state [a]
    from a state [a0] exactly when [a] is in order and [a0] has grown
    into it ([grows]): every profile of [a0] is a profile of [a], every
    task of [a0] is a task of [a] with the same charity, moved along the
    transition table ([machine_reach_iff]).  A run of the machine to such
    a state registers the new profiles, creates the new tasks and moves
    each task, in this order; the steps on different rows do not depend
    on each other.

    Concurrent requests race (files Concurrency and Linearizability): an
    interleaving can answer requests in a way that no serial execution
    does.  What it cannot do is leave the states of the specification.
    The theorem [api_interleaving_reachable]: however the ORM calls of
    any requests to the API interleave, the database that is reached is
    one that the machine reaches from the abstraction of the first.  The
    races lose updates and give wrong answers; they make no state that
    requests served in turn could not have made. *)

From S2P Require Import Prelude Prog Http Models Permissions Lifecycle Refinement.
From S2P Require Import Concurrency Dispatch Schema TaskList Registration Api.
From S2P Require Import Evolution Machine.

Local Open Scope prog_scope.

(** ** Growth *)

(** A task moved along the table, for the same charity. *)
Definition task_moved (x y : AState * nat) : Prop :=
  rtc lifecycle_step x.1 y.1 ∧ x.2 = y.2.

(** [a] has grown into [a']: the profiles are kept, the tasks are kept
    and moved. *)
Definition grows (a a' : Abs) : Prop :=
  a_benefactors a ⊆ a_benefactors a' ∧
  a_charities a ⊆ a_charities a' ∧
  map_included (λ _, task_moved) (a_tasks a) (a_tasks a').

(** A state without benefactor exactly when PENDING. *)
Definition state_ok (s : AState) : Prop := s.2 = None ↔ s.1 = Task.PENDING.

(** The abstraction with the row of task [i] set to [x]. *)
Definition set_task (i : nat) (x : AState * nat) (a : Abs) : Abs :=
  mkAbs (<[i := x]> (a_tasks a)) (a_benefactors a) (a_charities a).

(** The machine reaches [a'] from [a]. *)
Definition reaches (a a' : Abs) : Prop := rtc machine_step a a'.

(** A move of the table that some user of [a] may make. *)
Definition may_move (a : Abs) (s s' : AState) : Prop :=
  ∃ u t, may u a t ∧ lifecycle s t s'.

#[export] Instance task_moved_preorder : PreOrder task_moved.
Proof.
  split; [by intros x|]. intros x y z [Hxy ?] [Hyz ?].
  split; [by etrans|congruence].
Qed.

#[export] Instance grows_preorder : PreOrder grows.
Proof.
  split; [by intros a|]. intros a1 a2 a3 (?&?&?) (?&?&?).
  split_and!; by etrans.
Qed.

(** ** The machine grows its state *)

Section machine_grows.
Implicit Types (a : Abs) (u i : nat).

Lemma api_step_grows u a act a' : api_step u a act a' → grows a a'.
Proof.
  destruct 1 as [id Hu Hid|id Hu Hid|id c Hc Hid|id t s s' c Hmay Hs Hstep];
    split_and!; simpl; try done; try (by apply insert_subseteq);
    apply (insert_included (λ _, task_moved)); intros y Hy; simplify_eq.
  split; [|done]. apply rtc_once. by exists t.
Qed.

Lemma machine_grows a a' : rtc machine_step a a' → grows a a'.
Proof.
  induction 1 as [|a1 a2 a3 (u&act&Hstep) _ IH]; [done|].
  etrans; [by eapply api_step_grows|done].
Qed.

End machine_grows.

(** ** The moves of one task *)

Section moves.
Implicit Types (a : Abs) (s : AState) (i c u b : nat).

Lemma set_task_id a i x : a_tasks a !! i = Some x → set_task i x a = a.
Proof. intros Hi. destruct a. unfold set_task. simpl in *. by rewrite insert_id. Qed.

Lemma set_task_twice a i x y : set_task i y (set_task i x a) = set_task i y a.
Proof. unfold set_task. simpl. by rewrite insert_insert_eq. Qed.

Lemma machine_move a i s s' c :
  may_move a s s' → a_tasks a !! i = Some (s, c) →
  machine_step a (set_task i (s', c) a).
Proof. intros (u&t&Hmay&Hstep) Hi. exists u, (Move i t). by eapply step_move. Qed.

(** A path of moves that users may make is a run of the machine. *)
Lemma moves_lift a i c s s' :
  rtc (may_move a) s s' → a_tasks a !! i = Some (s, c) →
  rtc machine_step a (set_task i (s', c) a).
Proof.
  intros Hpath Hi. revert s' Hpath. apply rtc_ind_r; [by rewrite set_task_id|].
  intros s1 s2 _ Hstep IH. eapply rtc_r; [done|].
  rewrite <-(set_task_twice a i (s1, c) (s2, c)).
  apply (machine_move _ i s1); [done|]. apply lookup_insert_eq.
Qed.

Lemma assigned_reach ab s :
  rtc lifecycle_step (Task.ASSIGNED, ab) s →
  s = (Task.ASSIGNED, ab) ∨ s = (Task.DONE, ab).
Proof.
  inversion 1 as [|? s1 ? [t Hstep] Hrest]; [by left|].
  inversion Hstep; subst. right. by apply done_stuck.
Qed.

Context (a : Abs) (u : nat).
Hypothesis charity_user : is_Some (a_charities a !! u).

Lemma may_request b ab :
  used b (a_benefactors a) →
  may_move a (Task.PENDING, ab) (Task.WAITING, Some b).
Proof.
  intros (u'&?&Hu'&->)%map_Exists_lookup. exists u', (Requests b).
  split; [done|constructor].
Qed.

Lemma may_accept ab : may_move a (Task.WAITING, ab) (Task.ASSIGNED, ab).
Proof. exists u, Accepts. split; [done|constructor]. Qed.

Lemma may_reject ab : may_move a (Task.WAITING, ab) (Task.PENDING, None).
Proof. exists u, Rejects. split; [done|constructor]. Qed.

Lemma may_finish ab : may_move a (Task.ASSIGNED, ab) (Task.DONE, ab).
Proof. exists u, MarksDone. split; [done|constructor]. Qed.

(** From PENDING every state in order is reached by moves of users. *)
Lemma from_pending s :
  state_ok s → (∀ b, s.2 = Some b → used b (a_benefactors a)) →
  rtc (may_move a) (Task.PENDING, None) s.
Proof.
  destruct s as [st [b|]]; unfold state_ok; simpl; intros [Hnone Hpending] Hb.
  - specialize (Hb b eq_refl).
    destruct st; [by discriminate Hpending|..];
      repeat first [ apply rtc_refl
                   | eapply rtc_l; [by first [apply may_request|apply may_accept
                                              |apply may_finish]|] ].
  - destruct st; try by discriminate Hnone. done.
Qed.

(** Whatever path of the table leads from [s0] to [s], a path of moves
    that users of [a] may make does. *)
Lemma canonical_path s0 s :
  state_ok s0 → state_ok s → (∀ b, s.2 = Some b → used b (a_benefactors a)) →
  rtc lifecycle_step s0 s → rtc (may_move a) s0 s.
Proof.
  intros H0 Hs Hb Hreach. destruct s0 as [[] ab0].
  - assert (ab0 = None) as -> by (by apply H0). by apply from_pending.
  - eapply rtc_l; [apply may_reject|]. by apply from_pending.
  - destruct (assigned_reach _ _ Hreach) as [-> | ->]; [done|].
    apply rtc_once, may_finish.
  - by rewrite (done_stuck _ _ Hreach).
Qed.

End moves.

(** ** The runs of the machine *)

Section runs.
Implicit Types (a : Abs) (B C : gmap nat nat) (T : gmap nat (AState * nat)).

Lemma unused_grow B B' u id :
  distinct B → B' !! u = None → <[u := id]> B' ⊆ B → unused id B'.
Proof.
  intros Hd Hu Hle u' id' Hu' ->.
  assert (u' = u) as ->; [|congruence].
  apply (Hd u' u id); [|by eapply insert_subseteq_lookup].
  eapply lookup_weaken; [done|]. etrans; [by apply insert_subseteq|done].
Qed.

(** The profiles of [B] that are not there yet are registered. *)
Lemma register_benefactors a B :
  a_benefactors a ⊆ B → distinct B →
  rtc machine_step a (mkAbs (a_tasks a) B (a_charities a)).
Proof.
  intros Hsub Hd.
  apply (map_grow_ind (λ B', rtc machine_step a (mkAbs (a_tasks a) B' (a_charities a)))
           (a_benefactors a)); [done|by destruct a|].
  intros B' u id _ Hu Hle IH. eapply rtc_r; [done|]. exists u, RegisterBenefactor.
  apply (step_register_benefactor u (mkAbs _ B' _)); [done|]. by eapply unused_grow.
Qed.

Lemma register_charities a C :
  a_charities a ⊆ C → distinct C →
  rtc machine_step a (mkAbs (a_tasks a) (a_benefactors a) C).
Proof.
  intros Hsub Hd.
  apply (map_grow_ind (λ C', rtc machine_step a (mkAbs (a_tasks a) (a_benefactors a) C'))
           (a_charities a)); [done|by destruct a|].
  intros C' u id _ Hu Hle IH. eapply rtc_r; [done|]. exists u, RegisterCharity.
  apply (step_register_charity u (mkAbs _ _ C')); [done|]. by eapply unused_grow.
Qed.

(** One task of the table [T] is created, if it is not there, and moved
    to its state. *)
Lemma settle_task a i s c :
  map_Forall (λ _ x, state_ok x.1) (a_tasks a) →
  a_task_ok a (s, c) →
  from_option (λ x, task_moved x (s, c)) True (a_tasks a !! i) →
  rtc machine_step a (set_task i (s, c) a).
Proof.
  intros Hok (Hs&(u&?&Hu&->)%map_Exists_lookup&Hb) Hmoved. simpl in *.
  assert (∀ b, s.2 = Some b → used b (a_benefactors a)) as Hused
    by (by intros b Heq; rewrite Heq in Hb).
  destruct (a_tasks a !! i) as [[s0 c0]|] eqn:Hi; simpl in Hmoved.
  - destruct Hmoved as [Hpath Hc]. simpl in *. subst c0.
    apply (moves_lift a i c s0); [|done].
    apply (canonical_path a u); [by eexists|by apply (Hok i _ Hi)|done..].
  - etrans; [apply rtc_once; exists u, CreateTask; by apply (step_create u a i)|].
    rewrite <-(set_task_twice a i ((Task.PENDING, None), c) (s, c)).
    apply (moves_lift _ i c (Task.PENDING, None)); [|apply lookup_insert_eq].
    apply (from_pending _ u); [by eexists|done..].
Qed.

(** The tasks of [T] are created and moved, one after the other. *)
Lemma settle_tasks a T :
  map_Forall (λ _ x, state_ok x.1) (a_tasks a) →
  map_Forall (λ _, a_task_ok a) T →
  map_included (λ _, task_moved) (a_tasks a) T →
  rtc machine_step a (mkAbs T (a_benefactors a) (a_charities a)).
Proof.
  intros Hok HT Hincl.
  assert (T ∪ a_tasks a = T) as Hall.
  { apply map_eq. intros i. rewrite lookup_union. specialize (Hincl i).
    by destruct (T !! i), (a_tasks a !! i). }
  rewrite <-Hall at 1.
  apply (map_grow_ind
           (λ d, rtc machine_step a (mkAbs (d ∪ a_tasks a) (a_benefactors a) (a_charities a)))
           ∅); [apply map_empty_subseteq|rewrite (left_id_L ∅ (∪)); by destruct a|].
  intros d i [s c] _ Hi Hle IH. etrans; [done|]. rewrite <-insert_union_l.
  pose proof (insert_subseteq_lookup _ _ _ _ Hle) as HTi.
  change (rtc machine_step (mkAbs (d ∪ a_tasks a) (a_benefactors a) (a_charities a))
            (set_task i (s, c) (mkAbs (d ∪ a_tasks a) (a_benefactors a) (a_charities a)))).
  apply settle_task; simpl.
  - intros j x. rewrite lookup_union_Some_raw. intros [Hj|[_ Hj]]; [|by eapply Hok].
    eapply (HT j x), lookup_weaken; [done|].
    etrans; [by apply insert_subseteq|done].
  - apply (HT i _ HTi).
  - rewrite lookup_union_r by done. specialize (Hincl i). rewrite HTi in Hincl.
    by destruct (a_tasks a !! i).
Qed.

End runs.

(** ** The states the machine reaches *)

Section reach.
Implicit Types (a : Abs).

(** A state in order into which [a0] has grown is reached from [a0]:
    the profiles are registered, then the tasks created and moved. *)
Theorem machine_reach a0 a : a_wf a0 → a_wf a → grows a0 a → reaches a0 a.
Proof.
  unfold reaches.
  intros (Hok0&_&_) (Htasks&Hbfs&Hchs) (Hb&Hc&Ht). destruct a as [T B C]. simpl in *.
  etrans; [by apply (register_benefactors a0 B)|].
  etrans; [by apply (register_charities (mkAbs (a_tasks a0) B (a_charities a0)) C)|].
  apply (settle_tasks (mkAbs (a_tasks a0) B C) T); simpl; [|done..].
  eapply map_Forall_impl; [done|]. by intros i x [? _].
Qed.

(** The states the machine reaches from a state in order are the states
    in order into which it has grown. *)
Theorem machine_reach_iff a0 a :
  a_wf a0 → reaches a0 a ↔ a_wf a ∧ grows a0 a.
Proof.
  intros Hwf0. split.
  - intros Hsteps. split; [by apply (machine_wf a0)|by apply machine_grows].
  - intros [Hwf Hgrows]. by apply machine_reach.
Qed.

End reach.

(** ** The databases the interleavings reach *)

Section interleavings.
Context `{!TaskModel} {ts : TaskSerializer} `{!TaskSerializerLaws}.
Context {bs : BenefactorSerializer} {cs : CharitySerializer}.
Implicit Types (db : DB).

(** A database that extends another and holds its tasks, moved along the
    table, is an abstract state into which the other has grown. *)
Lemma abstract_grows db0 db :
  db_extends db0 db → evolves db0 db → grows (abstract db0) (abstract db).
Proof.
  intros (_&Hb&Hc&_) [_ Hrows]. split_and!; simpl; [by apply map_fmap_mono..|].
  intros i. rewrite !lookup_fmap.
  destruct (tasks db0 !! i) as [task0|] eqn:Hi; simpl.
  - destruct (Hrows i task0 Hi) as (s&Hs&->). simpl. split; [|done].
    simpl. by rewrite abs_with_abs.
  - by destruct (tasks db !! i).
Qed.

(** C17.  No interleaving leaves the states of the specification: however
    the ORM calls of any requests to the API interleave, races included,
    the database that is reached from a well-formed one is, in the
    abstraction, a state that the machine of the specification reaches
    from the first: a state that requests served one after the other
    could have made. *)
Theorem api_interleaving_reachable calls db0 c' :
  wf_db db0 → rtc pool_step (api_pool calls, db0) c' →
  reaches (abstract db0) (abstract c'.2).
Proof.
  intros Hwf Hsteps.
  destruct (pool_steps_safe wf_db db_extends _ _ Hsteps (api_pool_safe calls db0 Hwf))
    as [[Hwf' _] Hext].
  apply machine_reach; [by apply abstract_wf..|].
  apply abstract_grows; [done|]. by apply (api_pool_evolves db0 Hwf calls).
Qed.

End interleavings.

(** ** The theorem at concrete requests *)

Section reach_samples.
#[local] Existing Instance sample_model.
#[local] Existing Instance sample_task_serializer.
#[local] Existing Instance sample_task_serializer_laws.
#[local] Existing Instance sample_benefactor_serializer.
#[local] Existing Instance sample_charity_serializer.

(** The race of an acceptance, a completion and a rejection of task 2
    answers three times 200 and leaves the task PENDING: a state of the
    machine, which a rejection alone reaches. *)
Lemma api_interleaving_reachable_witness :
  reaches (abstract sample_db)
          (abstract (run_schedule racing_schedule (api_pool racing_calls) sample_db).2).
Proof.
  apply (api_interleaving_reachable racing_calls sample_db _ wf_sample).
  apply run_schedule_sound.
Defined.

(** The machine does not reach every state: a task that is DONE is not
    PENDING again. *)
Example done_not_reopened :
  ¬ reaches (abstract sample_db)
      (set_task 4 ((Task.PENDING, None), 1) (abstract sample_db)).
Proof.
  intros (_&_&_&Htasks)%(machine_reach_iff _ _ (abstract_wf _ wf_sample)).
  specialize (Htasks 4). vm_compute in Htasks.
  by destruct Htasks as [?%done_stuck _].
Qed.

End reach_samples.
