(* ===== verification/Isolation.v ===== *)
(** * Isolation: the requests that do not conflict are serializable

    Two requests conflict when they are lifecycle requests for the same
    task: each reads the row and writes it back, and the one that writes
    last wins (file Concurrency).  Nothing else conflicts.  A request to
    a collection reads profiles, which never change, and ends with one
    creation; a lifecycle request reads profiles and the row of its task,
    which no request for another task and no request to a collection
    writes, and ends with one save.  Each request is therefore linear for
    its own rely ([rely]): the tables grow, and the task the request
    addresses, once it is there, is left as it is.

    The theorem [conflict_free_serializable]: whatever the requests to
    the API, if no two of them address the same task, every interleaving
    of their ORM calls that answers them all ends with the responses and
    the database of serving them one after the other in some order.  The
    condition cannot be dropped ([request_race_not_serial]). *)

From S2P Require Import Prelude Prog Linearize Http Models Permissions Lifecycle.
From S2P Require Import Refinement Concurrency Dispatch Schema TaskList Registration.
From S2P Require Import Api Linearizability Evolution Serializability.

Local Open Scope prog_scope.

(** ** The rely of a request *)

(** The row of task [t], once it is there, is left as it is. *)
Definition keeps_task (t : nat) (db db' : DB) : Prop :=
  is_Some (tasks db !! t) → tasks db' !! t = tasks db !! t.

(** What a request that addresses the task [o], or none, needs of the
    other requests. *)
Definition rely (o : option nat) (db db' : DB) : Prop :=
  db_extends db db' ∧ ∀ t, o = Some t → keeps_task t db db'.

(** The task the request [i] of [calls] addresses. *)
Definition addressed (calls : list (Route * Request)) (i : nat) : option nat :=
  calls !! i ≫= route_task ∘ fst.

(** The tasks the requests address, in the order of the requests. *)
Definition addressed_tasks (calls : list (Route * Request)) : list nat :=
  omap (route_task ∘ fst) calls.

(** No two requests address the same task. *)
Definition conflict_free (calls : list (Route * Request)) : Prop :=
  NoDup (addressed_tasks calls).

(** What a request does to the tasks: a request for task [t] reads and
    saves the row [t] only, a request to a collection saves no row. *)
Definition footprint (o : option nat) (m : view Response) : Prop :=
  match o with
  | Some t => local t m
  | None => saves_nothing m
  end.

#[export] Instance rely_preorder o : PreOrder (rely o).
Proof.
  split.
  - intros db. by split.
  - intros db1 db2 db3 [H12 K12] [H23 K23]. split; [by etrans|].
    intros t Ht Hsome. rewrite (K23 t Ht), (K12 t Ht Hsome); [done|].
    by rewrite (K12 t Ht Hsome).
Qed.

(** ** What an ORM call keeps *)

Section orm.
Implicit Types (db : DB) (t u : nat).

Lemma rely_extends o db db' : rely o db db' → db_extends db db'.
Proof. by intros [? _]. Qed.

(** An ORM call that does not save the row [t] leaves it as it is. *)
Lemma perform_keeps_task {X} (op : Op X) t db :
  wf_db db →
  match op with TaskSave task => Task.id task ≠ t | _ => True end →
  keeps_task t db (perform op db).2.
Proof.
  intros Hwf Hop [task Htask].
  destruct op; cbn [perform orm_effects perform_orm snd]; try done.
  - simpl. by rewrite lookup_insert_ne.
  - simpl. rewrite lookup_insert_ne; [done|]. intros <-.
    destruct (wf_db_task _ _ _ Hwf Htask) as (_&?&_). lia.
  - unfold insert_benefactor. by case_match.
  - unfold insert_charity. by case_match.
  - unfold insert_user. by case_decide.
Qed.

Lemma stable_user_benefactor o u db :
  is_Some (benefactors db !! u) → stable_read wf_db (rely o) (UserBenefactor u) db.
Proof.
  intros [bf Hbf] db' [(_&Hsub&_) _] _. cbn [perform orm_effects perform_orm fst].
  rewrite Hbf. f_equal. by eapply lookup_weaken.
Qed.

Lemma stable_charity o u db :
  is_Some (charities db !! u) → stable_read wf_db (rely o) (UserCharity u) db.
Proof.
  intros Hch db' Hrely. apply (stable_user_charity u db Hch), (rely_extends o _ _ Hrely).
Qed.

Lemma stable_task_get t db :
  is_Some (tasks db !! t) → stable_read wf_db (rely (Some t)) (TaskGet t) db.
Proof.
  intros Htask db' [_ Hkeep] _. cbn [perform orm_effects perform_orm fst].
  by rewrite (Hkeep t eq_refl Htask).
Qed.

End orm.

(** ** The requests are linear *)

Section linear_requests.
Context `{!TaskModel} {ts : TaskSerializer}.
Context {bs : BenefactorSerializer} {cs : CharitySerializer}.
Implicit Types (db : DB) (request : Request) (t : nat) (o : option nat).

Lemma reads_user_benefactor o request :
  reads wf_db (rely o) (user_benefactor request).
Proof.
  unfold user_benefactor. destruct (user request) as [u|]; [|done].
  intros db _. cbn [perform orm_effects perform_orm fst].
  destruct (benefactors db !! u) eqn:Hbf; [right|by left].
  split; [|done]. apply stable_user_benefactor. by rewrite Hbf.
Qed.

Lemma reads_get_object t : reads wf_db (rely (Some t)) (get_object_or_404 t).
Proof.
  intros db _. cbn [perform orm_effects perform_orm fst].
  destruct (tasks db !! t) eqn:Htask; [right|by left].
  split; [|done]. apply stable_task_get. by rewrite Htask.
Qed.

(** The permission checks read profiles, and fail when there is none. *)
Lemma reads_check_permissions o perms request :
  Forall known perms → reads wf_db (rely o) (check_permissions perms request).
Proof.
  induction 1 as [|p perms Hp _ IH]; [done|]. simpl.
  destruct Hp as [->|[->| ->]]; simpl.
  - by destruct (bool_decide _).
  - destruct (user request) as [u|]; [|done]. intros db _.
    cbn [perform orm_effects perform_orm fst].
    destruct (benefactors db !! u) eqn:Hbf; [right|by left].
    split; [|done]. apply stable_user_benefactor. by rewrite Hbf.
  - destruct (user request) as [u|]; [|done]. intros db _.
    cbn [perform orm_effects perform_orm fst].
    destruct (charities db !! u) eqn:Hch; [right|by left].
    split; [|done]. apply stable_charity. by rewrite Hch.
Qed.

(** A save, then the response. *)
Lemma linear_save o task (r : Response) : linear wf_db (rely o) (save task ;; Ret r).
Proof. by apply linear_last. Qed.

(** A view of the lifecycle: the task is read, then the caller, then the
    row is saved. *)
Lemma handler_linear e request t :
  linear wf_db (rely (Some t)) (handler e request t).
Proof.
  destruct e; (apply linear_bind; [apply reads_get_object|]); intros task;
    cbn beta zeta.
  - case_bool_decide; [done|].
    apply linear_bind; [apply reads_user_benefactor|]. intros bf. apply linear_save.
  - destruct (negb _); [done|]. case_bool_decide; [done|].
    repeat (destruct (eq_str _ _)); first [apply linear_save|done].
  - case_bool_decide; [done|]. apply linear_save.
Qed.

Lemma dispatch_linear {K} o (v : APIView K) request kwargs :
  Forall known (view_permissions v request) →
  handlers_all v request kwargs (linear wf_db (rely o)) →
  linear wf_db (rely o) (dispatch v request kwargs).
Proof.
  intros Hperms Hall. apply linear_bind; [by apply reads_check_permissions|].
  intros _. by apply (dispatch_handler v (linear wf_db (rely o))).
Qed.

(** Every request is linear for its rely. *)
Lemma route_linear route request :
  linear wf_db (rely (route_task route)) (route_view route request).
Proof.
  destruct (route_task route) as [t|] eqn:Ht.
  - destruct lifecycle_permissions_known as (Hb&Hc&_).
    destruct route; simplify_eq/=; (apply dispatch_linear; [done|]); each_handler.
    + apply (handler_linear RequestTask).
    + apply (handler_linear RespondTask).
    + apply (handler_linear FinishTask).
  - apply (linear_mono wf_db db_extends); [apply rely_extends|].
    apply (collection_call_linear (route, request)). by destruct route.
Qed.

(** A request to a collection saves no row. *)
Lemma collection_saves_nothing route request :
  route_task route = None → saves_nothing (route_view route request).
Proof.
  intros Ht. destruct lifecycle_permissions_known as (_&_&Ha).
  destruct (tasks_saves_nothing request), (registration_saves_nothing request).
  destruct route; simplify_eq/=;
    (apply saves_nothing_bind;
     [apply check_permissions_saves_nothing; by auto using get_permissions_known|]);
    intros _;
    (apply (dispatch_handler _ saves_nothing); [|done..]); by each_handler.
Qed.

Lemma route_footprint route request :
  footprint (route_task route) (route_view route request).
Proof.
  destruct (route_task route) as [t|] eqn:Ht; simpl.
  - by apply route_local.
  - by apply collection_saves_nothing.
Qed.

End linear_requests.

(** ** Pools of requests that do not conflict *)

Section isolated_pools.
Context `{!TaskModel} {ts : TaskSerializer} `{!TaskSerializerLaws}.
Context {bs : BenefactorSerializer} {cs : CharitySerializer}.
Implicit Types (db : DB) (calls : list (Route * Request)) (t : nat).

(** The state of a pool that serves [calls]: every thread keeps the
    database well formed and growing, is linear for the rely of its request
    and stays within the footprint of its request. *)
Definition isolated calls (c : list (view Response) * DB) : Prop :=
  pool_safe wf_db db_extends c ∧
  ∀ i m, c.1 !! i = Some m →
    linear wf_db (rely (addressed calls i)) m ∧ footprint (addressed calls i) m.

Lemma addressed_elem calls i t : addressed calls i = Some t → t ∈ addressed_tasks calls.
Proof.
  unfold addressed. intros ([route request]&Hi&Ht)%bind_Some.
  apply list_elem_of_omap. exists (route, request). split; [|done].
  by eapply list_elem_of_lookup_2.
Qed.

Lemma conflict_free_lookup calls i j t :
  conflict_free calls → addressed calls i = Some t → addressed calls j = Some t → i = j.
Proof.
  unfold conflict_free, addressed_tasks. revert i j.
  induction calls as [|c calls IH]; intros i j Hnd Hi Hj; [done|].
  assert (route_task c.1 = Some t → t ∉ addressed_tasks calls) as Hhead.
  { intros Hc. simpl in Hnd. rewrite Hc in Hnd. by apply NoDup_cons in Hnd as [? _]. }
  assert (NoDup (addressed_tasks calls)) as Htail.
  { simpl in Hnd. destruct (route_task c.1); [by apply NoDup_cons in Hnd as [_ ?]|done]. }
  destruct i as [|i], j as [|j]; [done| | |f_equal; by apply IH].
  - destruct (Hhead Hi). by apply (addressed_elem calls j).
  - destruct (Hhead Hj). by apply (addressed_elem calls i).
Qed.

Lemma footprint_step1 o (m : view Response) db :
  wf_db db → footprint o m → footprint o (step1 m db).1.
Proof.
  intros Hwf. destruct o as [t|]; simpl.
  - intros Hm. by apply local_step1; [apply wf_db_keyed|].
  - destruct m as [a|e|X op k]; [done..|]. rewrite step1_vis. intros [_ Hk]. apply Hk.
Qed.

(** A step within the footprint of one request keeps the task of any
    other. *)
Lemma footprint_keeps o (m : view Response) t db :
  wf_db db → footprint o m → o ≠ Some t → keeps_task t db (step1 m db).2.
Proof.
  intros Hwf Hm Ho. destruct m as [a|e|X op k]; [done..|]. rewrite step1_vis.
  apply perform_keeps_task; [done|].
  destruct o as [t'|]; simpl in Hm; destruct Hm as [Hop _]; destruct op; try done.
  simpl in Hop. congruence.
Qed.

Lemma api_pool_isolated calls db : wf_db db → isolated calls (api_pool calls, db).
Proof.
  intros Hwf. split; [by apply api_pool_safe|]. intros i m. simpl. unfold api_pool.
  rewrite list_lookup_fmap. unfold addressed.
  destruct (calls !! i) as [[route request]|]; [|done]. intros [= <-]. simpl.
  split; [apply route_linear|apply route_footprint].
Qed.

(** The pools of requests that do not conflict respect the relies of
    their requests. *)
Lemma isolated_respects calls :
  conflict_free calls →
  respects wf_db (λ i, rely (addressed calls i)) (isolated calls).
Proof.
  intros Hfree. split.
  - intros c c' [Hsafe Hts] Hstep.
    split; [by destruct (pool_step_safe wf_db db_extends _ _ Hstep Hsafe)|].
    destruct Hstep as [i m ts0 db Hi Hfin]. simpl in *. intros j m' Hj.
    apply list_lookup_insert_Some in Hj as [(<-&<-&_)|[_ Hj]]; [|by apply Hts].
    destruct (Hts i m Hi) as [Hlin Hfoot].
    split; [apply linear_step1|apply footprint_step1]; try done; apply Hsafe.
  - by intros c [[? _] _].
  - intros c i m [_ Hts] Hi. by apply Hts.
  - intros ts0 db i j m [Hsafe Hts] Hj Hfin Hij. split.
    + by destruct (pool_step_safe wf_db db_extends _ _ (PoolStep j m ts0 db Hj Hfin) Hsafe).
    + intros t Ht. apply (footprint_keeps (addressed calls j)).
      * apply Hsafe.
      * by apply (Hts j).
      * intros Hjt. by destruct (Hij (conflict_free_lookup calls i j t Hfree Ht Hjt)).
Qed.

(** C14.  Requests that do not conflict are serializable: whatever the requests
    to the API, if no two of them address the same task, every interleaving
    of their ORM calls that answers them all ends, from a well-formed
    database, with the responses and the database of serving the requests
    one after the other in some order. *)
Theorem conflict_free_serializable calls db c' :
  wf_db db → conflict_free calls →
  rtc pool_step (api_pool calls, db) c' → complete c' →
  serial_outcome (api_pool calls) db c'.
Proof.
  intros Hwf Hfree.
  apply (linearizable_by wf_db (λ i, rely (addressed calls i)) (isolated calls));
    [by apply isolated_respects|by apply api_pool_isolated].
Qed.

End isolated_pools.

(** ** Serializability at concrete requests *)

Section isolated_samples.
#[local] Existing Instance sample_model.
#[local] Existing Instance sample_task_serializer.
#[local] Existing Instance sample_task_serializer_laws.
#[local] Existing Instance sample_benefactor_serializer.
#[local] Existing Instance sample_charity_serializer.

(** Benefactor 5 (user 20) requests task 1 while charity 1 (user 10)
    accepts the request for task 2, closes task 3 and posts a task, and
    user 30 registers as a benefactor. *)
Definition mixed_calls : list (Route * Request) :=
  [(TaskRequestUrl 1, sample_request 20 GET []);
   (TaskResponseUrl 2, sample_request 10 POST [("response", VStr "A")]);
   (TasksUrl, paint_request);
   (TaskDoneUrl 3, sample_request 10 POST []);
   (BenefactorsUrl, register_request 30)].

Definition mixed_schedule : list nat :=
  [0; 1; 2; 3; 4; 3; 2; 1; 0; 0; 1; 2; 3; 0; 2; 4].

Lemma conflict_free_serializable_witness :
  serial_outcome (api_pool mixed_calls) sample_db
    (run_schedule mixed_schedule (api_pool mixed_calls) sample_db).
Proof.
  apply (conflict_free_serializable mixed_calls sample_db).
  - apply wf_sample.
  - by apply (bool_decide_unpack _).
  - apply run_schedule_sound.
  - by apply (bool_decide_unpack _).
Defined.

(** Every request was served as if alone: the three moves, the creation
    and the registration all took place. *)
Example mixed_outcome :
  (run_schedule mixed_schedule (api_pool mixed_calls) sample_db).1 =
    [Ret TaskRequest.request_sent; Ret TaskResponse.response_sent;
     done (run (Tasks.post paint_request) sample_db).1;
     Ret DoneTask.done_successfully;
     done (run (BenefactorRegistration.post (register_request 30)) sample_db).1] ∧
  tasks (run_schedule mixed_schedule (api_pool mixed_calls) sample_db).2 !! 1 =
    Some (sample_task 1 Task.WAITING (Some 5)) ∧
  tasks (run_schedule mixed_schedule (api_pool mixed_calls) sample_db).2 !! 2 =
    Some (sample_task 2 Task.ASSIGNED (Some 5)) ∧
  tasks (run_schedule mixed_schedule (api_pool mixed_calls) sample_db).2 !! 3 =
    Some (sample_task 3 Task.DONE (Some 5)).
Proof. split_and!; reflexivity. Qed.

(** With a second request for task 1 the requests conflict. *)
Example conflict_sample :
  ¬ conflict_free ((TaskDoneUrl 1, sample_request 10 POST []) :: mixed_calls).
Proof. intros Hnd. by apply (bool_decide_pack _) in Hnd. Qed.

End isolated_samples.
